(* ===== verification/_CoqProject ===== *)
-Q . S2P
Prelude.v
GoStrings.v
GoCrypto.v
Models.v
DataObj.v
AccessState.v
AccessObjects.v
AccessService.v
AccessInv.v
AccessProps.v
PolicyScope.v
AccessFlows.v
Usage.v
UsageProps.v
Broker.v
Bus.v
Kinds.v
KindProps.v
Tables.v
Workers.v
Proxy.v
Auth.v
AuthProps.v
OAuth.v
OAuthServer.v
OAuthProps.v
AgentKeys.v
SecureBus.v
SecureBusProps.v
AgentKeyProps.v
Documents.v
Ingest.v
IngestProps.v
Knowledge.v
KnowledgeProps.v
ProxyStore.v
ProxyManager.v
ProxyProps.v
GoNet.v
Config.v
ConfigProps.v
Sessions.v
DataPlane.v
GitStore.v
McpAdmin.v
McpAdminProps.v
Mcp.v
McpProps.v
McpServer.v
McpServerProps.v
HttpObjects.v
HttpObjectsProps.v
HttpAdmin.v
HttpAdminProps.v
Web.v
WebProps.v
GitProps.v
HttpKnowledge.v
HttpKnowledgeProps.v
Agent.v
AgentProps.v
Sidecar.v
SidecarProps.v
Observability.v
ObservabilityProps.v
Qdrant.v
Status.v
StatusProps.v
Rabbit.v
Front.v
FrontProps.v
