(* ===== verification/Prelude.v ===== *)
(** * synamcps-server: a verification development

    The program is a Go server that gives agents, over MCP and HTTP, access to
    documents ("storages"), to data objects (queues, counters, variables, logs,
    schedules, event buses, signed topics, tables, git repositories) and to
    proxied MCP servers. Who may do what is decided from role bindings of users
    and groups and from access tokens that narrow them. This development models
    the server, and the program that signs messages beside an agent, from the
    sources under [src/], and proves what they guarantee.

    ** How the parts fit together

    A request passes the middleware that counts and logs it
    ([internal/observability]) and the check of origins ([cmd/server]). It
    carries a bearer or the cookie of a browser. The gateway ([internal/auth])
    turns a bearer into a principal and an access context: a token of this
    server is looked up by the access service ([internal/access]), a JWT is
    checked against the keys of its issuer. Tokens for MCP clients come from
    the authorization server ([internal/auth/oauthas]), cookies from the login
    page ([internal/web]). Behind are two fronts: the MCP server
    ([internal/transport/streamablehttp], [internal/mcp]) and the REST API
    ([internal/httpapi]). An operation on a data object goes through the gate
    [policy.Open] ([internal/policy]), which asks the access service and pins a
    database session to the object; the services of the kinds work on the scope
    it returns. Documents go through the knowledge service and the ingest
    pipeline with its queue and worker ([internal/knowledge]); the chat
    ([internal/agent]) answers from them. The limiter ([internal/usage]) counts
    calls per token and storage. Upstream MCP servers are proxied under
    namespaced names ([internal/mcpproxy]).

    ** Files

    Shared:
    - [Prelude]: errors, results with errors, time, the environment of a call,
      map iteration, sorting, record update, tactics, the hint data bases [go]
      and [go_simpl], general lemmas.
    - [GoStrings], [GoCrypto], [GoNet]: what the code uses of [strings],
      [unicode/utf8], the hashes and encodings, and [net], executable.
    - [Models], [DataObj]: [internal/models], [internal/dataobj],
      [internal/strutil], [internal/domainerr].

    Access:
    - [AccessState], [AccessObjects]: the store of [internal/access]. The
      record [Store] has the maps of the Go struct and the database; every
      method of [store.go] and [objects.go] is one definition with its
      in-memory and its database branch. [AccessService]: the decisions.
    - [AccessInv]: the store in memory as a state machine ([op], [step],
      [reachable]), its well-formedness, and the life of a token over whole
      runs: a secret resolves exactly to its live token
      ([resolve_exactly_live]), works until it expires
      ([token_works_until_expiry]) and never again once it is revoked
      ([killed_token_stays_dead]).
    - [AccessProps]: the decisions against declarative rules
      ([storage_access_rule], [object_access_rule]). [AccessFlows]: sequences
      of operations on storages, and witnesses.
    - [PolicyScope]: [internal/policy/scope.go] against the interface
      [ObjectAccess], which the access service implements; the gate refines
      the rules ([open_iff_allowed]).
    - [Usage], [UsageProps]: [internal/usage]; [rate_limit_holds].

    Signing in:
    - [Auth], [AuthProps]: the gateway and the provider router, verified
      against the interface [BearerSpec] ([gateway_authentic]).
    - [OAuth], [OAuthServer], [OAuthProps]: the authorization server over whole
      runs of requests ([code_flow_integrity], [code_single_use],
      [refresh_rotates]).
    - [Sessions]: [internal/session], a refinement of maps with expiry and a
      log of events per stream ([sessions_refine]).
    - [Web], [WebProps]: the login page agrees with the authorization server
      ([logins_agree]).
    - [Front], [FrontProps]: origins and headers in front of all routes
      ([foreign_origins_refused]).

    Data plane:
    - [Broker]: an abstract event log with cursors and the interface
      [BrokerLaws]; [Bus]: the bus in memory and the Kafka client, each a
      refinement of it ([bus_exactly_once]).
    - [Kinds], [KindProps], [Workers]: queue, counter, variable, log and
      schedule services and the turns of their workers; [Rabbit]: the client of
      RabbitMQ as the interface of the queue.
    - [Tables]: SQL on table objects ([sql_confined]).
    - [GitStore], [GitProps]: repositories and their advertisement
      ([git_history], [advertisement_read_back]).
    - [AgentKeys], [AgentKeyProps]: keys of agents
      ([key_registration_sound]). [SecureBus], [SecureBusProps]: signed topics
      ([signed_topic_integrity], [consume_exactly_once]). [Sidecar],
      [SidecarProps]: [cmd/securebus-agent], whose messages the server accepts
      ([sidecar_accepted]).
    - [DataPlane]: all services behind one front, and that an operation stays
      with its object; for repositories that is in [GitStore]
      ([git_elsewhere]).

    Documents:
    - [Documents]: catalogue, vectors and blobs; [Qdrant]: the vectors in
      Qdrant. [Ingest], [IngestProps]: queue, pipeline and worker.
    - [Knowledge], [KnowledgeProps]: the service: the worker ends with
      catalogue and index in agreement ([index_settles]), listings and searches
      show what may be read ([listing_matches_reading],
      [search_hits_readable]).
    - [Agent], [AgentProps]: the chat ([agent_grounded],
      [conversations_private]).

    Fronts:
    - [Proxy], [ProxyStore], [ProxyManager], [ProxyProps]: proxied servers
      ([slug_shape], [exposed_approved], [exposed_callable],
      [secret_delivered]).
    - [McpAdmin], [McpAdminProps], [Mcp], [McpProps]: the MCP server over one
      interface per service ([data_confined], [admin_confined], [rpc_replies],
      [dispatch_settles]); [McpServer], [McpServerProps]: the interfaces
      implemented by the components above, and runs of whole requests.
    - [HttpObjects], [HttpObjectsProps]: data objects over HTTP do what the MCP
      tools do with the same arguments ([fronts_agree]).
    - [HttpAdmin], [HttpAdminProps]: administration ([rest_confined],
      [cookie_admission]). [HttpKnowledge], [HttpKnowledgeProps]: documents and
      downloads ([download_stays_public]). [Status], [StatusProps]: the status
      page ([status_page]).
    - [Config], [ConfigProps]: the configuration ([validate_exact]).
    - [Observability], [ObservabilityProps]: what is counted and logged
      ([requests_logged_redacted]).

    ** Limits of the guarantees

    Where the code does not do what its documents say, the theorems are stated
    for the cases in which both agree, and the difference is a theorem of its
    own: a token for an object on which its owner has no method opens it
    ([object_token_widens]); a storage can be taken over by naming its
    identifier ([storage_taken_over]), and the ACL of an object is open to
    everyone ([acl_open_to_everyone]); a listen address without a host counts
    as loopback ([open_address_counts_as_loopback]); quoted and unqualified
    table names pass the check of SQL ([quoted_table_accepted],
    [other_table_accepted]); evicting a session leaves its streams
    ([eviction_keeps_streams]); a leading slash of a resource is lost
    ([leading_slash_lost]).

    ** Conventions

    A Go method with a receiver that it changes takes the state and returns
    the new one with its results. Results [(A, error)] are [ret A], a pair, as
    in Go: the value is there also beside an error. A call that reads the
    clock, [uuid] or [rand] takes them from its [Env]; an [Env] is arbitrary,
    so theorems hold for every clock and every random source unless they name
    a freshness condition. Ranging over a map follows [GoRange], an arbitrary
    order. Mutexes make each operation atomic; a run is a sequence of
    operations in some order. Machine integers wrap ([wrap64]);
    [rate_limit_holds] bounds the calls of a run by 2^60 so that a counter
    cannot wrap within it. A panic is a value of its own where the code can
    reach one.

    ** Fuel

    Where a Go loop is not structural its definition has fuel, and enough of it
    is proved to be there: [ProcessUntilIdle] needs one turn more than the
    attempts its jobs have left ([index_settles]), [dispatch] the depth of its
    arguments plus two ([dispatch_settles]), the log of a repository one more
    than its commits ([git_history]), [splitLoop] the number of tokens,
    [relations] the number of bytes. [hexLoop] has the sixteen digits of a
    64-bit integer, [replaceLoop] the bytes of its text. Endless loops of
    workers are their turns.

    ** What is a parameter

    Code outside [src/] is an argument of the definitions. Databases, by what a
    statement answers: [Postgres], [BusDB], [KindDB], [OAuthDB], [CatalogDB],
    [VectorDB], [JobDB], [AgentDB], [SecureBusDB], [ProxyDB], [ConvDB]. Redis:
    [Redis], [RedisRange], [TimeSeries], [SessionRedis], [AgentRedis]. Brokers
    and stores: [Kafka], [AMQPBroker], [S3], [LogBlob], [GitBlob],
    [QdrantHTTP]. The network: [Upstream], [Fetcher], [ChatHTTP], [Remote],
    [LLM], answers of identity providers. Cryptography: [Bcrypt], [AEAD],
    [Signatures], [Ed25519], [JWT]. Also the disk of the sidecar ([Disk]), the
    codecs of JSON, YAML and URLs, [time] formats, and the Unicode tables
    beyond ASCII. Nothing is assumed of them beyond the hypotheses a theorem
    names, each of which states what their documentation says (such as
    [jwt_checks_issuer], [signing_law], [broker_law], [url_law]), that random
    values are fresh, or what another theorem establishes.

    ** What is not modelled

    The construction of the components in [cmd/server] and their shutdown,
    [cmd/migrate] and the migrations, which only call libraries; the routing of
    [http.ServeMux], in whose place handlers are called with what it takes from
    the path; the streams of events after they are opened (the keep-alive of
    [GET /mcp], [subscribe]) and the tickers and goroutines of workers; the
    texts of pages and metadata documents; SQL itself, beyond which statement
    is sent when, and the scanning of rows; [internal/transport/legacysse],
    which gives fixed answers; [internal/storage/pgconn], which opens a pool. *)
From stdpp Require Export base gmap sets list strings sorting relations pretty.
From Stdlib Require Export ZArith Lia.

(** ** Go values *)

(** A Go [error] value. [errors.New] at package level makes a sentinel, an
    identity of its own whatever it prints; [errors.New] and [fmt.Errorf] in a
    function body make a new value; [%w] wraps one. *)
Inductive error :=
| Sentinel (pkg : string) (text : string)
| NewError (text : string)
| Wrapped (text : string) (e : error).

Fixpoint error_eqb (a b : error) : bool :=
  match a, b with
  | Sentinel p t, Sentinel q u => String.eqb p q && String.eqb t u
  | NewError t, NewError u => String.eqb t u
  | Wrapped t e, Wrapped u f => String.eqb t u && error_eqb e f
  | _, _ => false
  end.

(** [errors.Is(err, target)] for a non-nil [err] and a sentinel [target]. *)
Fixpoint errors_Is (e target : error) : bool :=
  error_eqb e target || match e with Wrapped _ e' => errors_Is e' target | _ => false end.

(** [err.Error()]; the texts of [Wrapped] are those of formats ["text: %w"]. *)
Fixpoint Error_text (e : error) : string :=
  match e with
  | Sentinel _ t | NewError t => t
  | Wrapped t e' => (t ++ ": " ++ Error_text e')%string
  end.

(** What a Go function with results [(A, error)] returns: the value is there
    (usually the zero value) also when the error is not nil. *)
Definition ret (A : Type) : Type := A * option error.

Definition ok {A} (a : A) : ret A := (a, None).
Definition fails {A} (a : A) (e : error) : ret A := (a, Some e).

(** The zero value of a Go type. *)
Class Zero (A : Type) := zeroval : A.
#[export] Instance zero_string : Zero string := "".
#[export] Instance zero_Z : Zero Z := 0%Z.
#[export] Instance zero_bool : Zero bool := false.
#[export] Instance zero_option A : Zero (option A) := None.
#[export] Instance zero_list A : Zero (list A) := [].
#[export] Instance zero_unit : Zero unit := tt.

(** [time.Time] as nanoseconds since the zero time (January 1, year 1),
    [time.Duration] as signed nanoseconds. *)
Abbreviation Time := Z (only parsing).
Abbreviation Duration := Z (only parsing).
Definition IsZero (t : Time) : bool := (t =? 0)%Z.
Definition After (t u : Time) : bool := (u <? t)%Z.
Definition Before (t u : Time) : bool := (t <? u)%Z.
Definition Second : Duration := 1000000000%Z.
Definition Minute : Duration := (60 * Second)%Z.
Definition Hour : Duration := (60 * Minute)%Z.

(** [int64] arithmetic wraps around. *)
Definition wrap64 (z : Z) : Z := ((z + 2 ^ 63) mod 2 ^ 64 - 2 ^ 63)%Z.

(** What one call of an operation reads from its environment: the k-th
    reading of the clock ([time.Now()]), the k-th [uuid.NewString()], the
    bytes the k-th [rand.Read] delivers ([None] when it fails). *)
Record Env := mkEnv {
  now : nat → Time;
  uuid : nat → string;
  rnd : nat → option string
}.

(** The environment of a nested call, after [k] readings of each source. *)
Definition later (k : nat) (e : Env) : Env :=
  mkEnv (λ i, now e (k + i)) (λ i, uuid e (k + i)) (λ i, rnd e (k + i)).

(** Go ranges over a map in an unspecified order. A model that ranges over a
    map is parametric in the order; every theorem holds for all of them. *)
Class GoRange := {
  range_map : ∀ {V : Type}, gmap string V → list (string * V);
  range_map_perm : ∀ V (m : gmap string V), range_map m ≡ₚ map_to_list m;
  range_set : gset string → list string;
  range_set_perm : ∀ s : gset string, range_set s ≡ₚ elements s
}.

(** One concrete order, for evaluating the model on inputs. *)
Definition canonical_range : GoRange := {|
  range_map := λ V m, map_to_list m;
  range_map_perm := λ V m, Permutation_refl _;
  range_set := λ s, elements s;
  range_set_perm := λ s, Permutation_refl _
|}.

(** The values of a map, in range order. *)
Definition range_vals `{GoRange} {V} (m : gmap string V) : list V := (range_map m).*2.

(** [for k, v := range m { if f(v) { delete(m, k) } }] *)
Definition delete_if {V} (f : V → bool) (m : gmap string V) : gmap string V :=
  filter (λ kv, f kv.2 = false) m.

(** [l[i:j]]; [None] is the run-time panic of bounds out of range. A
    function that can panic has results in [option]. *)
Definition slice {A} (l : list A) (i j : Z) : option (list A) :=
  if ((0 <=? i) && (i <=? j) && (j <=? Z.of_nat (length l)))%Z
  then Some (take (Z.to_nat (j - i)) (drop (Z.to_nat i) l)) else None.

(** [m[k]] with the zero value for a missing key. *)
Definition get0 {V} `{Zero V} (m : gmap string V) (k : string) : V :=
  default zeroval (m !! k).

(** [sort.Slice(l, less)]: insertion sort. [sort.Slice] promises no order for
    ties, and its argument comes out of a map in most uses, so the tie order
    is that of the parameter [GoRange]. *)
Fixpoint insert_by {A} (less : A → A → bool) (x : A) (l : list A) : list A :=
  match l with
  | [] => [x]
  | y :: l' => if less y x then y :: insert_by less x l' else x :: l
  end.
Fixpoint sort_by {A} (less : A → A → bool) (l : list A) : list A :=
  match l with
  | [] => []
  | x :: l' => insert_by less x (sort_by less l')
  end.

(** ** Record update: [r <| field := v |>] *)

Class Settable (R : Type) := eta_record : R → R.
Class Setter {R T : Type} (proj : R → T) := set_field : T → R → R.
Ltac solve_setter :=
  match goal with
  | |- @Setter ?R ?T ?proj =>
      let inst := constr:(_ : Settable R) in
      let eta := eval hnf in inst in
      let setter := constr:(fun (v : T) (r : R) =>
        ltac:(let body := eval cbv beta in (eta r) in
              let abs := eval pattern (proj r) in body in
              match abs with
              | ?f _ => let b := eval cbv beta in (f v) in exact b
              end)) in
      exact setter
  end.
#[export] Hint Extern 1 (Setter _) => solve_setter : typeclass_instances.

Declare Scope go_scope.
Delimit Scope go_scope with go.
Notation "r <| proj := v |>" := (@set_field _ _ proj _ v r)
  (at level 1, left associativity, proj at level 99, v at level 200, format "r  <| proj  :=  v |>").
Notation "a =s b" := (String.eqb a b) (at level 70, no associativity) : go_scope.
Notation "a <>s b" := (negb (String.eqb a b)) (at level 70, no associativity) : go_scope.
Open Scope go_scope.
#[global] Open Scope string_scope.
#[global] Open Scope list_scope.

(** ** Automation *)

(** Splits the next [match] or [if] of the goal or of a hypothesis. *)
Ltac go_case :=
  match goal with
  | H : context [match ?x with _ => _ end] |- _ =>
      lazymatch x with context [match _ with _ => _ end] => fail | _ => destruct x eqn:? end
  | |- context [match ?x with _ => _ end] =>
      lazymatch x with context [match _ with _ => _ end] => fail | _ => destruct x eqn:? end
  end.
Ltac go_cases := repeat (go_case; simplify_eq/=; try done).

(** Boolean tests of the code as propositions. *)
Ltac go_bool :=
  repeat match goal with
  | H : (_ && _) = true |- _ => apply andb_true_iff in H; destruct H
  | H : (_ || _) = false |- _ => apply orb_false_iff in H; destruct H
  | H : negb _ = true |- _ => apply negb_true_iff in H
  | H : negb _ = false |- _ => apply negb_false_iff in H
  | H : (_ =s _) = true |- _ => apply String.eqb_eq in H
  | H : (_ =s _) = false |- _ => apply String.eqb_neq in H
  | H : (_ =? _)%Z = true |- _ => apply Z.eqb_eq in H
  | H : (_ =? _)%Z = false |- _ => apply Z.eqb_neq in H
  | H : (_ <? _)%Z = true |- _ => apply Z.ltb_lt in H
  | H : (_ <? _)%Z = false |- _ => apply Z.ltb_ge in H
  | H : (_ <=? _)%Z = true |- _ => apply Z.leb_le in H
  | H : (_ <=? _)%Z = false |- _ => apply Z.leb_gt in H
  end.

(** Case analysis on membership in a list that computes to a literal one. *)
Ltac case_elem H :=
  lazymatch type of H with
  | ?x ∈ ?l =>
      let l' := eval hnf in l in
      change (x ∈ l') in H;
      lazymatch l' with
      | _ :: _ => apply elem_of_cons in H as [H|H]; [subst|case_elem H]
      | [] => by apply elem_of_nil in H
      end
  end.

Create HintDb go.
Create Rewrite HintDb go_simpl.
#[export] Hint Rewrite String.eqb_refl andb_true_r andb_false_r orb_true_r orb_false_r : go_simpl.

(** ** Generic lemmas *)

Lemma seqb_neq_false (a b : string) : a ≠ b → (a =s b) = false.
Proof. apply String.eqb_neq. Qed.

Lemma wrap64_small z : (0 <= z < 2 ^ 63)%Z → wrap64 z = z.
Proof. intros Hz. unfold wrap64. rewrite Z.mod_small by lia. lia. Qed.

Lemma sublist_snoc_skip {A} (l k : list A) x : l `sublist_of` k → l `sublist_of` k ++ [x].
Proof. intros Hl. transitivity k; [done|]. by apply sublist_inserts_r. Qed.
Lemma sublist_snoc_both {A} (l k : list A) x : l `sublist_of` k → l ++ [x] `sublist_of` k ++ [x].
Proof. intros Hl. by apply sublist_app. Qed.

Lemma get0_insert {V} `{Zero V} (m : gmap string V) k v k' :
  get0 (<[k := v]> m) k' = if decide (k = k') then v else get0 m k'.
Proof. unfold get0. rewrite lookup_insert. by destruct (decide (k = k')). Qed.

Lemma find_elem_of {A} (f : A → bool) l x : List.find f l = Some x → x ∈ l ∧ f x = true.
Proof. intros [Hin Hf]%List.find_some. split; [by apply list_elem_of_In|done]. Qed.

Lemma elem_of_range_vals `{GoRange} {V} (m : gmap string V) (v : V) :
  v ∈ range_vals m ↔ ∃ k, m !! k = Some v.
Proof.
  unfold range_vals. rewrite range_map_perm, list_elem_of_fmap. split.
  - intros ([k v'] & -> & Hin%elem_of_map_to_list). eauto.
  - intros [k Hk%elem_of_map_to_list]. by exists (k, v).
Qed.

Lemma elem_of_range_map `{GoRange} {V} (m : gmap string V) k (v : V) :
  (k, v) ∈ range_map m ↔ m !! k = Some v.
Proof. by rewrite range_map_perm, elem_of_map_to_list. Qed.

Lemma elem_of_range_set `{GoRange} (s : gset string) x : x ∈ range_set s ↔ x ∈ s.
Proof. by rewrite range_set_perm, elem_of_elements. Qed.

Lemma lookup_delete_if {V} (f : V → bool) (m : gmap string V) k v :
  delete_if f m !! k = Some v ↔ m !! k = Some v ∧ f v = false.
Proof. unfold delete_if. by rewrite map_lookup_filter_Some. Qed.

Lemma insert_by_perm {A} less (x : A) l : insert_by less x l ≡ₚ x :: l.
Proof.
  induction l as [|y l IH]; simpl; [done|]. destruct (less y x); [|done].
  rewrite IH. apply Permutation_swap.
Qed.
Lemma sort_by_perm {A} less (l : list A) : sort_by less l ≡ₚ l.
Proof. induction l as [|x l IH]; simpl; [done|]. by rewrite insert_by_perm, IH. Qed.
Lemma elem_of_sort_by {A} less (x : A) l : x ∈ sort_by less l ↔ x ∈ l.
Proof. by rewrite sort_by_perm. Qed.

(** A sort by a strict order puts no element before a lesser one. *)
Lemma sort_by_sorted {A} (less : A → A → bool) l : (∀ a b, less a b = true → less b a = false) →
  Sorted (λ a b, less b a = false) (sort_by less l).
Proof.
  intros Hasym. induction l as [|x l IH]; cbn; [constructor|].
  induction IH as [|y l' Hs IHs Hhd]; cbn; [by repeat constructor|].
  destruct (less y x) eqn:Hyx; [|by repeat constructor]. constructor; [done|].
  destruct l' as [|z l']; cbn; [by constructor; apply Hasym|].
  destruct (less z x); constructor; [by inversion Hhd|by apply Hasym].
Qed.

Lemma elem_of_filter_bool {A} (f : A → bool) x l :
  x ∈ List.filter f l ↔ x ∈ l ∧ f x = true.
Proof. rewrite !list_elem_of_In. apply List.filter_In. Qed.

Lemma existsb_elem_of {A} (f : A → bool) l :
  existsb f l = true ↔ ∃ x, x ∈ l ∧ f x = true.
Proof. rewrite existsb_exists. by setoid_rewrite list_elem_of_In. Qed.

Lemma existsb_false {A} (f : A → bool) l :
  existsb f l = false ↔ ∀ x, x ∈ l → f x = false.
Proof.
  rewrite <- not_true_iff_false, existsb_elem_of. split.
  - intros Hn x Hx. apply not_true_iff_false. naive_solver.
  - intros Hf (x & Hx & Ht). specialize (Hf x Hx). congruence.
Qed.

#[export] Hint Resolve elem_of_range_vals elem_of_range_map elem_of_range_set : go.
