(* ===== verification/GoStrings.v ===== *)
(** The parts of Go's [strings], [unicode/utf8] and [strconv] packages the
    server uses. A Go string is a sequence of bytes: here a [string], one
    [ascii] per byte. Ranging over a string decodes it to runes. *)
From S2P Require Import Prelude.
From Stdlib Require Import Ascii.

Definition byte_of (c : ascii) : Z := Z.of_N (N_of_ascii c).
Definition ascii_of (b : Z) : ascii := ascii_of_N (Z.to_N b).
Fixpoint bytes (s : string) : list Z :=
  match s with "" => [] | String c s' => byte_of c :: bytes s' end.
Fixpoint of_bytes (l : list Z) : string :=
  match l with [] => "" | b :: l' => String (ascii_of b) (of_bytes l') end.

(** ** Runes *)

Definition RuneError : Z := 65533%Z.
Definition in_range (lo hi b : Z) : bool := ((lo <=? b) && (b <=? hi))%Z.

(** [utf8.DecodeRune] on a non-empty byte sequence: the rune and its width. *)
Definition decode_rune (b0 : Z) (rest : list Z) : Z * nat :=
  let cont := in_range 128 191 in
  let bad := (RuneError, 1%nat) in
  (if b0 <? 128 then (b0, 1%nat)
   else if in_range 194 223 b0 then
     match rest with
     | b1 :: _ => if cont b1 then ((b0 - 192) * 64 + (b1 - 128), 2%nat) else bad
     | _ => bad
     end
   else if in_range 224 239 b0 then
     match rest with
     | b1 :: b2 :: _ =>
         let lo := if b0 =? 224 then 160 else 128 in
         let hi := if b0 =? 237 then 159 else 191 in
         if in_range lo hi b1 && cont b2
         then ((b0 - 224) * 4096 + (b1 - 128) * 64 + (b2 - 128), 3%nat) else bad
     | _ => bad
     end
   else if in_range 240 244 b0 then
     match rest with
     | b1 :: b2 :: b3 :: _ =>
         let lo := if b0 =? 240 then 144 else 128 in
         let hi := if b0 =? 244 then 143 else 191 in
         if in_range lo hi b1 && cont b2 && cont b3
         then ((b0 - 240) * 262144 + (b1 - 128) * 4096 + (b2 - 128) * 64 + (b3 - 128), 4%nat)
         else bad
     | _ => bad
     end
   else bad)%Z.

(** The runes of a byte sequence, each with the bytes it was decoded from.
    [skip] counts the bytes of the current rune still to be passed over. *)
Fixpoint decode_runes (skip : nat) (l : list Z) : list (Z * list Z) :=
  match l with
  | [] => []
  | b :: rest =>
      match skip with
      | S k => decode_runes k rest
      | O =>
          let '(r, w) := decode_rune b rest in
          (r, take w l) :: decode_runes (w - 1) rest
      end
  end.

(** [for _, r := range s] *)
Definition runes (s : string) : list Z := (decode_runes 0 (bytes s)).*1.

(** [utf8.AppendRune] *)
Definition encode_rune (r : Z) : list Z :=
  (if in_range 0 127 r then [r]
   else if in_range 128 2047 r then [192 + r / 64; 128 + r mod 64]
   else if (in_range 55296 57343 r || (r <? 0) || (1114111 <? r))%bool then [239; 191; 189]
   else if r <? 65536 then [224 + r / 4096; 128 + (r / 64) mod 64; 128 + r mod 64]
   else [240 + r / 262144; 128 + (r / 4096) mod 64; 128 + (r / 64) mod 64; 128 + r mod 64])%Z.

(** [strings.Map(f, s)] for an [f] that drops no rune. *)
Definition Map (f : Z → Z) (s : string) : string :=
  of_bytes (concat (encode_rune ∘ f <$> runes s)).

Definition is_lower (r : Z) : bool := in_range 97 122 r.
Definition is_upper (r : Z) : bool := in_range 65 90 r.
Definition is_digit (r : Z) : bool := in_range 48 57 r.

(** [strings.ToLower]; [unicode.ToLower] outside ASCII is a table of the
    Unicode data base and a parameter. *)
Definition ToLower (unicode_lower : Z → Z) (s : string) : string :=
  Map (λ r, if (r <? 128)%Z then (if is_upper r then r + 32 else r)%Z else unicode_lower r) s.

(** [unicode.IsSpace] *)
Definition is_space (r : Z) : bool :=
  (in_range 9 13 r || (r =? 32) || (r =? 133) || (r =? 160) || (r =? 5760)
   || in_range 8192 8202 r || (r =? 8232) || (r =? 8233) || (r =? 8239)
   || (r =? 8287) || (r =? 12288))%Z.

Fixpoint drop_while {A} (f : A → bool) (l : list A) : list A :=
  match l with [] => [] | x :: l' => if f x then drop_while f l' else l end.

(** [strings.TrimSpace] *)
Definition TrimSpace (s : string) : string :=
  let sp := λ p : Z * list Z, is_space p.1 in
  let l := drop_while sp (decode_runes 0 (bytes s)) in
  of_bytes (concat (reverse (drop_while sp (reverse l))).*2).

(** [strings.TrimRight(s, cutset)] and [strings.Trim(s, cutset)] for a cutset
    of one ASCII character. *)
Definition trim_left_byte (c : ascii) (s : string) : string :=
  of_bytes (drop_while (λ b, (b =? byte_of c)%Z) (bytes s)).
Definition trim_right_byte (c : ascii) (s : string) : string :=
  of_bytes (reverse (drop_while (λ b, (b =? byte_of c)%Z) (reverse (bytes s)))).

(** ** Prefixes, substrings, splitting *)

Fixpoint HasPrefix (s p : string) : bool :=
  match p, s with
  | "", _ => true
  | String c p', String d s' => Ascii.eqb c d && HasPrefix s' p'
  | _, _ => false
  end.

Fixpoint drop_bytes (n : nat) (s : string) : string :=
  match n, s with
  | O, _ => s
  | S n', String _ s' => drop_bytes n' s'
  | _, "" => ""
  end.
Fixpoint take_bytes (n : nat) (s : string) : string :=
  match n, s with
  | S n', String c s' => String c (take_bytes n' s')
  | _, _ => ""
  end.

Definition TrimPrefix (s p : string) : string :=
  if HasPrefix s p then drop_bytes (String.length p) s else s.

Definition HasSuffix (s p : string) : bool :=
  HasPrefix (String.rev s) (String.rev p).
Definition TrimSuffix (s p : string) : string :=
  if HasSuffix s p then take_bytes (String.length s - String.length p) s else s.

(** [strings.Contains] *)
Fixpoint Contains (s sub : string) : bool :=
  HasPrefix s sub || match s with "" => false | String _ s' => Contains s' sub end.

(** [strings.Cut(s, sep)]: what is before and after the first [sep]. *)
Fixpoint Cut (s sep : string) : string * string * bool :=
  if HasPrefix s sep then ("", drop_bytes (String.length sep) s, true)
  else match s with
       | "" => ("", "", false)
       | String c s' => let '(a, b, found) := Cut s' sep in (String c a, b, found)
       end.

(** The last part of [strings.Split(s, c)] for a one byte separator. *)
Fixpoint last_part (c : ascii) (s : string) : string :=
  match s with
  | "" => ""
  | String d s' =>
      if Ascii.eqb c d then last_part c s'
      else if Contains s' (String c "") then last_part c s' else s
  end.

(** [strings.ReplaceAll(s, c, new)] for a one byte [c]. *)
Fixpoint ReplaceAll (s : string) (c : ascii) (new : string) : string :=
  match s with
  | "" => ""
  | String d s' => (if Ascii.eqb c d then new else String d "") +:+ ReplaceAll s' c new
  end.

(** [strings.Join] *)
Fixpoint Join (l : list string) (sep : string) : string :=
  match l with
  | [] => ""
  | [x] => x
  | x :: l' => x +:+ sep +:+ Join l' sep
  end.

(** [strings.Split(s, c)] for a one byte separator. *)
Fixpoint Split (s : string) (c : ascii) : list string :=
  match s with
  | "" => [""]
  | String d s' =>
      if Ascii.eqb c d then "" :: Split s' c
      else match Split s' c with x :: l => String d x :: l | [] => [] end
  end.

(** [strings.SplitN(s, sep, 2)] for a non-empty separator. *)
Definition SplitN2 (s sep : string) : list string :=
  let '(a, b, found) := Cut s sep in if found then [a; b] else [s].

(** [strings.Fields]: the runs of runes that are not white space; [cur] is
    the run being read. *)
Fixpoint fields_from (cur : list Z) (l : list (Z * list Z)) : list string :=
  match l with
  | [] => match cur with [] => [] | _ => [of_bytes cur] end
  | (r, bs) :: l' =>
      if is_space r then match cur with [] => fields_from [] l' | _ => of_bytes cur :: fields_from [] l' end
      else fields_from (cur ++ bs) l'
  end.
Definition Fields (s : string) : list string := fields_from [] (decode_runes 0 (bytes s)).

(** [strings.EqualFold]: equality under simple case folding. Outside ASCII the
    representative of a rune's folding orbit is a table of the Unicode data
    base and a parameter. *)
Definition EqualFold (unicode_fold : Z → Z) (s t : string) : bool :=
  let fold r := if (r <? 128)%Z then (if is_upper r then r + 32 else r)%Z else unicode_fold r in
  bool_decide (fold <$> runes s = fold <$> runes t).

Definition slen (s : string) : Z := Z.of_nat (String.length s).

(** [a < b] on strings: bytewise lexicographic. *)
Definition sless (a b : string) : bool :=
  match String.compare a b with Lt => true | _ => false end.

(** ** Lemmas *)

Lemma ascii_of_byte_of c : ascii_of (byte_of c) = c.
Proof. unfold ascii_of, byte_of. by rewrite N2Z.id, ascii_N_embedding. Qed.

Lemma byte_of_range c : (0 <= byte_of c < 256)%Z.
Proof.
  unfold byte_of. pose proof (N_ascii_bounded c). lia.
Qed.

Lemma of_bytes_bytes s : of_bytes (bytes s) = s.
Proof. induction s; simpl; [done|]. by rewrite ascii_of_byte_of, IHs. Qed.

Lemma length_bytes s : length (bytes s) = String.length s.
Proof. induction s; simpl; congruence. Qed.
Lemma length_of_bytes l : String.length (of_bytes l) = length l.
Proof. induction l; simpl; congruence. Qed.

Lemma byte_of_ascii_of b : (0 <= b < 256)%Z → byte_of (ascii_of b) = b.
Proof.
  intros Hb. unfold byte_of, ascii_of. rewrite N_ascii_embedding by lia. lia.
Qed.

Lemma bytes_of_bytes l :
  Forall (λ b, (0 <= b < 256)%Z) l → bytes (of_bytes l) = l.
Proof. induction 1; simpl; [done|]. rewrite byte_of_ascii_of by done. congruence. Qed.

Lemma app_nil_s (t : string) : "" +:+ t = t.
Proof. done. Qed.
Lemma app_cons_s c (s t : string) : String c s +:+ t = String c (s +:+ t).
Proof. done. Qed.
#[export] Hint Rewrite app_nil_s app_cons_s : go_simpl.

Lemma bytes_app s t : bytes (s +:+ t) = bytes s ++ bytes t.
Proof. induction s; autorewrite with go_simpl; simpl; congruence. Qed.

Lemma app_assoc_s (a b c : string) : (a +:+ b) +:+ c = a +:+ (b +:+ c).
Proof. induction a; autorewrite with go_simpl; congruence. Qed.

Lemma length_app_s a b : String.length (a +:+ b) = (String.length a + String.length b)%nat.
Proof. induction a; autorewrite with go_simpl; simpl; congruence. Qed.

Lemma HasPrefix_app s p : HasPrefix (p +:+ s) p = true.
Proof.
  induction p as [|c p IH]; autorewrite with go_simpl; simpl; [by destruct s|].
  by rewrite Ascii.eqb_refl.
Qed.

Lemma HasPrefix_spec s p : HasPrefix s p = true ↔ ∃ t, s = p +:+ t.
Proof.
  split.
  - revert s. induction p as [|c p IH]; intros s H; [by exists s|].
    destruct s as [|d s]; simpl in H; [done|].
    apply andb_true_iff in H as [->%Ascii.eqb_eq [t ->]%IH]. by exists t.
  - intros [t ->]. apply HasPrefix_app.
Qed.

Lemma drop_bytes_app p t : drop_bytes (String.length p) (p +:+ t) = t.
Proof. induction p; autorewrite with go_simpl; simpl; [by destruct t|done]. Qed.

Lemma take_bytes_app p t : take_bytes (String.length p) (p +:+ t) = p.
Proof. induction p; autorewrite with go_simpl; simpl; [by destruct t|congruence]. Qed.

Lemma TrimPrefix_app p t : TrimPrefix (p +:+ t) p = t.
Proof. unfold TrimPrefix. by rewrite HasPrefix_app, drop_bytes_app. Qed.

Lemma take_bytes_length n s : (String.length (take_bytes n s) <= n)%nat.
Proof. revert s; induction n; intros [|c s]; simpl; try lia. specialize (IHn s). lia. Qed.

Lemma HasPrefix_take s p n :
  (String.length p <= n)%nat → HasPrefix s p = true → HasPrefix (take_bytes n s) p = true.
Proof.
  revert s n. induction p as [|c p IH]; intros [|d s] [|n] Hn H; simpl in *; try done; try lia.
  apply andb_true_iff in H as [-> H]. apply IH; [lia|done].
Qed.

Lemma Cut_unfold s sep :
  Cut s sep =
  if HasPrefix s sep then ("", drop_bytes (String.length sep) s, true)
  else match s with
       | "" => ("", "", false)
       | String c s' => let '(a, b, found) := Cut s' sep in (String c a, b, found)
       end.
Proof. by destruct s. Qed.

(** Cutting at a separator that does not occur earlier gives the parts back. *)
Lemma Cut_app a sep b :
  (∀ a1 a2, a = a1 +:+ a2 → a2 ≠ "" → HasPrefix (a2 +:+ sep +:+ b) sep = false) →
  Cut (a +:+ sep +:+ b) sep = (a, b, true).
Proof.
  induction a as [|c a IH]; intros Hno.
  - rewrite app_nil_s, Cut_unfold. by rewrite HasPrefix_app, drop_bytes_app.
  - rewrite Cut_unfold, (Hno "" (String c a) eq_refl) by done.
    rewrite app_cons_s, IH; [done|].
    intros a1 a2 -> Hne. by apply (Hno (String c a1) a2).
Qed.

Lemma Forall_drop_while {A} (P : A → Prop) f l : Forall P l → Forall P (drop_while f l).
Proof. induction 1; simpl; [done|]. destruct (f _); [done|by constructor]. Qed.

Lemma drop_while_head {A} (f : A → bool) l x l' : drop_while f l = x :: l' → f x = false.
Proof.
  induction l as [|y l IH]; simpl; [done|]. destruct (f y) eqn:E; [done|]. by intros [= -> ->].
Qed.
