(* ===== verification/GoCrypto.v ===== *)
(** Go's [crypto/sha256], [crypto/sha1], [encoding/hex] and raw URL base64,
    as executable functions from byte strings to byte strings. *)
From S2P Require Import Prelude GoStrings.
From Stdlib Require Import Ascii.
Local Open Scope Z_scope.

Definition w32 (x : Z) : Z := x mod 4294967296.
Definition rotr (n x : Z) : Z := Z.lor (Z.shiftr x n) (w32 (Z.shiftl x (32 - n))).
Definition rotl (n x : Z) : Z := rotr (32 - n) x.
Definition not32 (x : Z) : Z := 4294967295 - x.

(** ** Padding and blocks (FIPS 180-4, both digests) *)

Fixpoint be_bytes (n : nat) (x : Z) : list Z :=
  match n with O => [] | S k => be_bytes k (x / 256) ++ [x mod 256] end.

Definition pad (msg : list Z) : list Z :=
  let n := Z.of_nat (length msg) in
  msg ++ 128 :: replicate (Z.to_nat ((55 - n) mod 64)) 0 ++ be_bytes 8 (8 * n).

Fixpoint words (l : list Z) : list Z :=
  match l with
  | a :: b :: c :: d :: l' => (a * 16777216 + b * 65536 + c * 256 + d) :: words l'
  | _ => []
  end.

(** The 16-word blocks of a padded message; [n] counts the blocks. *)
Fixpoint blocks (n : nat) (l : list Z) : list (list Z) :=
  match n with O => [] | S k => take 16 l :: blocks k (drop 16 l) end.
Definition message_blocks (msg : list Z) : list (list Z) :=
  let ws := words (pad msg) in blocks (length ws / 16)%nat ws.

(** ** SHA-256 *)

Definition sha256_k : list Z :=
  [1116352408; 1899447441; 3049323471; 3921009573; 961987163; 1508970993; 2453635748; 2870763221;
   3624381080; 310598401; 607225278; 1426881987; 1925078388; 2162078206; 2614888103; 3248222580;
   3835390401; 4022224774; 264347078; 604807628; 770255983; 1249150122; 1555081692; 1996064986;
   2554220882; 2821834349; 2952996808; 3210313671; 3336571891; 3584528711; 113926993; 338241895;
   666307205; 773529912; 1294757372; 1396182291; 1695183700; 1986661051; 2177026350; 2456956037;
   2730485921; 2820302411; 3259730800; 3345764771; 3516065817; 3600352804; 4094571909; 275423344;
   430227734; 506948616; 659060556; 883997877; 958139571; 1322822218; 1537002063; 1747873779;
   1955562222; 2024104815; 2227730452; 2361852424; 2428436474; 2756734187; 3204031479; 3329325298].

Definition sha256_init : list Z :=
  [1779033703; 3144134277; 1013904242; 2773480762; 1359893119; 2600822924; 528734635; 1541459225].

(** The message schedule, kept reversed: the next word needs the last 16. *)
Fixpoint sha256_schedule (n : nat) (rev_w : list Z) : list Z :=
  match n with
  | O => reverse rev_w
  | S k =>
      let w i := default 0 (rev_w !! i) in
      let s0 := Z.lxor (Z.lxor (rotr 7 (w 14%nat)) (rotr 18 (w 14%nat))) (Z.shiftr (w 14%nat) 3) in
      let s1 := Z.lxor (Z.lxor (rotr 17 (w 1%nat)) (rotr 19 (w 1%nat))) (Z.shiftr (w 1%nat) 10) in
      sha256_schedule k (w32 (w 15%nat + s0 + w 6%nat + s1) :: rev_w)
  end.

Definition sha256_round (st : list Z) (kw : Z * Z) : list Z :=
  match st with
  | [a; b; c; d; e; f; g; h] =>
      let s1 := Z.lxor (Z.lxor (rotr 6 e) (rotr 11 e)) (rotr 25 e) in
      let ch := Z.lxor (Z.land e f) (Z.land (not32 e) g) in
      let t1 := h + s1 + ch + kw.1 + kw.2 in
      let s0 := Z.lxor (Z.lxor (rotr 2 a) (rotr 13 a)) (rotr 22 a) in
      let maj := Z.lxor (Z.lxor (Z.land a b) (Z.land a c)) (Z.land b c) in
      [w32 (t1 + s0 + maj); a; b; c; w32 (d + t1); e; f; g]
  | _ => st
  end.

Definition sha256_block (st blk : list Z) : list Z :=
  zip_with (λ a b, w32 (a + b)) st
    (foldl sha256_round st (zip sha256_k (sha256_schedule 48 (reverse blk)))).

Definition Sum256 (s : string) : string :=
  of_bytes (concat (be_bytes 4 <$> foldl sha256_block sha256_init (message_blocks (bytes s)))).

(** ** SHA-1 *)

Fixpoint sha1_schedule (n : nat) (rev_w : list Z) : list Z :=
  match n with
  | O => reverse rev_w
  | S k =>
      let w i := default 0 (rev_w !! i) in
      sha1_schedule k
        (rotl 1 (Z.lxor (Z.lxor (w 2%nat) (w 7%nat)) (Z.lxor (w 13%nat) (w 15%nat))) :: rev_w)
  end.

Definition sha1_round (st : list Z) (iw : nat * Z) : list Z :=
  match st with
  | [a; b; c; d; e] =>
      let '(f, k) :=
        if (iw.1 <? 20)%nat then (Z.lor (Z.land b c) (Z.land (not32 b) d), 1518500249)
        else if (iw.1 <? 40)%nat then (Z.lxor (Z.lxor b c) d, 1859775393)
        else if (iw.1 <? 60)%nat then
          (Z.lor (Z.lor (Z.land b c) (Z.land b d)) (Z.land c d), 2400959708)
        else (Z.lxor (Z.lxor b c) d, 3395469782) in
      [w32 (rotl 5 a + f + e + k + iw.2); a; rotl 30 b; c; d]
  | _ => st
  end.

Definition sha1_block (st blk : list Z) : list Z :=
  zip_with (λ a b, w32 (a + b)) st
    (foldl sha1_round st (zip (seq 0 80) (sha1_schedule 64 (reverse blk)))).

Definition Sum1 (s : string) : string :=
  of_bytes (concat (be_bytes 4 <$> foldl sha1_block
    [1732584193; 4023233417; 2562383102; 271733878; 3285377520] (message_blocks (bytes s)))).

(** ** Text encodings *)

Definition hex_digit (d : Z) : ascii := ascii_of (if d <? 10 then 48 + d else 87 + d).

(** [hex.EncodeToString] *)
Fixpoint hex_encode (s : string) : string :=
  match s with
  | "" => ""
  | String c s' =>
      String (hex_digit (byte_of c / 16)) (String (hex_digit (byte_of c mod 16)) (hex_encode s'))
  end.

(** The alphabet of [base64.RawURLEncoding]. *)
Definition b64_digit (d : Z) : ascii :=
  ascii_of (if d <? 26 then 65 + d else if d <? 52 then 71 + d else if d <? 62 then d - 4
            else if d =? 62 then 45 else 95).

Fixpoint b64_bytes (l : list Z) : string :=
  match l with
  | a :: b :: c :: l' =>
      String (b64_digit (a / 4)) (String (b64_digit ((a mod 4) * 16 + b / 16))
        (String (b64_digit ((b mod 16) * 4 + c / 64)) (String (b64_digit (c mod 64)) (b64_bytes l'))))
  | [a; b] =>
      String (b64_digit (a / 4)) (String (b64_digit ((a mod 4) * 16 + b / 16))
        (String (b64_digit ((b mod 16) * 4)) ""))
  | [a] => String (b64_digit (a / 4)) (String (b64_digit ((a mod 4) * 16)) "")
  | [] => ""
  end.
(** [base64.RawURLEncoding.EncodeToString] *)
Definition b64_encode (s : string) : string := b64_bytes (bytes s).

(** ** Test vectors *)

Example sha256_abc :
  hex_encode (Sum256 "abc") = "ba7816bf8f01cfea414140de5dae2223b00361a396177a9cb410ff61f20015ad".
Proof. vm_compute. reflexivity. Qed.
Example sha256_two_blocks :
  hex_encode (Sum256 "abcdbcdecdefdefgefghfghighijhijkijkljklmklmnlmnomnopnopq")
  = "248d6a61d20638b8e5c026930c3e6039a33ce45964ff2167f6ecedd419db06c1".
Proof. vm_compute. reflexivity. Qed.
Example sha1_abc : hex_encode (Sum1 "abc") = "a9993e364706816aba3e25717850c26c9cd0d89d".
Proof. vm_compute. reflexivity. Qed.
Example b64_rfc7636 :
  b64_encode (Sum256 "dBjftJeZ4CVP-mB92K27uhbUJU1p1r_wW1gFWFOEjXk")
  = "E9Melhoa2OwvFrEMTJguCHaoeK1t8URWbuGJSstw-cM".
Proof. vm_compute. reflexivity. Qed.

(** ** Shape of the digests *)

Lemma length_hex_encode s : String.length (hex_encode s) = (2 * String.length s)%nat.
Proof. induction s; simpl; [done|]. rewrite IHs. lia. Qed.

Lemma length_be_bytes n x : length (be_bytes n x) = n.
Proof. revert x; induction n; intros x; simpl; [done|]. rewrite length_app, IHn. simpl. lia. Qed.

Lemma sha256_round_length st kw : length st = 8%nat → length (sha256_round st kw) = 8%nat.
Proof. intros H. do 8 (destruct st as [|? st]; [done|]). by destruct st. Qed.

Lemma foldl_length {A} (f : list Z → A → list Z) n st l :
  (∀ s x, length s = n → length (f s x) = n) → length st = n → length (foldl f st l) = n.
Proof. intros Hf. revert st. induction l; intros st Hst; simpl; auto. Qed.

Lemma sha256_block_length st blk : length st = 8%nat → length (sha256_block st blk) = 8%nat.
Proof.
  intros H. unfold sha256_block. rewrite length_zip_with, H.
  rewrite (foldl_length _ 8%nat); auto using sha256_round_length.
Qed.

Lemma concat_be_length l : length (concat (be_bytes 4 <$> l)) = (4 * length l)%nat.
Proof.
  induction l as [|x l IH]; [done|].
  rewrite fmap_cons; cbn [concat length]. rewrite length_app, length_be_bytes, IH. lia.
Qed.

Lemma length_Sum256 s : String.length (Sum256 s) = 32%nat.
Proof.
  unfold Sum256. rewrite length_of_bytes, concat_be_length.
  rewrite (foldl_length _ 8%nat); auto using sha256_block_length.
Qed.

(** A hex digit is one of [0-9a-f]. *)
Definition is_hex (b : Z) : bool := is_digit b || in_range 97 102 b.

Lemma hex_digit_is_hex d : 0 <= d < 16 → is_hex (byte_of (hex_digit d)) = true.
Proof.
  intros Hd. unfold hex_digit, is_hex, is_digit, in_range.
  destruct (Z.ltb_spec d 10); rewrite byte_of_ascii_of by lia;
    repeat (destruct (Z.leb_spec _ _)); simpl; try done; lia.
Qed.

Lemma hex_encode_is_hex s : Forall (λ b, is_hex b = true) (bytes (hex_encode s)).
Proof.
  induction s as [|c s IH]; simpl; [constructor|].
  pose proof (byte_of_range c).
  repeat constructor; [..|done]; apply hex_digit_is_hex; Z.to_euclidean_division_equations; lia.
Qed.

Lemma bytes_take_bytes n s : bytes (take_bytes n s) = take n (bytes s).
Proof. revert s; induction n; intros [|c s]; simpl; try done. by rewrite IHn. Qed.

#[global] Opaque Sum256 Sum1.
