(* ===== verification/Models.v ===== *)
(** The data model of [internal/models/models.go]: one [Record] per struct, a
    field [f] of a struct [S] as the projection [S_f]. Go's string types
    ([Visibility], [AccessMode], ...) are open: any text can come in through
    JSON or the database, so they are strings with named constants. A nil and
    an empty slice are the same [list]; a nil map is [None]. *)
From S2P Require Import Prelude GoStrings GoCrypto.
From Stdlib Require Import Floats.SpecFloat Ascii.

(** ** [any], as JSON decodes it *)
#[warnings="-register-all"]
Inductive Any :=
| ANil
| ABool (b : bool)
| AFloat (f : spec_float)
| AInt (z : Z)
| AString (s : string)
| AArray (l : list Any)
| AObject (o : list (string * Any)).

#[export] Instance zero_gmap V : Zero (gmap string V) := (∅ : gmap string V).
#[export] Instance zero_float : Zero spec_float := S754_zero false.

(** ** String types and their constants *)
Abbreviation Visibility := string (only parsing).
Definition VisibilityPublic : Visibility := "public".
Definition VisibilityGroup : Visibility := "group".
Definition VisibilityPersonal : Visibility := "personal".

Abbreviation SubjectKind := string (only parsing).
Definition SubjectUser : SubjectKind := "user".
Definition SubjectGroup : SubjectKind := "group".
Definition SubjectAllAuthenticated : SubjectKind := "all_authenticated".

Abbreviation StorageRole := string (only parsing).
Definition RolePlatformAdmin : StorageRole := "platform_admin".
Definition RoleStorageOwner : StorageRole := "storage_owner".
Definition RoleStorageAdmin : StorageRole := "storage_admin".
Definition RoleStorageWriter : StorageRole := "storage_writer".
Definition RoleStorageReader : StorageRole := "storage_reader".
Definition RoleGroupAdmin : StorageRole := "group_admin".

Abbreviation StoragePermission := string (only parsing).
Definition PermissionStorageRead : StoragePermission := "storage.read".
Definition PermissionDocumentRead : StoragePermission := "document.read".
Definition PermissionSearchRead : StoragePermission := "search.read".
Definition PermissionDocumentCreate : StoragePermission := "document.create".
Definition PermissionDocumentUpdate : StoragePermission := "document.update".
Definition PermissionDocumentDelete : StoragePermission := "document.delete".
Definition PermissionACLManage : StoragePermission := "acl.manage".
Definition PermissionTokenManage : StoragePermission := "token.policy.manage".
Definition PermissionStorageDelete : StoragePermission := "storage.delete".

Abbreviation AccessMode := string (only parsing).
Definition AccessModeRead : AccessMode := "read".
Definition AccessModeReadWrite : AccessMode := "read_write".
Definition AccessModeNone : AccessMode := "none".

Abbreviation StorageStatus := string (only parsing).
Definition StorageStatusActive : StorageStatus := "active".
Definition StorageStatusArchived : StorageStatus := "archived".
Definition StorageStatusDeleting : StorageStatus := "deleting".
Abbreviation StorageKind := string (only parsing).
Definition StorageKindKnowledge : StorageKind := "knowledge".

Abbreviation ObjectKind := string (only parsing).
Definition ObjectKindStorage : ObjectKind := "storage".
Definition ObjectKindVariable : ObjectKind := "variable".
Definition ObjectKindCounter : ObjectKind := "counter".
Definition ObjectKindTable : ObjectKind := "table".
Definition ObjectKindQueue : ObjectKind := "queue".
Definition ObjectKindBus : ObjectKind := "bus".
Definition ObjectKindSecureBus : ObjectKind := "securebus".
Definition ObjectKindSchedule : ObjectKind := "schedule".
Definition ObjectKindLog : ObjectKind := "log".
Definition ObjectKindGit : ObjectKind := "git".

Abbreviation MCPServerRole := string (only parsing).
Definition RoleMCPServerOwner : MCPServerRole := "mcp_server_owner".
Definition RoleMCPServerAdmin : MCPServerRole := "mcp_server_admin".
Definition RoleMCPServerUser : MCPServerRole := "mcp_server_user".
Abbreviation MCPServerPermission := string (only parsing).
Definition PermissionMCPServerUse : MCPServerPermission := "mcp_server.use".
Definition PermissionMCPServerManage : MCPServerPermission := "mcp_server.manage".
Definition PermissionMCPServerDelete : MCPServerPermission := "mcp_server.delete".
Abbreviation MCPServerStatus := string (only parsing).
Definition MCPServerStatusActive : MCPServerStatus := "active".
Definition MCPServerStatusError : MCPServerStatus := "error".
Definition MCPServerStatusDisabled : MCPServerStatus := "disabled".
Abbreviation MCPAuthType := string (only parsing).
Definition MCPAuthTypeBearer : MCPAuthType := "bearer".
Definition MCPAuthTypeAPIKey : MCPAuthType := "api_key".
Definition MCPAuthTypeCustomHeader : MCPAuthType := "custom_header".
Abbreviation MCPTransportKind := string (only parsing).
Definition MCPTransportHTTP : MCPTransportKind := "http".
Definition MCPTransportSSE : MCPTransportKind := "sse".
Definition MCPTransportAuto : MCPTransportKind := "auto".

(** ** Structs *)

Record Principal := mkPrincipal {
  Principal_UserID : string;
  Principal_Issuer : string;
  Principal_Email : string;
  Principal_EmailVerified : bool;
  Principal_Groups : list string;
  Principal_SubjectKey : string;
  Principal_GroupSubjectKeys : list string;
  Principal_AllowedDomains : list string;
  Principal_Scopes : list string;
  Principal_AuthSource : string;
  Principal_TeleportRoles : list string;
  Principal_TeleportTraits : gmap string (list string)
}.
#[export] Instance settable_Principal : Settable Principal := λ r, mkPrincipal
    r.(Principal_UserID) r.(Principal_Issuer) r.(Principal_Email) r.(Principal_EmailVerified)
    r.(Principal_Groups) r.(Principal_SubjectKey) r.(Principal_GroupSubjectKeys)
    r.(Principal_AllowedDomains) r.(Principal_Scopes) r.(Principal_AuthSource)
    r.(Principal_TeleportRoles) r.(Principal_TeleportTraits).
#[export] Instance zero_Principal : Zero Principal := mkPrincipal zeroval zeroval zeroval zeroval
    zeroval zeroval zeroval zeroval zeroval zeroval zeroval zeroval.

Record RateLimitPolicy := mkRateLimitPolicy {
  RateLimitPolicy_Enabled : bool;
  RateLimitPolicy_RequestsPerMinute : Z;
  RateLimitPolicy_RequestsPerHour : Z;
  RateLimitPolicy_RequestsPerDay : Z;
  RateLimitPolicy_Burst : Z
}.
#[export] Instance settable_RateLimitPolicy : Settable RateLimitPolicy := λ r, mkRateLimitPolicy
    r.(RateLimitPolicy_Enabled) r.(RateLimitPolicy_RequestsPerMinute)
    r.(RateLimitPolicy_RequestsPerHour) r.(RateLimitPolicy_RequestsPerDay)
    r.(RateLimitPolicy_Burst).
#[export] Instance zero_RateLimitPolicy : Zero RateLimitPolicy := mkRateLimitPolicy zeroval
    zeroval zeroval zeroval zeroval.

Record AccessToken := mkAccessToken {
  AccessToken_ID : string;
  AccessToken_OwnerSubjectKey : string;
  AccessToken_TokenHash : string;
  AccessToken_Name : string;
  AccessToken_Mode : AccessMode;
  AccessToken_AllowedPermissions : list StoragePermission;
  AccessToken_RateLimit : RateLimitPolicy;
  AccessToken_ExpiresAt : option Time;
  AccessToken_RevokedAt : option Time;
  AccessToken_LastUsedAt : option Time;
  AccessToken_CreatedBy : string;
  AccessToken_CreatedAt : Time
}.
#[export] Instance settable_AccessToken : Settable AccessToken := λ r, mkAccessToken
    r.(AccessToken_ID) r.(AccessToken_OwnerSubjectKey) r.(AccessToken_TokenHash)
    r.(AccessToken_Name) r.(AccessToken_Mode) r.(AccessToken_AllowedPermissions)
    r.(AccessToken_RateLimit) r.(AccessToken_ExpiresAt) r.(AccessToken_RevokedAt)
    r.(AccessToken_LastUsedAt) r.(AccessToken_CreatedBy) r.(AccessToken_CreatedAt).
#[export] Instance zero_AccessToken : Zero AccessToken := mkAccessToken zeroval zeroval zeroval
    zeroval zeroval zeroval zeroval zeroval zeroval zeroval zeroval zeroval.

Record AccessTokenStorage := mkAccessTokenStorage {
  AccessTokenStorage_TokenID : string;
  AccessTokenStorage_StorageID : string;
  AccessTokenStorage_MaxMode : AccessMode;
  AccessTokenStorage_ToolAllowlist : list string;
  AccessTokenStorage_CreatedAt : Time
}.
#[export] Instance settable_AccessTokenStorage : Settable AccessTokenStorage := λ r,
    mkAccessTokenStorage r.(AccessTokenStorage_TokenID) r.(AccessTokenStorage_StorageID)
    r.(AccessTokenStorage_MaxMode) r.(AccessTokenStorage_ToolAllowlist)
    r.(AccessTokenStorage_CreatedAt).
#[export] Instance zero_AccessTokenStorage : Zero AccessTokenStorage := mkAccessTokenStorage
    zeroval zeroval zeroval zeroval zeroval.

Record AccessTokenObject := mkAccessTokenObject {
  AccessTokenObject_TokenID : string;
  AccessTokenObject_ObjectID : string;
  AccessTokenObject_MaxMode : AccessMode;
  AccessTokenObject_MethodAllowlist : list string;
  AccessTokenObject_CreatedAt : Time
}.
#[export] Instance settable_AccessTokenObject : Settable AccessTokenObject := λ r,
    mkAccessTokenObject r.(AccessTokenObject_TokenID) r.(AccessTokenObject_ObjectID)
    r.(AccessTokenObject_MaxMode) r.(AccessTokenObject_MethodAllowlist)
    r.(AccessTokenObject_CreatedAt).
#[export] Instance zero_AccessTokenObject : Zero AccessTokenObject := mkAccessTokenObject zeroval
    zeroval zeroval zeroval zeroval.

Record AccessTokenMCPServer := mkAccessTokenMCPServer {
  AccessTokenMCPServer_TokenID : string;
  AccessTokenMCPServer_ServerID : string;
  AccessTokenMCPServer_ToolAllowlist : list string;
  AccessTokenMCPServer_ResourceAllowlist : list string;
  AccessTokenMCPServer_PromptAllowlist : list string;
  AccessTokenMCPServer_CreatedAt : Time
}.
#[export] Instance settable_AccessTokenMCPServer : Settable AccessTokenMCPServer := λ r,
    mkAccessTokenMCPServer r.(AccessTokenMCPServer_TokenID) r.(AccessTokenMCPServer_ServerID)
    r.(AccessTokenMCPServer_ToolAllowlist) r.(AccessTokenMCPServer_ResourceAllowlist)
    r.(AccessTokenMCPServer_PromptAllowlist) r.(AccessTokenMCPServer_CreatedAt).
#[export] Instance zero_AccessTokenMCPServer : Zero AccessTokenMCPServer := mkAccessTokenMCPServer
    zeroval zeroval zeroval zeroval zeroval zeroval.

Record APIAccessContext := mkAPIAccessContext {
  APIAccessContext_Principal : Principal;
  APIAccessContext_AuthMode : string;
  APIAccessContext_GrantedScopes : list string;
  APIAccessContext_TokenID : string;
  APIAccessContext_AccessToken : option AccessToken;
  APIAccessContext_AllowedStorage : list AccessTokenStorage;
  APIAccessContext_AllowedObjects : list AccessTokenObject;
  APIAccessContext_AllowedMCPServers : list AccessTokenMCPServer
}.
#[export] Instance settable_APIAccessContext : Settable APIAccessContext := λ r,
    mkAPIAccessContext r.(APIAccessContext_Principal) r.(APIAccessContext_AuthMode)
    r.(APIAccessContext_GrantedScopes) r.(APIAccessContext_TokenID)
    r.(APIAccessContext_AccessToken) r.(APIAccessContext_AllowedStorage)
    r.(APIAccessContext_AllowedObjects) r.(APIAccessContext_AllowedMCPServers).
#[export] Instance zero_APIAccessContext : Zero APIAccessContext := mkAPIAccessContext zeroval
    zeroval zeroval zeroval zeroval zeroval zeroval zeroval.

Record SubjectRef := mkSubjectRef {
  SubjectRef_Kind : SubjectKind;
  SubjectRef_Source : string;
  SubjectRef_Issuer : string;
  SubjectRef_ExternalID : string
}.
#[export] Instance settable_SubjectRef : Settable SubjectRef := λ r, mkSubjectRef
    r.(SubjectRef_Kind) r.(SubjectRef_Source) r.(SubjectRef_Issuer) r.(SubjectRef_ExternalID).
#[export] Instance zero_SubjectRef : Zero SubjectRef := mkSubjectRef zeroval zeroval zeroval
    zeroval.

Record User := mkUser {
  User_ID : string;
  User_SubjectKey : string;
  User_Source : string;
  User_Issuer : string;
  User_ExternalSubject : string;
  User_Email : string;
  User_DisplayName : string;
  User_Status : string;
  User_PasswordHash : string;
  User_CreatedAt : Time;
  User_LastSeenAt : Time
}.
#[export] Instance settable_User : Settable User := λ r, mkUser r.(User_ID) r.(User_SubjectKey)
    r.(User_Source) r.(User_Issuer) r.(User_ExternalSubject) r.(User_Email) r.(User_DisplayName)
    r.(User_Status) r.(User_PasswordHash) r.(User_CreatedAt) r.(User_LastSeenAt).
#[export] Instance zero_User : Zero User := mkUser zeroval zeroval zeroval zeroval zeroval zeroval
    zeroval zeroval zeroval zeroval zeroval.

Record Group := mkGroup {
  Group_ID : string;
  Group_SubjectKey : string;
  Group_Source : string;
  Group_Issuer : string;
  Group_ExternalGroupID : string;
  Group_Name : string;
  Group_ManagedBy : string;
  Group_SyncStatus : string;
  Group_LastSyncedAt : option Time;
  Group_CreatedAt : Time
}.
#[export] Instance settable_Group : Settable Group := λ r, mkGroup r.(Group_ID)
    r.(Group_SubjectKey) r.(Group_Source) r.(Group_Issuer) r.(Group_ExternalGroupID)
    r.(Group_Name) r.(Group_ManagedBy) r.(Group_SyncStatus) r.(Group_LastSyncedAt)
    r.(Group_CreatedAt).
#[export] Instance zero_Group : Zero Group := mkGroup zeroval zeroval zeroval zeroval zeroval
    zeroval zeroval zeroval zeroval zeroval.

Record GroupMembership := mkGroupMembership {
  GroupMembership_GroupID : string;
  GroupMembership_UserID : string;
  GroupMembership_Source : string;
  GroupMembership_CreatedAt : Time;
  GroupMembership_ExpiresAt : option Time
}.
#[export] Instance settable_GroupMembership : Settable GroupMembership := λ r, mkGroupMembership
    r.(GroupMembership_GroupID) r.(GroupMembership_UserID) r.(GroupMembership_Source)
    r.(GroupMembership_CreatedAt) r.(GroupMembership_ExpiresAt).
#[export] Instance zero_GroupMembership : Zero GroupMembership := mkGroupMembership zeroval
    zeroval zeroval zeroval zeroval.

Record Storage := mkStorage {
  Storage_ID : string;
  Storage_Slug : string;
  Storage_Name : string;
  Storage_OwnerSubjectKey : string;
  Storage_Visibility : Visibility;
  Storage_DefaultAccess : AccessMode;
  Storage_Kind : StorageKind;
  Storage_S3Bucket : string;
  Storage_S3Prefix : string;
  Storage_Status : StorageStatus;
  Storage_CreatedAt : Time;
  Storage_UpdatedAt : Time;
  Storage_ArchivedAt : option Time
}.
#[export] Instance settable_Storage : Settable Storage := λ r, mkStorage r.(Storage_ID)
    r.(Storage_Slug) r.(Storage_Name) r.(Storage_OwnerSubjectKey) r.(Storage_Visibility)
    r.(Storage_DefaultAccess) r.(Storage_Kind) r.(Storage_S3Bucket) r.(Storage_S3Prefix)
    r.(Storage_Status) r.(Storage_CreatedAt) r.(Storage_UpdatedAt) r.(Storage_ArchivedAt).
#[export] Instance zero_Storage : Zero Storage := mkStorage zeroval zeroval zeroval zeroval
    zeroval zeroval zeroval zeroval zeroval zeroval zeroval zeroval zeroval.

Record ACLBinding := mkACLBinding {
  ACLBinding_ID : string;
  ACLBinding_StorageID : string;
  ACLBinding_SubjectKey : string;
  ACLBinding_Role : StorageRole;
  ACLBinding_GrantedBy : string;
  ACLBinding_ExpiresAt : option Time;
  ACLBinding_CreatedAt : Time
}.
#[export] Instance settable_ACLBinding : Settable ACLBinding := λ r, mkACLBinding
    r.(ACLBinding_ID) r.(ACLBinding_StorageID) r.(ACLBinding_SubjectKey) r.(ACLBinding_Role)
    r.(ACLBinding_GrantedBy) r.(ACLBinding_ExpiresAt) r.(ACLBinding_CreatedAt).
#[export] Instance zero_ACLBinding : Zero ACLBinding := mkACLBinding zeroval zeroval zeroval
    zeroval zeroval zeroval zeroval.

Record DataObject := mkDataObject {
  DataObject_ID : string;
  DataObject_Kind : ObjectKind;
  DataObject_Slug : string;
  DataObject_Name : string;
  DataObject_OwnerSubjectKey : string;
  DataObject_Visibility : Visibility;
  DataObject_DefaultAccess : AccessMode;
  DataObject_Status : StorageStatus;
  DataObject_Backend : string;
  DataObject_Config : option (gmap string Any);
  DataObject_S3Bucket : string;
  DataObject_S3Prefix : string;
  DataObject_CreatedAt : Time;
  DataObject_UpdatedAt : Time;
  DataObject_ArchivedAt : option Time
}.
#[export] Instance settable_DataObject : Settable DataObject := λ r, mkDataObject
    r.(DataObject_ID) r.(DataObject_Kind) r.(DataObject_Slug) r.(DataObject_Name)
    r.(DataObject_OwnerSubjectKey) r.(DataObject_Visibility) r.(DataObject_DefaultAccess)
    r.(DataObject_Status) r.(DataObject_Backend) r.(DataObject_Config) r.(DataObject_S3Bucket)
    r.(DataObject_S3Prefix) r.(DataObject_CreatedAt) r.(DataObject_UpdatedAt)
    r.(DataObject_ArchivedAt).
#[export] Instance zero_DataObject : Zero DataObject := mkDataObject zeroval zeroval zeroval
    zeroval zeroval zeroval zeroval zeroval zeroval zeroval zeroval zeroval zeroval zeroval
    zeroval.

Record ObjectACLBinding := mkObjectACLBinding {
  ObjectACLBinding_ID : string;
  ObjectACLBinding_ObjectID : string;
  ObjectACLBinding_SubjectKey : string;
  ObjectACLBinding_Role : StorageRole;
  ObjectACLBinding_GrantedBy : string;
  ObjectACLBinding_ExpiresAt : option Time;
  ObjectACLBinding_CreatedAt : Time
}.
#[export] Instance settable_ObjectACLBinding : Settable ObjectACLBinding := λ r,
    mkObjectACLBinding r.(ObjectACLBinding_ID) r.(ObjectACLBinding_ObjectID)
    r.(ObjectACLBinding_SubjectKey) r.(ObjectACLBinding_Role) r.(ObjectACLBinding_GrantedBy)
    r.(ObjectACLBinding_ExpiresAt) r.(ObjectACLBinding_CreatedAt).
#[export] Instance zero_ObjectACLBinding : Zero ObjectACLBinding := mkObjectACLBinding zeroval
    zeroval zeroval zeroval zeroval zeroval zeroval.

Record EffectiveObjectAccess := mkEffectiveObjectAccess {
  EffectiveObjectAccess_ObjectID : string;
  EffectiveObjectAccess_Kind : ObjectKind;
  EffectiveObjectAccess_SubjectKey : string;
  EffectiveObjectAccess_TokenID : string;
  EffectiveObjectAccess_Mode : AccessMode;
  EffectiveObjectAccess_Methods : list string
}.
#[export] Instance settable_EffectiveObjectAccess : Settable EffectiveObjectAccess := λ r,
    mkEffectiveObjectAccess r.(EffectiveObjectAccess_ObjectID) r.(EffectiveObjectAccess_Kind)
    r.(EffectiveObjectAccess_SubjectKey) r.(EffectiveObjectAccess_TokenID)
    r.(EffectiveObjectAccess_Mode) r.(EffectiveObjectAccess_Methods).
#[export] Instance zero_EffectiveObjectAccess : Zero EffectiveObjectAccess :=
    mkEffectiveObjectAccess zeroval zeroval zeroval zeroval zeroval zeroval.

Record MCPServer := mkMCPServer {
  MCPServer_ID : string;
  MCPServer_Slug : string;
  MCPServer_Name : string;
  MCPServer_OwnerSubjectKey : string;
  MCPServer_Transport : MCPTransportKind;
  MCPServer_URL : string;
  MCPServer_HeadersJSON : string;
  MCPServer_AuthType : MCPAuthType;
  MCPServer_AuthHeaderName : string;
  MCPServer_HasAuthSecret : bool;
  MCPServer_Status : MCPServerStatus;
  MCPServer_LastConnectedAt : option Time;
  MCPServer_LastError : string;
  MCPServer_CreatedAt : Time;
  MCPServer_UpdatedAt : Time
}.
#[export] Instance settable_MCPServer : Settable MCPServer := λ r, mkMCPServer r.(MCPServer_ID)
    r.(MCPServer_Slug) r.(MCPServer_Name) r.(MCPServer_OwnerSubjectKey) r.(MCPServer_Transport)
    r.(MCPServer_URL) r.(MCPServer_HeadersJSON) r.(MCPServer_AuthType)
    r.(MCPServer_AuthHeaderName) r.(MCPServer_HasAuthSecret) r.(MCPServer_Status)
    r.(MCPServer_LastConnectedAt) r.(MCPServer_LastError) r.(MCPServer_CreatedAt)
    r.(MCPServer_UpdatedAt).
#[export] Instance zero_MCPServer : Zero MCPServer := mkMCPServer zeroval zeroval zeroval zeroval
    zeroval zeroval zeroval zeroval zeroval zeroval zeroval zeroval zeroval zeroval zeroval.

Record MCPServerACLBinding := mkMCPServerACLBinding {
  MCPServerACLBinding_ID : string;
  MCPServerACLBinding_ServerID : string;
  MCPServerACLBinding_SubjectKey : string;
  MCPServerACLBinding_Role : MCPServerRole;
  MCPServerACLBinding_GrantedBy : string;
  MCPServerACLBinding_ExpiresAt : option Time;
  MCPServerACLBinding_CreatedAt : Time
}.
#[export] Instance settable_MCPServerACLBinding : Settable MCPServerACLBinding := λ r,
    mkMCPServerACLBinding r.(MCPServerACLBinding_ID) r.(MCPServerACLBinding_ServerID)
    r.(MCPServerACLBinding_SubjectKey) r.(MCPServerACLBinding_Role)
    r.(MCPServerACLBinding_GrantedBy) r.(MCPServerACLBinding_ExpiresAt)
    r.(MCPServerACLBinding_CreatedAt).
#[export] Instance zero_MCPServerACLBinding : Zero MCPServerACLBinding := mkMCPServerACLBinding
    zeroval zeroval zeroval zeroval zeroval zeroval zeroval.

Record EffectiveAccess := mkEffectiveAccess {
  EffectiveAccess_TokenID : string;
  EffectiveAccess_StorageID : string;
  EffectiveAccess_SubjectKey : string;
  EffectiveAccess_Permissions : list StoragePermission;
  EffectiveAccess_Mode : AccessMode
}.
#[export] Instance settable_EffectiveAccess : Settable EffectiveAccess := λ r, mkEffectiveAccess
    r.(EffectiveAccess_TokenID) r.(EffectiveAccess_StorageID) r.(EffectiveAccess_SubjectKey)
    r.(EffectiveAccess_Permissions) r.(EffectiveAccess_Mode).
#[export] Instance zero_EffectiveAccess : Zero EffectiveAccess := mkEffectiveAccess zeroval
    zeroval zeroval zeroval zeroval.

Record AuditEvent := mkAuditEvent {
  AuditEvent_ID : string;
  AuditEvent_ActorSubjectKey : string;
  AuditEvent_Action : string;
  AuditEvent_ResourceType : string;
  AuditEvent_ResourceID : string;
  AuditEvent_StorageID : string;
  AuditEvent_CreatedAt : Time;
  AuditEvent_Metadata : option (gmap string Any)
}.
#[export] Instance settable_AuditEvent : Settable AuditEvent := λ r, mkAuditEvent
    r.(AuditEvent_ID) r.(AuditEvent_ActorSubjectKey) r.(AuditEvent_Action)
    r.(AuditEvent_ResourceType) r.(AuditEvent_ResourceID) r.(AuditEvent_StorageID)
    r.(AuditEvent_CreatedAt) r.(AuditEvent_Metadata).
#[export] Instance zero_AuditEvent : Zero AuditEvent := mkAuditEvent zeroval zeroval zeroval
    zeroval zeroval zeroval zeroval zeroval.

Record UsageEvent := mkUsageEvent {
  UsageEvent_TokenID : string;
  UsageEvent_UserSubjectKey : string;
  UsageEvent_StorageID : string;
  UsageEvent_Tool : string;
  UsageEvent_Operation : string;
  UsageEvent_Status : string;
  UsageEvent_LatencyMS : Z;
  UsageEvent_BytesIn : Z;
  UsageEvent_BytesOut : Z;
  UsageEvent_CreatedAt : Time
}.
#[export] Instance settable_UsageEvent : Settable UsageEvent := λ r, mkUsageEvent
    r.(UsageEvent_TokenID) r.(UsageEvent_UserSubjectKey) r.(UsageEvent_StorageID)
    r.(UsageEvent_Tool) r.(UsageEvent_Operation) r.(UsageEvent_Status) r.(UsageEvent_LatencyMS)
    r.(UsageEvent_BytesIn) r.(UsageEvent_BytesOut) r.(UsageEvent_CreatedAt).
#[export] Instance zero_UsageEvent : Zero UsageEvent := mkUsageEvent zeroval zeroval zeroval
    zeroval zeroval zeroval zeroval zeroval zeroval zeroval.

Record DocumentRecord := mkDocumentRecord {
  DocumentRecord_DocID : string;
  DocumentRecord_StorageID : string;
  DocumentRecord_OwnerID : string;
  DocumentRecord_Visibility : Visibility;
  DocumentRecord_GroupIDs : list string;
  DocumentRecord_Title : string;
  DocumentRecord_MimeType : string;
  DocumentRecord_Source : string;
  DocumentRecord_SourceURL : string;
  DocumentRecord_SourceHash : string;
  DocumentRecord_S3Key : string;
  DocumentRecord_SummaryChunkID : string;
  DocumentRecord_Status : string;
  DocumentRecord_Body : string;
  DocumentRecord_CreatedAt : Time;
  DocumentRecord_UpdatedAt : Time
}.
#[export] Instance settable_DocumentRecord : Settable DocumentRecord := λ r, mkDocumentRecord
    r.(DocumentRecord_DocID) r.(DocumentRecord_StorageID) r.(DocumentRecord_OwnerID)
    r.(DocumentRecord_Visibility) r.(DocumentRecord_GroupIDs) r.(DocumentRecord_Title)
    r.(DocumentRecord_MimeType) r.(DocumentRecord_Source) r.(DocumentRecord_SourceURL)
    r.(DocumentRecord_SourceHash) r.(DocumentRecord_S3Key) r.(DocumentRecord_SummaryChunkID)
    r.(DocumentRecord_Status) r.(DocumentRecord_Body) r.(DocumentRecord_CreatedAt)
    r.(DocumentRecord_UpdatedAt).
#[export] Instance zero_DocumentRecord : Zero DocumentRecord := mkDocumentRecord zeroval zeroval
    zeroval zeroval zeroval zeroval zeroval zeroval zeroval zeroval zeroval zeroval zeroval
    zeroval zeroval zeroval.

Record MCPServerTool := mkMCPServerTool {
  MCPServerTool_ServerID : string;
  MCPServerTool_ToolName : string;
  MCPServerTool_Description : string;
  MCPServerTool_InputSchemaJSON : string;
  MCPServerTool_Enabled : bool;
  MCPServerTool_DiscoveredAt : Time
}.
#[export] Instance settable_MCPServerTool : Settable MCPServerTool := λ r, mkMCPServerTool
    r.(MCPServerTool_ServerID) r.(MCPServerTool_ToolName) r.(MCPServerTool_Description)
    r.(MCPServerTool_InputSchemaJSON) r.(MCPServerTool_Enabled) r.(MCPServerTool_DiscoveredAt).
#[export] Instance zero_MCPServerTool : Zero MCPServerTool := mkMCPServerTool zeroval zeroval
    zeroval zeroval zeroval zeroval.

Record MCPServerResource := mkMCPServerResource {
  MCPServerResource_ServerID : string;
  MCPServerResource_URI : string;
  MCPServerResource_Name : string;
  MCPServerResource_MimeType : string;
  MCPServerResource_Description : string;
  MCPServerResource_Enabled : bool;
  MCPServerResource_DiscoveredAt : Time
}.
#[export] Instance settable_MCPServerResource : Settable MCPServerResource := λ r,
    mkMCPServerResource r.(MCPServerResource_ServerID) r.(MCPServerResource_URI)
    r.(MCPServerResource_Name) r.(MCPServerResource_MimeType) r.(MCPServerResource_Description)
    r.(MCPServerResource_Enabled) r.(MCPServerResource_DiscoveredAt).
#[export] Instance zero_MCPServerResource : Zero MCPServerResource := mkMCPServerResource zeroval
    zeroval zeroval zeroval zeroval zeroval zeroval.

Record MCPServerPrompt := mkMCPServerPrompt {
  MCPServerPrompt_ServerID : string;
  MCPServerPrompt_PromptName : string;
  MCPServerPrompt_Description : string;
  MCPServerPrompt_ArgumentsSchemaJSON : string;
  MCPServerPrompt_Enabled : bool;
  MCPServerPrompt_DiscoveredAt : Time
}.
#[export] Instance settable_MCPServerPrompt : Settable MCPServerPrompt := λ r, mkMCPServerPrompt
    r.(MCPServerPrompt_ServerID) r.(MCPServerPrompt_PromptName) r.(MCPServerPrompt_Description)
    r.(MCPServerPrompt_ArgumentsSchemaJSON) r.(MCPServerPrompt_Enabled)
    r.(MCPServerPrompt_DiscoveredAt).
#[export] Instance zero_MCPServerPrompt : Zero MCPServerPrompt := mkMCPServerPrompt zeroval
    zeroval zeroval zeroval zeroval zeroval.

Record MCPServerCapabilities := mkMCPServerCapabilities {
  MCPServerCapabilities_Server : MCPServer;
  MCPServerCapabilities_Tools : list MCPServerTool;
  MCPServerCapabilities_Resources : list MCPServerResource;
  MCPServerCapabilities_Prompts : list MCPServerPrompt
}.
#[export] Instance settable_MCPServerCapabilities : Settable MCPServerCapabilities := λ r,
    mkMCPServerCapabilities r.(MCPServerCapabilities_Server) r.(MCPServerCapabilities_Tools)
    r.(MCPServerCapabilities_Resources) r.(MCPServerCapabilities_Prompts).
#[export] Instance zero_MCPServerCapabilities : Zero MCPServerCapabilities :=
    mkMCPServerCapabilities zeroval zeroval zeroval zeroval.

Record VectorPayload := mkVectorPayload {
  VectorPayload_DocID : string;
  VectorPayload_StorageID : string;
  VectorPayload_ChunkID : string;
  VectorPayload_Visibility : Visibility;
  VectorPayload_OwnerID : string;
  VectorPayload_GroupIDs : list string;
  VectorPayload_IsSummary : bool;
  VectorPayload_Source : string;
  VectorPayload_SourceURL : string;
  VectorPayload_S3Key : string;
  VectorPayload_SourceHash : string
}.
#[export] Instance settable_VectorPayload : Settable VectorPayload := λ r, mkVectorPayload
    r.(VectorPayload_DocID) r.(VectorPayload_StorageID) r.(VectorPayload_ChunkID)
    r.(VectorPayload_Visibility) r.(VectorPayload_OwnerID) r.(VectorPayload_GroupIDs)
    r.(VectorPayload_IsSummary) r.(VectorPayload_Source) r.(VectorPayload_SourceURL)
    r.(VectorPayload_S3Key) r.(VectorPayload_SourceHash).
#[export] Instance zero_VectorPayload : Zero VectorPayload := mkVectorPayload zeroval zeroval
    zeroval zeroval zeroval zeroval zeroval zeroval zeroval zeroval zeroval.

Record PageRequest := mkPageRequest {
  PageRequest_Page : Z;
  PageRequest_PageSize : Z;
  PageRequest_SortBy : string;
  PageRequest_SortDirection : string;
  PageRequest_StorageID : string;
  PageRequest_Source : string;
  PageRequest_SourceURL : string;
  PageRequest_SourceURLMode : string;
  PageRequest_AllowedStorageIDs : list string;
  PageRequest_ApplyVisibility : bool;
  PageRequest_VisibilityOwnerIDs : list string;
  PageRequest_VisibilityGroups : list string
}.
#[export] Instance settable_PageRequest : Settable PageRequest := λ r, mkPageRequest
    r.(PageRequest_Page) r.(PageRequest_PageSize) r.(PageRequest_SortBy)
    r.(PageRequest_SortDirection) r.(PageRequest_StorageID) r.(PageRequest_Source)
    r.(PageRequest_SourceURL) r.(PageRequest_SourceURLMode) r.(PageRequest_AllowedStorageIDs)
    r.(PageRequest_ApplyVisibility) r.(PageRequest_VisibilityOwnerIDs)
    r.(PageRequest_VisibilityGroups).
#[export] Instance zero_PageRequest : Zero PageRequest := mkPageRequest zeroval zeroval zeroval
    zeroval zeroval zeroval zeroval zeroval zeroval zeroval zeroval zeroval.

Record PaginatedKnowledgeList := mkPaginatedKnowledgeList {
  PaginatedKnowledgeList_Items : list DocumentRecord;
  PaginatedKnowledgeList_Page : Z;
  PaginatedKnowledgeList_PageSize : Z;
  PaginatedKnowledgeList_Total : Z;
  PaginatedKnowledgeList_HasNext : bool
}.
#[export] Instance settable_PaginatedKnowledgeList : Settable PaginatedKnowledgeList := λ r,
    mkPaginatedKnowledgeList r.(PaginatedKnowledgeList_Items) r.(PaginatedKnowledgeList_Page)
    r.(PaginatedKnowledgeList_PageSize) r.(PaginatedKnowledgeList_Total)
    r.(PaginatedKnowledgeList_HasNext).
#[export] Instance zero_PaginatedKnowledgeList : Zero PaginatedKnowledgeList :=
    mkPaginatedKnowledgeList zeroval zeroval zeroval zeroval zeroval.

Record SearchRequest := mkSearchRequest {
  SearchRequest_Query : string;
  SearchRequest_TopK : Z;
  SearchRequest_Filters : PageRequest
}.
#[export] Instance settable_SearchRequest : Settable SearchRequest := λ r, mkSearchRequest
    r.(SearchRequest_Query) r.(SearchRequest_TopK) r.(SearchRequest_Filters).
#[export] Instance zero_SearchRequest : Zero SearchRequest := mkSearchRequest zeroval zeroval
    zeroval.

Record SearchHit := mkSearchHit {
  SearchHit_DocID : string;
  SearchHit_Title : string;
  SearchHit_Snippet : string;
  SearchHit_Score : spec_float;
  SearchHit_Visibility : Visibility;
  SearchHit_Source : string;
  SearchHit_SourceURL : string
}.
#[export] Instance settable_SearchHit : Settable SearchHit := λ r, mkSearchHit r.(SearchHit_DocID)
    r.(SearchHit_Title) r.(SearchHit_Snippet) r.(SearchHit_Score) r.(SearchHit_Visibility)
    r.(SearchHit_Source) r.(SearchHit_SourceURL).
#[export] Instance zero_SearchHit : Zero SearchHit := mkSearchHit zeroval zeroval zeroval zeroval
    zeroval zeroval zeroval.

Record Session := mkSession {
  Session_SessionID : string;
  Session_Principal : Principal;
  Session_Transport : string;
  Session_CurrentStreams : list string;
  Session_LastEventByStream : gmap string string;
  Session_ExpiresAt : Time
}.
#[export] Instance settable_Session : Settable Session := λ r, mkSession r.(Session_SessionID)
    r.(Session_Principal) r.(Session_Transport) r.(Session_CurrentStreams)
    r.(Session_LastEventByStream) r.(Session_ExpiresAt).
#[export] Instance zero_Session : Zero Session := mkSession zeroval zeroval zeroval zeroval
    zeroval zeroval.

Record WebSession := mkWebSession {
  WebSession_SessionID : string;
  WebSession_Principal : Principal;
  WebSession_CSRFToken : string;
  WebSession_ExpiresAt : Time
}.
#[export] Instance settable_WebSession : Settable WebSession := λ r, mkWebSession
    r.(WebSession_SessionID) r.(WebSession_Principal) r.(WebSession_CSRFToken)
    r.(WebSession_ExpiresAt).
#[export] Instance zero_WebSession : Zero WebSession := mkWebSession zeroval zeroval zeroval
    zeroval.

Definition DocumentStatusProcessing : string := "processing".
Definition DocumentStatusReady : string := "ready".
Definition DocumentStatusFailed : string := "failed".
Definition DocumentStatusDeleting : string := "deleting".

(** ** Subject keys *)

Definition issuerHash (issuer : string) : string :=
  take_bytes 12 (hex_encode (Sum1 (trim_right_byte "/" issuer))).

(** [SubjectRef.Key] *)
Definition Key (s : SubjectRef) : string :=
  if s.(SubjectRef_Kind) =s SubjectAllAuthenticated then "all:authenticated"
  else if s.(SubjectRef_Kind) =s SubjectGroup then
    if (s.(SubjectRef_Source) =s "internal") || (s.(SubjectRef_Issuer) =s "")
    then "group:" +:+ s.(SubjectRef_Source) +:+ ":" +:+ s.(SubjectRef_ExternalID)
    else "group:" +:+ issuerHash s.(SubjectRef_Issuer) +:+ ":" +:+ s.(SubjectRef_ExternalID)
  else
    if (s.(SubjectRef_Source) =s "internal") || (s.(SubjectRef_Issuer) =s "")
    then "user:" +:+ s.(SubjectRef_Source) +:+ ":" +:+ s.(SubjectRef_ExternalID)
    else "user:" +:+ issuerHash s.(SubjectRef_Issuer) +:+ ":" +:+ s.(SubjectRef_ExternalID).

Definition SubjectKeyForPrincipal (p : Principal) : string :=
  if p.(Principal_SubjectKey) <>s "" then p.(Principal_SubjectKey)
  else
    let source := if p.(Principal_AuthSource) =s "" then "internal" else p.(Principal_AuthSource) in
    Key (mkSubjectRef SubjectUser source p.(Principal_Issuer) p.(Principal_UserID)).

Definition GroupSubjectKeysForPrincipal (p : Principal) : list string :=
  match p.(Principal_GroupSubjectKeys) with
  | _ :: _ => p.(Principal_GroupSubjectKeys)
  | [] =>
      let source := if p.(Principal_AuthSource) =s "" then "internal" else p.(Principal_AuthSource) in
      (λ g, Key (mkSubjectRef SubjectGroup source p.(Principal_Issuer) g)) <$>
        List.filter (λ g, g <>s "") p.(Principal_Groups)
  end.

(** ** Lemmas *)

Lemma Key_user_prefix source issuer ext :
  HasPrefix (Key (mkSubjectRef SubjectUser source issuer ext)) "user:" = true.
Proof. unfold Key; simpl. by destruct (_ || _); rewrite HasPrefix_app. Qed.

Lemma Key_group_prefix source issuer ext :
  HasPrefix (Key (mkSubjectRef SubjectGroup source issuer ext)) "group:" = true.
Proof. unfold Key; simpl. by destruct (_ || _); rewrite HasPrefix_app. Qed.

Lemma user_key_not_group s : HasPrefix s "user:" = true → HasPrefix s "group:" = false.
Proof. intros [t ->]%HasPrefix_spec. done. Qed.
