(* ===== verification/DataObj.v ===== *)
(** Small leaf packages: [internal/strutil], [internal/dataobj] (the closed
    method set of each object kind), [internal/domainerr] (error codes) and
    the document visibility rules of [internal/policy/access_filter.go] and
    [internal/access/visibility.go]. *)
From S2P Require Import Prelude GoStrings GoCrypto Models.

(** ** strutil *)

(** [strutil.Contains] and [slices.Contains] on strings *)
Definition sContains (values : list string) (want : string) : bool :=
  existsb (λ v, v =s want) values.

Definition Intersects (a b : list string) : bool :=
  let set : gset string := list_to_set a in
  existsb (λ v, bool_decide (v ∈ set)) b.

Definition AsString (v : Any) : string := match v with AString s => s | _ => "" end.

(** The nil slice for a value that is no array. *)
Definition AsStringSlice (v : Any) : list string :=
  match v with
  | AArray raw => omap (λ item, match item with AString s => Some s | _ => None end) raw
  | _ => []
  end.

(** ** dataobj *)

Definition Methods (kind : ObjectKind) : list string :=
  if kind =s ObjectKindStorage then ["search"; "get"; "save"; "delete"]
  else if kind =s ObjectKindVariable then ["set"; "get"]
  else if kind =s ObjectKindCounter then ["set"; "get"; "increase"; "decrease"]
  else if kind =s ObjectKindTable then ["query"]
  else if kind =s ObjectKindQueue then ["enqueue"; "dequeue"; "peek"; "size"]
  else if kind =s ObjectKindBus then ["produce"; "consume"; "subscribe"]
  else if kind =s ObjectKindSecureBus then
    ["policy"; "publish"; "attest"; "verify"; "consume"; "subscribe"; "keys"]
  else if kind =s ObjectKindSchedule then ["set"; "get"; "list"]
  else if kind =s ObjectKindLog then ["add"; "tail"]
  else if kind =s ObjectKindGit then
    ["init"; "clone"; "add"; "commit"; "status"; "log"; "diff";
     "branch"; "checkout"; "fetch"; "pull"; "push"; "tag"; "show"; "remote"]
  else [].

Definition HasMethod (kind : ObjectKind) (method : string) : bool :=
  existsb (λ m, m =s method) (Methods kind).

Definition IsMutating (method : string) : bool :=
  negb (sContains ["get"; "search"; "peek"; "size"; "list"; "tail"; "status"; "log"; "diff"; "show";
                   "consume"; "subscribe"; "policy"; "verify"; "keys"] method).

Definition ValidKind (kind : ObjectKind) : bool := (0 <? length (Methods kind))%nat.

(** ** domainerr *)

Definition ErrForbidden : error := Sentinel "domainerr" "forbidden".
Definition ErrNotFound : error := Sentinel "domainerr" "not found".
Definition ErrRateLimited : error := Sentinel "domainerr" "rate limited".
Definition ErrUnknownMethod : error := Sentinel "domainerr" "unknown method".

Definition HTTPStatus (err : error) : Z :=
  if errors_Is err ErrForbidden then 403
  else if errors_Is err ErrNotFound then 404
  else if errors_Is err ErrRateLimited then 429
  else 400.

Definition JSONRPCCode (err : error) : Z :=
  if errors_Is err ErrForbidden then -32001
  else if errors_Is err ErrNotFound then -32002
  else if errors_Is err ErrRateLimited then -32003
  else if errors_Is err ErrUnknownMethod then -32601
  else -32000.

(** ** policy/access_filter.go *)

Definition CanRead (p : Principal) (d : DocumentRecord) : bool :=
  if d.(DocumentRecord_Visibility) =s VisibilityPublic then true
  else if d.(DocumentRecord_Visibility) =s VisibilityPersonal then
    d.(DocumentRecord_OwnerID) =s p.(Principal_UserID)
  else if d.(DocumentRecord_Visibility) =s VisibilityGroup then
    Intersects d.(DocumentRecord_GroupIDs) p.(Principal_Groups)
    || (d.(DocumentRecord_OwnerID) =s p.(Principal_UserID))
  else false.

Definition CanWrite (p : Principal) (visibility : Visibility) (groupIDs : list string) : bool :=
  if visibility =s VisibilityPublic then sContains p.(Principal_Scopes) "knowledge.write.public"
  else if visibility =s VisibilityPersonal then true
  else if visibility =s VisibilityGroup then Intersects groupIDs p.(Principal_Groups)
  else false.

Definition CanDelete (p : Principal) (d : DocumentRecord) : bool :=
  if d.(DocumentRecord_OwnerID) =s p.(Principal_UserID) then true
  else if d.(DocumentRecord_Visibility) =s VisibilityPublic then
    sContains p.(Principal_Scopes) "knowledge.delete.public"
  else if d.(DocumentRecord_Visibility) =s VisibilityGroup then
    sContains p.(Principal_Scopes) "knowledge.delete.group"
  else false.

(** ** access/visibility.go *)

Definition CanWriteVisibility (p : Principal) (visibility : Visibility) (groupIDs : list string) : bool :=
  if visibility =s VisibilityPublic then
    sContains p.(Principal_Scopes) "knowledge.write.public"
    || sContains p.(Principal_Scopes) "platform_admin"
  else if visibility =s VisibilityPersonal then true
  else if visibility =s VisibilityGroup then Intersects groupIDs p.(Principal_Groups)
  else false.

Definition ownsDocument (p : Principal) (d : DocumentRecord) : bool :=
  if d.(DocumentRecord_OwnerID) =s "" then false
  else (d.(DocumentRecord_OwnerID) =s p.(Principal_UserID))
       || (d.(DocumentRecord_OwnerID) =s SubjectKeyForPrincipal p).

Definition CanDeleteDocument (p : Principal) (d : DocumentRecord) : bool :=
  if ownsDocument p d then true
  else if d.(DocumentRecord_Visibility) =s VisibilityPublic then
    sContains p.(Principal_Scopes) "knowledge.delete.public"
    || sContains p.(Principal_Scopes) "platform_admin"
  else if d.(DocumentRecord_Visibility) =s VisibilityGroup then
    sContains p.(Principal_Scopes) "knowledge.delete.group"
  else false.

(** ** Lemmas *)

Lemma sContains_spec l x : sContains l x = true ↔ x ∈ l.
Proof.
  unfold sContains. rewrite existsb_elem_of. split.
  - intros (y & Hy & ->%String.eqb_eq). done.
  - intros Hx. exists x. by rewrite String.eqb_refl.
Qed.

Lemma sContains_false l x : sContains l x = false ↔ x ∉ l.
Proof. rewrite <- sContains_spec. by destruct (sContains l x). Qed.

#[export] Instance elem_of_list_string_dec (x : string) (l : list string) : Decision (x ∈ l).
Proof.
  refine (cast_if (decide (sContains l x = true))); by rewrite <- sContains_spec.
Defined.

Lemma HasMethod_spec kind m : HasMethod kind m = true ↔ m ∈ Methods kind.
Proof. apply sContains_spec. Qed.

Lemma Intersects_spec a b : Intersects a b = true ↔ ∃ x, x ∈ a ∧ x ∈ b.
Proof.
  unfold Intersects. rewrite existsb_elem_of. split.
  - intros (x & Hb & Ha%bool_decide_eq_true_1%elem_of_list_to_set). eauto.
  - intros (x & Ha & Hb). exists x. split; [done|].
    apply bool_decide_eq_true_2. by apply elem_of_list_to_set.
Qed.

(** A kind that has a method is one of the ten kinds of the data plane. *)
Lemma Methods_kinds kind m : m ∈ Methods kind →
  kind ∈ [ObjectKindStorage; ObjectKindVariable; ObjectKindCounter; ObjectKindTable; ObjectKindQueue;
          ObjectKindBus; ObjectKindSecureBus; ObjectKindSchedule; ObjectKindLog; ObjectKindGit].
Proof.
  unfold Methods. intros Hm.
  repeat (case_match; [go_bool; subst; apply sContains_spec; reflexivity|]).
  by apply elem_of_nil in Hm.
Qed.
