(* ===== verification/AccessState.v ===== *)
(** [internal/access/store.go]: the state of the access store, its Postgres
    backend as a parameter, and the operations on users, groups and the audit
    log. The store keeps everything in maps when it has no database
    ([useDB = false]); with a database every operation is a statement.

    The database is a service outside the repository: [Postgres] is a class
    with an abstract state, one [stmt] constructor per SQL statement the code
    executes (with its bound arguments) and one query function per kind of
    row. Nothing is assumed of it. [tx.Rollback] of a transaction that was not
    committed leaves the state as it was before [pool.Begin]. *)
From S2P Require Import Prelude GoStrings GoCrypto Models DataObj.

(** ** Statements *)

Inductive stmt :=
(* users *)
| UpsertSeenUser (u : User)            (* ... DO UPDATE SET email, display_name, status, last_seen_at *)
| UpsertUser (u : User)                (* ... DO UPDATE SET email, display_name, status *)
| UpdateUserRow (email display status id : string)
| UpdatePasswordHash (hash id : string)
| DeleteUserRows (id : string)         (* memberships, then the user *)
(* groups *)
| UpsertGroup (g : Group)              (* ... DO UPDATE SET name, sync_status, last_synced_at *)
| DeleteGroupRows (id : string)
| UpsertMembership (m : GroupMembership)
| DeleteMembership (groupID userID : string)
(* storages and their ACL *)
| InsertStorage (s : Storage)
| InsertStorageIfAbsent (s : Storage)  (* ON CONFLICT (id) DO NOTHING *)
| DeleteStorageRows (id : string)      (* acl bindings, token scopes, the storage *)
| DeleteStorageRow (id : string)
| ArchiveStorageRow (id : string) (status : StorageStatus) (at_ : Time)
| InsertACLIfAbsent (b : ACLBinding)   (* ON CONFLICT DO NOTHING *)
| UpsertACLRow (b : ACLBinding)        (* ... DO UPDATE SET granted_by, expires_at *)
| DeleteACLRow (storageID subjectKey : string) (role : StorageRole)
(* objects and their ACL *)
| InsertObject (o : DataObject)
| DeleteObjectRow (id : string)
| UpdateObjectConfigRow (id : string) (config : gmap string Any) (at_ : Time)
| InsertObjectACLIfAbsent (b : ObjectACLBinding)
| UpsertObjectACLRow (b : ObjectACLBinding)
| InsertCounterMeta (objectID : string) (at_ : Time)
| CreateSchemaStmt (schema : string)
| CreateTableStmt (schema table : string)
| CreateRoleStmt (role : string)
| GrantSchemaUsage (schema role : string)
| GrantTable (schema table role : string)
| InsertTableRegistry (objectID schema table : string) (at_ : Time)
(* tokens *)
| InsertTokenRow (t : AccessToken)
| UpsertTokenStorage (sc : AccessTokenStorage)
| UpsertTokenObject (sc : AccessTokenObject)
| InsertTokenStorage (sc : AccessTokenStorage)
| InsertTokenObject (sc : AccessTokenObject)
| DeleteTokenStorages (tokenID : string)
| DeleteTokenObjects (tokenID : string)
| RevokeTokenRow (at_ : Time) (id : string)
| DeleteTokenRows (id : string)        (* mcp scopes, storage scopes, the token *)
| UpdateRateLimitRow (p : RateLimitPolicy) (id : string)
| MarkTokenUsedRow (at_ : Time) (id : string)
(* roles and audit *)
| GrantRoleToCurrentUser (role : string)
| InsertDataPlaneRole (role kind subjectKey tokenID : string) (at_ : Time)
| DropRoleStmt (role : string)
| DeleteDataPlaneRole (role : string)
| InsertAudit (e : AuditEvent).

Inductive user_query := UserByID (id : string) | UserBySubject (key : string) | UserByLogin (name : string).
Inductive storage_query := StorageWithSlug (slug : string) | StorageWithID (id : string).
Inductive token_query := TokenWithHash (hash : string) | TokenWithID (id : string).
Inductive acl_query := ACLOfStorage (id : string) | ACLOfSubjects (keys : list string).

(** What narrows a listing to candidates before the access rules apply. *)
Record AccessibleStorageFilter := mkFilter {
  Filter_SubjectKeys : list string;
  Filter_PlatformAdmin : bool;
  Filter_HasToken : bool;
  Filter_TokenStorageIDs : list string
}.

Record TokenStorageAccess := mkTokenStorageAccess {
  TSA_TokenID : string;
  TSA_TokenName : string;
  TSA_OwnerSubjectKey : string;
  TSA_TokenMode : AccessMode;
  TSA_StorageID : string;
  TSA_MaxMode : AccessMode;
  TSA_ToolAllowlist : list string;
  TSA_CreatedAt : Time
}.

(** A row query gives no row as [None]; an error comes with the zero value. *)
Class Postgres := {
  DB : Type;
  pg_exec : stmt → DB → DB * option error;
  pg_begin : DB → option error;
  pg_commit : DB → option error;
  pg_user : user_query → DB → ret (option User);
  pg_users : DB → ret (list User);
  pg_password_hash : string → DB → ret (option string);
  pg_groups : DB → ret (list Group);
  pg_members : string → DB → ret (list GroupMembership);
  pg_storage : storage_query → DB → ret (option Storage);
  pg_storages : DB → ret (list Storage);
  pg_accessible_storages : AccessibleStorageFilter → DB → ret (list Storage);
  pg_acl : acl_query → DB → ret (list ACLBinding);
  pg_object : string → DB → ret (option DataObject);
  pg_objects : ObjectKind → DB → ret (list DataObject);
  pg_object_acl : acl_query → DB → ret (list ObjectACLBinding);
  pg_token : token_query → DB → ret (option AccessToken);
  pg_tokens : DB → ret (list AccessToken);
  pg_token_storages : string → DB → ret (list AccessTokenStorage);
  pg_token_objects : string → DB → ret (list AccessTokenObject);
  pg_token_access : string → DB → ret (list TokenStorageAccess);
  pg_audit : DB → ret (list AuditEvent)
}.

(** A database that answers nothing, for evaluating the in-memory store. *)
Definition no_postgres : Postgres := {|
  DB := unit;
  pg_exec := λ _ d, (d, None);
  pg_begin := λ _, None;
  pg_commit := λ _, None;
  pg_user := λ _ _, ok None;
  pg_users := λ _, ok [];
  pg_password_hash := λ _ _, ok None;
  pg_groups := λ _, ok [];
  pg_members := λ _ _, ok [];
  pg_storage := λ _ _, ok None;
  pg_storages := λ _, ok [];
  pg_accessible_storages := λ _ _, ok [];
  pg_acl := λ _ _, ok [];
  pg_object := λ _ _, ok None;
  pg_objects := λ _ _, ok [];
  pg_object_acl := λ _ _, ok [];
  pg_token := λ _ _, ok None;
  pg_tokens := λ _, ok [];
  pg_token_storages := λ _ _, ok [];
  pg_token_objects := λ _ _, ok [];
  pg_token_access := λ _ _, ok [];
  pg_audit := λ _, ok []
|}.

(** [golang.org/x/crypto/bcrypt]: hashing with a random salt, and the check. *)
Class Bcrypt := {
  bcrypt_generate : option string → string → ret string;
  bcrypt_matches : string → string → bool
}.

(** ** State *)

Record Store `{Postgres} := mkStore {
  s_users : gmap string User;
  s_groups : gmap string Group;
  s_memberships : list GroupMembership;
  s_storages : gmap string Storage;
  s_objects : gmap string DataObject;
  s_acl : gmap string ACLBinding;
  s_objectACL : gmap string ObjectACLBinding;
  s_tokens : gmap string AccessToken;
  s_tokenByHash : gmap string string;
  s_tokenScopes : list AccessTokenStorage;
  s_tokenObjectScopes : list AccessTokenObject;
  s_audit : list AuditEvent;
  s_db : DB;
  s_useDB : bool
}.
#[export] Instance settable_Store `{Postgres} : Settable Store := λ s,
  mkStore _ s.(s_users) s.(s_groups) s.(s_memberships) s.(s_storages) s.(s_objects) s.(s_acl)
    s.(s_objectACL) s.(s_tokens) s.(s_tokenByHash) s.(s_tokenScopes) s.(s_tokenObjectScopes)
    s.(s_audit) s.(s_db) s.(s_useDB).

Section Store.
Context `{Postgres, GoRange, Bcrypt}.
Implicit Types (s : Store) (e : Env).

(** The database value is unused here, but the record has the field. *)
Definition NewInMemoryStore (d : DB) : Store :=
  mkStore _ ∅ ∅ [] ∅ ∅ ∅ ∅ ∅ ∅ [] [] [] d false.

Definition NewStoreWithPool (d : DB) : Store := (NewInMemoryStore d) <| s_useDB := true |>.

(** [s.pool.Exec] *)
Definition exec s (q : stmt) : Store * option error :=
  let '(d, err) := pg_exec q s.(s_db) in (s <| s_db := d |>, err).

(** [tx.Exec] of several statements in order, stopping at the first error. *)
Fixpoint tx_run (qs : list stmt) (d : DB) : DB * option error :=
  match qs with
  | [] => (d, None)
  | q :: qs' =>
      let '(d', err) := pg_exec q d in
      match err with Some _ => (d', err) | None => tx_run qs' d' end
  end.

(** [pool.Begin], the body, [tx.Commit]; any failure rolls back. *)
Definition with_tx s (body : DB → DB * option error) : Store * option error :=
  match pg_begin s.(s_db) with
  | Some err => (s, Some err)
  | None =>
      let '(d, err) := body s.(s_db) in
      match err with
      | Some _ => (s, err)
      | None =>
          match pg_commit d with
          | Some err => (s, Some err)
          | None => (s <| s_db := d |>, None)
          end
      end
  end.

(** ** Helpers of the file *)

Definition HashToken (raw : string) : string := hex_encode (Sum256 raw).

Definition subjectID (subject : string) : string := take_bytes 24 (hex_encode (Sum256 subject)).

Definition sourceOf (p : Principal) : string :=
  if p.(Principal_AuthSource) <>s "" then p.(Principal_AuthSource) else "internal".

Definition zeroTime (v fallback : Time) : Time := if IsZero v then fallback else v.

Definition newRawToken e : ret string :=
  match rnd e 0 with
  | None => fails "" (NewError "rand")
  | Some buf => ok ("syna_" +:+ hex_encode buf)
  end.

Definition dedupe_step (acc : gset string * list string) (v : string) : gset string * list string :=
  let '(seen, out) := acc in
  let v := TrimSpace v in
  if v =s "" then acc
  else if bool_decide (v ∈ seen) then acc
  else ({[v]} ∪ seen, out ++ [v]).
Definition dedupe (l : list string) : list string := (foldl dedupe_step (∅, []) l).2.

Definition SubjectKeys (p : Principal) : list string :=
  dedupe (SubjectKeyForPrincipal p :: "all:authenticated" :: GroupSubjectKeysForPrincipal p).

(** ** Users *)

Definition UpsertUserFromPrincipal e s (p : Principal) : Store * ret User :=
  let subject := SubjectKeyForPrincipal p in
  let user := mkUser (subjectID subject) subject (sourceOf p) p.(Principal_Issuer)
    p.(Principal_UserID) p.(Principal_Email) p.(Principal_Email) "active" "" (now e 0) (now e 0) in
  if s.(s_useDB) then
    let '(s', err) := exec s (UpsertSeenUser user) in (s', (user, err))
  else
    let user := match s.(s_users) !! user.(User_ID) with
                | Some existing => user <| User_CreatedAt := existing.(User_CreatedAt) |>
                | None => user
                end in
    (s <| s_users := <[user.(User_ID) := user]> s.(s_users) |>, ok user).

(** The defaults [CreateUser] fills in. *)
Definition completeUser e (user : User) : User :=
  let user := if user.(User_ID) =s "" then
                if user.(User_SubjectKey) <>s ""
                then user <| User_ID := subjectID user.(User_SubjectKey) |>
                else user <| User_ID := uuid e 0 |>
              else user in
  let user := if user.(User_Source) =s "" then user <| User_Source := "internal" |> else user in
  let user := if user.(User_ExternalSubject) =s ""
              then user <| User_ExternalSubject := user.(User_ID) |> else user in
  let user := if user.(User_SubjectKey) =s ""
              then user <| User_SubjectKey := Key (mkSubjectRef SubjectUser user.(User_Source)
                     user.(User_Issuer) user.(User_ExternalSubject)) |> else user in
  let user := if user.(User_DisplayName) =s ""
              then user <| User_DisplayName := user.(User_Email) |> else user in
  let user := if user.(User_Status) =s "" then user <| User_Status := "active" |> else user in
  let user := if IsZero user.(User_CreatedAt) then user <| User_CreatedAt := now e 0 |> else user in
  if IsZero user.(User_LastSeenAt) then user <| User_LastSeenAt := now e 0 |> else user.

Definition CreateUser e s (user0 : User) : Store * ret User :=
  let user := completeUser e user0 in
  if s.(s_useDB) then let '(s', err) := exec s (UpsertUser user) in (s', (user, err))
  else (s <| s_users := <[user.(User_ID) := user]> s.(s_users) |>, ok user).

Definition ListUsers s : ret (list User) :=
  if s.(s_useDB) then pg_users s.(s_db)
  else ok (sort_by (λ a b, After a.(User_LastSeenAt) b.(User_LastSeenAt)) (range_vals s.(s_users))).

Definition GetUser s (userID : string) : ret (option User) :=
  if s.(s_useDB) then pg_user (UserByID userID) s.(s_db) else ok (s.(s_users) !! userID).

Definition UserBySubjectKey s (subjectKey : string) : ret (option User) :=
  if s.(s_useDB) then pg_user (UserBySubject subjectKey) s.(s_db)
  else ok (List.find (λ u, u.(User_SubjectKey) =s subjectKey) (range_vals s.(s_users))).

Definition UpdateUser s (userID : string) (patch : User) : Store * ret User :=
  match GetUser s userID with
  | (_, Some err) => (s, fails zeroval err)
  | (None, None) => (s, fails zeroval (NewError "user not found"))
  | (Some existing, None) =>
      let u := if patch.(User_Email) <>s ""
               then existing <| User_Email := patch.(User_Email) |> else existing in
      let u := if patch.(User_DisplayName) <>s ""
               then u <| User_DisplayName := patch.(User_DisplayName) |> else u in
      let u := if patch.(User_Status) <>s "" then u <| User_Status := patch.(User_Status) |> else u in
      if s.(s_useDB) then
        let '(s', err) := exec s
          (UpdateUserRow u.(User_Email) u.(User_DisplayName) u.(User_Status) u.(User_ID)) in
        (s', (u, err))
      else (s <| s_users := <[u.(User_ID) := u]> s.(s_users) |>, ok u)
  end.

Definition SetUserPassword e s (userID password : string) : Store * option error :=
  if password =s "" then (s, Some (NewError "password is required"))
  else match bcrypt_generate (rnd e 0) password with
  | (_, Some err) => (s, Some err)
  | (hash, None) =>
      if s.(s_useDB) then exec s (UpdatePasswordHash hash userID)
      else match s.(s_users) !! userID with
      | None => (s, Some (NewError "user not found"))
      | Some user =>
          (s <| s_users := <[userID := user <| User_PasswordHash := hash |>]> s.(s_users) |>, None)
      end
  end.

Definition userPasswordHash s (userID : string) : ret string :=
  if s.(s_useDB) then
    match pg_password_hash userID s.(s_db) with
    | (None, None) => fails "" (NewError "user not found")
    | (o, err) => (default "" o, err)
    end
  else match s.(s_users) !! userID with
  | None => fails "" (NewError "user not found")
  | Some user => ok user.(User_PasswordHash)
  end.

Definition CheckUserPassword s (userID password : string) : ret bool :=
  match userPasswordHash s userID with
  | (_, Some err) => fails false err
  | (hash, None) => if hash =s "" then ok false else ok (bcrypt_matches hash password)
  end.

Definition HasUserPassword s (userID : string) : ret bool :=
  let '(hash, err) := userPasswordHash s userID in (hash <>s "", err).

Definition AuthenticateUser s (username password : string) : ret (option User) :=
  if (username =s "") || (password =s "") then ok None
  else if s.(s_useDB) then
    match pg_user (UserByLogin username) s.(s_db) with
    | (_, Some err) => fails None err
    | (None, None) => ok None
    | (Some u, None) =>
        if (u.(User_PasswordHash) =s "") || negb (bcrypt_matches u.(User_PasswordHash) password)
        then ok None else ok (Some u)
    end
  else
    match List.find (λ u, (u.(User_Status) =s "active")
                       && ((u.(User_Email) =s username) || (u.(User_ID) =s username)
                           || (u.(User_ExternalSubject) =s username))) (range_vals s.(s_users)) with
    | None => ok None
    | Some u =>
        if (u.(User_PasswordHash) <>s "") && bcrypt_matches u.(User_PasswordHash) password
        then ok (Some u) else ok None
    end.

Definition DeleteUser s (userID : string) : Store * option error :=
  if s.(s_useDB) then exec s (DeleteUserRows userID)
  else (s <| s_users := delete userID s.(s_users) |>
          <| s_memberships := List.filter (λ m, m.(GroupMembership_UserID) <>s userID) s.(s_memberships) |>,
        None).

(** ** Groups *)

(** The defaults [CreateGroup] fills in. *)
Definition completeGroup e (g : Group) : Group :=
  let g := if g.(Group_ID) =s "" then g <| Group_ID := uuid e 0 |> else g in
  let g := if g.(Group_Source) =s "" then g <| Group_Source := "internal" |> else g in
  let g := if g.(Group_ManagedBy) =s "" then g <| Group_ManagedBy := "internal" |> else g in
  let g := if g.(Group_SubjectKey) =s ""
           then g <| Group_SubjectKey := Key (mkSubjectRef SubjectGroup g.(Group_Source)
                       g.(Group_Issuer) g.(Group_ID)) |> else g in
  if IsZero g.(Group_CreatedAt) then g <| Group_CreatedAt := now e 0 |> else g.

Definition CreateGroup e s (g0 : Group) : Store * ret Group :=
  let g := completeGroup e g0 in
  if s.(s_useDB) then let '(s', err) := exec s (UpsertGroup g) in (s', (g, err))
  else (s <| s_groups := <[g.(Group_ID) := g]> s.(s_groups) |>, ok g).

Definition ListGroups s : ret (list Group) :=
  if s.(s_useDB) then pg_groups s.(s_db)
  else ok (sort_by (λ a b, sless a.(Group_Name) b.(Group_Name)) (range_vals s.(s_groups))).

Definition DeleteGroup s (groupID : string) : Store * option error :=
  if s.(s_useDB) then exec s (DeleteGroupRows groupID)
  else (s <| s_groups := delete groupID s.(s_groups) |>
          <| s_memberships := List.filter (λ m, m.(GroupMembership_GroupID) <>s groupID) s.(s_memberships) |>,
        None).

Definition AddGroupMember e s (groupID userID source : string) : Store * option error :=
  let source := if source =s "" then "internal" else source in
  let m := mkGroupMembership groupID userID source (now e 0) None in
  if s.(s_useDB) then exec s (UpsertMembership m)
  else (s <| s_memberships := s.(s_memberships) ++ [m] |>, None).

Definition RemoveGroupMember s (groupID userID : string) : Store * option error :=
  if s.(s_useDB) then exec s (DeleteMembership groupID userID)
  else (s <| s_memberships := List.filter (λ m, negb ((m.(GroupMembership_GroupID) =s groupID)
                && (m.(GroupMembership_UserID) =s userID))) s.(s_memberships) |>, None).

Definition ListGroupMembers s (groupID : string) : ret (list GroupMembership) :=
  if s.(s_useDB) then pg_members groupID s.(s_db)
  else ok (List.filter (λ m, m.(GroupMembership_GroupID) =s groupID) s.(s_memberships)).

(** ** Audit *)

Definition RecordAudit e s (event : AuditEvent) : Store * option error :=
  let event := if event.(AuditEvent_ID) =s "" then event <| AuditEvent_ID := uuid e 0 |> else event in
  let event := if IsZero event.(AuditEvent_CreatedAt)
               then event <| AuditEvent_CreatedAt := now e 0 |> else event in
  if s.(s_useDB) then exec s (InsertAudit event)
  else (s <| s_audit := s.(s_audit) ++ [event] |>, None).

Definition ListAudit s : ret (list AuditEvent) :=
  if s.(s_useDB) then pg_audit s.(s_db)
  else ok (sort_by (λ a b, After a.(AuditEvent_CreatedAt) b.(AuditEvent_CreatedAt)) s.(s_audit)).

End Store.
