(* ===== verification/AccessObjects.v ===== *)
(** The rest of the access store: [internal/access/objects.go] (data objects,
    data-plane roles, object scopes of tokens) and the storage, ACL and token
    operations of [internal/access/store.go]. *)
From S2P Require Import Prelude GoStrings GoCrypto Models DataObj AccessState.

(** ** Identifiers of the data plane *)

Definition ident_rune (c : Z) : bool := is_lower c || is_digit c || (c =? 95)%Z.

Definition safeRoleName (name : string) : bool :=
  if (name =s "") || (63 <? slen name)%Z then false
  else if forallb ident_rune (runes name) then HasPrefix name "syna_"
  else false.

Definition tableSchemaName (objectID : string) : string :=
  let sanitized := Map (λ r, if is_lower r || is_digit r then r
                             else if is_upper r then (r + 32)%Z else 95%Z) objectID in
  let name := "syna_t_" +:+ sanitized in
  if (63 <? slen name)%Z then take_bytes 63 name else name.

Definition safeIdent (name : string) : bool :=
  if (name =s "") || (63 <? slen name)%Z then false
  else match runes name with
       | [] => true
       | c :: _ => is_lower c && forallb ident_rune (runes name)
       end.

Definition roleNameForSubject (subjectKey : string) : string := "syna_user_" +:+ subjectID subjectKey.

(** [unicode_lower]: [unicode.ToLower] beyond ASCII. *)
Definition roleNameForToken (unicode_lower : Z → Z) (tokenID : string) : string :=
  let sanitized := Map (λ r, if ident_rune r then r else 95%Z) (ToLower unicode_lower tokenID) in
  let name := "syna_tok_" +:+ sanitized in
  if (63 <? slen name)%Z then take_bytes 63 name else name.

(** ** Storages as objects *)

Definition storageFromObject (obj : DataObject) : Storage :=
  mkStorage obj.(DataObject_ID) obj.(DataObject_Slug) obj.(DataObject_Name)
    obj.(DataObject_OwnerSubjectKey) obj.(DataObject_Visibility) obj.(DataObject_DefaultAccess)
    StorageKindKnowledge obj.(DataObject_S3Bucket) obj.(DataObject_S3Prefix) obj.(DataObject_Status)
    obj.(DataObject_CreatedAt) obj.(DataObject_UpdatedAt) obj.(DataObject_ArchivedAt).

Definition objectFromStorage (st : Storage) : DataObject :=
  mkDataObject st.(Storage_ID) ObjectKindStorage st.(Storage_Slug) st.(Storage_Name)
    st.(Storage_OwnerSubjectKey) st.(Storage_Visibility) st.(Storage_DefaultAccess)
    st.(Storage_Status) "postgres" (Some ∅) st.(Storage_S3Bucket) st.(Storage_S3Prefix)
    st.(Storage_CreatedAt) st.(Storage_UpdatedAt) st.(Storage_ArchivedAt).

(** The object scope that stands for a legacy storage scope of a token. *)
Definition tokenObjectOfStorage (sc : AccessTokenStorage) : AccessTokenObject :=
  mkAccessTokenObject sc.(AccessTokenStorage_TokenID) sc.(AccessTokenStorage_StorageID)
    sc.(AccessTokenStorage_MaxMode) sc.(AccessTokenStorage_ToolAllowlist)
    sc.(AccessTokenStorage_CreatedAt).

Section Objects.
Context `{Postgres, GoRange}.
Context (unicode_lower : Z → Z).
Implicit Types (s : Store) (e : Env).

(** ** Roles (database only) *)

Definition EnsureUserRole e s (subjectKey : string) : Store * option error :=
  if negb s.(s_useDB) || (subjectKey =s "") then (s, None)
  else
    let role := roleNameForSubject subjectKey in
    let '(s, err) := exec s (CreateRoleStmt role) in
    match err with
    | Some _ => (s, err)
    | None =>
        let '(s, _) := exec s (GrantRoleToCurrentUser role) in
        let '(s, _) := exec s (InsertDataPlaneRole role "user" subjectKey "" (now e 0)) in
        (s, None)
    end.

Definition EnsureTokenRole e s (tokenID subjectKey : string) : Store * option error :=
  if negb s.(s_useDB) || (tokenID =s "") then (s, None)
  else
    let role := roleNameForToken unicode_lower tokenID in
    let '(s, err) := exec s (CreateRoleStmt role) in
    match err with
    | Some _ => (s, err)
    | None =>
        let '(s, _) := exec s (GrantRoleToCurrentUser role) in
        let '(s, _) := exec s (InsertDataPlaneRole role "token" subjectKey tokenID (now e 0)) in
        (s, None)
    end.

Definition DropTokenRole s (tokenID : string) : Store * option error :=
  if negb s.(s_useDB) || (tokenID =s "") then (s, None)
  else
    let role := roleNameForToken unicode_lower tokenID in
    let '(s, _) := exec s (DropRoleStmt role) in
    let '(s, _) := exec s (DeleteDataPlaneRole role) in
    (s, None).

Definition DataPlaneRoleName (p : Principal) (token : option AccessToken) : string :=
  match token with
  | Some t => roleNameForToken unicode_lower t.(AccessToken_ID)
  | None => roleNameForSubject (SubjectKeyForPrincipal p)
  end.

(** ** Reading storages *)

Definition StorageBySlug s (slug : string) : ret (option Storage) :=
  if s.(s_useDB) then pg_storage (StorageWithSlug slug) s.(s_db)
  else ok (List.find (λ st, st.(Storage_Slug) =s slug) (range_vals s.(s_storages))).

Definition GetStorage s (id : string) : ret (option Storage) :=
  if s.(s_useDB) then pg_storage (StorageWithID id) s.(s_db) else ok (s.(s_storages) !! id).

Definition ListStorages s : ret (list Storage) :=
  if s.(s_useDB) then pg_storages s.(s_db)
  else ok (sort_by (λ a b, After a.(Storage_UpdatedAt) b.(Storage_UpdatedAt)) (range_vals s.(s_storages))).

(** ** Objects *)

(** [tx.Exec] whose error is discarded. *)
Definition tx_ignore (q : stmt) (d : DB) : DB := (pg_exec q d).1.

Definition provisionObjectBackend e (obj : DataObject) (d : DB) : DB * option error :=
  if obj.(DataObject_Kind) =s ObjectKindCounter then
    pg_exec (InsertCounterMeta obj.(DataObject_ID) (now e 1)) d
  else if obj.(DataObject_Kind) =s ObjectKindTable then
    let schema := tableSchemaName obj.(DataObject_ID) in
    let table := "data" in
    if negb (safeIdent schema) || negb (safeIdent table)
    then (d, Some (NewError "invalid table identifiers"))
    else
      let '(d, err) := tx_run [CreateSchemaStmt schema; CreateTableStmt schema table] d in
      match err with
      | Some _ => (d, err)
      | None =>
          let ownerRole := roleNameForSubject obj.(DataObject_OwnerSubjectKey) in
          let d := if safeRoleName ownerRole then
                     tx_ignore (GrantTable schema table ownerRole)
                       (tx_ignore (GrantSchemaUsage schema ownerRole)
                         (tx_ignore (CreateRoleStmt ownerRole) d))
                   else d in
          pg_exec (InsertTableRegistry obj.(DataObject_ID) schema table (now e 1)) d
      end
  else (d, None).

(** The defaults [CreateObject] fills in. *)
Definition completeObject e (obj : DataObject) : DataObject :=
  let obj := if obj.(DataObject_ID) =s "" then obj <| DataObject_ID := uuid e 0 |> else obj in
  let obj := if obj.(DataObject_Slug) =s ""
             then obj <| DataObject_Slug := obj.(DataObject_ID) |> else obj in
  let obj := if obj.(DataObject_Name) =s ""
             then obj <| DataObject_Name := obj.(DataObject_Slug) |> else obj in
  let obj := if obj.(DataObject_Status) =s ""
             then obj <| DataObject_Status := StorageStatusActive |> else obj in
  let obj := if obj.(DataObject_Visibility) =s ""
             then obj <| DataObject_Visibility := VisibilityPersonal |> else obj in
  let obj := if obj.(DataObject_DefaultAccess) =s ""
             then obj <| DataObject_DefaultAccess := AccessModeNone |> else obj in
  let obj := if obj.(DataObject_Backend) =s ""
             then obj <| DataObject_Backend := "postgres" |> else obj in
  let obj := match obj.(DataObject_Config) with
             | None => obj <| DataObject_Config := Some ∅ |> | Some _ => obj end in
  let obj := if obj.(DataObject_S3Prefix) =s ""
             then obj <| DataObject_S3Prefix := "objects/" +:+ obj.(DataObject_ID) +:+ "/" |> else obj in
  obj <| DataObject_CreatedAt := now e 0 |> <| DataObject_UpdatedAt := now e 0 |>.

Definition aclOfObjectBinding (b : ObjectACLBinding) : ACLBinding :=
  mkACLBinding b.(ObjectACLBinding_ID) b.(ObjectACLBinding_ObjectID) b.(ObjectACLBinding_SubjectKey)
    b.(ObjectACLBinding_Role) b.(ObjectACLBinding_GrantedBy) None b.(ObjectACLBinding_CreatedAt).

Definition CreateObject e s (obj0 : DataObject) (actor : string) : Store * ret DataObject :=
  let obj := completeObject e obj0 in
  if negb (ValidKind obj.(DataObject_Kind)) then
    (s, fails zeroval (NewError ("invalid object kind " +:+ obj.(DataObject_Kind))))
  else
    let binding := mkObjectACLBinding (uuid e 1) obj.(DataObject_ID) obj.(DataObject_OwnerSubjectKey)
                     RoleStorageOwner actor None (now e 0) in
    if negb s.(s_useDB) then
      let s := s <| s_objects := <[obj.(DataObject_ID) := obj]> s.(s_objects) |>
                 <| s_objectACL := <[binding.(ObjectACLBinding_ID) := binding]> s.(s_objectACL) |> in
      let s := if obj.(DataObject_Kind) =s ObjectKindStorage then
                 s <| s_storages := <[obj.(DataObject_ID) := storageFromObject obj]> s.(s_storages) |>
                   <| s_acl := <[binding.(ObjectACLBinding_ID) := aclOfObjectBinding binding]> s.(s_acl) |>
               else s in
      (s, ok obj)
    else
      let '(s, err) := with_tx s (λ d,
        let '(d, err) := tx_run
          ([InsertObject obj; InsertObjectACLIfAbsent binding] ++
           (if obj.(DataObject_Kind) =s ObjectKindStorage then
              [InsertStorageIfAbsent (storageFromObject obj);
               InsertACLIfAbsent (aclOfObjectBinding binding)]
            else [])) d in
        match err with
        | Some _ => (d, err)
        | None => provisionObjectBackend e obj d
        end) in
      match err with
      | Some _ => (s, (zeroval, err))
      | None => let '(s, _) := EnsureUserRole (later 2 e) s obj.(DataObject_OwnerSubjectKey) in (s, ok obj)
      end.

Definition GetObject s (id : string) : ret (option DataObject) :=
  if negb s.(s_useDB) then
    match s.(s_objects) !! id with
    | Some v => ok (Some v)
    | None =>
        match s.(s_storages) !! id with
        | Some st => ok (Some (objectFromStorage st))
        | None => ok None
        end
    end
  else match pg_object id s.(s_db) with
  | (_, Some err) => fails None err
  | (Some obj, None) => ok (Some obj)
  | (None, None) =>
      match GetStorage s id with
      | (_, Some err) => fails None err
      | (None, None) => ok None
      | (Some st, None) => ok (Some (objectFromStorage st))
      end
  end.

Definition ListObjects s (kind : ObjectKind) : ret (list DataObject) :=
  if negb s.(s_useDB) then
    ok (List.filter (λ o, (kind =s "") || (o.(DataObject_Kind) =s kind)) (range_vals s.(s_objects))
        ++ (if (kind =s "") || (kind =s ObjectKindStorage) then
              objectFromStorage <$>
                List.filter (λ st, negb (bool_decide (is_Some (s.(s_objects) !! st.(Storage_ID)))))
                  (range_vals s.(s_storages))
            else []))
  else pg_objects kind s.(s_db).

Definition objectOfACL (b : ACLBinding) : ObjectACLBinding :=
  mkObjectACLBinding b.(ACLBinding_ID) b.(ACLBinding_StorageID) b.(ACLBinding_SubjectKey)
    b.(ACLBinding_Role) b.(ACLBinding_GrantedBy) b.(ACLBinding_ExpiresAt) b.(ACLBinding_CreatedAt).

Definition ObjectACLForSubject s (subjectKeys : list string) : ret (list ObjectACLBinding) :=
  if negb s.(s_useDB) then
    ok (List.filter (λ b, sContains subjectKeys b.(ObjectACLBinding_SubjectKey)) (range_vals s.(s_objectACL))
        ++ (objectOfACL <$>
             List.filter (λ b, sContains subjectKeys b.(ACLBinding_SubjectKey)) (range_vals s.(s_acl))))
  else pg_object_acl (ACLOfSubjects subjectKeys) s.(s_db).

Definition ObjectACLForObject s (objectID : string) : ret (list ObjectACLBinding) :=
  if negb s.(s_useDB) then
    ok (List.filter (λ b, b.(ObjectACLBinding_ObjectID) =s objectID) (range_vals s.(s_objectACL)))
  else pg_object_acl (ACLOfStorage objectID) s.(s_db).

Definition ListAccessibleObjects s (kind : ObjectKind) (f : AccessibleStorageFilter)
    : ret (list DataObject) :=
  match ListObjects s kind with
  | (_, Some err) => fails [] err
  | (all, None) =>
      if f.(Filter_PlatformAdmin) then ok all
      else match ObjectACLForSubject s f.(Filter_SubjectKeys) with
      | (_, Some err) => fails [] err
      | (acl, None) =>
          if f.(Filter_HasToken) then
            ok (List.filter (λ o, sContains f.(Filter_TokenStorageIDs) o.(DataObject_ID)) all)
          else
            let allowed := ObjectACLBinding_ObjectID <$> acl in
            ok (List.filter (λ o, sContains allowed o.(DataObject_ID)) all)
      end
  end.

Definition DeleteObject s (objectID : string) : Store * option error :=
  match GetObject s objectID with
  | (_, Some err) => (s, Some err)
  | (None, None) => (s, None)
  | (Some obj, None) =>
      if negb s.(s_useDB) then
        let s := s <| s_objects := delete objectID s.(s_objects) |>
                   <| s_objectACL := delete_if (λ b, b.(ObjectACLBinding_ObjectID) =s objectID) s.(s_objectACL) |> in
        let s := if obj.(DataObject_Kind) =s ObjectKindStorage
                 then s <| s_storages := delete objectID s.(s_storages) |> else s in
        (s, None)
      else
        let '(s, err) := exec s (DeleteObjectRow objectID) in
        match err with
        | Some _ => (s, err)
        | None =>
            if obj.(DataObject_Kind) =s ObjectKindStorage
            then ((exec s (DeleteStorageRow objectID)).1, None) else (s, None)
        end
  end.

Definition UpdateObjectConfig e s (objectID : string) (config : option (gmap string Any))
    : Store * ret DataObject :=
  match GetObject s objectID with
  | (_, Some err) => (s, fails zeroval err)
  | (None, None) => (s, fails zeroval (NewError "object not found"))
  | (Some obj, None) =>
      let config := default ∅ config in
      let obj := obj <| DataObject_Config := Some config |> <| DataObject_UpdatedAt := now e 0 |> in
      if negb s.(s_useDB) then
        (s <| s_objects := <[objectID := obj]> s.(s_objects) |>, ok obj)
      else
        let '(s, err) := exec s (UpdateObjectConfigRow objectID config obj.(DataObject_UpdatedAt)) in
        match err with
        | Some _ => (s, (zeroval, err))
        | None => (s, ok obj)
        end
  end.

Definition UpsertObjectACL e s (b : ObjectACLBinding) : Store * ret ObjectACLBinding :=
  let b := if b.(ObjectACLBinding_ID) =s "" then b <| ObjectACLBinding_ID := uuid e 0 |> else b in
  let b := if IsZero b.(ObjectACLBinding_CreatedAt)
           then b <| ObjectACLBinding_CreatedAt := now e 0 |> else b in
  if negb s.(s_useDB) then
    (s <| s_objectACL := <[b.(ObjectACLBinding_ID) := b]> s.(s_objectACL) |>, ok b)
  else let '(s, err) := exec s (UpsertObjectACLRow b) in (s, (b, err)).

(** ** Storages *)

(** The defaults [CreateStorage] fills in. *)
Definition completeStorage e (st : Storage) : Storage :=
  let st := if st.(Storage_ID) =s "" then st <| Storage_ID := uuid e 0 |> else st in
  let st := if st.(Storage_Slug) =s "" then st <| Storage_Slug := st.(Storage_ID) |> else st in
  let st := if st.(Storage_Name) =s "" then st <| Storage_Name := st.(Storage_Slug) |> else st in
  let st := if st.(Storage_Kind) =s "" then st <| Storage_Kind := StorageKindKnowledge |> else st in
  let st := if st.(Storage_DefaultAccess) =s ""
            then st <| Storage_DefaultAccess := AccessModeNone |> else st in
  let st := if st.(Storage_Status) =s "" then st <| Storage_Status := StorageStatusActive |> else st in
  let st := if st.(Storage_S3Prefix) =s ""
            then st <| Storage_S3Prefix := "storages/" +:+ st.(Storage_ID) +:+ "/" |> else st in
  st <| Storage_CreatedAt := zeroTime st.(Storage_CreatedAt) (now e 0) |> <| Storage_UpdatedAt := now e 0 |>.

Definition CreateStorage e s (st0 : Storage) (actor : string) : Store * ret Storage :=
  let st := completeStorage e st0 in
  let owner := mkACLBinding (uuid e 1) st.(Storage_ID) st.(Storage_OwnerSubjectKey)
                 RoleStorageOwner actor None (now e 0) in
  if s.(s_useDB) then
    let '(s, err) := with_tx s (tx_run [InsertStorage st; InsertACLIfAbsent owner]) in
    match err with
    | Some _ => (s, (zeroval, err))
    | None =>
        let '(s, _) := CreateObject (later 2 e) s (objectFromStorage st) actor in
        let '(s, _) := EnsureUserRole (later 5 e) s st.(Storage_OwnerSubjectKey) in
        (s, ok st)
    end
  else
    (s <| s_storages := <[st.(Storage_ID) := st]> s.(s_storages) |>
       <| s_acl := <[owner.(ACLBinding_ID) := owner]> s.(s_acl) |>
       <| s_objects := <[st.(Storage_ID) := objectFromStorage st]> s.(s_objects) |>
       <| s_objectACL := <[owner.(ACLBinding_ID) := objectOfACL owner]> s.(s_objectACL) |>, ok st).

Definition personalSlug (p : Principal) : string := "personal-" +:+ subjectID (SubjectKeyForPrincipal p).

Definition EnsurePersonalStorage e s (p : Principal) (bucket : string) : Store * ret Storage :=
  let subject := SubjectKeyForPrincipal p in
  match StorageBySlug s (personalSlug p) with
  | (o, Some err) => (s, (default zeroval o, Some err))
  | (Some existing, None) => (s, ok existing)
  | (None, None) =>
      CreateStorage e s
        (mkStorage "" (personalSlug p) "Personal storage" subject VisibilityPersonal AccessModeNone ""
           bucket "" "" 0 0 None) subject
  end.

(** [listAccessibleStoragesMemory] *)
Definition listAccessibleStoragesMemory e s (f : AccessibleStorageFilter) : list Storage :=
  let subjectSet : gset string := list_to_set f.(Filter_SubjectKeys) in
  let tokenSet : gset string := list_to_set f.(Filter_TokenStorageIDs) in
  let candidateIDs : gset string :=
    if negb f.(Filter_HasToken) && f.(Filter_PlatformAdmin) then dom s.(s_storages)
    else list_to_set (ACLBinding_StorageID <$> List.filter (λ b,
           bool_decide (b.(ACLBinding_SubjectKey) ∈ subjectSet)
           && match b.(ACLBinding_ExpiresAt) with Some t => After t (now e 0) | None => true end
           && (negb f.(Filter_HasToken) || bool_decide (b.(ACLBinding_StorageID) ∈ tokenSet)))
         (range_vals s.(s_acl))) in
  sort_by (λ a b, After a.(Storage_UpdatedAt) b.(Storage_UpdatedAt))
    (omap (λ id, s.(s_storages) !! id) (range_set candidateIDs)).

Definition ListAccessibleStorages e s (f : AccessibleStorageFilter) : ret (list Storage) :=
  if f.(Filter_HasToken) && bool_decide (f.(Filter_TokenStorageIDs) = []) then ok []
  else if s.(s_useDB) then pg_accessible_storages f s.(s_db)
  else ok (listAccessibleStoragesMemory e s f).

Definition DeleteStorage s (storageID : string) : Store * option error :=
  if s.(s_useDB) then exec s (DeleteStorageRows storageID)
  else (s <| s_storages := delete storageID s.(s_storages) |>
          <| s_acl := delete_if (λ b, b.(ACLBinding_StorageID) =s storageID) s.(s_acl) |>
          <| s_tokenScopes :=
               List.filter (λ sc, sc.(AccessTokenStorage_StorageID) <>s storageID) s.(s_tokenScopes) |>, None).

Definition ArchiveStorage e s (storageID : string) : Store * ret Storage :=
  if s.(s_useDB) then
    let '(s, err) := exec s (ArchiveStorageRow storageID StorageStatusArchived (now e 0)) in
    match err with
    | Some _ => (s, (zeroval, err))
    | None =>
        match GetStorage s storageID with
        | (_, Some err) => (s, fails zeroval err)
        | (None, None) => (s, fails zeroval (NewError "storage not found"))
        | (Some st, None) => (s, ok st)
        end
    end
  else match s.(s_storages) !! storageID with
  | None => (s, fails zeroval (NewError "storage not found"))
  | Some st =>
      let st := st <| Storage_Status := StorageStatusArchived |>
                   <| Storage_ArchivedAt := Some (now e 0) |> <| Storage_UpdatedAt := now e 0 |> in
      (s <| s_storages := <[storageID := st]> s.(s_storages) |>, ok st)
  end.

(** ** Storage ACL *)

Definition UpsertACL e s (b : ACLBinding) : Store * ret ACLBinding :=
  let b := if b.(ACLBinding_ID) =s "" then b <| ACLBinding_ID := uuid e 0 |> else b in
  let b := if IsZero b.(ACLBinding_CreatedAt) then b <| ACLBinding_CreatedAt := now e 0 |> else b in
  if s.(s_useDB) then let '(s, err) := exec s (UpsertACLRow b) in (s, (b, err))
  else (s <| s_acl := <[b.(ACLBinding_ID) := b]> s.(s_acl) |>, ok b).

Definition DeleteACL s (storageID subjectKey : string) (role : StorageRole) : Store * option error :=
  if s.(s_useDB) then exec s (DeleteACLRow storageID subjectKey role)
  else (s <| s_acl := delete_if (λ b, (b.(ACLBinding_StorageID) =s storageID)
              && (b.(ACLBinding_SubjectKey) =s subjectKey) && (b.(ACLBinding_Role) =s role)) s.(s_acl) |>, None).

Definition ACLForStorage s (storageID : string) : ret (list ACLBinding) :=
  if s.(s_useDB) then pg_acl (ACLOfStorage storageID) s.(s_db)
  else ok (List.filter (λ b, b.(ACLBinding_StorageID) =s storageID) (range_vals s.(s_acl))).

Definition ACLForSubject s (subjectKeys : list string) : ret (list ACLBinding) :=
  match subjectKeys with
  | [] => ok []
  | _ =>
      if s.(s_useDB) then pg_acl (ACLOfSubjects subjectKeys) s.(s_db)
      else
        let set : gset string := list_to_set subjectKeys in
        ok (List.filter (λ b, bool_decide (b.(ACLBinding_SubjectKey) ∈ set)) (range_vals s.(s_acl)))
  end.

(** ** Tokens *)

Record CreateTokenInput := mkCreateTokenInput {
  In_OwnerSubjectKey : string;
  In_Name : string;
  In_Mode : AccessMode;
  In_StorageScopes : list AccessTokenStorage;
  In_RateLimit : RateLimitPolicy;
  In_ExpiresAt : option Time;
  In_CreatedBy : string
}.

(** What [CreateToken] stores for a requested scope. *)
Definition completeScope (token : AccessToken) (t : Time) (sc : AccessTokenStorage) : AccessTokenStorage :=
  let sc := sc <| AccessTokenStorage_TokenID := token.(AccessToken_ID) |> in
  let sc := if IsZero sc.(AccessTokenStorage_CreatedAt)
            then sc <| AccessTokenStorage_CreatedAt := t |> else sc in
  if sc.(AccessTokenStorage_MaxMode) =s ""
  then sc <| AccessTokenStorage_MaxMode := token.(AccessToken_Mode) |> else sc.

Definition CreateToken e s (inp : CreateTokenInput) : Store * ret (AccessToken * string) :=
  if inp.(In_OwnerSubjectKey) =s "" then
    (s, fails (zeroval, "") (NewError "owner subject key is required"))
  else
    let mode := if inp.(In_Mode) =s "" then AccessModeRead else inp.(In_Mode) in
    match newRawToken e with
    | (_, Some err) => (s, fails (zeroval, "") err)
    | (raw, None) =>
        let name := if inp.(In_Name) =s "" then "MCP token" else inp.(In_Name) in
        let token := mkAccessToken (uuid e 0) inp.(In_OwnerSubjectKey) (HashToken raw) name mode []
                       inp.(In_RateLimit) inp.(In_ExpiresAt) None None inp.(In_CreatedBy) (now e 0) in
        let scopes := completeScope token (now e 0) <$> inp.(In_StorageScopes) in
        if s.(s_useDB) then
          let '(s, err) := with_tx s (tx_run (InsertTokenRow token ::
            concat ((λ sc, [UpsertTokenStorage sc; UpsertTokenObject (tokenObjectOfStorage sc)]) <$> scopes))) in
          match err with
          | Some _ => (s, ((zeroval, ""), err))
          | None =>
              let '(s, _) := EnsureTokenRole (later 1 e) s token.(AccessToken_ID) token.(AccessToken_OwnerSubjectKey) in
              (s, ok (token, raw))
          end
        else
          (s <| s_tokens := <[token.(AccessToken_ID) := token]> s.(s_tokens) |>
             <| s_tokenByHash := <[token.(AccessToken_TokenHash) := token.(AccessToken_ID)]> s.(s_tokenByHash) |>
             <| s_tokenScopes := s.(s_tokenScopes) ++ scopes |>
             <| s_tokenObjectScopes := s.(s_tokenObjectScopes) ++ (tokenObjectOfStorage <$> scopes) |>,
           ok (token, raw))
    end.

Definition TokenStorages s (tokenID : string) : ret (list AccessTokenStorage) :=
  if s.(s_useDB) then pg_token_storages tokenID s.(s_db)
  else ok (List.filter (λ sc, sc.(AccessTokenStorage_TokenID) =s tokenID) s.(s_tokenScopes)).

(** Changes a token that exists; a missing one is no error. *)
Definition alter_token s (tokenID : string) (f : AccessToken → AccessToken) : Store :=
  match s.(s_tokens) !! tokenID with
  | None => s
  | Some t => s <| s_tokens := <[tokenID := f t]> s.(s_tokens) |>
  end.

Definition MarkTokenUsed (t : Time) s (tokenID : string) : Store * option error :=
  if s.(s_useDB) then exec s (MarkTokenUsedRow t tokenID)
  else (alter_token s tokenID (λ tok, tok <| AccessToken_LastUsedAt := Some t |>), None).

Definition RevokeToken e s (tokenID : string) : Store * option error :=
  if s.(s_useDB) then exec s (RevokeTokenRow (now e 0) tokenID)
  else (alter_token s tokenID (λ tok, tok <| AccessToken_RevokedAt := Some (now e 0) |>), None).

Definition UpdateTokenRateLimit s (tokenID : string) (policy : RateLimitPolicy) : Store * option error :=
  if s.(s_useDB) then exec s (UpdateRateLimitRow policy tokenID)
  else (alter_token s tokenID (λ tok, tok <| AccessToken_RateLimit := policy |>), None).

Definition errTokenDead : error := NewError "token is revoked or expired".

(** The clock is read for the expiry, for the age of [LastUsedAt] and, when
    that is stale, by [MarkTokenUsed]. *)
Definition ResolveToken e s (raw : string)
    : Store * ret (AccessToken * list AccessTokenStorage * bool) :=
  let hash := HashToken raw in
  let lookup : ret (option AccessToken) :=
    if s.(s_useDB) then pg_token (TokenWithHash hash) s.(s_db)
    else ok (match s.(s_tokenByHash) !! hash with Some id => s.(s_tokens) !! id | None => None end) in
  match lookup with
  | (o, Some err) => (s, fails (zeroval, [], bool_decide (is_Some o)) err)
  | (None, None) => (s, ok (zeroval, [], false))
  | (Some token, None) =>
      if bool_decide (is_Some token.(AccessToken_RevokedAt))
         || match token.(AccessToken_ExpiresAt) with Some t => After (now e 0) t | None => false end
      then (s, fails (zeroval, [], true) errTokenDead)
      else match TokenStorages s token.(AccessToken_ID) with
      | (_, Some err) => (s, fails (zeroval, [], true) err)
      | (scopes, None) =>
          let stale := match token.(AccessToken_LastUsedAt) with
                       | None => true | Some t => (Minute <? now e 1 - t)%Z end in
          let s := if stale then (MarkTokenUsed (now e 2) s token.(AccessToken_ID)).1 else s in
          (s, ok (token, scopes, true))
      end
  end.

Definition GetToken s (tokenID : string) : ret (option AccessToken) :=
  if tokenID =s "" then ok None
  else if s.(s_useDB) then pg_token (TokenWithID tokenID) s.(s_db)
  else ok (s.(s_tokens) !! tokenID).

Definition ListTokens s : ret (list AccessToken) :=
  if s.(s_useDB) then pg_tokens s.(s_db)
  else ok (sort_by (λ a b, After a.(AccessToken_CreatedAt) b.(AccessToken_CreatedAt)) (range_vals s.(s_tokens))).

Definition ReplaceTokenStorages e s (tokenID : string) (scopes : list AccessTokenStorage)
    : Store * option error :=
  let fill sc :=
    let sc := sc <| AccessTokenStorage_TokenID := tokenID |> in
    if IsZero sc.(AccessTokenStorage_CreatedAt)
    then sc <| AccessTokenStorage_CreatedAt := now e 0 |> else sc in
  if s.(s_useDB) then
    with_tx s (tx_run (DeleteTokenStorages tokenID :: ((InsertTokenStorage ∘ fill) <$> scopes)))
  else
    (s <| s_tokenScopes :=
         List.filter (λ sc, sc.(AccessTokenStorage_TokenID) <>s tokenID) s.(s_tokenScopes)
         ++ (fill <$> scopes) |>, None).

Definition DeleteToken s (tokenID : string) : Store * option error :=
  if s.(s_useDB) then exec s (DeleteTokenRows tokenID)
  else
    let byHash := match s.(s_tokens) !! tokenID with
                  | Some t => delete t.(AccessToken_TokenHash) s.(s_tokenByHash)
                  | None => s.(s_tokenByHash)
                  end in
    (s <| s_tokenByHash := byHash |>
       <| s_tokens := delete tokenID s.(s_tokens) |>
       <| s_tokenScopes :=
            List.filter (λ sc, sc.(AccessTokenStorage_TokenID) <>s tokenID) s.(s_tokenScopes) |>, None).

Definition TokenAccessByStorage s (storageID : string) : ret (list TokenStorageAccess) :=
  if s.(s_useDB) then pg_token_access storageID s.(s_db)
  else
    ok (sort_by (λ a b, After a.(TSA_CreatedAt) b.(TSA_CreatedAt))
      (omap (λ sc, if sc.(AccessTokenStorage_StorageID) <>s storageID then None
                   else match s.(s_tokens) !! sc.(AccessTokenStorage_TokenID) with
                        | None => None
                        | Some t => Some (mkTokenStorageAccess t.(AccessToken_ID) t.(AccessToken_Name)
                            t.(AccessToken_OwnerSubjectKey) t.(AccessToken_Mode)
                            sc.(AccessTokenStorage_StorageID) sc.(AccessTokenStorage_MaxMode)
                            sc.(AccessTokenStorage_ToolAllowlist) sc.(AccessTokenStorage_CreatedAt))
                        end) s.(s_tokenScopes))).

Definition TokenObjects s (tokenID : string) : ret (list AccessTokenObject) :=
  if negb s.(s_useDB) then
    let out := List.filter (λ sc, sc.(AccessTokenObject_TokenID) =s tokenID) s.(s_tokenObjectScopes) in
    match out with
    | _ :: _ => ok out
    | [] => ok (tokenObjectOfStorage <$>
              List.filter (λ sc, sc.(AccessTokenStorage_TokenID) =s tokenID) s.(s_tokenScopes))
    end
  else match pg_token_objects tokenID s.(s_db) with
  | (_, Some err) => fails [] err
  | (_ :: _ as out, None) => ok out
  | ([], None) =>
      match TokenStorages s tokenID with
      | (_, Some err) => fails [] err
      | (legacy, None) => ok (tokenObjectOfStorage <$> legacy)
      end
  end.

Definition ReplaceTokenObjects e s (tokenID : string) (scopes : list AccessTokenObject)
    : Store * option error :=
  if negb s.(s_useDB) then
    (s <| s_tokenObjectScopes :=
         List.filter (λ sc, sc.(AccessTokenObject_TokenID) <>s tokenID) s.(s_tokenObjectScopes) ++ scopes |>,
     None)
  else
    with_tx s (tx_run (DeleteTokenObjects tokenID ::
      imap (λ i sc, InsertTokenObject (sc <| AccessTokenObject_TokenID := tokenID |>
                                           <| AccessTokenObject_CreatedAt := now e i |>)) scopes)).

End Objects.
