(* ===== verification/AccessService.v ===== *)
(** [internal/access/service.go] and the service half of
    [internal/access/objects.go]: how a caller's roles, an access token and
    its scopes combine to what the caller may do. *)
From S2P Require Import Prelude GoStrings GoCrypto Models DataObj AccessState AccessObjects.
From Stdlib Require Import Ascii.

(** ** Roles, modes and permissions (store.go) *)

Definition readerPermissions : list StoragePermission :=
  [PermissionStorageRead; PermissionDocumentRead; PermissionSearchRead].
Definition writerPermissions : list StoragePermission :=
  readerPermissions ++ [PermissionDocumentCreate; PermissionDocumentUpdate; PermissionDocumentDelete].
Definition ownerPermissions : list StoragePermission :=
  writerPermissions ++ [PermissionACLManage; PermissionTokenManage; PermissionStorageDelete].

Definition RolePermissions (role : StorageRole) : list StoragePermission :=
  if (role =s RoleStorageOwner) || (role =s RoleStorageAdmin) then ownerPermissions
  else if role =s RoleStorageWriter then writerPermissions
  else if role =s RoleStorageReader then readerPermissions
  else [].

Definition ModePermissions (mode : AccessMode) : list StoragePermission :=
  if mode =s AccessModeReadWrite then RolePermissions RoleStorageWriter
  else if mode =s AccessModeRead then RolePermissions RoleStorageReader
  else [].

Definition intersectMode (a b : AccessMode) : AccessMode :=
  if (a =s AccessModeNone) || (b =s AccessModeNone) then AccessModeNone
  else if (a =s AccessModeRead) || (b =s AccessModeRead) then AccessModeRead
  else AccessModeReadWrite.

(** ** Storage access *)

(** The permissions the bindings of one storage give. *)
Definition grantedPermissions (acl : list ACLBinding) (storageID : string) : gset StoragePermission :=
  list_to_set (concat ((λ b, RolePermissions b.(ACLBinding_Role)) <$>
    List.filter (λ b, b.(ACLBinding_StorageID) =s storageID) acl)).

Definition evaluateStorageAccess `{GoRange} (p : Principal) (token : option AccessToken)
    (tokenScopes : list AccessTokenStorage) (acl : list ACLBinding) (storageID : string)
    (permission : StoragePermission) : EffectiveAccess * bool :=
  let userPerms := grantedPermissions acl storageID in
  let mode :=
    match token with
    | None => AccessModeReadWrite
    | Some t =>
        match List.find (λ sc, sc.(AccessTokenStorage_StorageID) =s storageID) tokenScopes with
        | Some sc => intersectMode t.(AccessToken_Mode) sc.(AccessTokenStorage_MaxMode)
        | None => AccessModeNone
        end
    end in
  let userPerms :=
    match token with
    | Some _ => userPerms
    | None =>
        if bool_decide (size userPerms = 0) && sContains p.(Principal_Scopes) "platform_admin"
        then {[permission]} ∪ userPerms else userPerms
    end in
  let effective :=
    match token with
    | None => userPerms
    | Some t =>
        let byMode := filter (λ perm, perm ∈ ModePermissions mode) userPerms in
        match t.(AccessToken_AllowedPermissions) with
        | [] => byMode
        | allowed => filter (λ perm, perm ∈ allowed) byMode
        end
    end in
  (mkEffectiveAccess (match token with Some t => t.(AccessToken_ID) | None => "" end)
     storageID (SubjectKeyForPrincipal p) (range_set effective) mode,
   bool_decide (permission ∈ effective)).

(** ** Object access *)

Definition methodsForRole (kind : ObjectKind) (role : StorageRole) : list string :=
  let all := Methods kind in
  if (role =s RoleStorageOwner) || (role =s RoleStorageAdmin) || (role =s RoleStorageWriter) then all
  else if role =s RoleStorageReader then List.filter (λ m, negb (IsMutating m)) all
  else [].

Definition methodsForMode (kind : ObjectKind) (mode : AccessMode) : list string :=
  if mode =s AccessModeReadWrite then Methods kind
  else if mode =s AccessModeRead then List.filter (λ m, negb (IsMutating m)) (Methods kind)
  else [].

Definition bindingsOf (acl : list ObjectACLBinding) (objectID : string) : list ObjectACLBinding :=
  List.filter (λ b, b.(ObjectACLBinding_ObjectID) =s objectID) acl.

(** The methods the bindings of one object give. *)
Definition grantedMethods (acl : list ObjectACLBinding) (obj : DataObject) : gset string :=
  list_to_set (concat ((λ b, methodsForRole obj.(DataObject_Kind) b.(ObjectACLBinding_Role)) <$>
    bindingsOf acl obj.(DataObject_ID))).

Definition denied : EffectiveObjectAccess * bool := (zeroval, false).

Definition evaluateObjectAccess `{GoRange} (p : Principal) (token : option AccessToken)
    (scopes : list AccessTokenObject) (acl : list ObjectACLBinding) (obj : DataObject)
    (method : string) : EffectiveObjectAccess * bool :=
  let kind := obj.(DataObject_Kind) in
  let userMethods := grantedMethods acl obj in
  let hasACL := negb (bool_decide (bindingsOf acl obj.(DataObject_ID) = [])) in
  (* the answer once the mode and the user's methods are known *)
  let finish (mode : AccessMode) (userMethods : gset string) : EffectiveObjectAccess * bool :=
    if IsMutating method && (mode =s AccessModeRead) then denied
    else
      let userMethods :=
        match token with
        | None => userMethods
        | Some _ =>
            let allowedByMode := methodsForMode kind mode in
            let filtered := filter (λ m, m ∈ allowedByMode) userMethods in
            if bool_decide (size userMethods = 0) then list_to_set allowedByMode ∪ filtered
            else filtered
        end in
      (mkEffectiveObjectAccess obj.(DataObject_ID) kind (SubjectKeyForPrincipal p)
         (match token with Some t => t.(AccessToken_ID) | None => "" end) mode (range_set userMethods),
       bool_decide (method ∈ userMethods)) in
  match token with
  | Some t =>
      match List.find (λ sc, sc.(AccessTokenObject_ObjectID) =s obj.(DataObject_ID)) scopes with
      | None => denied
      | Some sc =>
          let allow := sc.(AccessTokenObject_MethodAllowlist) in
          if negb (bool_decide (allow = [])) && negb (sContains allow method)
             && negb (sContains allow (kind +:+ "_" +:+ method)) then denied
          else
            let mode := intersectMode t.(AccessToken_Mode) sc.(AccessTokenObject_MaxMode) in
            if mode =s AccessModeNone then denied else finish mode userMethods
      end
  | None =>
      let userMethods :=
        if negb hasACL && sContains p.(Principal_Scopes) "platform_admin"
        then list_to_set (Methods kind) ∪ userMethods else userMethods in
      finish AccessModeReadWrite userMethods
  end.

(** ** The service *)

Section Service.
Context `{Postgres, GoRange}.
Context (unicode_lower : Z → Z).
(** [MCPScopeLoader]: the MCP scopes of a token, when a loader is attached. *)
Context (mcpStore : option (string → ret (list AccessTokenMCPServer))).
Implicit Types (s : Store) (e : Env).

Definition subjectIDForService (subject : string) : string := take_bytes 24 (hex_encode (Sum256 subject)).

Definition groupOfKey (p : Principal) (groupKey : string) : Group :=
  let name := last_part ":"%char groupKey in
  mkGroup (subjectIDForService groupKey) groupKey p.(Principal_AuthSource) p.(Principal_Issuer) name name
    "external" "claims" None 0.

(** The environment of the i-th group, and of the personal storage after the
    groups, are those of separate calls. *)
Definition EnsurePrincipal (env : nat → Env) s (p : Principal) (defaultBucket : string)
    : Store * ret (User * Storage) :=
  match UpsertUserFromPrincipal (env 0) s p with
  | (s, (_, Some err)) => (s, fails (zeroval, zeroval) err)
  | (s, (user, None)) =>
      let keys := GroupSubjectKeysForPrincipal p in
      let s := foldl (λ s ik, (CreateGroup (env (1 + ik.1)) s (groupOfKey p ik.2)).1) s
                 (imap (λ i k, (i, k)) keys) in
      match EnsurePersonalStorage (env (1 + length keys)) s p defaultBucket with
      | (s, (_, Some err)) => (s, fails (zeroval, zeroval) err)
      | (s, (storage, None)) => (s, ok (user, storage))
      end
  end.

Definition tokenPrincipal (token : AccessToken) : Principal :=
  (zeroval : Principal) <| Principal_UserID := token.(AccessToken_OwnerSubjectKey) |>
    <| Principal_SubjectKey := token.(AccessToken_OwnerSubjectKey) |>
    <| Principal_AuthSource := "access_token" |> <| Principal_Scopes := ["mcp.token"] |>.

Definition ResolveBearer e s (raw : string) : Store * ret (APIAccessContext * bool) :=
  match ResolveToken e s raw with
  | (s, ((_, found), Some err)) => (s, fails (zeroval, found) err)
  | (s, ((_, false), None)) => (s, ok (zeroval, false))
  | (s, ((token, scopes, true), None)) =>
      match TokenObjects s token.(AccessToken_ID) with
      | (_, Some err) => (s, fails (zeroval, true) err)
      | (objectScopes, None) =>
          let ctx := mkAPIAccessContext (tokenPrincipal token) "access_token" [] token.(AccessToken_ID)
                       (Some token) scopes objectScopes [] in
          match mcpStore with
          | None => (s, ok (ctx, true))
          | Some load =>
              match load token.(AccessToken_ID) with
              | (_, Some err) => (s, fails (zeroval, true) err)
              | (mcpScopes, None) =>
                  (s, ok (ctx <| APIAccessContext_AllowedMCPServers := mcpScopes |>, true))
              end
          end
      end
  end.

Definition CanAccessStorage s (p : Principal) (token : option AccessToken)
    (tokenScopes : list AccessTokenStorage) (storageID : string) (permission : StoragePermission)
    : ret (EffectiveAccess * bool) :=
  if storageID =s "" then fails (zeroval, false) (NewError "storage id is required")
  else match ACLForSubject s (SubjectKeys p) with
  | (_, Some err) => fails (zeroval, false) err
  | (acl, None) => ok (evaluateStorageAccess p token tokenScopes acl storageID permission)
  end.

Definition storageCandidates e s (p : Principal) (token : option AccessToken)
    (tokenScopes : list AccessTokenStorage) : ret (list Storage * list ACLBinding) :=
  let filter_ := mkFilter (SubjectKeys p)
    (match token with None => sContains p.(Principal_Scopes) "platform_admin" | Some _ => false end)
    (match token with None => false | Some _ => true end)
    (match token with None => [] | Some _ => AccessTokenStorage_StorageID <$> tokenScopes end) in
  match ListAccessibleStorages e s filter_ with
  | (_, Some err) => fails ([], []) err
  | (candidates, None) =>
      match ACLForSubject s (SubjectKeys p) with
      | (_, Some err) => fails ([], []) err
      | (acl, None) => ok (candidates, acl)
      end
  end.

Definition AvailableStorages e s (p : Principal) (token : option AccessToken)
    (tokenScopes : list AccessTokenStorage) : ret (list Storage * gmap string EffectiveAccess) :=
  match storageCandidates e s p token tokenScopes with
  | (_, Some err) => fails ([], ∅) err
  | ((candidates, acl), None) =>
      let eval st := evaluateStorageAccess p token tokenScopes acl st.(Storage_ID) PermissionStorageRead in
      let out := List.filter (λ st, (eval st).2) candidates in
      ok (out, foldl (λ m st, <[st.(Storage_ID) := (eval st).1]> m) ∅ out)
  end.

Definition ReadableStorageIDs e s (p : Principal) (token : option AccessToken)
    (tokenScopes : list AccessTokenStorage) : ret (gset string) :=
  match storageCandidates e s p token tokenScopes with
  | (_, Some err) => fails ∅ err
  | ((candidates, acl), None) =>
      ok (list_to_set (Storage_ID <$> List.filter (λ st,
        (evaluateStorageAccess p token tokenScopes acl st.(Storage_ID) PermissionDocumentRead).2) candidates))
  end.

Definition DataPlaneRole e s (p : Principal) (token : option AccessToken) : Store * ret string :=
  let role := DataPlaneRoleName unicode_lower p token in
  let s := match token with
           | Some t => (EnsureTokenRole unicode_lower e s t.(AccessToken_ID) t.(AccessToken_OwnerSubjectKey)).1
           | None => (EnsureUserRole e s (SubjectKeyForPrincipal p)).1
           end in
  (s, ok role).

Definition CanAccessObject s (p : Principal) (token : option AccessToken)
    (scopes : list AccessTokenObject) (objectID method : string) : ret (EffectiveObjectAccess * bool) :=
  match GetObject s objectID with
  | (_, Some err) => fails (zeroval, false) err
  | (None, None) => ok (zeroval, false)
  | (Some obj, None) =>
      if negb (HasMethod obj.(DataObject_Kind) method) then ok (zeroval, false)
      else match ObjectACLForSubject s (SubjectKeys p) with
      | (_, Some err) => fails (zeroval, false) err
      | (acl, None) => ok (evaluateObjectAccess p token scopes acl obj method)
      end
  end.

(** The method [AvailableObjects] probes an object with: the first that does
    not mutate, else the first. *)
Definition probeMethod (methods : list string) : option string :=
  match List.find (λ m, negb (IsMutating m)) methods with
  | Some m => Some m
  | None => head methods
  end.

Definition AvailableObjects s (p : Principal) (token : option AccessToken)
    (scopes : list AccessTokenObject) (kind : ObjectKind)
    : ret (list DataObject * gmap string EffectiveObjectAccess) :=
  let filter_ := mkFilter (SubjectKeys p)
    (match token with None => sContains p.(Principal_Scopes) "platform_admin" | Some _ => false end)
    (match token with None => false | Some _ => true end)
    (match token with None => [] | Some _ => AccessTokenObject_ObjectID <$> scopes end) in
  match ListAccessibleObjects s kind filter_ with
  | (_, Some err) => fails ([], ∅) err
  | (candidates, None) =>
      match ObjectACLForSubject s (SubjectKeys p) with
      | (_, Some err) => fails ([], ∅) err
      | (acl, None) =>
          let eval obj :=
            match probeMethod (Methods obj.(DataObject_Kind)) with
            | None => denied
            | Some probe => evaluateObjectAccess p token scopes acl obj probe
            end in
          let out := List.filter (λ obj, (eval obj).2) candidates in
          ok (out, foldl (λ m obj, <[obj.(DataObject_ID) := (eval obj).1]> m) ∅ out)
      end
  end.

End Service.
