(* ===== verification/AccessInv.v ===== *)
(** The in-memory access store as a state machine: every mutating operation
    of [internal/access/store.go] and [internal/access/objects.go] as a step,
    the well-formedness every run keeps, and what it means for access tokens
    over whole runs. *)
From S2P Require Import Prelude GoStrings GoCrypto Models DataObj AccessState AccessObjects AccessService.

(** ** Steps *)

Inductive op :=
| OpUpsertUserFromPrincipal (e : Env) (p : Principal)
| OpCreateUser (e : Env) (u : User)
| OpUpdateUser (id : string) (patch : User)
| OpSetUserPassword (e : Env) (id password : string)
| OpDeleteUser (id : string)
| OpCreateGroup (e : Env) (g : Group)
| OpDeleteGroup (id : string)
| OpAddGroupMember (e : Env) (groupID userID source : string)
| OpRemoveGroupMember (groupID userID : string)
| OpRecordAudit (e : Env) (ev : AuditEvent)
| OpCreateObject (e : Env) (obj : DataObject) (actor : string)
| OpDeleteObject (id : string)
| OpUpdateObjectConfig (e : Env) (id : string) (config : option (gmap string Any))
| OpUpsertObjectACL (e : Env) (b : ObjectACLBinding)
| OpCreateStorage (e : Env) (st : Storage) (actor : string)
| OpEnsurePersonalStorage (e : Env) (p : Principal) (bucket : string)
| OpDeleteStorage (id : string)
| OpArchiveStorage (e : Env) (id : string)
| OpUpsertACL (e : Env) (b : ACLBinding)
| OpDeleteACL (storageID subjectKey : string) (role : StorageRole)
| OpCreateToken (e : Env) (inp : CreateTokenInput)
| OpMarkTokenUsed (t : Time) (id : string)
| OpRevokeToken (e : Env) (id : string)
| OpUpdateTokenRateLimit (id : string) (policy : RateLimitPolicy)
| OpResolveToken (e : Env) (raw : string)
| OpReplaceTokenStorages (e : Env) (id : string) (scopes : list AccessTokenStorage)
| OpReplaceTokenObjects (e : Env) (id : string) (scopes : list AccessTokenObject)
| OpDeleteToken (id : string).

Section Machine.
Context `{Postgres, GoRange, Bcrypt}.
Context (unicode_lower : Z → Z).
Implicit Types (s : Store).

Definition apply_op (o : op) s : Store :=
  match o with
  | OpUpsertUserFromPrincipal e p => (UpsertUserFromPrincipal e s p).1
  | OpCreateUser e u => (CreateUser e s u).1
  | OpUpdateUser id patch => (UpdateUser s id patch).1
  | OpSetUserPassword e id pw => (SetUserPassword e s id pw).1
  | OpDeleteUser id => (DeleteUser s id).1
  | OpCreateGroup e g => (CreateGroup e s g).1
  | OpDeleteGroup id => (DeleteGroup s id).1
  | OpAddGroupMember e g u src => (AddGroupMember e s g u src).1
  | OpRemoveGroupMember g u => (RemoveGroupMember s g u).1
  | OpRecordAudit e ev => (RecordAudit e s ev).1
  | OpCreateObject e obj actor => (CreateObject e s obj actor).1
  | OpDeleteObject id => (DeleteObject s id).1
  | OpUpdateObjectConfig e id cfg => (UpdateObjectConfig e s id cfg).1
  | OpUpsertObjectACL e b => (UpsertObjectACL e s b).1
  | OpCreateStorage e st actor => (CreateStorage e s st actor).1
  | OpEnsurePersonalStorage e p bucket => (EnsurePersonalStorage e s p bucket).1
  | OpDeleteStorage id => (DeleteStorage s id).1
  | OpArchiveStorage e id => (ArchiveStorage e s id).1
  | OpUpsertACL e b => (UpsertACL e s b).1
  | OpDeleteACL st key role => (DeleteACL s st key role).1
  | OpCreateToken e inp => (CreateToken unicode_lower e s inp).1
  | OpMarkTokenUsed t id => (MarkTokenUsed t s id).1
  | OpRevokeToken e id => (RevokeToken e s id).1
  | OpUpdateTokenRateLimit id p => (UpdateTokenRateLimit s id p).1
  | OpResolveToken e raw => (ResolveToken e s raw).1
  | OpReplaceTokenStorages e id scopes => (ReplaceTokenStorages e s id scopes).1
  | OpReplaceTokenObjects e id scopes => (ReplaceTokenObjects e s id scopes).1
  | OpDeleteToken id => (DeleteToken s id).1
  end.

(** The raw token [CreateToken] would mint from the random bytes. *)
Definition minted (e : Env) : string := (newRawToken e).1.

(** What the random sources give: a new token has an unused id and hash. *)
Definition op_fresh (o : op) s : Prop :=
  match o with
  | OpCreateToken e _ => s.(s_tokens) !! uuid e 0 = None ∧ s.(s_tokenByHash) !! HashToken (minted e) = None
  | _ => True
  end.

Inductive step : Store → Store → Prop :=
| step_op o s : op_fresh o s → step s (apply_op o s).

(** A run with its operations, each fresh where it is performed. *)
Fixpoint run (os : list op) s : Store :=
  match os with [] => s | o :: os' => run os' (apply_op o s) end.
Fixpoint run_fresh (os : list op) s : Prop :=
  match os with [] => True | o :: os' => op_fresh o s ∧ run_fresh os' (apply_op o s) end.

(** ** Well-formedness *)

(** Every value sits under its own id. *)
Definition keyed {V} (id : V → string) (m : gmap string V) : Prop := map_Forall (λ k v, id v = k) m.

(** The two maps of tokens name each other. *)
Definition index_ok (byHash : gmap string string) (tokens : gmap string AccessToken) : Prop :=
  ∀ h id, byHash !! h = Some id ↔ ∃ t, tokens !! id = Some t ∧ t.(AccessToken_TokenHash) = h.

Record store_wf s : Prop := {
  wf_memory : s.(s_useDB) = false;
  wf_users : keyed User_ID s.(s_users);
  wf_groups : keyed Group_ID s.(s_groups);
  wf_storages : keyed Storage_ID s.(s_storages);
  wf_objects : keyed DataObject_ID s.(s_objects);
  wf_acl : keyed ACLBinding_ID s.(s_acl);
  wf_objectACL : keyed ObjectACLBinding_ID s.(s_objectACL);
  wf_tokens : keyed AccessToken_ID s.(s_tokens);
  wf_index : index_ok s.(s_tokenByHash) s.(s_tokens)
}.

Lemma keyed_empty {V} (id : V → string) : keyed id ∅.
Proof. apply map_Forall_empty. Qed.
Lemma keyed_insert {V} (id : V → string) m k v : keyed id m → id v = k → keyed id (<[k := v]> m).
Proof. intros Hm Hv. by apply map_Forall_insert_2. Qed.
Lemma keyed_delete {V} (id : V → string) m k : keyed id m → keyed id (delete k m).
Proof. apply map_Forall_delete. Qed.
Lemma keyed_delete_if {V} (id : V → string) m f : keyed id m → keyed id (delete_if f m).
Proof. intros Hm k v [Hk _]%lookup_delete_if. by apply Hm. Qed.
Lemma keyed_lookup {V} (id : V → string) m k v : keyed id m → m !! k = Some v → id v = k.
Proof. intros Hm. apply Hm. Qed.
#[local] Hint Resolve keyed_empty keyed_insert keyed_delete keyed_delete_if : go.

Lemma index_ok_insert byHash tokens id t :
  index_ok byHash tokens → tokens !! id = None → byHash !! t.(AccessToken_TokenHash) = None →
  index_ok (<[t.(AccessToken_TokenHash) := id]> byHash) (<[id := t]> tokens).
Proof.
  intros Hix Hid Hh h id'. rewrite lookup_insert_Some. setoid_rewrite lookup_insert_Some. split.
  - intros [[<- <-]|[Hne Hl]]; [eauto 10|]. apply Hix in Hl as (t' & Ht' & <-).
    exists t'. split; [|done]. right. split; [congruence|done].
  - intros (t' & [[<- <-]|[Hne Hl]] & <-); [auto|]. right.
    assert (Hb : byHash !! t'.(AccessToken_TokenHash) = Some id') by (apply Hix; eauto).
    split; [congruence|done].
Qed.

Lemma index_ok_update byHash tokens id t t' :
  index_ok byHash tokens → tokens !! id = Some t → t'.(AccessToken_TokenHash) = t.(AccessToken_TokenHash) →
  index_ok byHash (<[id := t']> tokens).
Proof.
  intros Hix Hid Hh h id'. rewrite (Hix h id'). setoid_rewrite lookup_insert_Some. split.
  - intros (u & Hu & <-). destruct (decide (id = id')) as [->|]; [|by exists u; auto].
    simplify_eq. eauto 10.
  - intros (u & [[<- <-]|[? ?]] & <-); eauto.
Qed.

Lemma index_ok_delete byHash tokens id t :
  index_ok byHash tokens → tokens !! id = Some t →
  index_ok (delete t.(AccessToken_TokenHash) byHash) (delete id tokens).
Proof.
  intros Hix Hid h id'. rewrite lookup_delete_Some, (Hix h id'). setoid_rewrite lookup_delete_Some. split.
  - intros (Hne & u & Hu & <-). exists u. split; [|done]. split; [congruence|done].
  - intros (u & (Hne & Hu) & <-). split; [|eauto]. intros Heq.
    assert (byHash !! t.(AccessToken_TokenHash) = Some id) by (apply Hix; eauto).
    assert (byHash !! u.(AccessToken_TokenHash) = Some id') by (apply Hix; eauto). congruence.
Qed.

Lemma alter_token_wf s id f :
  (∀ t, (f t).(AccessToken_ID) = t.(AccessToken_ID) ∧ (f t).(AccessToken_TokenHash) = t.(AccessToken_TokenHash)) →
  store_wf s → store_wf (alter_token s id f).
Proof.
  intros Hf [? ? ? ? ? ? ? Htok Hix]. unfold alter_token.
  destruct (s_tokens s !! id) as [t|] eqn:Ht; [|by split].
  destruct (Hf t) as [Hid Hh]. split; simpl; auto with go.
  - apply keyed_insert; [done|]. rewrite Hid. by apply Htok.
  - by eapply index_ok_update.
Qed.

Lemma CreateToken_wf e s inp : store_wf s → op_fresh (OpCreateToken e inp) s →
  store_wf (CreateToken unicode_lower e s inp).1.
Proof.
  intros Hwf Hfresh. unfold CreateToken, minted in *. simpl in Hfresh. unfold minted in Hfresh.
  destruct (_ =s ""); [done|]. destruct (newRawToken e) as [raw [err|]]; [done|].
  destruct Hwf as [Hdb ? ? ? ? ? ? ? ?]. rewrite Hdb. simpl in *. destruct Hfresh.
  split; simpl; auto with go. apply (index_ok_insert _ _ (uuid e 0) (mkAccessToken _ _ (HashToken raw) _ _ _ _ _ _ _ _ _)); done.
Qed.

Lemma ResolveToken_wf e s raw : store_wf s → store_wf (ResolveToken e s raw).1.
Proof.
  intros Hwf. unfold ResolveToken, TokenStorages, MarkTokenUsed. rewrite (wf_memory s Hwf).
  go_cases. all: by apply alter_token_wf.
Qed.

Lemma DeleteToken_wf s id : store_wf s → store_wf (DeleteToken s id).1.
Proof.
  intros [Hdb ? ? ? ? ? ? ? Hix]. unfold DeleteToken. rewrite Hdb. split; simpl; auto with go.
  destruct (s_tokens s !! id) eqn:Ht; [by apply index_ok_delete|]. by rewrite delete_id.
Qed.

Lemma GetObject_id s id obj : store_wf s → GetObject s id = ok (Some obj) → obj.(DataObject_ID) = id.
Proof.
  intros [Hdb ? ? Hst Hob ? ? ? ?]. unfold GetObject. rewrite Hdb. simpl.
  destruct (s_objects s !! id) eqn:Ho; [intros [= <-]; by apply Hob|].
  destruct (s_storages s !! id) eqn:Hs; intros [= <-]. by apply Hst.
Qed.

Lemma CreateStorage_wf e s st actor : store_wf s → store_wf (CreateStorage e s st actor).1.
Proof.
  intros [Hdb ? ? ? ? ? ? ? ?]. unfold CreateStorage. generalize (completeStorage e st).
  intros. rewrite Hdb. split; simpl; auto with go.
Qed.

(** Closes the goals of the operations that change maps of plain values. *)
#[local] Ltac wf_maps := split; simpl; auto 6 with go;
  try (apply keyed_insert; [done|cbn; by eapply keyed_lookup]).

(** Every operation keeps the store well formed. *)
Lemma apply_op_wf o s : store_wf s → op_fresh o s → store_wf (apply_op o s).
Proof.
  intros Hwf Hfresh. pose proof Hwf as [Hdb ? ? ? ? ? ? ? ?].
  destruct o; cbn [apply_op];
    try (by apply CreateToken_wf); try (by apply ResolveToken_wf); try (by apply DeleteToken_wf);
    try (by apply CreateStorage_wf).
  - unfold UpsertUserFromPrincipal. rewrite Hdb. go_cases; wf_maps.
  - unfold CreateUser. generalize (completeUser e u). intros. rewrite Hdb. wf_maps.
  - unfold UpdateUser, GetUser. rewrite Hdb. cbn. destruct (s_users s !! id) eqn:?; [|done]. wf_maps.
  - unfold SetUserPassword. rewrite Hdb. go_cases; wf_maps.
  - unfold DeleteUser. rewrite Hdb. wf_maps.
  - unfold CreateGroup. generalize (completeGroup e g). intros. rewrite Hdb. wf_maps.
  - unfold DeleteGroup. rewrite Hdb. wf_maps.
  - unfold AddGroupMember. rewrite Hdb. wf_maps.
  - unfold RemoveGroupMember. rewrite Hdb. wf_maps.
  - unfold RecordAudit. rewrite Hdb. wf_maps.
  - unfold CreateObject. rewrite Hdb. generalize (completeObject e obj). intros obj1. simpl.
    destruct (ValidKind _); [|done]. simpl. destruct (_ =s ObjectKindStorage); wf_maps.
  - unfold DeleteObject. rewrite Hdb. go_cases; wf_maps.
  - unfold UpdateObjectConfig. destruct (GetObject s id) as [[obj|] [err|]] eqn:Ho; try done.
    rewrite Hdb. pose proof (GetObject_id s id obj Hwf Ho). wf_maps.
  - unfold UpsertObjectACL. rewrite Hdb. wf_maps.
  - unfold EnsurePersonalStorage. destruct (StorageBySlug _ _) as [[?|] [?|]]; try done.
    by apply CreateStorage_wf.
  - unfold DeleteStorage. rewrite Hdb. wf_maps.
  - unfold ArchiveStorage. rewrite Hdb. destruct (s_storages s !! id) eqn:Hs; [|done]. wf_maps.
  - unfold UpsertACL. rewrite Hdb. wf_maps.
  - unfold DeleteACL. rewrite Hdb. wf_maps.
  - unfold MarkTokenUsed. rewrite Hdb. by apply alter_token_wf.
  - unfold RevokeToken. rewrite Hdb. by apply alter_token_wf.
  - unfold UpdateTokenRateLimit. rewrite Hdb. by apply alter_token_wf.
  - unfold ReplaceTokenStorages. rewrite Hdb. wf_maps.
  - unfold ReplaceTokenObjects. rewrite Hdb. wf_maps.
Qed.

Lemma NewInMemoryStore_wf d : store_wf (NewInMemoryStore d).
Proof.
  split; try done. simpl. intros h id. rewrite lookup_empty. split; [done|].
  intros (t & Ht & _). by rewrite lookup_empty in Ht.
Qed.

Lemma step_wf s s' : store_wf s → step s s' → store_wf s'.
Proof. intros Hwf. inversion 1; subst. by apply apply_op_wf. Qed.

Lemma run_wf os s : store_wf s → run_fresh os s → store_wf (run os s).
Proof.
  revert s. induction os as [|o os IH]; intros s Hwf; [done|].
  intros [Hf Hr]. apply IH; [|done]. by apply apply_op_wf.
Qed.

(** ** What an operation does to the tokens *)

(** The part of a token no operation changes. *)
Definition token_core (t : AccessToken) :=
  (t.(AccessToken_ID), t.(AccessToken_OwnerSubjectKey), t.(AccessToken_TokenHash), t.(AccessToken_Mode),
   t.(AccessToken_AllowedPermissions), t.(AccessToken_ExpiresAt)).

Inductive token_effect (o : op) (m : gmap string AccessToken) : gmap string AccessToken → Prop :=
| TE_same : token_effect o m m
| TE_alter id f :
    (∀ t, token_core (f t) = token_core t ∧
       ((f t).(AccessToken_RevokedAt) = t.(AccessToken_RevokedAt)
        ∨ (∃ e, o = OpRevokeToken e id) ∧ is_Some (f t).(AccessToken_RevokedAt))) →
    token_effect o m (alter f id m)
| TE_create e inp t :
    o = OpCreateToken e inp → t.(AccessToken_TokenHash) = HashToken (minted e) →
    token_effect o m (<[uuid e 0 := t]> m)
| TE_delete id : o = OpDeleteToken id → token_effect o m (delete id m).

Lemma alter_token_tokens s id f : s_tokens (alter_token s id f) = alter f id (s_tokens s).
Proof.
  unfold alter_token. apply map_eq. intros k. rewrite lookup_alter.
  destruct (s_tokens s !! id) eqn:Ht; simpl; [rewrite lookup_insert|];
    destruct (decide (id = k)) as [->|]; by rewrite ?Ht.
Qed.

(** The operations on other data. *)
Definition token_op (o : op) : bool :=
  match o with
  | OpCreateToken _ _ | OpMarkTokenUsed _ _ | OpRevokeToken _ _ | OpUpdateTokenRateLimit _ _
  | OpResolveToken _ _ | OpDeleteToken _ => true
  | _ => false
  end.

Lemma other_op_tokens o s : s.(s_useDB) = false → token_op o = false →
  s_tokens (apply_op o s) = s_tokens s.
Proof.
  intros Hdb Ho. destruct o; try done; cbn [apply_op].
  all: unfold UpsertUserFromPrincipal, CreateUser, UpdateUser, GetUser, SetUserPassword, DeleteUser, CreateGroup,
    DeleteGroup, AddGroupMember, RemoveGroupMember, RecordAudit, CreateObject, DeleteObject,
    UpdateObjectConfig, UpsertObjectACL, EnsurePersonalStorage, CreateStorage, DeleteStorage, ArchiveStorage,
    UpsertACL, DeleteACL, ReplaceTokenStorages, ReplaceTokenObjects.
  all: rewrite ?Hdb; repeat case_match; simplify_eq; try done.
  all: by rewrite Hdb in *.
Qed.

Lemma apply_op_effect o s : s.(s_useDB) = false →
  token_effect o (s_tokens s) (s_tokens (apply_op o s)).
Proof.
  intros Hdb. destruct (token_op o) eqn:Ho; [|rewrite other_op_tokens by done; constructor].
  destruct o; try done; cbn [apply_op].
  - unfold CreateToken. destruct (_ =s ""); [constructor|].
    destruct (newRawToken e) as [raw [err|]] eqn:Hr; [constructor|]. rewrite Hdb. simpl.
    eapply TE_create; [done|]. unfold minted. by rewrite Hr.
  - unfold MarkTokenUsed. rewrite Hdb. simpl. rewrite alter_token_tokens. apply TE_alter. auto.
  - unfold RevokeToken. rewrite Hdb. simpl. rewrite alter_token_tokens. apply TE_alter.
    intros t. split; [done|]. right. split; [by eexists|by eexists].
  - unfold UpdateTokenRateLimit. rewrite Hdb. simpl. rewrite alter_token_tokens. apply TE_alter. auto.
  - unfold ResolveToken, TokenStorages, MarkTokenUsed. rewrite Hdb. simpl.
    repeat case_match; simplify_eq/=; try apply TE_same; rewrite alter_token_tokens; apply TE_alter; auto.
  - unfold DeleteToken. rewrite Hdb. simpl. by apply TE_delete.
Qed.

(** ** Resolving tokens *)

Definition not_expired (e : Env) (t : AccessToken) : Prop :=
  match t.(AccessToken_ExpiresAt) with Some x => (now e 0 ≤ x)%Z | None => True end.
#[export] Instance not_expired_dec e t : Decision (not_expired e t).
Proof. unfold not_expired. destruct (AccessToken_ExpiresAt t); apply _. Defined.

(** The token behind a raw secret is alive. *)
Definition live_token (e : Env) s (raw : string) (t : AccessToken) : Prop :=
  s.(s_tokens) !! t.(AccessToken_ID) = Some t ∧ t.(AccessToken_TokenHash) = HashToken raw
  ∧ t.(AccessToken_RevokedAt) = None ∧ not_expired e t.

(** The lookup of [ResolveToken]. *)
Definition find_token s (raw : string) : option AccessToken :=
  match s.(s_tokenByHash) !! HashToken raw with Some id => s.(s_tokens) !! id | None => None end.

Lemma find_token_spec s raw t : store_wf s →
  find_token s raw = Some t ↔
  s.(s_tokens) !! t.(AccessToken_ID) = Some t ∧ t.(AccessToken_TokenHash) = HashToken raw.
Proof.
  intros Hwf. unfold find_token. pose proof (wf_index s Hwf (HashToken raw)) as Hix. split.
  - destruct (s_tokenByHash s !! HashToken raw) as [id|]; [|done]. intros Ht.
    destruct (proj1 (Hix id) eq_refl) as (u & Hu & Hh). rewrite Ht in Hu. injection Hu as <-.
    by rewrite (wf_tokens s Hwf _ _ Ht).
  - intros [Ht Hh]. by rewrite (proj2 (Hix (AccessToken_ID t))) by eauto.
Qed.

Lemma ResolveToken_memory e s raw : s.(s_useDB) = false →
  (ResolveToken e s raw).2 =
  match find_token s raw with
  | None => ok (zeroval, [], false)
  | Some t =>
      if bool_decide (is_Some t.(AccessToken_RevokedAt)) || negb (bool_decide (not_expired e t))
      then fails (zeroval, [], true) errTokenDead
      else ok (t, List.filter (λ sc, sc.(AccessTokenStorage_TokenID) =s t.(AccessToken_ID)) s.(s_tokenScopes), true)
  end.
Proof.
  intros Hdb. unfold ResolveToken, TokenStorages. rewrite Hdb. fold (find_token s raw).
  destruct (find_token s raw) as [t|]; [|done]. simpl.
  replace (match t.(AccessToken_ExpiresAt) with Some x => After (now e 0) x | None => false end)
    with (negb (bool_decide (not_expired e t))); [by case_match|].
  unfold not_expired, After. case_bool_decide; destruct (AccessToken_ExpiresAt t); simpl; try done; lia.
Qed.

Lemma ResolveToken_iff e s raw t scopes : store_wf s →
  (ResolveToken e s raw).2 = ok (t, scopes, true) ↔
  live_token e s raw t
  ∧ scopes = List.filter (λ sc, sc.(AccessTokenStorage_TokenID) =s t.(AccessToken_ID)) s.(s_tokenScopes).
Proof.
  intros Hwf. rewrite ResolveToken_memory by apply Hwf.
  pose proof (find_token_spec s raw t Hwf) as Hf. unfold live_token.
  destruct (find_token s raw) as [u|]; [|naive_solver].
  destruct (AccessToken_RevokedAt u) eqn:Hr; simpl; [split; [intros [=]|]; naive_solver|].
  case_bool_decide; simpl; split; try intros [=]; naive_solver.
Qed.

(** ** Tokens over whole runs *)

Definition reachable (d : DB) s : Prop := rtc step (NewInMemoryStore d) s.

Lemma reachable_wf d s : reachable d s → store_wf s.
Proof.
  intros Hr. apply (rtc_ind_r store_wf (NewInMemoryStore d)) in Hr; [done|apply NewInMemoryStore_wf|].
  intros ? ? _ Hst Hwf. by eapply step_wf.
Qed.

(** The operation ends the life of the token. *)
Definition kills (o : op) (id : string) : Prop := (∃ e, o = OpRevokeToken e id) ∨ o = OpDeleteToken id.

(** A token no operation of the run ends stays, unrevoked and with its core. *)
Lemma token_kept o s id t : store_wf s → op_fresh o s → ¬ kills o id →
  s.(s_tokens) !! id = Some t →
  ∃ t', s_tokens (apply_op o s) !! id = Some t' ∧ token_core t' = token_core t
    ∧ t'.(AccessToken_RevokedAt) = t.(AccessToken_RevokedAt).
Proof.
  intros Hwf Hf Hk Ht.
  destruct (apply_op_effect o s (wf_memory s Hwf)) as [|id' f Hc|e inp u -> Hh|id' ->].
  - eauto.
  - destruct (decide (id' = id)) as [->|Hne].
    + exists (f t). rewrite lookup_alter_eq, Ht. destruct (Hc t) as [? [?|[? _]]]; [done|].
      exfalso. apply Hk. by left.
    + exists t. by rewrite lookup_alter_ne.
  - destruct Hf as [Hid _]. exists t. rewrite lookup_insert_ne; [done|congruence].
  - destruct (decide (id' = id)) as [->|]; [exfalso; apply Hk; by right|].
    exists t. by rewrite lookup_delete_ne.
Qed.

Lemma run_token_kept os s id t : store_wf s → run_fresh os s → (∀ o, o ∈ os → ¬ kills o id) →
  s.(s_tokens) !! id = Some t →
  ∃ t', s_tokens (run os s) !! id = Some t' ∧ token_core t' = token_core t
    ∧ t'.(AccessToken_RevokedAt) = t.(AccessToken_RevokedAt).
Proof.
  revert s t. induction os as [|o os IH]; intros s t Hwf; [eauto|].
  intros [Hf Hr] Hk Ht.
  destruct (token_kept o s id t) as (t1 & Ht1 & Hc1 & Hr1); [done..|apply Hk; constructor|done|].
  destruct (IH (apply_op o s) t1) as (t2 & ? & ? & ?); [by apply apply_op_wf|done| |done|].
  { intros o' Ho'. apply Hk. by constructor. }
  exists t2. split_and!; [done|congruence|congruence].
Qed.

(** No live token has the hash. *)
Definition dead (h : string) s : Prop :=
  ∀ id t, s.(s_tokens) !! id = Some t → t.(AccessToken_TokenHash) = h → is_Some t.(AccessToken_RevokedAt).

Lemma dead_kept o s h : store_wf s → (∀ e inp, o = OpCreateToken e inp → HashToken (minted e) ≠ h) →
  dead h s → dead h (apply_op o s).
Proof.
  intros Hwf Hm Hd id t. unfold dead in Hd.
  destruct (apply_op_effect o s (wf_memory s Hwf)) as [|id' f Hc|e inp u -> Hh|id' ->].
  - apply Hd.
  - rewrite lookup_alter_Some. intros [(<- & u & Hu & ->)|[_ Ht]]; [|by eapply Hd].
    destruct (Hc u) as [Hcore Hrev]. injection Hcore as _ _ Hhash _ _ _. rewrite Hhash. intros Hh.
    specialize (Hd _ _ Hu Hh). destruct Hrev as [->|[_ ?]]; done.
  - rewrite lookup_insert_Some. intros [[_ <-]|[_ Ht]]; [|by eapply Hd].
    intros Heq. destruct (Hm e inp eq_refl). congruence.
  - rewrite lookup_delete_Some. intros [_ Ht]. by eapply Hd.
Qed.

Lemma run_dead os s h : store_wf s → run_fresh os s →
  (∀ e inp, OpCreateToken e inp ∈ os → HashToken (minted e) ≠ h) → dead h s → dead h (run os s).
Proof.
  revert s. induction os as [|o os IH]; intros s Hwf; [done|].
  intros [Hf Hr] Hm Hd. apply IH; [by apply apply_op_wf|done| |].
  - intros e inp Hin. apply (Hm e inp). by constructor.
  - apply dead_kept; [done| |done]. intros e inp ->. apply (Hm e inp). constructor.
Qed.

Lemma kills_dead o s id t : store_wf s → kills o id → s.(s_tokens) !! id = Some t →
  dead t.(AccessToken_TokenHash) (apply_op o s).
Proof.
  intros Hwf Hk Ht id' u.
  assert (Huniq : ∀ u', s_tokens s !! id' = Some u' → AccessToken_TokenHash u' = AccessToken_TokenHash t → id' = id).
  { intros u' Hu' Hh. pose proof (wf_index s Hwf (AccessToken_TokenHash t)) as Hix.
    assert (Some id' = Some id); [|congruence].
    transitivity (s_tokenByHash s !! AccessToken_TokenHash t); [symmetry|]; apply Hix; eauto. }
  destruct Hk as [[e ->]| ->]; cbn [apply_op].
  - unfold RevokeToken. rewrite (wf_memory s Hwf). simpl. rewrite alter_token_tokens, lookup_alter_Some.
    intros [(<- & u' & Hu' & ->)|[Hne Hu]] Hh; [by eexists|]. destruct Hne. by rewrite (Huniq u).
  - unfold DeleteToken. rewrite (wf_memory s Hwf). simpl. rewrite lookup_delete_Some.
    intros [Hne Hu] Hh. destruct Hne. by rewrite (Huniq u).
Qed.

(** C1. In every reachable in-memory store a raw secret resolves exactly to
    the stored token with its hash that is neither revoked nor expired, with
    that token's scopes: every other secret is refused. *)
Theorem resolve_exactly_live d e s raw t scopes : reachable d s →
  (ResolveToken e s raw).2 = ok (t, scopes, true) ↔
  live_token e s raw t
  ∧ scopes = List.filter (λ sc, sc.(AccessTokenStorage_TokenID) =s t.(AccessToken_ID)) s.(s_tokenScopes).
Proof. intros Hr. eapply ResolveToken_iff, reachable_wf, Hr. Qed.

(** C22. A minted token works until it expires: whatever happens to the
    store after [CreateToken], short of revoking or deleting that token, its
    raw secret resolves to it, with owner, mode and permissions unchanged. *)
Theorem token_works_until_expiry d e s inp s1 t raw os e' :
  reachable d s → op_fresh (OpCreateToken e inp) s →
  CreateToken unicode_lower e s inp = (s1, ok (t, raw)) →
  run_fresh os s1 → (∀ o, o ∈ os → ¬ kills o t.(AccessToken_ID)) → not_expired e' t →
  ∃ t' scopes, (ResolveToken e' (run os s1) raw).2 = ok (t', scopes, true) ∧ token_core t' = token_core t.
Proof.
  intros Hr%reachable_wf Hf Hc Hfr Hk He.
  assert (Hwf1 : store_wf s1).
  { replace s1 with (apply_op (OpCreateToken e inp) s); [by apply apply_op_wf|]. simpl. by rewrite Hc. }
  assert (Ht : s_tokens s1 !! AccessToken_ID t = Some t ∧ AccessToken_TokenHash t = HashToken raw
               ∧ AccessToken_RevokedAt t = None).
  { unfold CreateToken in Hc. rewrite (wf_memory s Hr) in Hc. destruct (_ =s ""); [done|].
    destruct (newRawToken e) as [r [?|]]; [done|]. injection Hc as <- <- <-. simpl. by rewrite lookup_insert_eq. }
  destruct Ht as (Ht & Hh & Hrev).
  destruct (run_token_kept os s1 _ t Hwf1 Hfr Hk Ht) as (t' & Ht' & Hcore & Hrev').
  exists t'. eexists. split; [|done]. apply ResolveToken_iff; [by apply run_wf|]. split; [|done].
  injection Hcore as Hid ? ? ? ? Hexp. unfold live_token, not_expired in *.
  rewrite Hid, Hexp. split_and!; congruence.
Qed.

(** C21. Revocation and deletion are final: once a token is revoked or
    deleted, no later sequence of operations makes its secret resolve again,
    unless the random source mints the same secret anew. *)
Theorem killed_token_stays_dead d s id t o os raw e :
  reachable d s → s.(s_tokens) !! id = Some t → t.(AccessToken_TokenHash) = HashToken raw → kills o id →
  run_fresh os (apply_op o s) →
  (∀ e inp, OpCreateToken e inp ∈ os → HashToken (minted e) ≠ HashToken raw) →
  ∀ t' scopes, (ResolveToken e (run os (apply_op o s)) raw).2 ≠ ok (t', scopes, true).
Proof.
  intros Hr%reachable_wf Ht Hh Hk Hf Hm t' scopes.
  assert (Hwf : store_wf (apply_op o s)).
  { apply apply_op_wf; [done|]. by destruct Hk as [[? ->]| ->]. }
  assert (Hd : dead (HashToken raw) (run os (apply_op o s))).
  { apply run_dead; [done..|]. rewrite <- Hh. by eapply kills_dead. }
  rewrite ResolveToken_iff by by apply run_wf. intros [(Hl & Hth & Hrev & _) _].
  destruct (Hd _ _ Hl Hth). congruence.
Qed.

End Machine.
