(* ===== verification/AccessProps.v ===== *)
(** What the access rules promise: the decision functions against a
    declarative reading, the effect of a token on its owner's rights, and the
    agreement of the listing with the single check. *)
From S2P Require Import Prelude GoStrings GoCrypto Models DataObj AccessState AccessObjects AccessService.

(** ** Declarative access rules *)

(** Some binding of the list gives [perm] on the storage. *)
Definition role_grants (acl : list ACLBinding) (sid : string) (perm : StoragePermission) : Prop :=
  ∃ b, b ∈ acl ∧ b.(ACLBinding_StorageID) = sid ∧ perm ∈ RolePermissions b.(ACLBinding_Role).

(** The token's first scope for the storage, its mode and its permission list let [perm] through. *)
Definition token_passes (t : AccessToken) (scopes : list AccessTokenStorage) (sid : string)
    (perm : StoragePermission) : Prop :=
  ∃ sc, List.find (λ sc, sc.(AccessTokenStorage_StorageID) =s sid) scopes = Some sc
    ∧ perm ∈ ModePermissions (intersectMode t.(AccessToken_Mode) sc.(AccessTokenStorage_MaxMode))
    ∧ (t.(AccessToken_AllowedPermissions) = [] ∨ perm ∈ t.(AccessToken_AllowedPermissions)).

Definition is_admin (p : Principal) : Prop := "platform_admin" ∈ p.(Principal_Scopes).

Definition storage_rule (p : Principal) (token : option AccessToken) (scopes : list AccessTokenStorage)
    (acl : list ACLBinding) (sid : string) (perm : StoragePermission) : Prop :=
  match token with
  | Some t => role_grants acl sid perm ∧ token_passes t scopes sid perm
  | None => role_grants acl sid perm ∨ (is_admin p ∧ ∀ q, ¬ role_grants acl sid q)
  end.

(** ** Lemmas *)

Lemma elem_of_grantedPermissions acl sid perm :
  perm ∈ grantedPermissions acl sid ↔ role_grants acl sid perm.
Proof.
  unfold grantedPermissions, role_grants.
  rewrite elem_of_list_to_set, list_elem_of_In, in_concat. split.
  - intros (l & Hl & Hp). apply list_elem_of_In, list_elem_of_fmap in Hl as (b & -> & Hb).
    apply elem_of_filter_bool in Hb as [Hb ?]. go_bool.
    exists b. split_and!; [done|done|by apply list_elem_of_In].
  - intros (b & Hb & Hs & Hp). exists (RolePermissions b.(ACLBinding_Role)).
    rewrite <- !list_elem_of_In. split; [|done].
    apply list_elem_of_fmap. exists b. split; [done|].
    apply elem_of_filter_bool. by rewrite Hs, String.eqb_refl.
Qed.

Lemma granted_empty acl sid :
  size (grantedPermissions acl sid) = 0 ↔ ∀ q, ¬ role_grants acl sid q.
Proof.
  rewrite size_empty_iff. setoid_rewrite <- elem_of_grantedPermissions. set_solver.
Qed.

Lemma ModePermissions_writer mode perm :
  perm ∈ ModePermissions mode → perm ∈ RolePermissions RoleStorageWriter.
Proof.
  unfold ModePermissions. repeat case_match; intros Hp; [done|..]; case_elem Hp;
    by apply sContains_spec.
Qed.

(** [evaluateStorageAccess] decides [storage_rule]. *)
Lemma evaluateStorageAccess_rule `{GoRange} p token scopes acl sid perm :
  (evaluateStorageAccess p token scopes acl sid perm).2 = true
  ↔ storage_rule p token scopes acl sid perm.
Proof.
  unfold evaluateStorageAccess, storage_rule. simpl. rewrite bool_decide_eq_true.
  destruct token as [t|].
  - unfold token_passes. destruct (List.find _ scopes) as [sc|] eqn:Hf.
    + destruct (AccessToken_AllowedPermissions t) as [|a l] eqn:Ha;
        rewrite !elem_of_filter, elem_of_grantedPermissions; naive_solver.
    + assert (∀ x : string, x ∉ ModePermissions AccessModeNone) by (intros ? ?%elem_of_nil; done).
      destruct (AccessToken_AllowedPermissions t); rewrite !elem_of_filter; naive_solver.
  - rewrite <- granted_empty. unfold is_admin. rewrite <- sContains_spec.
    case_bool_decide as Hz; simpl.
    + destruct (sContains _ _) eqn:Hadm; rewrite ?elem_of_union, elem_of_grantedPermissions.
      * rewrite elem_of_singleton. naive_solver.
      * naive_solver.
    + rewrite elem_of_grantedPermissions. naive_solver.
Qed.

(** ** Theorems *)

(** C11. The storage decision is the documented rule: without a token, a role
    binding of the storage grants the permission (a platform admin passes only
    where no binding grants anything); with a token, the binding is still
    needed and the token's mode, its scope for the storage and its permission
    list must all let the permission through. *)
Theorem storage_access_rule `{GoRange} p token scopes acl sid perm :
  (evaluateStorageAccess p token scopes acl sid perm).2 = true
  ↔ storage_rule p token scopes acl sid perm.
Proof. apply evaluateStorageAccess_rule. Qed.

(** Tokens only narrow: whatever a caller may do on a storage through a
    token, the same caller may do without it. *)
Theorem token_only_narrows `{GoRange} p t scopes acl sid perm :
  (evaluateStorageAccess p (Some t) scopes acl sid perm).2 = true →
  (evaluateStorageAccess p None [] acl sid perm).2 = true.
Proof. rewrite !evaluateStorageAccess_rule. simpl. tauto. Qed.

(** No token, whatever its mode, scopes and permission list, carries an
    administrative permission (managing the ACL or tokens, deleting the
    storage), even when its owner holds it. *)
Theorem token_never_administers `{GoRange} p t scopes acl sid perm :
  perm ∈ [PermissionACLManage; PermissionTokenManage; PermissionStorageDelete] →
  (evaluateStorageAccess p (Some t) scopes acl sid perm).2 = false.
Proof.
  intros Hadm. apply not_true_is_false. rewrite evaluateStorageAccess_rule. simpl.
  intros (_ & sc & _ & Hm%ModePermissions_writer & _).
  case_elem Hadm; case_elem Hm; done.
Qed.

(** On the three modes the code knows, [intersectMode] is the
    intersection of what the modes permit. *)
Theorem intersectMode_meets a b perm :
  a ∈ [AccessModeNone; AccessModeRead; AccessModeReadWrite] →
  b ∈ [AccessModeNone; AccessModeRead; AccessModeReadWrite] →
  perm ∈ ModePermissions (intersectMode a b) ↔ perm ∈ ModePermissions a ∧ perm ∈ ModePermissions b.
Proof.
  intros Ha Hb. case_elem Ha; case_elem Hb; subst; simpl; split; try tauto;
    intros Hp; try destruct Hp as [Hp Hq]; try (by apply elem_of_nil in Hp);
    try (by apply elem_of_nil in Hq); try done; split; try done; by apply (ModePermissions_writer AccessModeRead).
Qed.

Example storage_access_token_example :
  let _ := canonical_range in
  let t := (zeroval : AccessToken) <| AccessToken_Mode := AccessModeReadWrite |> in
  let sc := (zeroval : AccessTokenStorage) <| AccessTokenStorage_StorageID := "st" |>
              <| AccessTokenStorage_MaxMode := AccessModeRead |> in
  let acl := [(zeroval : ACLBinding) <| ACLBinding_StorageID := "st" |> <| ACLBinding_Role := RoleStorageOwner |>] in
  ((evaluateStorageAccess zeroval (Some t) [sc] acl "st" PermissionDocumentRead).2,
   (evaluateStorageAccess zeroval (Some t) [sc] acl "st" PermissionDocumentCreate).2,
   (evaluateStorageAccess zeroval None [] acl "st" PermissionStorageDelete).2) = (true, false, true).
Proof. vm_compute. reflexivity. Qed.

(** ** Objects *)

Definition method_granted (acl : list ObjectACLBinding) (obj : DataObject) (m : string) : Prop :=
  ∃ b, b ∈ acl ∧ b.(ObjectACLBinding_ObjectID) = obj.(DataObject_ID)
     ∧ m ∈ methodsForRole obj.(DataObject_Kind) b.(ObjectACLBinding_Role).

(** The token's first scope for the object lets the method through. *)
Definition object_token_passes (t : AccessToken) (scopes : list AccessTokenObject) (obj : DataObject)
    (m : string) : Prop :=
  ∃ sc, List.find (λ sc, sc.(AccessTokenObject_ObjectID) =s obj.(DataObject_ID)) scopes = Some sc
    ∧ (sc.(AccessTokenObject_MethodAllowlist) = [] ∨ m ∈ sc.(AccessTokenObject_MethodAllowlist)
       ∨ (obj.(DataObject_Kind) +:+ "_" +:+ m) ∈ sc.(AccessTokenObject_MethodAllowlist))
    ∧ m ∈ methodsForMode obj.(DataObject_Kind)
            (intersectMode t.(AccessToken_Mode) sc.(AccessTokenObject_MaxMode)).

Definition object_rule (p : Principal) (token : option AccessToken) (scopes : list AccessTokenObject)
    (acl : list ObjectACLBinding) (obj : DataObject) (m : string) : Prop :=
  match token with
  | Some t => object_token_passes t scopes obj m
              ∧ (method_granted acl obj m ∨ ∀ q, ¬ method_granted acl obj q)
  | None => method_granted acl obj m
            ∨ (is_admin p ∧ bindingsOf acl obj.(DataObject_ID) = [] ∧ m ∈ Methods obj.(DataObject_Kind))
  end.

Lemma elem_of_grantedMethods acl obj m : m ∈ grantedMethods acl obj ↔ method_granted acl obj m.
Proof.
  unfold grantedMethods, method_granted, bindingsOf.
  rewrite elem_of_list_to_set, list_elem_of_In, in_concat. split.
  - intros (l & Hl & Hp). apply list_elem_of_In, list_elem_of_fmap in Hl as (b & -> & Hb).
    apply elem_of_filter_bool in Hb as [Hb ?]. go_bool.
    exists b. split_and!; [done|done|by apply list_elem_of_In].
  - intros (b & Hb & Hs & Hp). eexists. rewrite <- !list_elem_of_In. split; [|done].
    apply list_elem_of_fmap. exists b. split; [done|].
    apply elem_of_filter_bool. by rewrite Hs, String.eqb_refl.
Qed.

Lemma grantedMethods_empty acl obj :
  size (grantedMethods acl obj) = 0 ↔ ∀ q, ¬ method_granted acl obj q.
Proof. rewrite size_empty_iff. setoid_rewrite <- elem_of_grantedMethods. set_solver. Qed.

Lemma methodsForMode_read kind mode m :
  mode = AccessModeRead ∨ mode = AccessModeNone → m ∈ methodsForMode kind mode → IsMutating m = false.
Proof.
  intros [-> | ->]; simpl.
  - intros [_ ?%negb_true_iff]%elem_of_filter_bool. done.
  - by intros ?%elem_of_nil.
Qed.

Lemma intersectMode_none a b : intersectMode a b = AccessModeNone →
  ∀ kind m, m ∉ methodsForMode kind (intersectMode a b).
Proof. intros -> kind m. apply not_elem_of_nil. Qed.

(** [evaluateObjectAccess] decides [object_rule]. *)
Lemma evaluateObjectAccess_rule `{GoRange} p token scopes acl obj m :
  (evaluateObjectAccess p token scopes acl obj m).2 = true ↔ object_rule p token scopes acl obj m.
Proof.
  unfold evaluateObjectAccess, object_rule. destruct token as [t|].
  - unfold object_token_passes. destruct (List.find _ scopes) as [sc|]; [|naive_solver].
    set (mode := intersectMode _ _). set (allow := AccessTokenObject_MethodAllowlist sc).
    destruct (negb (bool_decide (allow = [])) && _ && _) eqn:Hallow.
    { go_bool. rewrite bool_decide_eq_false in *. rewrite sContains_false in *.
      unfold allow in *. split; [done|]. naive_solver. }
    assert (allow = [] ∨ m ∈ allow ∨ (DataObject_Kind obj +:+ "_" +:+ m) ∈ allow) as Hal.
    { rewrite !andb_false_iff, !negb_false_iff, bool_decide_eq_true, !sContains_spec in Hallow. tauto. }
    destruct (mode =s AccessModeNone) eqn:Hnone; go_bool.
    { split; [done|]. intros [(sc' & [= <-] & _ & Hm) _]. by apply intersectMode_none in Hm. }
    destruct (IsMutating m && (mode =s AccessModeRead)) eqn:Hmut.
    { go_bool. split; [done|]. intros [(sc' & [= <-] & _ & Hm) _].
      apply methodsForMode_read in Hm; [congruence|by left]. }
    clear Hallow. simpl. rewrite bool_decide_eq_true. rewrite <- grantedMethods_empty.
    destruct (bool_decide (size _ = 0)) eqn:Hz;
      [apply bool_decide_eq_true in Hz | apply bool_decide_eq_false in Hz].
    + rewrite elem_of_union, elem_of_list_to_set, elem_of_filter, elem_of_grantedMethods. naive_solver.
    + rewrite elem_of_filter, elem_of_grantedMethods. naive_solver.
  - simpl. rewrite andb_false_r. simpl. rewrite bool_decide_eq_true.
    unfold is_admin. rewrite <- sContains_spec.
    case_bool_decide as Hz; simpl; [destruct (sContains _ _)|];
      rewrite ?elem_of_union, ?elem_of_list_to_set, elem_of_grantedMethods; naive_solver.
Qed.

(** What the ACL gives a caller on an object: the methods of the roles of the
    bindings on it, and for an administrator, where there is none, all. *)
Definition object_acl_gives (p : Principal) (acl : list ObjectACLBinding) (obj : DataObject) (m : string) : Prop :=
  method_granted acl obj m
  ∨ (is_admin p ∧ bindingsOf acl obj.(DataObject_ID) = [] ∧ m ∈ Methods obj.(DataObject_Kind)).

(** ACL and token together. *)
Definition object_intersection p (token : option AccessToken) scopes acl obj m : Prop :=
  object_acl_gives p acl obj m ∧ ∀ t, token = Some t → object_token_passes t scopes obj m.

(** Where a caller without a token is asked about, or one to whom some binding
    gives some method, the decision is the intersection. *)
Lemma object_rule_intersection p token scopes acl obj m :
  (is_Some token → ∃ q, method_granted acl obj q) →
  object_rule p token scopes acl obj m ↔ object_intersection p token scopes acl obj m.
Proof.
  intros Hbound. unfold object_rule, object_intersection, object_acl_gives. destruct token as [t|]; [|naive_solver].
  destruct Hbound as [q Hq]; [done|]. assert (Hb : bindingsOf acl obj.(DataObject_ID) ≠ []).
  { destruct Hq as (b & Hb & Hid & _). intros Hnil. unfold bindingsOf in Hnil. eapply not_elem_of_nil. rewrite <- Hnil.
    apply elem_of_filter_bool. split; [exact Hb|]. by rewrite Hid, String.eqb_refl. }
  naive_solver.
Qed.

(** C12. The object decision is the intersection of the owner's ACL and the
    token. Without a token a method is allowed exactly when a role binding of
    the object gives it (or the caller is an administrator and the object has
    no binding of the caller at all). With a token whose owner has some
    method on the object by a binding, exactly when a binding gives the
    method and the token lets it through: its first scope of the object, the
    method list of that scope and the lesser of the two modes. So there a
    token never expands what its owner may do. (A token whose owner has no
    method on the object is the subject of [object_token_widens].) *)
Theorem object_access_rule `{GoRange} p token scopes acl obj m :
  (is_Some token → ∃ q, method_granted acl obj q) →
  ((evaluateObjectAccess p token scopes acl obj m).2 = true ↔ object_intersection p token scopes acl obj m)
  ∧ ((evaluateObjectAccess p token scopes acl obj m).2 = true → (evaluateObjectAccess p None [] acl obj m).2 = true).
Proof.
  intros Hbound. rewrite !evaluateObjectAccess_rule, (object_rule_intersection p token) by done. split; [done|].
  intros [Hacl _]. exact Hacl.
Qed.

(** A read-only token never reaches a method that changes data: with mode
    [read] on the token or on its scope of the object, every mutating method
    is refused. *)
Theorem read_token_never_mutates `{GoRange} p t scopes acl obj m :
  IsMutating m = true →
  t.(AccessToken_Mode) = AccessModeRead
    ∨ Forall (λ sc, sc.(AccessTokenObject_MaxMode) = AccessModeRead) scopes →
  (evaluateObjectAccess p (Some t) scopes acl obj m).2 = false.
Proof.
  intros Hmut Hread. apply not_true_is_false. rewrite evaluateObjectAccess_rule.
  intros [(sc & Hsc & _ & Hm) _]. apply List.find_some in Hsc as [Hin%list_elem_of_In _].
  apply methodsForMode_read in Hm; [congruence|].
  assert (AccessToken_Mode t = AccessModeRead ∨ AccessTokenObject_MaxMode sc = AccessModeRead) as Hr.
  { destruct Hread as [?|Hall]; [by left|right]. rewrite Forall_forall in Hall. auto. }
  unfold intersectMode. destruct Hr as [-> | ->]; repeat case_match; auto; go_bool; simpl in *; try done.
Qed.

(** The claim that tokens only narrow does not extend to objects: where
    no binding gives a caller anything on an object, a read-write token scoped
    to the object gives every method of its kind, and the same caller without
    the token is refused. *)
Theorem object_token_widens `{GoRange} p t sc acl obj m :
  (∀ q, ¬ method_granted acl obj q) → ¬ is_admin p → m ∈ Methods obj.(DataObject_Kind) →
  t.(AccessToken_Mode) = AccessModeReadWrite → sc.(AccessTokenObject_MaxMode) = AccessModeReadWrite →
  sc.(AccessTokenObject_ObjectID) = obj.(DataObject_ID) → sc.(AccessTokenObject_MethodAllowlist) = [] →
  (evaluateObjectAccess p None [] acl obj m).2 = false
  ∧ (evaluateObjectAccess p (Some t) [sc] acl obj m).2 = true.
Proof.
  intros Hno Hadm Hm Ht Hs Hid Hal. split.
  - apply not_true_is_false. rewrite evaluateObjectAccess_rule. simpl. naive_solver.
  - apply evaluateObjectAccess_rule. split; [|by right].
    exists sc. simpl. rewrite Hid, String.eqb_refl, Ht, Hs. auto.
Qed.

(** Where some binding of the object gives the caller a method, the
    token does narrow: what passes with it passes without. *)
Theorem object_token_narrows_if_bound `{GoRange} p t scopes acl obj m :
  (∃ q, method_granted acl obj q) →
  (evaluateObjectAccess p (Some t) scopes acl obj m).2 = true →
  (evaluateObjectAccess p None [] acl obj m).2 = true.
Proof. rewrite !evaluateObjectAccess_rule. simpl. naive_solver. Qed.

(** ** Listing and single check *)

Section Listing.
Context `{Postgres, GoRange}.
Implicit Types (s : Store) (e : Env).

(** Every record of the storage map is stored under its own id. *)
Definition storages_keyed s : Prop := ∀ k st, s.(s_storages) !! k = Some st → st.(Storage_ID) = k.

(** The binding has not expired at time [t]. *)
Definition binding_live (t : Time) (b : ACLBinding) : Prop :=
  match b.(ACLBinding_ExpiresAt) with Some x => (t < x)%Z | None => True end.

(** The bindings of the in-memory store whose subject is one of [keys]. *)
Definition acl_of s (keys : list string) : list ACLBinding :=
  List.filter (λ b, bool_decide (b.(ACLBinding_SubjectKey) ∈ (list_to_set keys : gset string)))
    (range_vals s.(s_acl)).

Lemma ACLForSubject_memory s keys : s.(s_useDB) = false → ACLForSubject s keys = ok (acl_of s keys).
Proof.
  intros Hdb. unfold ACLForSubject, acl_of. destruct keys; [|by rewrite Hdb].
  f_equal. induction (range_vals s.(s_acl)) as [|b l IH]; [done|]. simpl.
  rewrite bool_decide_eq_false_2; [done|]. set_solver.
Qed.

Lemma elem_of_acl_of s keys b :
  b ∈ acl_of s keys ↔ (∃ k, s.(s_acl) !! k = Some b) ∧ b.(ACLBinding_SubjectKey) ∈ keys.
Proof.
  unfold acl_of. rewrite elem_of_filter_bool, elem_of_range_vals, bool_decide_eq_true.
  by rewrite elem_of_list_to_set.
Qed.

Lemma CanAccessStorage_memory s p token scopes sid perm :
  s.(s_useDB) = false → sid ≠ "" →
  CanAccessStorage s p token scopes sid perm
  = ok (evaluateStorageAccess p token scopes (acl_of s (SubjectKeys p)) sid perm).
Proof.
  intros Hdb Hsid. unfold CanAccessStorage. rewrite seqb_neq_false by done.
  by rewrite ACLForSubject_memory.
Qed.

(** The candidates of the in-memory listing. *)
Lemma elem_of_listAccessible e s f st :
  st ∈ listAccessibleStoragesMemory e s f ↔
  ∃ id, s.(s_storages) !! id = Some st ∧
    (if negb f.(Filter_HasToken) && f.(Filter_PlatformAdmin) then True else
     ∃ b, b ∈ acl_of s f.(Filter_SubjectKeys) ∧ b.(ACLBinding_StorageID) = id
        ∧ binding_live (now e 0) b
        ∧ (f.(Filter_HasToken) = true → id ∈ f.(Filter_TokenStorageIDs))).
Proof.
  unfold listAccessibleStoragesMemory. rewrite elem_of_sort_by, list_elem_of_omap.
  setoid_rewrite elem_of_range_set.
  destruct (negb (Filter_HasToken f) && Filter_PlatformAdmin f).
  { split; intros (id & ?); exists id; rewrite elem_of_dom in *; naive_solver. }
  setoid_rewrite elem_of_acl_of. setoid_rewrite elem_of_list_to_set.
  setoid_rewrite list_elem_of_fmap. setoid_rewrite elem_of_filter_bool.
  setoid_rewrite elem_of_range_vals. unfold binding_live, After.
  split.
  - intros (id & (b & -> & Hb & Ht) & Hst). exists (ACLBinding_StorageID b). split; [done|].
    exists b. go_bool. rewrite bool_decide_eq_true, elem_of_list_to_set in *.
    split_and!; try done; [case_match; [by apply Z.ltb_lt|done]|].
    intros Htok. rewrite Htok in *. simpl in *. by rewrite bool_decide_eq_true, elem_of_list_to_set in *.
  - intros (id & Hst & b & (Hb & Hk) & <- & Hlive & Htok). exists (ACLBinding_StorageID b).
    split; [|done]. exists b. split_and!; [done|done|].
    rewrite !andb_true_iff, bool_decide_eq_true, elem_of_list_to_set. split_and!; [done|..].
    + case_match; [by apply Z.ltb_lt|done].
    + destruct (Filter_HasToken f); simpl; [|done].
      rewrite bool_decide_eq_true, elem_of_list_to_set. auto.
Qed.

Lemma storageCandidates_memory e s p token scopes :
  s.(s_useDB) = false →
  ∃ cands, storageCandidates e s p token scopes = ok (cands, acl_of s (SubjectKeys p))
  ∧ ∀ st, st ∈ cands ↔ ∃ id, s.(s_storages) !! id = Some st ∧
    match token with
    | None => is_admin p
              ∨ ∃ b, b ∈ acl_of s (SubjectKeys p) ∧ b.(ACLBinding_StorageID) = id ∧ binding_live (now e 0) b
    | Some _ => ∃ b, b ∈ acl_of s (SubjectKeys p) ∧ b.(ACLBinding_StorageID) = id
                   ∧ binding_live (now e 0) b ∧ id ∈ AccessTokenStorage_StorageID <$> scopes
    end.
Proof.
  intros Hdb. unfold storageCandidates, ListAccessibleStorages, is_admin.
  rewrite Hdb, ACLForSubject_memory by done. destruct token as [t|]; simpl.
  - case_bool_decide as Hnil; (eexists; split; [done|]); intros st.
    + rewrite Hnil. split; [by intros ?%elem_of_nil|].
      intros (id & _ & b & _ & _ & _ & Hin). by apply elem_of_nil in Hin.
    + rewrite elem_of_listAccessible. simpl. naive_solver.
  - eexists; split; [done|]. intros st. rewrite elem_of_listAccessible. simpl.
    destruct (sContains _ _) eqn:Ha; [apply sContains_spec in Ha|apply sContains_false in Ha]; naive_solver.
Qed.

(** A permission that passes the check comes from a binding of a listed
    candidate, or the caller is an admin. *)
Lemma rule_needs_binding p token scopes acl sid perm :
  storage_rule p token scopes acl sid perm →
  match token with
  | None => is_admin p ∨ ∃ b, b ∈ acl ∧ b.(ACLBinding_StorageID) = sid
  | Some _ => (∃ b, b ∈ acl ∧ b.(ACLBinding_StorageID) = sid)
              ∧ sid ∈ AccessTokenStorage_StorageID <$> scopes
  end.
Proof.
  destruct token as [t|]; simpl.
  - intros ((b & ? & ? & _) & sc & Hf & _). split; [eauto|].
    apply List.find_some in Hf as [Hin Heq]. go_bool. subst.
    apply list_elem_of_fmap. eexists; split; [done|]. by apply list_elem_of_In.
  - intros [(b & ? & ? & _)|[? _]]; eauto.
Qed.

Lemma readable_ids_spec e s p token scopes sid :
  s.(s_useDB) = false → storages_keyed s →
  (∀ b, b ∈ acl_of s (SubjectKeys p) → binding_live (now e 0) b) → sid ≠ "" →
  sid ∈ (ReadableStorageIDs e s p token scopes).1 ↔
  is_Some (s.(s_storages) !! sid)
  ∧ (CanAccessStorage s p token scopes sid PermissionDocumentRead).1.2 = true.
Proof.
  intros Hdb Hkey Hlive Hsid. rewrite CanAccessStorage_memory by done. simpl.
  unfold ReadableStorageIDs.
  destruct (storageCandidates_memory e s p token scopes Hdb) as (cands & -> & Hc). simpl.
  rewrite elem_of_list_to_set, list_elem_of_fmap. setoid_rewrite elem_of_filter_bool.
  setoid_rewrite Hc. setoid_rewrite evaluateStorageAccess_rule. split.
  - intros (st & -> & (id & Hid & _) & Hr). rewrite (Hkey _ _ Hid) in *. eauto.
  - intros ([st Hst] & Hr). exists st. rewrite (Hkey _ _ Hst). split_and!; [done| |done].
    exists sid. split; [done|]. apply rule_needs_binding in Hr.
    destruct token; [destruct Hr as ((b & ? & ?) & ?); exists b; auto|].
    destruct Hr as [?|(b & ? & ?)]; eauto 10.
Qed.

(** The listing that avoids a query per storage agrees with the single
    check: while no binding has expired, [ReadableStorageIDs] is exactly the
    set of existing storages on which [CanAccessStorage] gives
    [document.read]. *)
Theorem readable_ids_agree e s p token scopes sid :
  s.(s_useDB) = false → storages_keyed s →
  (∀ b, b ∈ acl_of s (SubjectKeys p) → binding_live (now e 0) b) → sid ≠ "" →
  sid ∈ (ReadableStorageIDs e s p token scopes).1 ↔
  is_Some (s.(s_storages) !! sid)
  ∧ (CanAccessStorage s p token scopes sid PermissionDocumentRead).1.2 = true.
Proof. apply readable_ids_spec. Qed.

(** An expired binding is not listed but still opens the storage: when
    every binding of the caller on a storage has expired, the storage is not
    in [ReadableStorageIDs], and [CanAccessStorage] still gives every
    permission of the bindings' roles. *)
Theorem expired_binding_still_opens e s p sid b perm :
  s.(s_useDB) = false → storages_keyed s → ¬ is_admin p → sid ≠ "" →
  b ∈ acl_of s (SubjectKeys p) → b.(ACLBinding_StorageID) = sid → perm ∈ RolePermissions b.(ACLBinding_Role) →
  (∀ b', b' ∈ acl_of s (SubjectKeys p) → b'.(ACLBinding_StorageID) = sid → ¬ binding_live (now e 0) b') →
  ¬ (sid ∈ (ReadableStorageIDs e s p None []).1)
  ∧ (CanAccessStorage s p None [] sid perm).1.2 = true.
Proof.
  intros Hdb Hkey Hadm Hsid Hb Hbs Hperm Hexp. split.
  - unfold ReadableStorageIDs.
    destruct (storageCandidates_memory e s p None [] Hdb) as (cands & -> & Hc). simpl.
    rewrite elem_of_list_to_set, list_elem_of_fmap. setoid_rewrite elem_of_filter_bool.
    setoid_rewrite Hc. intros (st & -> & (id & Hid & Hcase) & _).
    destruct Hcase as [?|(b' & ? & Hs & ?)]; [done|].
    apply (Hexp b'); [done| |done]. by rewrite Hs, (Hkey _ _ Hid).
  - rewrite CanAccessStorage_memory by done. apply evaluateStorageAccess_rule.
    left. exists b. auto.
Qed.

End Listing.

(** ** Witnesses *)

Section Witnesses.
#[local] Existing Instance canonical_range.
#[local] Existing Instance no_postgres.

Definition w_token (m : AccessMode) : AccessToken := (zeroval : AccessToken) <| AccessToken_Mode := m |>.
Definition w_scope : AccessTokenStorage :=
  (zeroval : AccessTokenStorage) <| AccessTokenStorage_StorageID := "st" |>
    <| AccessTokenStorage_MaxMode := AccessModeReadWrite |>.
Definition w_binding (exp : option Time) : ACLBinding :=
  mkACLBinding "b1" "st" "user:internal:u" RoleStorageOwner "" exp 0.
Definition w_principal : Principal := (zeroval : Principal) <| Principal_UserID := "u" |>.
Definition w_object : DataObject :=
  (zeroval : DataObject) <| DataObject_ID := "q" |> <| DataObject_Kind := ObjectKindQueue |>.
Definition w_object_scope (m : AccessMode) : AccessTokenObject :=
  (zeroval : AccessTokenObject) <| AccessTokenObject_ObjectID := "q" |> <| AccessTokenObject_MaxMode := m |>.
Definition w_object_binding : ObjectACLBinding :=
  (zeroval : ObjectACLBinding) <| ObjectACLBinding_ObjectID := "q" |>
    <| ObjectACLBinding_Role := RoleStorageReader |>.
Definition w_storage : Storage := (zeroval : Storage) <| Storage_ID := "st" |>.
Definition w_store (exp : option Time) : Store :=
  (NewInMemoryStore tt) <| s_storages := {[ "st" := w_storage ]} |>
    <| s_acl := {[ "b1" := w_binding exp ]} |>.
Definition w_env : Env := mkEnv (λ _, 100%Z) (λ _, "uuid") (λ _, Some "seed").

Lemma w_store_keyed exp : storages_keyed (w_store exp).
Proof.
  intros k st Hk. change (({["st" := w_storage]} : gmap string Storage) !! k = Some st) in Hk.
  apply lookup_singleton_Some in Hk as [<- <-]. done.
Qed.
Lemma w_store_acl exp b keys : b ∈ acl_of (w_store exp) keys → b = w_binding exp.
Proof.
  intros [[k Hk] _]%elem_of_acl_of.
  change (({["b1" := w_binding exp]} : gmap string ACLBinding) !! k = Some b) in Hk.
  by apply lookup_singleton_Some in Hk as [<- <-].
Qed.

Lemma token_only_narrows_witness :
  (evaluateStorageAccess zeroval None [] [w_binding None] "st" PermissionDocumentRead).2 = true.
Proof.
  apply (token_only_narrows _ (w_token AccessModeRead) [w_scope]). vm_compute. reflexivity.
Defined.

Lemma token_never_administers_witness :
  (evaluateStorageAccess zeroval (Some (w_token AccessModeReadWrite)) [w_scope] [w_binding None] "st"
     PermissionStorageDelete).2 = false.
Proof. apply token_never_administers. apply sContains_spec. reflexivity. Defined.

Lemma intersectMode_meets_witness :
  PermissionDocumentRead ∈ ModePermissions (intersectMode AccessModeRead AccessModeReadWrite).
Proof.
  apply intersectMode_meets; [..|split]; apply sContains_spec; reflexivity.
Defined.

Lemma read_token_never_mutates_witness :
  (evaluateObjectAccess zeroval (Some (w_token AccessModeRead)) [w_object_scope AccessModeReadWrite]
     [w_object_binding] w_object "enqueue").2 = false.
Proof. apply read_token_never_mutates; [reflexivity|by left]. Defined.

(** A reader with a token for reading and writing may look, and not write. *)
Lemma object_access_rule_witness :
  object_intersection zeroval (Some (w_token AccessModeReadWrite)) [w_object_scope AccessModeReadWrite] [w_object_binding] w_object "peek"
  ∧ ¬ object_intersection zeroval (Some (w_token AccessModeReadWrite)) [w_object_scope AccessModeReadWrite] [w_object_binding] w_object "enqueue".
Proof.
  assert (Hb : ∃ q, method_granted [w_object_binding] w_object q).
  { exists "peek", w_object_binding. split_and!; [by apply list_elem_of_singleton|done|]. apply sContains_spec. reflexivity. }
  pose proof (λ m, object_access_rule zeroval (Some (w_token AccessModeReadWrite)) [w_object_scope AccessModeReadWrite]
    [w_object_binding] w_object m (λ _, Hb)) as Hr.
  split; [apply Hr; vm_compute; reflexivity|]. intros Hi. apply Hr in Hi. vm_compute in Hi. discriminate Hi.
Defined.

Lemma object_token_widens_witness :
  (evaluateObjectAccess zeroval None [] [] w_object "dequeue").2 = false
  ∧ (evaluateObjectAccess zeroval (Some (w_token AccessModeReadWrite))
       [w_object_scope AccessModeReadWrite] [] w_object "dequeue").2 = true.
Proof.
  apply object_token_widens; try reflexivity.
  - intros q (b & Hb & _). by apply elem_of_nil in Hb.
  - apply not_elem_of_nil.
  - apply sContains_spec. reflexivity.
Defined.

Lemma object_token_narrows_if_bound_witness :
  (evaluateObjectAccess zeroval None [] [w_object_binding] w_object "peek").2 = true.
Proof.
  apply (object_token_narrows_if_bound _ (w_token AccessModeRead) [w_object_scope AccessModeRead]).
  - exists "peek". exists w_object_binding. split_and!; [by apply list_elem_of_singleton|done|].
    apply sContains_spec. reflexivity.
  - vm_compute. reflexivity.
Defined.

Lemma readable_ids_agree_witness :
  "st" ∈ (ReadableStorageIDs w_env (w_store (Some 200%Z)) w_principal None []).1.
Proof.
  apply readable_ids_agree; [done|apply w_store_keyed| |done|].
  - intros b ->%w_store_acl. unfold binding_live; simpl. lia.
  - split; [eexists; reflexivity|]. vm_compute. reflexivity.
Defined.

Lemma expired_binding_still_opens_witness :
  ¬ ("st" ∈ (ReadableStorageIDs w_env (w_store (Some 50%Z)) w_principal None []).1)
  ∧ (CanAccessStorage (w_store (Some 50%Z)) w_principal None [] "st" PermissionStorageDelete).1.2 = true.
Proof.
  apply (expired_binding_still_opens _ _ _ _ (w_binding (Some 50%Z))); try done.
  - apply w_store_keyed.
  - apply not_elem_of_nil.
  - apply elem_of_acl_of. split; [exists "b1"; reflexivity|]. apply sContains_spec. vm_compute. reflexivity.
  - apply sContains_spec. reflexivity.
  - intros b ->%w_store_acl _. unfold binding_live; simpl. lia.
Defined.
End Witnesses.
