(* ===== verification/PolicyScope.v ===== *)
(** [internal/policy/scope.go]: the gate of the data plane. A kind package
    works on an object only through a [Scope] that [Open] has checked.

    The Go interface [ObjectAccess] is the class [ObjectAccess]; the access
    service is its instance. What [Open] promises is proved of any instance
    and then read at the access rules. The names of database roles and
    schemas that reach SQL text are shown to be safe here too. *)
From S2P Require Import Prelude GoStrings GoCrypto Models DataObj AccessState AccessObjects AccessService AccessProps.

(** ** The interface *)

(** The three methods [Open] calls. [DataPlaneRole] may create a role, so it
    changes the state. *)
Class ObjectAccess (St : Type) := {
  oa_GetObject : St → string → ret (option DataObject);
  oa_CanAccessObject : St → Principal → option AccessToken → list AccessTokenObject → string → string →
    ret (EffectiveObjectAccess * bool);
  oa_DataPlaneRole : Env → St → Principal → option AccessToken → St * ret string
}.

Module policy.
Definition ErrForbidden : error := Sentinel "policy" "forbidden".
Definition ErrUnknownMethod : error := Sentinel "policy" "unknown method for object kind".
Definition ErrObjectNotFound : error := Sentinel "policy" "object not found".
Definition ErrKindMismatch : error := Sentinel "policy" "object kind mismatch".

(** Like the check of the access package, with '-' allowed after the first byte. *)
Definition safeRoleName (name : string) : bool :=
  if (name =s "") || (63 <? slen name)%Z then false
  else if match runes name with
          | [] => true
          | c :: cs => ident_rune c && forallb (λ c, ident_rune c || (c =? 45)%Z) cs
          end
       then HasPrefix name "syna_"
       else false.
End policy.

(** ** The scope *)

(** What [Open] executes in the transaction it begins. *)
Inductive tx_stmt :=
| SetObjectIDs (objectID : string)   (* SELECT set_config('syna.object_ids', $1, true) *)
| SetLocalRole (role : string).      (* SET LOCAL ROLE <role> *)

(** The connection pool: [Begin] and [tx.Exec], by the statements run so far. *)
Record Pool := mkPool {
  pool_Begin : option error;
  pool_Exec : list tx_stmt → tx_stmt → option error
}.

(** [Scope_tx]: the statements that ran in the open transaction, [None]
    without one. *)
Record Scope := mkScope {
  Scope_Object : DataObject;
  Scope_Method : string;
  Scope_Access : EffectiveObjectAccess;
  Scope_Principal : Principal;
  Scope_tx : option (list tx_stmt);
  Scope_mem : bool
}.

(** [scope.Memory() || scope.Tx() == nil] *)
Definition in_memory (scope : Scope) : bool :=
  scope.(Scope_mem) || match scope.(Scope_tx) with None => true | Some _ => false end.

Section Open.
Context {St : Type} `{!ObjectAccess St}.

(** The token's object scopes, or its legacy storage scopes. *)
Definition bridgedScopes (ctx : APIAccessContext) : list AccessTokenObject :=
  match ctx.(APIAccessContext_AllowedObjects) with
  | [] => tokenObjectOfStorage <$> ctx.(APIAccessContext_AllowedStorage)
  | scopes => scopes
  end.

(** [o]: the [Access] field, [None] for a nil opener or field; the result is
    [None] where the code returns a nil scope, and then there is an error. *)
Definition Open (e : Env) (o : option St) (pool : option Pool) (p : Principal) (ctx : APIAccessContext)
    (objectID method : string) : option St * ret (option Scope) :=
  match o with
  | None => (o, fails None policy.ErrForbidden)
  | Some s =>
  match oa_GetObject s objectID with
  | (_, Some err) => (o, fails None err)
  | (None, None) => (o, fails None policy.ErrObjectNotFound)
  | (Some obj, None) =>
  if negb (HasMethod obj.(DataObject_Kind) method) then (o, fails None policy.ErrUnknownMethod)
  else
  let token := ctx.(APIAccessContext_AccessToken) in
  match oa_CanAccessObject s p token (bridgedScopes ctx) objectID method with
  | (_, Some err) => (o, fails None err)
  | ((_, false), None) => (o, fails None policy.ErrForbidden)
  | ((eff, true), None) =>
  let scope := mkScope obj method eff p None (match pool with None => true | Some _ => false end) in
  match pool with
  | None => (o, ok (Some scope))
  | Some pl =>
  match pl.(pool_Begin) with
  | Some err => (o, fails None err)
  | None =>
  match oa_DataPlaneRole e s p token with
  | (s, (_, Some err)) => (Some s, fails None err)
  | (s, (role, None)) =>
      if role <>s "" then
        if negb (policy.safeRoleName role) then (Some s, fails None (NewError "invalid data plane role"))
        else match pl.(pool_Exec) [] (SetObjectIDs objectID) with
        | Some err => (Some s, fails None err)
        | None =>
            let ran := match pl.(pool_Exec) [SetObjectIDs objectID] (SetLocalRole role) with
                       | None => [SetObjectIDs objectID; SetLocalRole role]
                       | Some _ => [SetObjectIDs objectID]
                       end in
            (Some s, ok (Some (mkScope obj method eff p (Some ran) false)))
        end
      else match pl.(pool_Exec) [] (SetObjectIDs objectID) with
      | Some err => (Some s, fails None err)
      | None => (Some s, ok (Some (mkScope obj method eff p (Some [SetObjectIDs objectID]) false)))
      end
  end end end end end end.

End Open.

(** The access service behind the interface. *)
Definition access_ObjectAccess `{Postgres, GoRange} (unicode_lower : Z → Z) : ObjectAccess Store := {|
  oa_GetObject := GetObject;
  oa_CanAccessObject := CanAccessObject;
  oa_DataPlaneRole := DataPlaneRole unicode_lower
|}.

(** ** Identifiers that reach SQL text *)

Definition ascii_bytes (l : list Z) : Prop := Forall (λ b, (0 <= b < 128)%Z) l.

Lemma decode_ascii l : ascii_bytes l → (decode_runes 0 l).*1 = l.
Proof.
  induction 1 as [|b l Hb _ IH]; [done|]. simpl. unfold decode_rune.
  rewrite (proj2 (Z.ltb_lt b 128)) by lia. simpl. f_equal. exact IH.
Qed.

Lemma ident_rune_ascii c : ident_rune c = true → (0 <= c < 128)%Z.
Proof. unfold ident_rune, is_lower, is_digit, in_range. lia. Qed.

Definition ident_bytes (l : list Z) : Prop := Forall (λ b, ident_rune b = true) l.

Lemma ident_ascii l : ident_bytes l → ascii_bytes l.
Proof. intros Hl. eapply Forall_impl; [exact Hl|]. apply ident_rune_ascii. Qed.

Lemma runes_ident s : ident_bytes (bytes s) → runes s = bytes s.
Proof. intros Hs. by apply decode_ascii, ident_ascii. Qed.

(** A sanitising map leaves only identifier bytes. *)
Lemma bytes_Map_ident f s : (∀ r, ident_rune (f r) = true) → ident_bytes (bytes (Map f s)).
Proof.
  intros Hf. unfold Map.
  assert (Hc : concat (encode_rune ∘ f <$> runes s) = f <$> runes s).
  { induction (runes s) as [|r l IH]; [done|]. rewrite !fmap_cons. cbn [concat]. rewrite IH. simpl.
    unfold encode_rune, in_range. pose proof (ident_rune_ascii _ (Hf r)).
    by rewrite (proj2 (Z.leb_le 0 _)), (proj2 (Z.leb_le _ 127)) by lia. }
  rewrite Hc, bytes_of_bytes.
  - apply Forall_fmap, Forall_forall. intros r _. apply Hf.
  - apply Forall_fmap, Forall_forall. intros r _. simpl. pose proof (ident_rune_ascii _ (Hf r)). lia.
Qed.

Lemma ident_bytes_app s t : ident_bytes (bytes (s +:+ t)) ↔ ident_bytes (bytes s) ∧ ident_bytes (bytes t).
Proof. unfold ident_bytes. by rewrite bytes_app, Forall_app. Qed.

Lemma ident_bytes_take n s : ident_bytes (bytes s) → ident_bytes (bytes (take_bytes n s)).
Proof. rewrite bytes_take_bytes. apply Forall_take. Qed.

Lemma ident_bytes_hex s : ident_bytes (bytes (hex_encode s)).
Proof.
  eapply Forall_impl; [apply hex_encode_is_hex|]. intros b. unfold is_hex, ident_rune, is_lower, is_digit, in_range.
  lia.
Qed.

(** An identifier name cut to 63 bytes. *)
Definition cut63 (name : string) : string := if (63 <? slen name)%Z then take_bytes 63 name else name.

Lemma cut63_ok name p : ident_bytes (bytes name) → HasPrefix name p = true → (String.length p <= 63)%nat →
  ident_bytes (bytes (cut63 name)) ∧ (slen (cut63 name) <= 63)%Z ∧ HasPrefix (cut63 name) p = true.
Proof.
  intros Hi Hp Hl. unfold cut63. destruct (Z.ltb_spec 63 (slen name)); [|done].
  split_and!; [by apply ident_bytes_take|unfold slen; pose proof (take_bytes_length 63 name); lia|].
  by apply HasPrefix_take.
Qed.

Lemma HasPrefix_weaken s p q : HasPrefix s (p +:+ q) = true → HasPrefix s p = true.
Proof. rewrite !HasPrefix_spec. intros [t ->]. exists (q +:+ t). apply app_assoc_s. Qed.

Lemma safe_name name : ident_bytes (bytes name) → (slen name <= 63)%Z → HasPrefix name "syna_" = true →
  safeRoleName name = true ∧ policy.safeRoleName name = true ∧ safeIdent name = true.
Proof.
  intros Hi Hl Hp. pose proof Hp as [t Ht]%HasPrefix_spec.
  unfold safeRoleName, policy.safeRoleName, safeIdent. rewrite !runes_ident, Hp by done.
  rewrite (proj2 (Z.ltb_ge 63 _)) by lia. rewrite orb_false_r.
  assert (Hf : forallb ident_rune (bytes name) = true).
  { apply forallb_forall. intros b Hb%list_elem_of_In. exact (proj1 (Forall_forall _ _) Hi b Hb). }
  assert (Hne : (name =s "") = false) by (rewrite Ht; reflexivity).
  rewrite Hf, Hne. split; [done|].
  destruct (bytes name) as [|c cs] eqn:Hb; [done|]. cbn [forallb] in Hf. go_bool. split.
  - replace (forallb _ cs) with true; [by rewrite H|]. symmetry. apply forallb_forall. intros b Hin.
    rewrite forallb_forall in H0. by rewrite H0.
  - rewrite Ht in Hb. by injection Hb as <- _.
Qed.

Lemma roleNameForToken_cut lower id : ∃ m, roleNameForToken lower id = cut63 ("syna_tok_" +:+ m) ∧ ident_bytes (bytes m).
Proof.
  eexists. split; [reflexivity|]. apply bytes_Map_ident. intros r. destruct (ident_rune r) eqn:Hr; done.
Qed.

Lemma tableSchemaName_cut id : ∃ m, tableSchemaName id = cut63 ("syna_t_" +:+ m) ∧ ident_bytes (bytes m).
Proof.
  eexists. split; [reflexivity|]. apply bytes_Map_ident. intros r.
  destruct (is_lower r || is_digit r) eqn:Hl; [unfold ident_rune; by rewrite Hl|].
  destruct (is_upper r) eqn:Hu; [|done].
  unfold ident_rune, is_lower, is_upper, is_digit, in_range in *. lia.
Qed.

Lemma roleNameForSubject_safe key :
  safeRoleName (roleNameForSubject key) = true ∧ policy.safeRoleName (roleNameForSubject key) = true.
Proof.
  assert (safeRoleName (roleNameForSubject key) = true ∧ policy.safeRoleName (roleNameForSubject key) = true
    ∧ safeIdent (roleNameForSubject key) = true) as (? & ? & _); [|done].
  unfold roleNameForSubject, subjectID. apply safe_name; [|unfold slen|done].
  - rewrite ident_bytes_app. split; [by repeat constructor|]. apply ident_bytes_take, ident_bytes_hex.
  - rewrite length_app_s. pose proof (take_bytes_length 24 (hex_encode (Sum256 key))). change (String.length "syna_user_") with 10%nat. lia.
Qed.

(** Every name the store builds for a role or a schema is safe. *)
Lemma built_names_safe lower id :
  (safeRoleName (roleNameForToken lower id) = true ∧ policy.safeRoleName (roleNameForToken lower id) = true)
  ∧ (safeRoleName (roleNameForSubject id) = true ∧ policy.safeRoleName (roleNameForSubject id) = true)
  ∧ safeIdent (tableSchemaName id) = true.
Proof.
  assert (Hcut : ∀ p m, ident_bytes (bytes ("syna_" +:+ p)) → ident_bytes (bytes m) →
    let name := cut63 (("syna_" +:+ p) +:+ m) in
    safeRoleName name = true ∧ policy.safeRoleName name = true ∧ safeIdent name = true).
  { intros p m Hp Hm. destruct (cut63_ok (("syna_" +:+ p) +:+ m) "syna_") as (? & ? & ?);
      [by apply ident_bytes_app|rewrite app_assoc_s; apply HasPrefix_app|simpl; lia|by apply safe_name]. }
  split_and!.
  - destruct (roleNameForToken_cut lower id) as (m & -> & Hm). apply (Hcut "tok_"); [by repeat constructor|done].
  - destruct (roleNameForToken_cut lower id) as (m & -> & Hm). apply (Hcut "tok_"); [by repeat constructor|done].
  - apply roleNameForSubject_safe.
  - apply roleNameForSubject_safe.
  - destruct (tableSchemaName_cut id) as (m & -> & Hm). apply (Hcut "t_"); [by repeat constructor|done].
Qed.

(** ** What an open scope guarantees *)

Section Guarantees.
Context {St : Type} `{!ObjectAccess St}.

(** The branches of a successful [Open]. *)
Lemma Open_success e o pool p ctx id m o' scope :
  Open e o pool p ctx id m = (o', ok (Some scope)) →
  ∃ (s : St) obj eff, o = Some s ∧ oa_GetObject s id = ok (Some obj)
    ∧ HasMethod obj.(DataObject_Kind) m = true
    ∧ oa_CanAccessObject s p ctx.(APIAccessContext_AccessToken) (bridgedScopes ctx) id m = ok (eff, true)
    ∧ scope.(Scope_Object) = obj ∧ scope.(Scope_Access) = eff
    ∧ (pool = None → scope.(Scope_tx) = None ∧ o' = o)
    ∧ (is_Some pool → ∃ ran, scope.(Scope_tx) = Some (SetObjectIDs id :: ran)
         ∧ (ran = [] ∨ ∃ role, ran = [SetLocalRole role] ∧ policy.safeRoleName role = true
              ∧ (oa_DataPlaneRole e s p ctx.(APIAccessContext_AccessToken)).2 = ok role)).
Proof.
  unfold Open. intros Ho. destruct o as [s|]; [|done].
  destruct (oa_GetObject s id) as [[obj|] [?|]] eqn:Hg; try done.
  destruct (HasMethod _ m) eqn:Hm; [|done]. simpl in Ho.
  destruct (oa_CanAccessObject _ _ _ _ _ _) as [[eff []] [?|]] eqn:Hc; try done.
  exists s, obj, eff. rewrite Hm.
  destruct pool as [pl|]; [|injection Ho as <- <-; simpl; split_and!; try done; by intros [? ?]].
  destruct (pool_Begin pl); [done|].
  destruct (oa_DataPlaneRole _ _ _ _) as [s' [role [?|]]]; [done|]. simpl.
  destruct (role <>s "").
  - destruct (policy.safeRoleName role) eqn:Hr; [|done]. simpl in Ho.
    destruct (pool_Exec pl [] _); [done|]. injection Ho as <- <-. simpl. split_and!; try done.
    intros _. destruct (pool_Exec pl _ _); eauto 10.
  - destruct (pool_Exec pl [] _); [done|]. injection Ho as <- <-. simpl. split_and!; try done. eauto.
Qed.
End Guarantees.

Section Access.
Context `{Postgres, GoRange}.
Context (unicode_lower : Z → Z).
#[local] Instance oa : ObjectAccess Store := access_ObjectAccess unicode_lower.
Implicit Types (s : Store) (e : Env).

(** The ACL bindings of a caller on objects in the in-memory store. *)
Definition object_acl_of s (keys : list string) : list ObjectACLBinding := (ObjectACLForSubject s keys).1.

(** C10. The gate mediates completely: over the in-memory store, [Open] gives
    a scope exactly for an existing object, a method of its kind and a caller
    to whom the ACL of the object gives that method and whose token, if there
    is one, lets it through, by its object scopes or, when it has none, by its
    storage scopes. With a token this is for owners to whom some binding gives
    some method on the object (see [object_access_rule]). *)
Theorem open_iff_allowed e s p ctx id m :
  s.(s_useDB) = false →
  (∀ obj, GetObject s id = ok (Some obj) → is_Some ctx.(APIAccessContext_AccessToken) →
     ∃ q, method_granted (object_acl_of s (SubjectKeys p)) obj q) →
  (∃ scope, (Open e (Some s) None p ctx id m).2 = ok (Some scope)) ↔
  ∃ obj, GetObject s id = ok (Some obj) ∧ m ∈ Methods obj.(DataObject_Kind)
    ∧ object_intersection p ctx.(APIAccessContext_AccessToken) (bridgedScopes ctx)
        (object_acl_of s (SubjectKeys p)) obj m.
Proof.
  intros Hdb Hbound. setoid_rewrite <- HasMethod_spec.
  assert (Hca : ∀ obj, GetObject s id = ok (Some obj) → HasMethod obj.(DataObject_Kind) m = true →
    CanAccessObject s p ctx.(APIAccessContext_AccessToken) (bridgedScopes ctx) id m =
    ok (evaluateObjectAccess p ctx.(APIAccessContext_AccessToken) (bridgedScopes ctx)
          (object_acl_of s (SubjectKeys p)) obj m)).
  { intros obj Hg Hm. unfold CanAccessObject, object_acl_of, ObjectACLForSubject. rewrite Hg. cbn. by rewrite Hm, Hdb. }
  split.
  - intros [scope Ho]. destruct (Open _ _ _ _ _ _ _) as [o' r] eqn:Heq. simpl in Ho. subst r.
    apply Open_success in Heq as (s' & obj & eff & [= <-] & Hg & Hm & Hc & _). exists obj.
    cbn [oa access_ObjectAccess oa_GetObject oa_CanAccessObject] in *.
    rewrite (Hca obj) in Hc by done. split_and!; [done|done|].
    apply object_rule_intersection; [by apply Hbound|]. apply evaluateObjectAccess_rule. by injection Hc as ->.
  - intros (obj & Hg & Hm & Ha). apply object_rule_intersection, evaluateObjectAccess_rule in Ha; [|by apply Hbound].
    unfold Open. cbn [oa access_ObjectAccess oa_GetObject oa_CanAccessObject].
    rewrite Hg. cbn. rewrite Hm, (Hca obj) by done. destruct (evaluateObjectAccess _ _ _ _ _ _) as [eff b].
    simpl in Ha. subst b. eexists. reflexivity.
Qed.

(** Over a database the caller is confined before a kind package runs:
    the transaction of a scope first pins [syna.object_ids] to the one object,
    and the only other statement it can hold switches to the caller's own
    data-plane role, under a name that is safe in SQL text. *)
Theorem open_pins_object e s pl p ctx id m o' scope :
  Open e (Some s) (Some pl) p ctx id m = (o', ok (Some scope)) →
  let role := DataPlaneRoleName unicode_lower p ctx.(APIAccessContext_AccessToken) in
  policy.safeRoleName role = true
  ∧ (scope.(Scope_tx) = Some [SetObjectIDs id] ∨ scope.(Scope_tx) = Some [SetObjectIDs id; SetLocalRole role]).
Proof.
  intros (s' & obj & eff & _ & _ & _ & _ & _ & _ & _ & Htx)%Open_success role.
  split.
  - destruct (APIAccessContext_AccessToken ctx); apply (built_names_safe unicode_lower).
  - destruct Htx as (ran & -> & [->|(r & -> & _ & Hr)]); [by eexists|by left|right].
    by injection Hr as <-.
Qed.

(** Names built from token ids, subject keys and object ids, whatever
    bytes these hold, are safe to splice into SQL: lower-case letters, digits
    and underscores, at most 63 bytes, with the prefix of the server. *)
Theorem role_names_safe id :
  (safeRoleName (roleNameForToken unicode_lower id) = true
   ∧ policy.safeRoleName (roleNameForToken unicode_lower id) = true)
  ∧ (safeRoleName (roleNameForSubject id) = true ∧ policy.safeRoleName (roleNameForSubject id) = true)
  ∧ safeIdent (tableSchemaName id) = true.
Proof. apply built_names_safe. Qed.

End Access.
