(* ===== verification/AccessFlows.v ===== *)
(** Sequences of access operations a deployment performs: creating and
    deleting a storage, the personal storage of a user, narrowing a token;
    and concrete runs of the token machine of [AccessInv]. *)
From S2P Require Import Prelude GoStrings GoCrypto Models DataObj AccessState AccessObjects AccessService.
From S2P Require Import AccessInv AccessProps PolicyScope.

Section Flows.
Context `{Postgres, GoRange}.
Context (unicode_lower : Z → Z).
Implicit Types (s : Store) (e : Env).

(** ** Reading a store *)

Lemma CanAccessObject_memory s p token scopes id m obj :
  s.(s_useDB) = false → GetObject s id = ok (Some obj) → m ∈ Methods obj.(DataObject_Kind) →
  CanAccessObject s p token scopes id m =
  ok (evaluateObjectAccess p token scopes (object_acl_of s (SubjectKeys p)) obj m).
Proof.
  intros Hdb Hg Hm%HasMethod_spec. unfold CanAccessObject, object_acl_of, ObjectACLForSubject.
  rewrite Hg. cbn. by rewrite Hm, Hdb.
Qed.

Lemma elem_of_object_acl_of s keys b : s.(s_useDB) = false →
  (∃ k, s.(s_objectACL) !! k = Some b) → b.(ObjectACLBinding_SubjectKey) ∈ keys →
  b ∈ object_acl_of s keys.
Proof.
  intros Hdb Hb Hk. unfold object_acl_of, ObjectACLForSubject. rewrite Hdb. simpl.
  apply elem_of_app. left. apply elem_of_filter_bool. split; [by apply elem_of_range_vals|by apply sContains_spec].
Qed.

(** What [CreateStorage] leaves in memory. *)
Lemma CreateStorage_memory e s st0 actor s1 st :
  s.(s_useDB) = false → CreateStorage e s st0 actor = (s1, ok st) →
  st = completeStorage e st0 ∧ s1.(s_useDB) = false
  ∧ s1.(s_storages) = <[st.(Storage_ID) := st]> s.(s_storages)
  ∧ s1.(s_objects) = <[st.(Storage_ID) := objectFromStorage st]> s.(s_objects)
  ∧ (∃ b, s1.(s_acl) = <[b.(ACLBinding_ID) := b]> s.(s_acl)
       ∧ s1.(s_objectACL) = <[b.(ACLBinding_ID) := objectOfACL b]> s.(s_objectACL)
       ∧ b.(ACLBinding_StorageID) = st.(Storage_ID) ∧ b.(ACLBinding_SubjectKey) = st.(Storage_OwnerSubjectKey)
       ∧ b.(ACLBinding_Role) = RoleStorageOwner).
Proof.
  intros Hdb. unfold CreateStorage. rewrite Hdb. generalize (completeStorage e st0). intros st1 [= <- <-].
  simpl. split_and!; try done. by eexists (mkACLBinding _ _ _ _ _ _ _).
Qed.

Lemma completeScope_ids t tm sc :
  (completeScope t tm sc).(AccessTokenStorage_TokenID) = t.(AccessToken_ID)
  ∧ (completeScope t tm sc).(AccessTokenStorage_StorageID) = sc.(AccessTokenStorage_StorageID).
Proof. unfold completeScope. by repeat case_match. Qed.

(** What [CreateToken] leaves of object scopes in memory. *)
Lemma CreateToken_memory e s inp s1 t raw :
  s.(s_useDB) = false → CreateToken unicode_lower e s inp = (s1, ok (t, raw)) →
  s1.(s_useDB) = false
  ∧ ∃ tm, s1.(s_tokenObjectScopes) =
       s.(s_tokenObjectScopes) ++ (tokenObjectOfStorage <$> (completeScope t tm <$> inp.(In_StorageScopes))).
Proof.
  intros Hdb. unfold CreateToken. rewrite Hdb. destruct (_ =s ""); [done|].
  destruct (newRawToken e) as [r [?|]]; [done|]. intros [= <- <- <-]. simpl. split; [done|]. by exists (now e 0).
Qed.

(** Own object scopes of a token are what [TokenObjects] gives. *)
Lemma TokenObjects_own s id sc : s.(s_useDB) = false → sc ∈ s.(s_tokenObjectScopes) →
  sc.(AccessTokenObject_TokenID) = id → sc ∈ (TokenObjects s id).1.
Proof.
  intros Hdb Hin <-. unfold TokenObjects. rewrite Hdb. simpl.
  assert (Hf : sc ∈ List.filter (λ sc', AccessTokenObject_TokenID sc' =s AccessTokenObject_TokenID sc) s.(s_tokenObjectScopes))
    by (apply elem_of_filter_bool; by rewrite String.eqb_refl).
  destruct (List.filter _ _); [by apply elem_of_nil in Hf|done].
Qed.

Lemma filter_none {A} (f : A → bool) l : (∀ x, x ∈ l → f x = false) → List.filter f l = [].
Proof.
  induction l as [|x l IH]; intros Hl; [done|]. simpl. rewrite (Hl x) by constructor.
  apply IH. intros y Hy. apply Hl. by constructor.
Qed.

(** ** Creating a storage *)

(** Whoever owns a new storage can use it at once: for every caller that
    carries the owner's subject key, [CreateStorage] makes all permissions of
    the storage and all methods of its data object available. *)
Theorem created_storage_open_to_owner e s st0 actor s1 st p :
  s.(s_useDB) = false → CreateStorage e s st0 actor = (s1, ok st) → st.(Storage_ID) ≠ "" →
  st.(Storage_OwnerSubjectKey) ∈ SubjectKeys p →
  (∀ perm, perm ∈ ownerPermissions →
     (CanAccessStorage s1 p None [] st.(Storage_ID) perm).1.2 = true)
  ∧ (∀ m, m ∈ Methods ObjectKindStorage →
     (CanAccessObject s1 p None [] st.(Storage_ID) m).1.2 = true).
Proof.
  intros Hdb Hc Hid Hown.
  apply CreateStorage_memory in Hc as (_ & Hdb1 & _ & Hobj & b & Hacl & Hoacl & Hbs & Hbk & Hbr); [|done].
  split.
  - intros perm Hp. rewrite CanAccessStorage_memory by done. apply evaluateStorageAccess_rule. left.
    exists b. split_and!; [|done|by rewrite Hbr]. apply elem_of_acl_of. split; [|by rewrite Hbk].
    exists (ACLBinding_ID b). by rewrite Hacl, lookup_insert_eq.
  - intros m Hm.
    rewrite (CanAccessObject_memory _ _ _ _ _ _ (objectFromStorage st)); [|done| |done].
    2: { unfold GetObject. by rewrite Hdb1, Hobj, lookup_insert_eq. }
    apply evaluateObjectAccess_rule. left. exists (objectOfACL b). split_and!; [|done|].
    + apply elem_of_object_acl_of; [done| |by rewrite <- Hbk in Hown].
      exists (ACLBinding_ID b). by rewrite Hoacl, lookup_insert_eq.
    + simpl. rewrite Hbr. done.
Qed.

(** [EnsurePersonalStorage] is idempotent: after it has answered, a
    later call finds the same storage and changes nothing, whatever bucket
    and environment it is called with. *)
Theorem personal_storage_once e e' s p bucket bucket' s1 st :
  s.(s_useDB) = false → EnsurePersonalStorage e s p bucket = (s1, ok st) →
  EnsurePersonalStorage e' s1 p bucket' = (s1, ok st).
Proof.
  intros Hdb He. unfold EnsurePersonalStorage in He.
  destruct (StorageBySlug s (personalSlug p)) as [[old|] [?|]] eqn:Hs; try done.
  { injection He as <- <-. unfold EnsurePersonalStorage. by rewrite Hs. }
  destruct (CreateStorage_memory _ _ _ _ _ _ Hdb He) as (Hst & Hdb1 & Hsto & _).
  assert (Hslug : Storage_Slug st = personalSlug p) by by rewrite Hst.
  unfold StorageBySlug in Hs. rewrite Hdb in Hs. injection Hs as Hnone.
  unfold EnsurePersonalStorage, StorageBySlug. rewrite Hdb1, Hsto. simpl.
  set (f := λ st, Storage_Slug st =s personalSlug p) in *.
  destruct (List.find f (range_vals (<[Storage_ID st := st]> (s_storages s)))) as [st'|] eqn:Hf.
  - apply List.find_some in Hf as [Hin%list_elem_of_In%elem_of_range_vals Heq].
    destruct Hin as [k [[_ <-]|[_ Hk]]%lookup_insert_Some]; [done|].
    assert (Hold : st' ∈ range_vals (s_storages s)) by (apply elem_of_range_vals; eauto).
    apply list_elem_of_In in Hold. apply (List.find_none _ _ Hnone) in Hold. congruence.
  - assert (Hin : st ∈ range_vals (<[Storage_ID st := st]> (s_storages s))).
    { apply elem_of_range_vals. exists (Storage_ID st). apply lookup_insert_eq. }
    apply list_elem_of_In in Hin. apply (List.find_none _ _ Hf) in Hin.
    unfold f in Hin. by rewrite Hslug, String.eqb_refl in Hin.
Qed.

(** Deleting a storage closes the storage routes and leaves the object
    route open: after [CreateStorage] and [DeleteStorage], the owner has no
    permission on the storage any more, and still every method on the data
    object of the same id. *)
Theorem deleted_storage_object_stays e s st0 actor s1 st p :
  s.(s_useDB) = false → CreateStorage e s st0 actor = (s1, ok st) → st.(Storage_ID) ≠ "" →
  st.(Storage_OwnerSubjectKey) ∈ SubjectKeys p → ¬ is_admin p →
  let s2 := (DeleteStorage s1 st.(Storage_ID)).1 in
  (∀ perm, (CanAccessStorage s2 p None [] st.(Storage_ID) perm).1.2 = false)
  ∧ (∀ m, m ∈ Methods ObjectKindStorage →
     (CanAccessObject s2 p None [] st.(Storage_ID) m).1.2 = true).
Proof.
  intros Hdb Hc Hid Hown Hadm s2.
  apply CreateStorage_memory in Hc as (_ & Hdb1 & _ & Hobj & b & Hacl & Hoacl & Hbs & Hbk & Hbr); [|done].
  assert (Hs2 : s2.(s_useDB) = false ∧ s2.(s_objects) = s1.(s_objects) ∧ s2.(s_objectACL) = s1.(s_objectACL)
    ∧ s2.(s_acl) = delete_if (λ b, ACLBinding_StorageID b =s Storage_ID st) s1.(s_acl)).
  { subst s2. unfold DeleteStorage. rewrite Hdb1. done. }
  destruct Hs2 as (Hdb2 & Hobj2 & Hoacl2 & Hacl2). split.
  - intros perm. rewrite CanAccessStorage_memory by done. apply not_true_iff_false.
    change ((evaluateStorageAccess p None [] (acl_of s2 (SubjectKeys p)) (Storage_ID st) perm).2 ≠ true).
    rewrite evaluateStorageAccess_rule. intros [(b' & Hb' & Hid' & _)|[? _]]; [|done].
    apply elem_of_acl_of in Hb' as [[k Hk] _]. rewrite Hacl2 in Hk.
    apply lookup_delete_if in Hk as [_ Hk]. rewrite Hid', String.eqb_refl in Hk. done.
  - intros m Hm.
    rewrite (CanAccessObject_memory _ _ _ _ _ _ (objectFromStorage st)); [|done| |done].
    2: { unfold GetObject. by rewrite Hdb2, Hobj2, Hobj, lookup_insert_eq. }
    apply evaluateObjectAccess_rule. left. exists (objectOfACL b). split_and!; [|done|by simpl; rewrite Hbr].
    apply elem_of_object_acl_of; [done| |by rewrite <- Hbk in Hown].
    exists (ACLBinding_ID b). by rewrite Hoacl2, Hoacl, lookup_insert_eq.
Qed.

(** Narrowing the storages of a token does not reach its object scopes:
    after [CreateToken] and [ReplaceTokenStorages] with no storage, the token has no storage left and [TokenObjects], which
    [ResolveBearer] hands to the data plane, still has every scope. *)
Theorem replaced_scopes_stay_on_objects e e' s inp s1 t raw :
  s.(s_useDB) = false → CreateToken unicode_lower e s inp = (s1, ok (t, raw)) →
  let s2 := (ReplaceTokenStorages e' s1 t.(AccessToken_ID) []).1 in
  TokenStorages s2 t.(AccessToken_ID) = ok []
  ∧ ∀ sc, sc ∈ inp.(In_StorageScopes) →
      ∃ osc, osc ∈ (TokenObjects s2 t.(AccessToken_ID)).1
        ∧ osc.(AccessTokenObject_ObjectID) = sc.(AccessTokenStorage_StorageID).
Proof.
  intros Hdb Hc s2.
  apply CreateToken_memory in Hc as (Hdb1 & tm & Hob); [|done].
  subst s2. unfold ReplaceTokenStorages. rewrite Hdb1. split.
  - unfold TokenStorages. simpl. rewrite Hdb1, app_nil_r. unfold ok. f_equal.
    apply filter_none. intros sc [_ Hsc]%elem_of_filter_bool. by go_bool; apply seqb_neq_false.
  - intros sc Hsc. exists (tokenObjectOfStorage (completeScope t tm sc)). split; [|apply completeScope_ids].
    apply TokenObjects_own; [done| |apply completeScope_ids]. simpl. rewrite Hob.
    apply elem_of_app. right. apply list_elem_of_fmap. eexists. split; [done|]. apply list_elem_of_fmap. eauto.
Qed.

End Flows.

(** ** Witnesses *)

Section Witnesses.
#[local] Existing Instance canonical_range.
#[local] Existing Instance no_postgres.
#[local] Instance w_bcrypt : Bcrypt := {| bcrypt_generate := λ _ pw, ok pw; bcrypt_matches := String.eqb |}.

Definition w_db : @DB no_postgres := tt.
Definition w_lower (r : Z) : Z := r.
Definition w_owner : string := "user:internal:u".
Definition w_input (scopes : list AccessTokenStorage) : CreateTokenInput :=
  mkCreateTokenInput w_owner "" AccessModeReadWrite scopes zeroval (Some 200%Z) w_owner.
Definition w_init : Store := NewInMemoryStore tt.
Definition w_create : op := OpCreateToken w_env (w_input []).
Definition w_raw : string := minted w_env.
Definition w_minted : Store := apply_op w_lower w_create w_init.
Definition w_tok : AccessToken :=
  mkAccessToken "uuid" w_owner (HashToken w_raw) "MCP token" AccessModeReadWrite [] zeroval (Some 200%Z)
    None None w_owner 100.
Definition w_late : Env := mkEnv (λ _, 150%Z) (λ _, "uuid2") (λ _, Some "other").

Lemma w_reachable : reachable w_lower w_db w_init.
Proof. constructor. Qed.
Lemma w_minted_reachable : reachable w_lower w_db w_minted.
Proof. eapply rtc_once. apply step_op. split; reflexivity. Qed.

Lemma resolve_exactly_live_witness : ∃ t scopes, (ResolveToken w_late w_minted w_raw).2 = ok (t, scopes, true).
Proof.
  eexists w_tok, _. apply (resolve_exactly_live w_lower w_db); [apply w_minted_reachable|].
  split; [|reflexivity]. split_and!; [reflexivity|reflexivity|reflexivity|]. unfold not_expired. simpl. lia.
Defined.

Lemma token_works_until_expiry_witness :
  ∃ t' scopes, (ResolveToken w_late (run w_lower [OpRevokeToken w_late "other"] w_minted) w_raw).2
    = ok (t', scopes, true) ∧ token_core t' = token_core w_tok.
Proof.
  apply (token_works_until_expiry w_lower w_db w_env w_init (w_input [])); [apply w_reachable|by split|reflexivity|done| |].
  - intros o Ho [[e ->]| ->]; apply list_elem_of_singleton in Ho; discriminate Ho.
  - unfold not_expired. simpl. lia.
Defined.

Lemma killed_token_stays_dead_witness :
  (ResolveToken w_late (run w_lower [OpResolveToken w_late w_raw]
     (apply_op w_lower (OpRevokeToken w_late "uuid") w_minted)) w_raw).2 ≠ ok (w_tok, [], true).
Proof.
  apply (killed_token_stays_dead w_lower w_db w_minted "uuid" w_tok);
    [apply w_minted_reachable|reflexivity|reflexivity|left; by eexists|done|].
  intros e inp Hin. apply list_elem_of_singleton in Hin. discriminate Hin.
Defined.

Definition w_owner_ctx : APIAccessContext := zeroval.
Definition w_queue_store : Store :=
  w_init <| s_objects := {[ "q" := w_object ]} |>
    <| s_objectACL := {[ "b" := w_object_binding <| ObjectACLBinding_SubjectKey := w_owner |> ]} |>.

(** The owner of the binding, with a token that allows reading. *)
Definition w_token_ctx : APIAccessContext :=
  w_owner_ctx <| APIAccessContext_AccessToken := Some (w_token AccessModeRead) |>
    <| APIAccessContext_AllowedObjects := [w_object_scope AccessModeReadWrite] |>.

Lemma open_iff_allowed_witness :
  ∃ scope, (Open (ObjectAccess0 := access_ObjectAccess w_lower) w_env (Some w_queue_store) None
              w_principal w_token_ctx "q" "peek").2 = ok (Some scope).
Proof.
  assert (Hb : method_granted (object_acl_of w_queue_store (SubjectKeys w_principal)) w_object "peek").
  { eexists _. split_and!; [by left| |apply sContains_spec]; reflexivity. }
  apply open_iff_allowed; [reflexivity| |].
  - intros obj Hg _. change (ok (Some w_object) = ok (Some obj)) in Hg. injection Hg as <-. by exists "peek".
  - exists w_object. split; [reflexivity|]. split; [apply sContains_spec; reflexivity|]. split; [by left|].
    intros t [= <-]. exists (w_object_scope AccessModeReadWrite). split; [reflexivity|]. split; [by left|].
    apply sContains_spec. reflexivity.
Defined.

Definition w_pool : Pool := mkPool None (λ _ _, None).
Lemma open_pins_object_witness :
  policy.safeRoleName (DataPlaneRoleName w_lower w_principal None) = true.
Proof.
  assert (Ho : ∃ scope, Open (ObjectAccess0 := access_ObjectAccess w_lower) w_env (Some w_queue_store) (Some w_pool)
            w_principal w_owner_ctx "q" "peek" = (Some w_queue_store, ok (Some scope)))
    by (eexists; vm_compute; reflexivity).
  destruct Ho as [scope Ho]. apply (open_pins_object _ _ _ _ _ _ _ _ _ _ Ho).
Defined.

Definition w_new_storage : Storage := (zeroval : Storage) <| Storage_OwnerSubjectKey := w_owner |>.

Lemma created_storage_open_to_owner_witness :
  let s1 := (CreateStorage w_env w_init w_new_storage w_owner).1 in
  (CanAccessStorage s1 w_principal None [] "uuid" PermissionStorageDelete).1.2 = true.
Proof.
  refine (proj1 (created_storage_open_to_owner w_env w_init w_new_storage w_owner _
    (completeStorage w_env w_new_storage) w_principal _ _ _ _) PermissionStorageDelete _);
    [reflexivity|reflexivity|done|apply sContains_spec; vm_compute; reflexivity|].
  apply sContains_spec. reflexivity.
Defined.

Lemma personal_storage_once_witness :
  let '(s1, r) := EnsurePersonalStorage w_env w_init w_principal "b" in
  EnsurePersonalStorage w_late s1 w_principal "c" = (s1, r).
Proof.
  destruct (EnsurePersonalStorage w_env w_init w_principal "b") as [s1 r] eqn:He.
  destruct r as [st [err|]]; [vm_compute in He; discriminate He|].
  exact (personal_storage_once w_env w_late w_init w_principal "b" "c" s1 st eq_refl He).
Defined.

Lemma deleted_storage_object_stays_witness :
  let s1 := (CreateStorage w_env w_init w_new_storage w_owner).1 in
  (CanAccessObject (DeleteStorage s1 "uuid").1 w_principal None [] "uuid" "delete").1.2 = true.
Proof.
  refine (proj2 (deleted_storage_object_stays w_env w_init w_new_storage w_owner _
    (completeStorage w_env w_new_storage) w_principal _ _ _ _ _) "delete" _);
    [reflexivity|reflexivity|done|apply sContains_spec; vm_compute; reflexivity| |].
  - apply not_elem_of_nil.
  - apply sContains_spec. reflexivity.
Defined.

Lemma replaced_scopes_stay_on_objects_witness :
  let s1 := (CreateToken w_lower w_env w_init (w_input [w_scope])).1 in
  ∃ osc, osc ∈ (TokenObjects (ReplaceTokenStorages w_late s1 "uuid" []).1 "uuid").1
    ∧ osc.(AccessTokenObject_ObjectID) = "st".
Proof.
  refine (proj2 (replaced_scopes_stay_on_objects w_lower w_env w_late w_init (w_input [w_scope]) _
    w_tok w_raw _ _) w_scope _); [reflexivity|reflexivity|by apply list_elem_of_singleton].
Defined.
End Witnesses.
