(* ===== verification/Usage.v ===== *)
(** [internal/usage/service.go]: rate limiting of access tokens, usage
    counters and their exposition in the Prometheus text format.

    Redis is a service outside the repository: [Redis] is a class with an
    abstract state and one [redis_cmd] constructor per command the code
    sends. Nothing is assumed of it. The counters are [int64] and wrap. *)
From S2P Require Import Prelude GoStrings Models.
From Stdlib Require Import Ascii.

(** ** Integers and time *)


(** Seconds between year 1 and the Unix epoch. *)
Definition unixEpoch : Z := 62135596800%Z.
Definition Unix (t : Time) : Z := (t / Second - unixEpoch)%Z.
Definition UnixMilli (t : Time) : Z := (t / 1000000 - 1000 * unixEpoch)%Z.
(** [t.Truncate(time.Minute)] *)
Definition TruncateMinute (t : Time) : Time := (t - t mod Minute)%Z.

(** [fmt.Sprintf("%d", z)] *)
Definition fmt_d (z : Z) : string := pretty z.

(** ** Redis *)

Inductive redis_cmd :=
| TSAdd (key : string) (ts value retention : Z) (sum : bool)
| HIncrBy (key field : string) (n : Z)
| ExpireKey (key : string) (ttl : Duration).

Class Redis := {
  RS : Type;
  rs_do : redis_cmd → RS → RS;                (* the code drops the error *)
  rs_incr : string → RS → RS * ret Z
}.

Record Service `{Redis} := mkService {
  u_redis : option RS;
  u_prefix : string;
  u_retention : Duration;
  u_defaultRL : RateLimitPolicy;
  u_counters : gmap string Z;
  u_events : list UsageEvent
}.
#[export] Instance settable_UsageService `{Redis} : Settable Service := λ s,
  mkService _ s.(u_redis) s.(u_prefix) s.(u_retention) s.(u_defaultRL) s.(u_counters) s.(u_events).

(** ** Keys *)

(** [strings.ReplaceAll(v, c, new)] for the four characters, in order. *)
Definition bslash : ascii := "\"%char.
Definition dquote : ascii := ascii_of 34.
Definition newline : ascii := ascii_of 10.
Definition creturn : ascii := ascii_of 13.

Definition escapeLabel (v : string) : string :=
  let v := ReplaceAll v bslash (String bslash (String bslash "")) in
  let v := ReplaceAll v dquote (String bslash (String dquote "")) in
  let v := ReplaceAll v newline (String bslash "n") in
  ReplaceAll v creturn (String bslash "r").

Section Usage.
Context `{Redis, GoRange}.
Implicit Types (s : Service).

(** [labels]: the pairs in the order the map is ranged over. *)
Definition counterKey (name : string) (labels : gmap string string) : string :=
  let parts := (λ kv, kv.1 +:+ "=" +:+ String dquote (escapeLabel kv.2 +:+ String dquote "")) <$> range_map labels in
  name +:+ "|" +:+ Join (sort_by sless parts) ",".

Definition splitCounterKey (key : string) : string * string :=
  match Cut key "|" with
  | (a, b, true) => (a, b)
  | (_, _, false) => (key, "")
  end.

Definition skey s (key : string) : string := s.(u_prefix) +:+ ":" +:+ key.

Definition firstPositive (values : list Z) : Z :=
  default 0%Z (List.find (λ v, (0 <? v)%Z) values).

Definition maxCounterSeries : Z := 50000%Z.

Definition bumpCounter (key : string) (delta : Z) (m : gmap string Z) : gmap string Z :=
  if bool_decide (m !! key = None) && (maxCounterSeries <=? Z.of_nat (size m))%Z then m
  else <[key := wrap64 (get0 m key + delta)]> m.

(** ** Rate limiting *)

(** [int64(window.Seconds())] for the three windows; Go's division truncates. *)
Definition windowKey s (t : Time) (key : string) (window : Duration) : string :=
  skey s (key +:+ ":" +:+ fmt_d (Z.quot (Unix t) (window / Second))).

Definition incrementWindow (t : Time) s (key : string) (limit : Z) (window : Duration)
    : Service * ret bool :=
  let k := windowKey s t key window in
  match s.(u_redis) with
  | None =>
      let n := wrap64 (get0 s.(u_counters) k + 1) in
      (s <| u_counters := <[k := n]> s.(u_counters) |>, ok (n <=? limit)%Z)
  | Some r =>
      match rs_incr k r with
      | (r, (_, Some err)) => (s <| u_redis := Some r |>, fails false err)
      | (r, (n, None)) =>
          let r := if (n =? 1)%Z then rs_do (ExpireKey k window) r else r in
          (s <| u_redis := Some r |>, ok (n <=? limit)%Z)
      end
  end.

(** The windows of a policy: name, limit, length. *)
Definition windowChecks s (policy : RateLimitPolicy) : list (string * Z * Duration) :=
  [("minute", firstPositive [policy.(RateLimitPolicy_RequestsPerMinute); s.(u_defaultRL).(RateLimitPolicy_RequestsPerMinute)], Minute);
   ("hour", firstPositive [policy.(RateLimitPolicy_RequestsPerHour); s.(u_defaultRL).(RateLimitPolicy_RequestsPerHour)], Hour);
   ("day", firstPositive [policy.(RateLimitPolicy_RequestsPerDay); s.(u_defaultRL).(RateLimitPolicy_RequestsPerDay)], (24 * Hour)%Z)].

(** The loop over the windows; [t k] is the k-th reading of the clock. *)
Fixpoint runChecks (t : nat → Time) s (tokenID storageID : string) (checks : list (string * Z * Duration))
    : Service * ret bool :=
  match checks with
  | [] => (s, ok true)
  | (name, limit, window) :: checks' =>
      if (limit <=? 0)%Z then runChecks t s tokenID storageID checks'
      else
        match incrementWindow (t 0) s ("rl:" +:+ tokenID +:+ ":" +:+ name) limit window with
        | (s, (true, None)) =>
            if storageID <>s "" then
              match incrementWindow (t 1) s ("rl:" +:+ tokenID +:+ ":" +:+ storageID +:+ ":" +:+ name) limit window with
              | (s, (true, None)) => runChecks (λ k, t (2 + k)) s tokenID storageID checks'
              | r => r
              end
            else runChecks (λ k, t (1 + k)) s tokenID storageID checks'
        | r => r
        end
  end.

Definition Allow (t : nat → Time) s (token : AccessToken) (storageID : string) : Service * ret bool :=
  let policy := if negb token.(AccessToken_RateLimit).(RateLimitPolicy_Enabled)
                then s.(u_defaultRL) else token.(AccessToken_RateLimit) in
  if negb policy.(RateLimitPolicy_Enabled) then (s, ok true)
  else runChecks t s token.(AccessToken_ID) storageID (windowChecks s policy).

(** ** Recording *)

Definition eventLabels (e : UsageEvent) : gmap string string :=
  {[ "token_id" := e.(UsageEvent_TokenID); "user_subject_key" := e.(UsageEvent_UserSubjectKey);
     "storage_id" := e.(UsageEvent_StorageID); "tool" := e.(UsageEvent_Tool);
     "status" := e.(UsageEvent_Status) ]}.

Definition RecordStatusError (t : Time) s (component : string) : Service :=
  let component := if component =s "" then "unknown" else component in
  match s.(u_redis) with
  | None =>
      s <| u_counters := bumpCounter (counterKey "syna_status_errors_total" {[ "component" := component ]})
             1 s.(u_counters) |>
  | Some r =>
      s <| u_redis := Some (rs_do (TSAdd (skey s ("ts:status:errors:" +:+ component)) (UnixMilli t) 1
             (s.(u_retention) / 1000000)%Z true) r) |>
  end.

(** The last [n] of a list: [l[len(l)-n:]] when it is longer. *)
Definition keepLast {A} (n : Z) (l : list A) : list A := drop (Z.to_nat (Z.of_nat (length l) - n)) l.

Definition maxEvents : Z := 10000%Z.

Definition recordCounters (e : UsageEvent) (m : gmap string Z) : gmap string Z :=
  let key name := counterKey name (eventLabels e) in
  let m := bumpCounter (key "syna_mcp_requests_total") 1 m in
  let m := if e.(UsageEvent_Status) =s "rate_limited"
           then bumpCounter (key "syna_mcp_rate_limited_total") 1 m else m in
  let m := if (e.(UsageEvent_Status) =s "error") || (e.(UsageEvent_Status) =s "forbidden")
           then bumpCounter (key "syna_mcp_errors_total") 1 m else m in
  let m := bumpCounter (key "syna_mcp_bytes_in_total") e.(UsageEvent_BytesIn) m in
  bumpCounter (key "syna_mcp_bytes_out_total") e.(UsageEvent_BytesOut) m.

(** The commands [Record] sends to redis, in order. *)
Definition recordCommands s (e : UsageEvent) : list redis_cmd :=
  let ts := UnixMilli e.(UsageEvent_CreatedAt) in
  let ret := (s.(u_retention) / 1000000)%Z in
  let bucket := skey s ("usage:req:" +:+ fmt_d (Unix (TruncateMinute e.(UsageEvent_CreatedAt)))) in
  [TSAdd (skey s ("ts:usage:req:token:" +:+ e.(UsageEvent_TokenID))) ts 1 ret true]
  ++ (if e.(UsageEvent_UserSubjectKey) <>s ""
      then [TSAdd (skey s ("ts:usage:req:user:" +:+ e.(UsageEvent_UserSubjectKey))) ts 1 ret true] else [])
  ++ (if e.(UsageEvent_StorageID) <>s ""
      then [TSAdd (skey s ("ts:usage:req:storage:" +:+ e.(UsageEvent_StorageID))) ts 1 ret true;
            TSAdd (skey s ("ts:usage:req:token_storage:" +:+ e.(UsageEvent_TokenID) +:+ ":" +:+ e.(UsageEvent_StorageID)))
              ts 1 ret true] else [])
  ++ (if (0 <? e.(UsageEvent_LatencyMS))%Z
      then [TSAdd (skey s ("ts:usage:latency_ms:token:" +:+ e.(UsageEvent_TokenID))) ts e.(UsageEvent_LatencyMS) ret false]
      else [])
  ++ [HIncrBy bucket (Join [e.(UsageEvent_TokenID); e.(UsageEvent_UserSubjectKey); e.(UsageEvent_StorageID);
                            e.(UsageEvent_Tool); e.(UsageEvent_Status)] "|") 1;
      ExpireKey bucket s.(u_retention)].

Definition Record_ (t : Time) s (event : UsageEvent) : Service :=
  let event := if IsZero event.(UsageEvent_CreatedAt)
               then event <| UsageEvent_CreatedAt := t |> else event in
  let s := s <| u_events := keepLast maxEvents (s.(u_events) ++ [event]) |>
             <| u_counters := recordCounters event s.(u_counters) |> in
  match s.(u_redis) with
  | None => s
  | Some r => s <| u_redis := Some (foldl (λ r c, rs_do c r) r (recordCommands s event)) |>
  end.

(** ** Reading *)

Definition groupValue (e : UsageEvent) (groupBy : string) : string :=
  if groupBy =s "token" then e.(UsageEvent_TokenID)
  else if groupBy =s "user" then e.(UsageEvent_UserSubjectKey)
  else if groupBy =s "tool" then e.(UsageEvent_Tool)
  else if groupBy =s "status" then e.(UsageEvent_Status)
  else e.(UsageEvent_StorageID).

(** The points of [Series]: group and count, sorted by group. *)
Definition seriesPoints s (groupBy : string) (from to : Time) : list (string * Z) :=
  let groupBy := if groupBy =s "" then "storage" else groupBy in
  let counted := List.filter (λ e, negb ((negb (IsZero from) && Before e.(UsageEvent_CreatedAt) from)
                                     || (negb (IsZero to) && After e.(UsageEvent_CreatedAt) to))) s.(u_events) in
  let points := foldl (λ m e, let k := groupValue e groupBy in <[k := (get0 m k + 1)%Z]> m)
                  (∅ : gmap string Z) counted in
  sort_by (λ a b, sless a.1 b.1) (range_map points).

Definition prometheusLine s (k : string) : string :=
  let '(name, labels) := splitCounterKey k in
  name +:+ (if labels <>s "" then "{" +:+ labels +:+ "}" else "")
    +:+ " " +:+ fmt_d (get0 s.(u_counters) k) +:+ String newline "".

Definition Prometheus s : string :=
  foldr (λ k acc, prometheusLine s k +:+ acc) "" (sort_by sless (range_map s.(u_counters)).*1).

End Usage.
