(* ===== verification/UsageProps.v ===== *)
(** What the usage service promises: the rate limiter never lets more calls
    through than its limit, and a label value cannot break out of its place
    in the metrics text. *)
From S2P Require Import Prelude GoStrings Models Usage.
From Stdlib Require Import Ascii.

(** ** Counters without redis *)

(** [m'] is [m] with every counter raised by at most [n]. *)
Definition grows (n : Z) (m m' : gmap string Z) : Prop :=
  ∀ k, (get0 m k <= get0 m' k <= get0 m k + n)%Z.
Definition bounded (B : Z) (m : gmap string Z) : Prop := ∀ k, (0 <= get0 m k <= B)%Z.

Lemma grows_refl m : grows 0 m m.
Proof. intros k. lia. Qed.
Lemma grows_trans a b m1 m2 m3 : grows a m1 m2 → grows b m2 m3 → grows (a + b) m1 m3.
Proof. intros H1 H2 k. specialize (H1 k). specialize (H2 k). lia. Qed.
Lemma grows_weaken a b m m' : (a <= b)%Z → grows a m m' → grows b m m'.
Proof. intros Hab Hg k. specialize (Hg k). lia. Qed.
Lemma bounded_grows B n m m' : bounded B m → grows n m m' → bounded (B + n) m'.
Proof. intros Hb Hg k. specialize (Hb k). specialize (Hg k). lia. Qed.

Section Limits.
Context `{Redis, GoRange}.
Implicit Types (s : Service).

(** The part of the service the limiter does not change. *)
Definition same_config s s' : Prop :=
  s'.(u_redis) = s.(u_redis) ∧ s'.(u_prefix) = s.(u_prefix) ∧ s'.(u_defaultRL) = s.(u_defaultRL).

Lemma incrementWindow_memory t s key limit window s' r B :
  s.(u_redis) = None → bounded B s.(u_counters) → (B + 1 < 2 ^ 63)%Z →
  incrementWindow t s key limit window = (s', r) →
  let k := windowKey s t key window in
  same_config s s' ∧ grows 1 s.(u_counters) s'.(u_counters)
  ∧ get0 s'.(u_counters) k = (get0 s.(u_counters) k + 1)%Z
  ∧ r = ok (get0 s.(u_counters) k + 1 <=? limit)%Z.
Proof.
  intros Hr Hb HB. unfold incrementWindow. rewrite Hr. intros [= <- <-]. simpl.
  pose proof (Hb (windowKey s t key window)). rewrite wrap64_small by lia. split_and!; try done.
  - intros k. rewrite get0_insert. case_decide; subst; lia.
  - rewrite get0_insert. by rewrite decide_True.
Qed.

Lemma same_config_trans s1 s2 s3 : same_config s1 s2 → same_config s2 s3 → same_config s1 s3.
Proof. unfold same_config. intuition congruence. Qed.

(** The loop raises every counter by at most two per window; when it answers
    yes, the first window with a limit had room. *)
Lemma runChecks_memory t s tok st checks s' r B :
  s.(u_redis) = None → bounded B s.(u_counters) → (B + 2 * Z.of_nat (length checks) < 2 ^ 63)%Z →
  runChecks t s tok st checks = (s', r) →
  same_config s s' ∧ grows (2 * Z.of_nat (length checks)) s.(u_counters) s'.(u_counters)
  ∧ ∀ name limit window rest, checks = (name, limit, window) :: rest → (0 < limit)%Z → r.1 = true →
      let k := windowKey s (t 0%nat) ("rl:" +:+ tok +:+ ":" +:+ name) window in
      (get0 s.(u_counters) k + 1 <= limit)%Z ∧ (get0 s.(u_counters) k + 1 <= get0 s'.(u_counters) k)%Z.
Proof.
  revert t s B. induction checks as [|[[name limit] window] checks IH]; intros t s B Hr Hb HB; cbn [length] in HB.
  { intros [= <- _]. split_and!; [done..|apply grows_refl|done]. }
  cbn [runChecks length]. rewrite Nat2Z.inj_succ in *. destruct (Z.leb_spec limit 0).
  { intros Hrun. destruct (IH t s B) as (Hc & Hg & _); [done..|lia|done|]. split; [exact Hc|]. split.
    - eapply grows_weaken; [|done]. lia.
    - intros ? ? ? ? [= <- <- <- <-]. lia. }
  destruct (incrementWindow (t 0%nat) s _ limit window) as [s1 r1] eqn:H1'.
  destruct (incrementWindow_memory _ _ _ _ _ _ _ B Hr Hb ltac:(lia) H1') as (Hc1 & Hg1 & Hk & ->).
  pose proof (bounded_grows _ _ _ _ Hb Hg1) as Hb1.
  assert (Hr1 : u_redis s1 = None) by (destruct Hc1 as [-> _]; done). intros Hrun.
  assert (Hrest : same_config s1 s' ∧ grows (1 + 2 * Z.of_nat (length checks)) (u_counters s1) (u_counters s')
    ∧ (r.1 = true → (get0 (u_counters s) (windowKey s (t 0%nat) ("rl:" +:+ tok +:+ ":" +:+ name) window) + 1 <= limit)%Z)).
  { destruct (Z.leb_spec (get0 (u_counters s) (windowKey s (t 0%nat) ("rl:" +:+ tok +:+ ":" +:+ name) window) + 1) limit).
    2: { injection Hrun as <- <-. split_and!; [done..| |done]. eapply grows_weaken; [|apply grows_refl]. lia. }
    cbn [ok] in Hrun. destruct (st <>s "").
    - destruct (incrementWindow (t 1%nat) s1 _ limit window) as [s2 r2] eqn:H2'.
      destruct (incrementWindow_memory _ _ _ _ _ _ _ (B + 1)%Z Hr1 Hb1 ltac:(lia) H2') as (Hc2 & Hg2 & _ & ->).
      pose proof (bounded_grows _ _ _ _ Hb1 Hg2) as Hb2. destruct (_ <=? limit)%Z.
      + assert (Hr2 : u_redis s2 = None) by (destruct Hc2 as [-> _]; done).
        destruct (IH _ s2 (B + 1 + 1)%Z Hr2 Hb2 ltac:(lia) Hrun) as (Hc' & Hg' & _).
        split; [by eapply same_config_trans|]. split; [by eapply grows_trans|done].
      + injection Hrun as <- <-. split; [done|]. split; [|done]. eapply grows_weaken; [|done]. lia.
    - destruct (IH _ s1 (B + 1)%Z Hr1 Hb1 ltac:(lia) Hrun) as (Hc' & Hg' & _).
      split; [done|]. split; [|done]. eapply grows_weaken; [|done]. lia. }
  destruct Hrest as (Hc & Hg & Hroom). split; [by eapply same_config_trans|]. split.
  - eapply grows_weaken; [|by eapply grows_trans]. lia.
  - intros ? ? ? ? [= <- <- <- <-] _ Hp. split; [by apply Hroom|]. rewrite <- Hk. apply Hg.
Qed.

(** ** Calls *)

Record call := mkCall { c_clock : nat → Time; c_token : AccessToken; c_storage : string }.

(** The answers of a sequence of calls, with the state in between. *)
Fixpoint serve s (calls : list call) : list bool :=
  match calls with
  | [] => []
  | c :: calls' =>
      let '(s', (b, _)) := Allow c.(c_clock) s c.(c_token) c.(c_storage) in b :: serve s' calls'
  end.

(** The policy the limiter applies to a token. *)
Definition policyOf s (token : AccessToken) : RateLimitPolicy :=
  if negb token.(AccessToken_RateLimit).(RateLimitPolicy_Enabled)
  then s.(u_defaultRL) else token.(AccessToken_RateLimit).

(** The token is limited to at most [L] calls a minute. *)
Definition minute_limited s (L : Z) (token : AccessToken) : Prop :=
  (policyOf s token).(RateLimitPolicy_Enabled) = true
  ∧ (0 < firstPositive [(policyOf s token).(RateLimitPolicy_RequestsPerMinute);
                        s.(u_defaultRL).(RateLimitPolicy_RequestsPerMinute)] <= L)%Z.

(** The minute a call is made in, by its first reading of the clock. *)
Definition minute_of (c : call) : Z := Z.quot (Unix (c.(c_clock) 0)) 60.

(** The calls of a token in a minute that were let through. *)
Fixpoint passed (id : string) (w : Z) (calls : list call) (answers : list bool) : Z :=
  match calls, answers with
  | c :: calls', b :: answers' =>
      ((if bool_decide (c.(c_token).(AccessToken_ID) = id ∧ minute_of c = w) && b then 1 else 0)
       + passed id w calls' answers')%Z
  | _, _ => 0%Z
  end.

Definition minuteKey s (id : string) (w : Z) : string :=
  skey s (("rl:" +:+ id +:+ ":" +:+ "minute") +:+ ":" +:+ fmt_d w).

(** One call: counters grow, and a passed call finds room in its window. *)
Lemma Allow_memory t s token st s' r B :
  s.(u_redis) = None → bounded B s.(u_counters) → (B + 6 < 2 ^ 63)%Z →
  Allow t s token st = (s', r) →
  same_config s s' ∧ grows 6 s.(u_counters) s'.(u_counters)
  ∧ ∀ L, minute_limited s L token → r.1 = true →
      let k := minuteKey s token.(AccessToken_ID) (Z.quot (Unix (t 0%nat)) 60) in
      (get0 s.(u_counters) k + 1 <= L)%Z ∧ (get0 s.(u_counters) k + 1 <= get0 s'.(u_counters) k)%Z.
Proof.
  intros Hr Hb HB Ha. unfold Allow in Ha. fold (policyOf s token) in Ha.
  destruct (RateLimitPolicy_Enabled (policyOf s token)) eqn:He; cbn [negb] in Ha.
  - apply (runChecks_memory _ _ _ _ _ _ _ B) in Ha as (Hc & Hg & Hroom); [|done..].
    split; [done|]. split; [done|]. intros L [_ Hl] Hp.
    destruct (Hroom _ _ _ _ eq_refl) as [H1 H2]; [apply Hl|done|]. split; [|exact H2].
    etransitivity; [exact H1|apply Hl].
  - injection Ha as <- <-. split; [done|]. split; [eapply grows_weaken; [|apply grows_refl]; lia|].
    intros L [He' _]. congruence.
Qed.

Lemma minute_limited_config s s' L token : same_config s s' → minute_limited s L token → minute_limited s' L token.
Proof. intros (_ & _ & Hd). unfold minute_limited, policyOf. by rewrite Hd. Qed.

Lemma minuteKey_config s s' id w : same_config s s' → minuteKey s' id w = minuteKey s id w.
Proof. intros (_ & Hp & _). unfold minuteKey, skey. by rewrite Hp. Qed.

(** What is passed fits under the limit with what was counted before. *)
Lemma passed_bound id w L calls s B :
  s.(u_redis) = None → bounded B s.(u_counters) → (B + 6 * Z.of_nat (length calls) < 2 ^ 63)%Z → (0 <= L)%Z →
  (∀ c, c ∈ calls → c.(c_token).(AccessToken_ID) = id → minute_limited s L c.(c_token)) →
  (passed id w calls (serve s calls) <= Z.max 0 (L - get0 s.(u_counters) (minuteKey s id w)))%Z.
Proof.
  revert s B. induction calls as [|c calls IH]; intros s B Hr Hb HB HL Hlim; [simpl; lia|].
  cbn [length] in HB. cbn [serve].
  destruct (Allow (c_clock c) s (c_token c) (c_storage c)) as [s' [b err]] eqn:Ha.
  destruct (Allow_memory _ _ _ _ _ _ B Hr Hb ltac:(lia) Ha) as (Hc & Hg & Hroom).
  specialize (IH s' (B + 6)%Z). rewrite (minuteKey_config s s') in IH by done. cbn [passed].
  assert (Hrest : (passed id w calls (serve s' calls) <= Z.max 0 (L - get0 (u_counters s') (minuteKey s id w)))%Z).
  { apply IH; [by destruct Hc as [-> _]|by eapply bounded_grows|lia|done|].
    intros c' Hc' Hid. eapply minute_limited_config; [done|]. apply Hlim; [by constructor|done]. }
  pose proof (Hg (minuteKey s id w)). case_bool_decide as Hmatch; simpl; [|lia].
  destruct b; [|lia]. destruct Hmatch as [Hid Hw].
  destruct (Hroom L) as [Hr1 Hr2]; [apply Hlim; [constructor|done]|done|].
  rewrite Hid in *. change (Z.quot (Unix (c_clock c 0%nat)) 60) with (minute_of c) in *. rewrite Hw in *. lia.
Qed.

(** C27. The rate limiter holds its limit: of any sequence of calls on any
    tokens and storages, at whatever times, a service without redis lets
    through at most [L] calls of a token in one minute when the policy that
    applies to the token allows [L] a minute (for runs shorter than 2^60
    calls, so that no counter overflows). *)
Theorem rate_limit_holds id w L calls s :
  s.(u_redis) = None → s.(u_counters) = ∅ → (Z.of_nat (length calls) < 2 ^ 60)%Z → (0 <= L)%Z →
  (∀ c, c ∈ calls → c.(c_token).(AccessToken_ID) = id → minute_limited s L c.(c_token)) →
  (passed id w calls (serve s calls) <= L)%Z.
Proof.
  intros Hr He Hn HL Hlim.
  pose proof (passed_bound id w L calls s 0 Hr) as Hp. rewrite He in Hp.
  unfold get0 in Hp at 1. rewrite lookup_empty in Hp. change (default zeroval None) with 0%Z in Hp.
  enough (passed id w calls (serve s calls) ≤ Z.max 0 (L - 0))%Z by lia. apply Hp; [|lia|done|done].
  intros k. unfold get0. rewrite lookup_empty. change (default zeroval None) with 0%Z. lia.
Qed.

(** Recording never creates a series beyond the cap. *)
Lemma bumpCounter_size key d m : (Z.of_nat (size (bumpCounter key d m)) <= Z.max (Z.of_nat (size m)) maxCounterSeries)%Z.
Proof.
  unfold bumpCounter. case_bool_decide as Hk; cbn [andb].
  - destruct (Z.leb_spec maxCounterSeries (Z.of_nat (size m))); [lia|]. rewrite map_size_insert_None by done. lia.
  - rewrite map_size_insert. destruct (m !! key); [simpl; lia|done].
Qed.

(** Without redis the limiter only adds series. *)
Lemma incrementWindow_dom t s key limit window s' r : s.(u_redis) = None →
  incrementWindow t s key limit window = (s', r) →
  s'.(u_redis) = None ∧ dom s'.(u_counters) = {[windowKey s t key window]} ∪ dom s.(u_counters).
Proof.
  intros Hr. unfold incrementWindow. rewrite Hr. intros [= <- _]. simpl. split; [done|]. by rewrite dom_insert_L.
Qed.

Lemma runChecks_dom t s tok st checks s' r : s.(u_redis) = None → runChecks t s tok st checks = (s', r) →
  dom s.(u_counters) ⊆ dom s'.(u_counters)
  ∧ ∀ name limit window rest, checks = (name, limit, window) :: rest → (0 < limit)%Z →
      windowKey s (t 0%nat) ("rl:" +:+ tok +:+ ":" +:+ name) window ∈ dom s'.(u_counters).
Proof.
  revert t s. induction checks as [|[[name limit] window] checks IH]; intros t s Hr.
  { by intros [= <- _]. }
  cbn [runChecks]. destruct (Z.leb_spec limit 0).
  { intros [? _]%IH; [|done]. split; [done|]. intros ? ? ? ? [= <- <- <- <-]. lia. }
  destruct (incrementWindow (t 0%nat) _ _ _ _) as [s1 [b1 o1]] eqn:H1'.
  apply incrementWindow_dom in H1' as [Hr1 Hd1]; [|done]. intros Hrun.
  enough (Hsub : dom (u_counters s1) ⊆ dom (u_counters s')).
  { split; [set_solver|]. intros ? ? ? ? [= <- <- <- <-] _. set_solver. }
  destruct b1, o1; try (by injection Hrun as <- _). destruct (st <>s ""); [|by apply IH in Hrun as [? _]].
  destruct (incrementWindow (t 1%nat) _ _ _ _) as [s2 [b2 o2]] eqn:H2'.
  apply incrementWindow_dom in H2' as [Hr2 Hd2]; [|done].
  destruct b2, o2; try (injection Hrun as <- _; set_solver). apply IH in Hrun as [? _]; [set_solver|done].
Qed.

(** The cardinality cap of the counters does not bind the limiter: at
    the cap no recorded label creates a series, and yet the first call of a
    limited token in a minute still adds one to the same map. *)
Theorem limiter_ignores_cap t s token st L :
  s.(u_redis) = None → (maxCounterSeries <= Z.of_nat (size s.(u_counters)))%Z → minute_limited s L token →
  s.(u_counters) !! minuteKey s token.(AccessToken_ID) (Z.quot (Unix (t 0%nat)) 60) = None →
  (∀ key d, s.(u_counters) !! key = None → bumpCounter key d s.(u_counters) = s.(u_counters))
  ∧ (size s.(u_counters) < size (Allow t s token st).1.(u_counters))%nat.
Proof.
  intros Hr Hcap [He Hl] Hnew. split.
  { intros key d Hk. unfold bumpCounter. rewrite bool_decide_eq_true_2 by done.
    by rewrite (proj2 (Z.leb_le _ _)). }
  unfold Allow. fold (policyOf s token). rewrite He. cbn [negb]. unfold windowChecks.
  destruct (runChecks _ _ _ _ _) as [s' r] eqn:Hrun. cbn [fst].
  apply runChecks_dom in Hrun as [Hsub Hk]; [|done]. specialize (Hk _ _ _ _ eq_refl ltac:(apply Hl)).
  rewrite <- !size_dom. apply subset_size. split; [done|].
  intros Hback. apply Hback in Hk. by apply not_elem_of_dom in Hnew.
Qed.

End Limits.


(** ** Label values *)

(** How a reader of the text format takes a label value up to its closing
    quote: what a backslash stands for, and the rest of the line. *)
Definition unescape (c : ascii) : ascii :=
  if Ascii.eqb c "n"%char then newline else if Ascii.eqb c "r"%char then creturn else c.
Fixpoint scanLabel (v : string) : option (string * string) :=
  match v with
  | "" => None
  | String c v' =>
      if Ascii.eqb c dquote then Some ("", v')
      else if Ascii.eqb c bslash then
        match v' with
        | "" => None
        | String d v'' =>
            match scanLabel v'' with Some (a, rest) => Some (String (unescape d) a, rest) | None => None end
        end
      else match scanLabel v' with Some (a, rest) => Some (String c a, rest) | None => None end
  end.

Definition escapeChar (c : ascii) : string :=
  if Ascii.eqb c bslash then String bslash (String bslash "")
  else if Ascii.eqb c dquote then String bslash (String dquote "")
  else if Ascii.eqb c newline then String bslash "n"
  else if Ascii.eqb c creturn then String bslash "r"
  else String c "".

Lemma ReplaceAll_app a b c new : ReplaceAll (a +:+ b) c new = ReplaceAll a c new +:+ ReplaceAll b c new.
Proof.
  induction a as [|d a IH]; autorewrite with go_simpl; [done|]. cbn [ReplaceAll]. by rewrite IH, app_assoc_s.
Qed.

(** The four replacements act on each character by itself. *)
Lemma escapeLabel_cons c v : escapeLabel (String c v) = escapeChar c +:+ escapeLabel v.
Proof.
  unfold escapeLabel. cbn [ReplaceAll]. rewrite !ReplaceAll_app. f_equal.
  destruct c as [[] [] [] [] [] [] [] []]; reflexivity.
Qed.

(** A label value cannot break out of its quotes in the metrics text:
    its escaped form has no line break, and a reader of the format that meets
    it in front of the closing quote gets the value back and stops there. *)
Theorem label_roundtrip v rest :
  scanLabel (escapeLabel v +:+ String dquote rest) = Some (v, rest)
  ∧ Contains (escapeLabel v) (String newline "") = false
  ∧ Contains (escapeLabel v) (String creturn "") = false.
Proof.
  induction v as [|c v (IH1 & IH2 & IH3)]; [done|]. rewrite escapeLabel_cons, app_assoc_s.
  set (E := escapeLabel v) in *. clearbody E. set (T := E +:+ String dquote rest) in *. clearbody T.
  unfold escapeChar.
  destruct (Ascii.eqb_spec c bslash) as [->|Hb]; [autorewrite with go_simpl; cbn in *; by rewrite IH1, IH2, IH3|].
  destruct (Ascii.eqb_spec c dquote) as [->|Hd]; [autorewrite with go_simpl; cbn in *; by rewrite IH1, IH2, IH3|].
  destruct (Ascii.eqb_spec c newline) as [->|Hn]; [autorewrite with go_simpl; cbn in *; by rewrite IH1, IH2, IH3|].
  destruct (Ascii.eqb_spec c creturn) as [->|Hr]; [autorewrite with go_simpl; cbn in *; by rewrite IH1, IH2, IH3|].
  autorewrite with go_simpl. cbn [scanLabel Contains HasPrefix]. rewrite IH1, IH2, IH3.
  apply Ascii.eqb_neq in Hb, Hd, Hn, Hr. rewrite (Ascii.eqb_sym newline), (Ascii.eqb_sym creturn), Hb, Hd, Hn, Hr. done.
Qed.

(** ** Witnesses *)

Section Witnesses.
#[local] Existing Instance canonical_range.
#[local] Instance no_redis : Redis := {| RS := unit; rs_do := λ _ r, r; rs_incr := λ _ r, (r, ok 1%Z) |}.

Definition w_limit : RateLimitPolicy := mkRateLimitPolicy true 1 0 0 0.
Definition w_limited : AccessToken :=
  (zeroval : AccessToken) <| AccessToken_ID := "tok" |> <| AccessToken_RateLimit := w_limit |>.
Definition w_usage (m : gmap string Z) : Service := mkService _ None "syna" Hour zeroval m [].
Definition w_call : call := mkCall (λ _, (unixEpoch * Second)%Z) w_limited "st".

Lemma rate_limit_holds_witness :
  (passed "tok" 0 [w_call; w_call; w_call] (serve (w_usage ∅) [w_call; w_call; w_call]) <= 1)%Z.
Proof.
  apply rate_limit_holds; [reflexivity|reflexivity|simpl; lia|lia|].
  intros c Hc _. assert (c = w_call) as -> by (case_elem Hc; done). split; [reflexivity|].
  change (0 < 1 <= 1)%Z. lia.
Defined.

(** One call passes, the next two do not. *)
Example serve_example : serve (w_usage ∅) [w_call; w_call; w_call] = [true; false; false].
Proof. vm_compute. reflexivity. Qed.

(** A map at the cap. *)
Definition w_series : list (string * Z) := (λ n : nat, ("k" +:+ pretty n, 0%Z)) <$> seq 0 (Z.to_nat maxCounterSeries).
Definition w_full : gmap string Z := list_to_map w_series.

Lemma w_full_size : Z.of_nat (size w_full) = maxCounterSeries.
Proof.
  unfold w_full. rewrite map_size_list_to_map.
  - unfold w_series. rewrite length_fmap, length_seq. unfold maxCounterSeries. lia.
  - unfold w_series. rewrite <- list_fmap_compose. apply NoDup_fmap_2; [|apply NoDup_seq].
    intros a b Heq. change (String "k" (pretty a) = String "k" (pretty b)) in Heq.
    injection Heq as Heq. by apply (inj pretty).
Qed.

Lemma w_full_fresh : w_full !! "syna:rl:tok:minute:0" = None.
Proof.
  apply not_elem_of_list_to_map. unfold w_series.
  rewrite <- list_fmap_compose. intros (n & Heq & _)%list_elem_of_fmap. discriminate Heq.
Qed.
#[local] Opaque w_full.

Lemma limiter_ignores_cap_witness :
  (size (w_usage w_full).(u_counters) < size (Allow (λ _, (unixEpoch * Second)%Z) (w_usage w_full) w_limited "").1.(u_counters))%nat.
Proof.
  refine (proj2 (limiter_ignores_cap (λ _, (unixEpoch * Second)%Z) (w_usage w_full) w_limited "" 1 _ _ _ _)).
  - reflexivity.
  - change (maxCounterSeries <= Z.of_nat (size w_full))%Z. rewrite w_full_size. lia.
  - split; [reflexivity|]. change (0 < 1 <= 1)%Z. lia.
  - change (w_full !! "syna:rl:tok:minute:0" = None). apply w_full_fresh.
Defined.
End Witnesses.
