(* ===== verification/Broker.v ===== *)
(** The contract of an ordered log with consumer offsets, which both the bus
    service and its Kafka client promise, and what it gives a consumer over a
    whole run. Implementations discharge [BrokerLaws]; [Bus] has two. *)
From S2P Require Import Prelude.

(** ** The interface *)

Class Broker (St A : Type) := {
  br_new : St;
  br_produce : Time → St → string → A → St;
  br_consume : St → string → string → Z → St * list A;
  (** what a topic holds, and how far a consumer has read *)
  br_log : St → string → list A;
  br_off : St → string → string → nat;
  (** the consumer a name stands for *)
  br_name : string → string;
  br_inv : St → Prop
}.

Class BrokerLaws (St A : Type) `{!Broker St A} : Prop := {
  br_new_inv : br_inv br_new;
  br_new_log : ∀ t, br_log br_new t = [];
  br_new_off : ∀ t c, br_off br_new t c = 0%nat;
  br_produce_inv : ∀ now s t x, br_inv s → br_inv (br_produce now s t x);
  br_produce_log : ∀ now s t x t', br_inv s →
    br_log (br_produce now s t x) t' = br_log s t' ++ (if decide (t = t') then [x] else []);
  br_produce_off : ∀ now s t x t' c, br_inv s → br_off (br_produce now s t x) t' c = br_off s t' c;
  br_consume_inv : ∀ s t c max, br_inv s → (0 < max)%Z → br_inv (br_consume s t c max).1;
  br_off_name : ∀ s t c c', br_name c = br_name c' → br_off s t c = br_off s t c';
  br_consume_out : ∀ s t c max, br_inv s → (0 < max)%Z →
    (br_consume s t c max).2 = take (Z.to_nat max) (drop (br_off s t c) (br_log s t));
  br_consume_log : ∀ s t c max t', br_inv s → (0 < max)%Z → br_log (br_consume s t c max).1 t' = br_log s t';
  br_consume_off : ∀ s t c max t' c', br_inv s → (0 < max)%Z →
    br_off (br_consume s t c max).1 t' c' =
    (br_off s t' c' + if decide (t = t' ∧ br_name c = br_name c') then length (br_consume s t c max).2 else 0)%nat
}.

(** ** Runs *)

Inductive broker_op (A : Type) :=
| BProduce (now : Time) (topic : string) (x : A)
| BConsume (topic consumer : string) (max : Z).
Arguments BProduce {A}. Arguments BConsume {A}.

Definition broker_op_ok {A} (o : broker_op A) : Prop :=
  match o with BConsume _ _ max => (0 < max)%Z | _ => True end.

Section Runs.
Context {St A : Type} `{BrokerLaws St A}.
Implicit Types (s : St).

(** The state after a run and what each consumer got, in order. *)
Fixpoint broker_run s (os : list (broker_op A)) : St * list (string * string * list A) :=
  match os with
  | [] => (s, [])
  | BProduce now t x :: os' => broker_run (br_produce now s t x) os'
  | BConsume t c max :: os' =>
      let '(s', out) := br_consume s t c max in
      let '(s'', log) := broker_run s' os' in (s'', (t, c, out) :: log)
  end.

Definition produced (t : string) (os : list (broker_op A)) : list A :=
  concat ((λ o, match o with BProduce _ t' x => if decide (t' = t) then [x] else [] | _ => [] end) <$> os).

Definition delivered (t c : string) (log : list (string * string * list A)) : list A :=
  concat ((λ e, if decide (e.1.1 = t ∧ br_name e.1.2 = br_name c) then e.2 else []) <$> log).

Lemma take_plus {B} (l : list B) n m : take (n + m) l = take n l ++ take m (drop n l).
Proof. revert l. induction n as [|n IH]; intros [|x l]; simpl; try done; [by destruct m|]. by rewrite IH. Qed.

(** What was read of a log is a prefix of the rest of a longer one. *)
Lemma take_prefix {B} (l l' : list B) k n : 
  take (length (take n (drop k l))) (drop k (l ++ l')) = take n (drop k l).
Proof.
  rewrite length_take, length_drop. destruct (decide (k <= length l)%nat).
  - rewrite drop_app_le by done. rewrite take_app_le by (rewrite length_drop; lia).
    destruct (decide (n <= length l - k)%nat); [by rewrite Nat.min_l by lia|].
    rewrite Nat.min_r by lia. rewrite !take_ge; [done|rewrite length_drop; lia..].
  - rewrite (drop_ge l k) by lia. rewrite take_nil. by replace (_ `min` _)%nat with 0%nat by lia.
Qed.

(** A run from any state: the log grows by what is produced, and a consumer
    gets the part of the log its offset moves over. *)
Lemma broker_run_spec os s t c : br_inv s → Forall broker_op_ok os →
  let '(s', log) := broker_run s os in
  br_inv s' ∧ br_log s' t = br_log s t ++ produced t os
  ∧ (br_off s t c <= br_off s' t c)%nat
  ∧ delivered t c log = take (br_off s' t c - br_off s t c) (drop (br_off s t c) (br_log s' t)).
Proof.
  revert s. induction os as [|o os IH]; intros s Hs Hos; inversion_clear Hos as [|? ? Ho Hos'].
  { cbn. rewrite app_nil_r, Nat.sub_diag. done. }
  destruct o as [now t' x|t' c' max]; cbn [broker_run].
  - specialize (IH (br_produce now s t' x) ltac:(by apply br_produce_inv) Hos').
    destruct (broker_run _ os) as [s' log]. destruct IH as (? & Hlog & Hle & Hdel).
    rewrite br_produce_off in Hle, Hdel by done. rewrite br_produce_log in Hlog by done.
    split_and!; try done. rewrite Hlog. unfold produced. rewrite fmap_cons. cbn [concat]. by rewrite app_assoc.
  - destruct (br_consume s t' c' max) as [s1 out] eqn:Hc.
    pose proof (br_consume_inv s t' c' max Hs Ho) as Hs1. pose proof (br_consume_out s t' c' max Hs Ho) as Hout.
    pose proof (br_consume_log s t' c' max t Hs Ho) as Hl1. pose proof (br_consume_off s t' c' max t c Hs Ho) as Ho1.
    rewrite Hc in *. simpl in Hs1, Hout, Hl1, Ho1. specialize (IH s1 Hs1 Hos').
    destruct (broker_run s1 os) as [s' log]. destruct IH as (? & Hlog & Hle & Hdel). rewrite Hl1 in Hlog.
    split_and!; [done|done|lia|]. unfold delivered. rewrite fmap_cons. cbn [concat fst snd].
    fold (delivered t c log). rewrite Hdel.
    destruct (decide (t' = t ∧ br_name c' = br_name c)) as [[-> Hn]|].
    + replace (br_off s' t c - br_off s t c)%nat with (length out + (br_off s' t c - br_off s1 t c))%nat by lia.
      rewrite take_plus, drop_drop, <- Ho1. f_equal. rewrite Hlog, Hout, (br_off_name s t c' c) by done.
      by rewrite take_prefix.
    + by rewrite Ho1, Nat.add_0_r.
Qed.

(** Every consumer of a topic reads it exactly once, in order and without a
    gap: over a run from the start, what it got is the part of the topic
    before its offset, and the topic is what was produced to it. *)
Lemma exactly_once os t c : Forall broker_op_ok os →
  let '(s, log) := broker_run br_new os in
  br_log s t = produced t os ∧ delivered t c log = take (br_off s t c) (produced t os).
Proof.
  intros Hos. pose proof (broker_run_spec os br_new t c br_new_inv Hos) as Hr.
  destruct (broker_run br_new os) as [s log]. destruct Hr as (_ & Hlog & _ & Hdel).
  rewrite br_new_log in Hlog. rewrite br_new_off in Hdel. simpl in *.
  rewrite Hlog in Hdel. by rewrite Nat.sub_0_r in Hdel.
Qed.
End Runs.
