(* ===== verification/Bus.v ===== *)
(** [internal/bus]: the event bus. [service.go] keeps events in memory, in
    Postgres or in Kafka, by the scope and the object's backend; [kafka.go] is
    the in-process client. Both in-process stores are instances of the broker
    contract of [Broker].

    The database is a parameter ([BusDB]): one function per statement, on an
    abstract state, and [Commit]. A statement that fails or a commit that
    fails leaves the state as it was. [encoding/json] is a parameter too. *)
From S2P Require Import Prelude GoStrings Models DataObj AccessObjects PolicyScope Broker.

(** ** The Kafka client (kafka.go) *)

(** The Go interface [Kafka]. *)
Class Kafka (K : Type) := {
  k_Produce : K → string → string → K * option error;
  k_Consume : K → string → string → Z → K * ret (list string)
}.

Record KafkaClient := mkKafkaClient {
  kc_topics : gmap string (list string);
  kc_offs : gmap string (gmap string Z)
}.
#[export] Instance settable_KafkaClient : Settable KafkaClient := λ c,
  mkKafkaClient c.(kc_topics) c.(kc_offs).

(** [brokers]: the configured ones; without any there is no client. *)
Definition NewKafkaClient (brokers : list string) : option KafkaClient :=
  match brokers with [] => None | _ => Some (mkKafkaClient ∅ ∅) end.

Definition KafkaClient_Produce (c : KafkaClient) (topic payload : string) : KafkaClient * option error :=
  (c <| kc_topics := <[topic := get0 c.(kc_topics) topic ++ [payload]]> c.(kc_topics) |>, None).

(** For [start + max] within 64 bits: beyond them the source slices out of
    range and panics. *)
Definition KafkaClient_Consume (c : KafkaClient) (topic consumer : string) (max : Z)
    : KafkaClient * ret (list string) :=
  let c := match c.(kc_offs) !! topic with
           | None => c <| kc_offs := <[topic := ∅]> c.(kc_offs) |>
           | Some _ => c
           end in
  let offs := get0 c.(kc_offs) topic in
  let start := get0 offs consumer in
  let msgs := get0 c.(kc_topics) topic in
  let n := Z.of_nat (length msgs) in
  if (n <=? start)%Z then (c, ok [])
  else
    let end_ := if (n <? start + max)%Z then n else (start + max)%Z in
    let out := take (Z.to_nat (end_ - start)) (drop (Z.to_nat start) msgs) in
    (c <| kc_offs := <[topic := <[consumer := end_]> offs]> c.(kc_offs) |>, ok out).

#[export] Instance KafkaClient_Kafka : Kafka KafkaClient := {|
  k_Produce := KafkaClient_Produce;
  k_Consume := KafkaClient_Consume
|}.

(** ** The service (service.go) *)

Record Event := mkEvent {
  Event_ID : Z;
  Event_Payload : gmap string Any;
  Event_CreatedAt : Time
}.
#[export] Instance zero_Event : Zero Event := mkEvent 0 ∅ 0.

Class BusDB := {
  BD : Type;
  bd_insert : string → string → Time → BD → BD * ret Z;
  bd_last : string → string → BD → Z;                       (* 0 when there is no row *)
  bd_after : string → Z → Z → BD → ret (list (Z * string * Time));
  bd_set_offset : string → string → Z → BD → BD * option error;
  bd_commit : BD → option error
}.

Section Service.
Context {K : Type} `{!Kafka K, !BusDB}.
Context (json_marshal : gmap string Any → string) (json_unmarshal : string → gmap string Any).

Record BusService := mkBusService {
  b_mem : gmap string (list Event);
  b_offs : gmap string (gmap string Z);
  b_kafka : option K;
  b_db : BD
}.
#[export] Instance settable_BusService : Settable BusService := λ s,
  mkBusService s.(b_mem) s.(b_offs) s.(b_kafka) s.(b_db).
Implicit Types (s : BusService).

Definition NewBusService (k : option K) (d : BD) : BusService := mkBusService ∅ ∅ k d.

(** [scope.Commit] of a transaction in state [d]. *)
Definition bus_commit s (d : BD) : BusService * option error :=
  match bd_commit d with
  | None => (s <| b_db := d |>, None)
  | Some err => (s, Some err)
  end.

Definition Produce (t : Time) s (scope : option Scope) (payload : option (gmap string Any))
    : BusService * ret Event :=
  match scope with
  | None => (s, fails zeroval policy.ErrKindMismatch)
  | Some sc =>
  let id := sc.(Scope_Object).(DataObject_ID) in
  if sc.(Scope_Object).(DataObject_Kind) <>s ObjectKindBus then (s, fails zeroval policy.ErrKindMismatch)
  else
    let payload := default ∅ payload in
    if sc.(Scope_Object).(DataObject_Backend) =s "kafka" then
      match s.(b_kafka) with
      | None => (s, fails zeroval (NewError "kafka backend not configured"))
      | Some k =>
          match k_Produce k ("syna." +:+ id) (json_marshal payload) with
          | (k, Some err) => (s <| b_kafka := Some k |>, fails zeroval err)
          | (k, None) => (s <| b_kafka := Some k |>, ok (mkEvent 0 payload t))
          end
      end
    else if in_memory sc then
      let e := mkEvent (Z.of_nat (length (get0 s.(b_mem) id)) + 1) payload t in
      (s <| b_mem := <[id := get0 s.(b_mem) id ++ [e]]> s.(b_mem) |>, ok e)
    else
      match bd_insert id (json_marshal payload) t s.(b_db) with
      | (_, (_, Some err)) => (s, fails zeroval err)
      | (d, (eid, None)) => let '(s, err) := bus_commit s d in (s, (mkEvent eid payload t, err))
      end
  end.

(** The loop of the in-memory [Consume]: events after [last], until [max] are
    collected ([max] is at least 1). *)
Fixpoint collect (last : Z) (max : nat) (events : list Event) : list Event :=
  match events with
  | [] => []
  | e :: es =>
      if (last <? e.(Event_ID))%Z
      then e :: match max with S (S m) => collect last (S m) es | _ => [] end
      else collect last max es
  end.

(** [t k]: the k-th reading of the clock. *)
Definition Consume (t : nat → Time) s (scope : option Scope) (consumer : string) (max : Z)
    : BusService * ret (list Event) :=
  match scope with
  | None => (s, fails [] policy.ErrKindMismatch)
  | Some sc =>
  let id := sc.(Scope_Object).(DataObject_ID) in
  if sc.(Scope_Object).(DataObject_Kind) <>s ObjectKindBus then (s, fails [] policy.ErrKindMismatch)
  else
    let consumer := if consumer =s "" then "default" else consumer in
    let max := if (max <=? 0)%Z then 10%Z else max in
    if sc.(Scope_Object).(DataObject_Backend) =s "kafka" then
      match s.(b_kafka) with
      | None => (s, fails [] (NewError "kafka backend not configured"))
      | Some k =>
          match k_Consume k ("syna." +:+ id) consumer max with
          | (k, (_, Some err)) => (s <| b_kafka := Some k |>, fails [] err)
          | (k, (raws, None)) =>
              (s <| b_kafka := Some k |>, ok (imap (λ i raw, mkEvent 0 (json_unmarshal raw) (t i)) raws))
          end
      end
    else if in_memory sc then
      let s := match s.(b_offs) !! id with
               | None => s <| b_offs := <[id := ∅]> s.(b_offs) |>
               | Some _ => s
               end in
      let out := collect (get0 (get0 s.(b_offs) id) consumer) (Z.to_nat max) (get0 s.(b_mem) id) in
      let s := match last out with
               | Some e => s <| b_offs := <[id := <[consumer := e.(Event_ID)]> (get0 s.(b_offs) id)]> s.(b_offs) |>
               | None => s
               end in
      (s, ok out)
    else
      match bd_after id (bd_last id consumer s.(b_db)) max s.(b_db) with
      | (_, Some err) => (s, fails [] err)
      | (rows, None) =>
          let out := (λ r, mkEvent r.1.1 (json_unmarshal r.1.2) r.2) <$> rows in
          match last out with
          | None => let '(s, err) := bus_commit s s.(b_db) in (s, (out, err))
          | Some e =>
              match bd_set_offset id consumer e.(Event_ID) s.(b_db) with
              | (_, Some err) => (s, fails [] err)
              | (d, None) => let '(s, err) := bus_commit s d in (s, (out, err))
              end
          end
      end
  end.

End Service.

(** ** The Kafka client is a broker *)

#[export] Instance KafkaClient_Broker : Broker KafkaClient string := {|
  br_new := mkKafkaClient ∅ ∅;
  br_produce := λ _ c topic x, (KafkaClient_Produce c topic x).1;
  br_consume := λ c topic consumer max, let '(c', r) := KafkaClient_Consume c topic consumer max in (c', r.1);
  br_log := λ c topic, get0 c.(kc_topics) topic;
  br_off := λ c topic consumer, Z.to_nat (get0 (get0 c.(kc_offs) topic) consumer);
  br_name := λ c, c;
  br_inv := λ c, ∀ topic consumer,
    (0 <= get0 (get0 c.(kc_offs) topic) consumer <= Z.of_nat (length (get0 c.(kc_topics) topic)))%Z
|}.

Lemma get0_insert_if {V} `{Zero V} (m : gmap string V) k v k' :
  get0 (<[k := v]> m) k' = if decide (k = k') then v else get0 m k'.
Proof. unfold get0. rewrite lookup_insert. by case_decide. Qed.

Lemma get0_missing {V} `{Zero V} (m : gmap string V) k : m !! k = None → get0 m k = zeroval.
Proof. unfold get0. by intros ->. Qed.

(** Creating the empty table of offsets of a topic changes no offset. *)
Lemma get0_init {V} (m : gmap string (gmap string V)) k k' : m !! k = None →
  get0 (<[k := ∅]> m) k' = get0 m k'.
Proof.
  intros Hk. rewrite get0_insert_if. destruct (decide (k = k')) as [<-|]; [|done]. by rewrite get0_missing.
Qed.

(** What the client's [Consume] does, offsets of the topic created or not. *)
Lemma KafkaClient_Consume_spec c topic consumer max : br_inv c → (0 < max)%Z →
  ∃ c' out, KafkaClient_Consume c topic consumer max = (c', ok out)
    ∧ out = take (Z.to_nat max) (drop (br_off c topic consumer) (br_log c topic))
    ∧ c'.(kc_topics) = c.(kc_topics)
    ∧ ∀ t k, get0 (get0 c'.(kc_offs) t) k =
        (get0 (get0 c.(kc_offs) t) k + if decide (topic = t ∧ consumer = k) then Z.of_nat (length out) else 0)%Z.
Proof.
  intros Hinv Hmax. unfold KafkaClient_Consume.
  set (c1 := match kc_offs c !! topic with None => _ | Some _ => c end).
  assert (Hc1 : c1.(kc_topics) = c.(kc_topics) ∧ ∀ t, get0 c1.(kc_offs) t = get0 c.(kc_offs) t).
  { subst c1. destruct (kc_offs c !! topic) eqn:Ho; [done|]. split; [done|]. intros t. by apply get0_init. }
  clearbody c1. destruct Hc1 as [Ht Ho]. rewrite Ho, Ht. simpl.
  set (start := get0 (get0 (kc_offs c) topic) consumer).
  set (msgs := get0 (kc_topics c) topic). pose proof (Hinv topic consumer) as Hs.
  change (0 <= start <= Z.of_nat (length msgs))%Z in Hs.
  destruct (Z.leb_spec (Z.of_nat (length msgs)) start).
  - eexists _, _. split; [done|]. rewrite drop_ge, take_nil by lia. split_and!; [done..|].
    intros t k. rewrite Ho. case_decide; simpl; lia.
  - eexists _, _. split; [done|]. split; [|split; [done|]].
    + destruct (Z.ltb_spec (Z.of_nat (length msgs)) (start + max)); [|f_equal; lia].
      rewrite !take_ge; [done|rewrite length_drop; lia..].
    + intros t k. simpl. rewrite get0_insert_if, length_take, length_drop.
      destruct (decide (topic = t)) as [<-|]; [|rewrite decide_False by naive_solver; rewrite Ho; lia].
      rewrite get0_insert_if. destruct (decide (consumer = k)) as [<-|];
        [rewrite decide_True by done|rewrite decide_False by naive_solver; rewrite ?Ho; lia].
      fold start. destruct (Z.ltb_spec (Z.of_nat (length msgs)) (start + max)); lia.
Qed.

#[export] Instance KafkaClient_BrokerLaws : BrokerLaws KafkaClient string.
Proof.
  split; try done.
  - intros now c t x Hinv topic consumer. specialize (Hinv topic consumer). simpl in *.
    rewrite get0_insert_if. case_decide; subst; rewrite ?length_app; lia.
  - intros now c t x t' _. simpl. rewrite get0_insert_if. case_decide; subst; [done|by rewrite app_nil_r].
  - intros c t k max Hinv Hmax.
    destruct (KafkaClient_Consume_spec c t k max Hinv Hmax) as (c' & out & Hc & Hout & Ht & Ho).
    simpl. rewrite Hc. simpl. intros t' k'. rewrite Ho, Ht. specialize (Hinv t' k').
    case_decide as Heq; [|lia]. destruct Heq as [<- <-]. rewrite Hout, length_take, length_drop. simpl. lia.
  - intros c t k k' Hk. simpl in *. by subst.
  - intros c t k max Hinv Hmax.
    destruct (KafkaClient_Consume_spec c t k max Hinv Hmax) as (c' & out & Hc & Hout & Ht & Ho).
    simpl. by rewrite Hc.
  - intros c t k max t' Hinv Hmax.
    destruct (KafkaClient_Consume_spec c t k max Hinv Hmax) as (c' & out & Hc & Hout & Ht & Ho).
    simpl. rewrite Hc. simpl. by rewrite Ht.
  - intros c t k max t' k' Hinv Hmax.
    destruct (KafkaClient_Consume_spec c t k max Hinv Hmax) as (c' & out & Hc & Hout & Ht & Ho).
    simpl. rewrite Hc. simpl. rewrite Ho. specialize (Hinv t' k'). simpl in Hinv. case_decide; lia.
Qed.

(** ** The in-memory bus is a broker *)

Section Memory.
Context {K : Type} `{!Kafka K, !BusDB}.
Context (json_marshal : gmap string Any → string) (json_unmarshal : string → gmap string Any).
Context (d0 : BD) (clock : nat → Time).
Implicit Types (s : BusService (K := K)).

(** A scope on a bus object without a database. *)
Definition bus_scope (id : string) : Scope :=
  mkScope ((zeroval : DataObject) <| DataObject_ID := id |> <| DataObject_Kind := ObjectKindBus |>
             <| DataObject_Backend := "postgres" |>)
    "" zeroval zeroval None true.

(** Events are numbered from one; an offset is within the events. *)
Definition bus_ok s : Prop :=
  (∀ id i e, get0 s.(b_mem) id !! i = Some e → e.(Event_ID) = (Z.of_nat i + 1)%Z)
  ∧ (∀ id c, (0 <= get0 (get0 s.(b_offs) id) c <= Z.of_nat (length (get0 s.(b_mem) id)))%Z).

#[local] Instance BusService_Broker : Broker (BusService (K := K)) (gmap string Any) := {|
  br_new := NewBusService None d0;
  br_produce := λ t s id x, (Produce json_marshal t s (Some (bus_scope id)) (Some x)).1;
  br_consume := λ s id c max,
    let '(s', r) := Consume json_unmarshal clock s (Some (bus_scope id)) c max in (s', Event_Payload <$> r.1);
  br_log := λ s id, Event_Payload <$> get0 s.(b_mem) id;
  br_off := λ s id c, Z.to_nat (get0 (get0 s.(b_offs) id) (if c =s "" then "default" else c));
  br_name := λ c, if c =s "" then "default" else c;
  br_inv := bus_ok
|}.

(** The events after [last] in a list numbered from [k + 1]. *)
Lemma collect_seq last max es k :
  (∀ i e, es !! i = Some e → e.(Event_ID) = (k + Z.of_nat i + 1)%Z) → (0 < max)%nat →
  collect last max es = take max (drop (Z.to_nat (last - k)) es).
Proof.
  revert max k. induction es as [|e es IH]; intros max k Hids Hmax; [by rewrite drop_nil, take_nil|].
  assert (Hes : ∀ i e', es !! i = Some e' → Event_ID e' = ((k + 1) + Z.of_nat i + 1)%Z).
  { intros i e' He'. rewrite (Hids (S i) e' He'). lia. }
  simpl. rewrite (Hids 0%nat e eq_refl). destruct (Z.ltb_spec last (k + Z.of_nat 0 + 1)).
  - replace (Z.to_nat (last - k)) with 0%nat by lia. destruct max as [|[|m]]; [lia|done|].
    simpl. f_equal. rewrite (IH (S m) (k + 1)%Z) by (done || lia).
    by replace (Z.to_nat (last - (k + 1))) with 0%nat by lia.
  - rewrite (IH max (k + 1)%Z) by done.
    replace (Z.to_nat (last - k)) with (S (Z.to_nat (last - (k + 1)))) by lia. done.
Qed.

Lemma last_drop_id s id out n m e : bus_ok s → out = take m (drop n (get0 s.(b_mem) id)) → last out = Some e →
  e.(Event_ID) = (Z.of_nat n + Z.of_nat (length out))%Z.
Proof.
  intros [Hids _] Hout Hl. rewrite last_lookup in Hl.
  assert (Hlen : (0 < length out)%nat) by (destruct out; [done|simpl; lia]).
  assert (Hm : (pred (length out) < m)%nat) by (rewrite Hout, length_take in *; lia).
  assert (Hi : ∃ i, i = pred (length out)) by eauto. destruct Hi as [i Hi]. rewrite <- Hi in *.
  rewrite Hout, lookup_take, decide_True, lookup_drop in Hl by done. apply Hids in Hl. lia.
Qed.

(** What the in-memory [Consume] does. *)
Lemma Consume_memory s id c max : bus_ok s → (0 < max)%Z →
  let name := if c =s "" then "default" else c in
  ∃ s' out, Consume json_unmarshal clock s (Some (bus_scope id)) c max = (s', ok out)
    ∧ out = take (Z.to_nat max) (drop (Z.to_nat (get0 (get0 s.(b_offs) id) name)) (get0 s.(b_mem) id))
    ∧ s'.(b_mem) = s.(b_mem)
    ∧ ∀ id' k, get0 (get0 s'.(b_offs) id') k =
        (get0 (get0 s.(b_offs) id') k + if decide (id = id' ∧ name = k) then Z.of_nat (length out) else 0)%Z.
Proof.
  intros Hok Hmax name. unfold Consume. cbn -[collect get0].
  rewrite (proj2 (Z.leb_gt max 0)) by lia. fold name.
  set (s1 := match b_offs s !! id with None => _ | Some _ => s end).
  assert (Hs1 : s1.(b_mem) = s.(b_mem) ∧ ∀ t, get0 s1.(b_offs) t = get0 s.(b_offs) t).
  { subst s1. destruct (b_offs s !! id) eqn:Ho; [done|]. split; [done|]. intros t. by apply get0_init. }
  clearbody s1. destruct Hs1 as [Hm Ho]. rewrite Ho, Hm.
  set (start := get0 (get0 (b_offs s) id) name).
  assert (Hstart : (0 <= start)%Z) by apply Hok.
  rewrite (collect_seq _ _ _ 0%Z), Z.sub_0_r by (lia || apply Hok).
  set (out := take _ _).
  eexists _, out. split; [done|]. split; [done|]. destruct (last out) as [e|] eqn:Hl.
  - pose proof (last_drop_id s id out _ _ e Hok eq_refl Hl) as He. split; [done|].
    intros id' k. simpl. rewrite get0_insert_if. destruct (decide (id = id')) as [<-|].
    + rewrite get0_insert_if. destruct (decide (name = k)) as [<-|].
      * rewrite decide_True by done. fold start. lia.
      * rewrite decide_False by naive_solver. rewrite ?Ho. lia.
    + rewrite decide_False by naive_solver. rewrite ?Ho. lia.
  - apply last_None in Hl. rewrite Hl. split; [done|]. intros id' k. rewrite Ho. case_decide; simpl; lia.
Qed.

Lemma Produce_memory t s id x :
  let s' := (Produce json_marshal t s (Some (bus_scope id)) (Some x)).1 in
  s'.(b_offs) = s.(b_offs)
  ∧ s'.(b_mem) = <[id := get0 s.(b_mem) id ++ [mkEvent (Z.of_nat (length (get0 s.(b_mem) id)) + 1) x t]]> s.(b_mem).
Proof. done. Qed.

#[local] Instance BusService_BrokerLaws : BrokerLaws (BusService (K := K)) (gmap string Any).
Proof.
  split; try done.
  - intros t s id x [Hids Hoffs]. cbn [br_produce BusService_Broker br_inv].
    destruct (Produce_memory t s id x) as [Ho Hm]. split; [rewrite Hm|rewrite Ho, Hm].
    + intros id' i e. rewrite get0_insert_if. destruct (decide (id = id')) as [<-|]; [|apply Hids].
      rewrite lookup_app_Some. intros [He|[Hi He]]; [by apply Hids in He|].
      apply list_lookup_singleton_Some in He as [Hi' <-]. simpl. lia.
    + intros id' c. rewrite get0_insert_if. specialize (Hoffs id' c). case_decide; subst; rewrite ?length_app; simpl; lia.
  - intros t s id x id' _. cbn [br_produce BusService_Broker br_log].
    destruct (Produce_memory t s id x) as [_ ->]. rewrite get0_insert_if. case_decide; subst; [by rewrite fmap_app|by rewrite app_nil_r].
  - intros s id c max Hok Hmax.
    destruct (Consume_memory s id c max Hok Hmax) as (s' & out & Hc & Hout & Hm & Ho).
    cbn [br_consume BusService_Broker br_inv]. rewrite Hc. cbn [fst]. split; [rewrite Hm; apply Hok|].
    intros id' k. rewrite Ho, Hm. pose proof (proj2 Hok id' k). case_decide as Heq; [|lia].
    destruct Heq as [<- <-]. rewrite Hout, length_take, length_drop. lia.
  - intros s t c c' Hn. cbn in *. by rewrite Hn.
  - intros s id c max Hok Hmax.
    destruct (Consume_memory s id c max Hok Hmax) as (s' & out & Hc & Hout & Hm & Ho).
    cbn [br_consume BusService_Broker br_off br_log]. rewrite Hc. cbn [snd fst ok]. rewrite Hout.
    by rewrite <- fmap_drop, <- fmap_take.
  - intros s id c max id' Hok Hmax.
    destruct (Consume_memory s id c max Hok Hmax) as (s' & out & Hc & Hout & Hm & Ho).
    cbn [br_consume BusService_Broker br_log]. rewrite Hc. cbn [fst]. by rewrite Hm.
  - intros s id c max id' c' Hok Hmax.
    destruct (Consume_memory s id c max Hok Hmax) as (s' & out & Hc & Hout & Hm & Ho).
    cbn [br_consume BusService_Broker br_off br_name]. rewrite Hc. cbn [snd fst ok]. rewrite Ho, length_fmap.
    pose proof (proj2 Hok id' (if c' =s "" then "default" else c')). case_decide; lia.
Qed.


End Memory.

(** The Kafka client keeps the same contract for raw messages, so the bus
    gives the same guarantee over it. *)
Theorem kafka_exactly_once os topic c : Forall broker_op_ok os →
  let '(s, log) := broker_run (br_new (St := KafkaClient)) os in
  get0 s.(kc_topics) topic = produced topic os
  ∧ delivered topic c log = take (br_off s topic c) (produced topic os).
Proof.
  intros Hos. pose proof (exactly_once (St := KafkaClient) os topic c Hos) as He.
  destruct (broker_run _ os). exact He.
Qed.

(** ** Witnesses *)

Section Witnesses.
#[local] Instance no_bus_db : BusDB := {|
  BD := unit; bd_insert := λ _ _ _ d, (d, ok 1%Z); bd_last := λ _ _ _, 0%Z; bd_after := λ _ _ _ _, ok [];
  bd_set_offset := λ _ _ _ d, (d, None); bd_commit := λ _, None |}.

Definition w_payload (n : string) : gmap string Any := {[ "n" := AString n ]}.
Definition w_ops : list (broker_op (gmap string Any)) :=
  [BProduce 1 "b" (w_payload "1"); BProduce 2 "b" (w_payload "2"); BConsume "b" "c" 1;
   BProduce 3 "b" (w_payload "3"); BConsume "b" "other" 5; BConsume "b" "c" 5].

Definition w_bus_broker : Broker (BusService (K := KafkaClient)) (gmap string Any) :=
  BusService_Broker (λ _, "") (λ _, ∅) (tt : BD) (λ _, 0%Z).
#[local] Existing Instance w_bus_broker.


Lemma kafka_exactly_once_witness :
  let '(s, log) := broker_run (br_new (St := KafkaClient)) [BProduce 0 "t" "m1"; BConsume "t" "c" 1] in
  delivered "t" "c" log = take (br_off s "t" "c") ["m1"].
Proof.
  pose proof (kafka_exactly_once [BProduce 0 "t" "m1"; BConsume "t" "c" 1] "t" "c") as He.
  destruct (broker_run _ _) as [s log]. apply He. repeat constructor; done.
Defined.
End Witnesses.
