(* ===== verification/Kinds.v ===== *)
(** The remaining object kinds of the data plane that keep their own state:
    [internal/queue], [internal/counter], [internal/variable],
    [internal/logstore] and [internal/schedule] ([service.go] of each). Every
    operation has an in-memory branch and a database branch, chosen by the
    scope; the database, AMQP, redis, [encoding/json] and
    [time.ParseDuration] are parameters. Counters are IEEE doubles. *)
From S2P Require Import Prelude GoStrings Models DataObj AccessObjects PolicyScope Bus.
From Stdlib Require Import Floats.SpecFloat.

(** ** Parameters *)

(** One function per statement; a row query gives [None] for no row or an
    error where the code treats both alike. *)
Class KindDB := {
  KD : Type;
  kd_commit : KD → option error;
  (* queue *)
  kd_enqueue : string → string → Time → KD → KD * ret Z;
  kd_dequeue : string → string → KD → KD * option (Z * string * Time);
  kd_delete_message : Z → KD → KD;
  kd_peek : string → KD → option (Z * string * Time);
  kd_size : string → KD → ret Z;
  (* counter *)
  kd_counter_write : string → spec_float → Time → KD → KD * option error;
  kd_counter_read : string → KD → option spec_float;
  (* variable *)
  kd_variable_set : string → string → string → string → Time → KD → KD * option error;
  kd_variable_get : string → string → string → KD → option (string * string * string * Time);
  (* log *)
  kd_log_insert : string → string → string → string → Time → KD → KD * ret Z;
  kd_log_tail : string → Z → KD → ret (list (Z * string * string * string * Time));
  (* schedule *)
  kd_schedule_set : string → string → string → string → string → Time → Time → KD → KD * option error;
  kd_schedule_get : string → string → KD → option (string * string * string * string * Time * bool * Time);
  kd_schedule_list : string → KD → ret (list (string * string * string * string * Time * bool * Time));
  kd_schedule_claim : string → string → KD → KD * option (Z * string * string * Time * string * string);
  (* the workers *)
  kd_schedule_due : Time → KD → ret (list (string * string * string * string * string));
  kd_schedule_deliver : string → string → Time → string → string → KD → KD;
  kd_schedule_advance : Time → Time → string → string → KD → KD;
  kd_log_objects : KD → ret (list (string * string * string));
  kd_log_older : string → Time → KD → ret (list (Z * string * string * string * Time));
  kd_log_delete : string → list Z → KD → KD * option error;
  (* table *)
  kd_relation : string → KD → option (string * string);
  kd_query : string → KD → KD * ret (list string * list (list Any))
}.

(** The Go interface [AMQP] of the queue. *)
Class AMQP (Q : Type) := {
  q_Enqueue : Q → string → string → Q * option error;
  q_Dequeue : Q → string → Q * ret (option string);
  q_Peek : Q → string → Q * ret (option string);
  q_Size : Q → string → Q * ret Z
}.

(** Redis TimeSeries, as the counter uses it: [TS.CREATE] (error dropped),
    [TS.ADD], and the value of a well-formed reply to [TS.GET]. *)
Class TimeSeries (R : Type) := {
  ts_create : R → string → R;
  ts_add : R → string → spec_float → R * option error;
  ts_get : R → string → option spec_float
}.

(** ** Doubles *)

Abbreviation float64 := spec_float (only parsing).
Definition f_zero : float64 := S754_zero false.
Definition f_one : float64 := Eval vm_compute in binary_round 53 1024 false 1 0.
Definition f_add (a b : float64) : float64 := SFadd 53 1024 a b.
Definition f_neg (a : float64) : float64 := SFopp a.
Definition f_eqb (a b : float64) : bool := SFeqb a b.

(** The scope is open and of the kind. *)
Definition scope_of_kind (kind : ObjectKind) (scope : option Scope) : option Scope :=
  match scope with
  | Some sc => if sc.(Scope_Object).(DataObject_Kind) =s kind then Some sc else None
  | None => None
  end.
Definition scope_id (sc : Scope) : string := sc.(Scope_Object).(DataObject_ID).

(** [scope.Commit] in the state the statements left; a failed commit undoes them. *)
Definition kd_finish `{KindDB} (old new : KD) : KD * option error :=
  match kd_commit new with None => (new, None) | Some err => (old, Some err) end.

Section Kinds.
Context {Q R : Type} `{!AMQP Q, !TimeSeries R, !KindDB, !GoRange}.
Context (json_marshal : gmap string Any → string) (json_unmarshal : string → gmap string Any).
Context (ParseDuration : string → ret Duration).
Implicit Types (e : Env).

(** ** Queue *)

Record Message := mkMessage { Message_ID : Z; Message_Payload : gmap string Any; Message_CreatedAt : Time }.
#[export] Instance zero_Message : Zero Message := mkMessage 0 ∅ 0.
Record QueueService := mkQueueService {
  q_mem : gmap string (list Message);
  q_amqp : option Q;
  q_db : KD
}.
#[export] Instance settable_QueueService : Settable QueueService := λ s, mkQueueService s.(q_mem) s.(q_amqp) s.(q_db).
Implicit Types (s : QueueService).

Definition errNoRabbit : error := NewError "rabbitmq backend not configured".

Definition Enqueue (t : Time) s (scope : option Scope) (payload : option (gmap string Any))
    : QueueService * ret Message :=
  match scope_of_kind ObjectKindQueue scope with
  | None => (s, fails zeroval policy.ErrKindMismatch)
  | Some sc =>
      let payload := default ∅ payload in
      if sc.(Scope_Object).(DataObject_Backend) =s "rabbitmq" then
        match s.(q_amqp) with
        | None => (s, fails zeroval errNoRabbit)
        | Some q =>
            match q_Enqueue q ("syna." +:+ scope_id sc) (json_marshal payload) with
            | (q, Some err) => (s <| q_amqp := Some q |>, fails zeroval err)
            | (q, None) => (s <| q_amqp := Some q |>, ok (mkMessage 0 payload t))
            end
        end
      else if in_memory sc then
        let queue := get0 s.(q_mem) (scope_id sc) in
        let m := mkMessage (Z.of_nat (length queue) + 1) payload t in
        (s <| q_mem := <[scope_id sc := queue ++ [m]]> s.(q_mem) |>, ok m)
      else
        match kd_enqueue (scope_id sc) (json_marshal payload) t s.(q_db) with
        | (_, (_, Some err)) => (s, fails zeroval err)
        | (d, (id, None)) =>
            let '(d, err) := kd_finish s.(q_db) d in (s <| q_db := d |>, (mkMessage id payload t, err))
        end
  end.

(** [None] for the result [false]. *)
Definition Dequeue e s (scope : option Scope) : QueueService * ret (option Message) :=
  match scope_of_kind ObjectKindQueue scope with
  | None => (s, fails None policy.ErrKindMismatch)
  | Some sc =>
      if sc.(Scope_Object).(DataObject_Backend) =s "rabbitmq" then
        match s.(q_amqp) with
        | None => (s, fails None errNoRabbit)
        | Some q =>
            match q_Dequeue q ("syna." +:+ scope_id sc) with
            | (q, (_, Some err)) => (s <| q_amqp := Some q |>, fails None err)
            | (q, (None, None)) => (s <| q_amqp := Some q |>, ok None)
            | (q, (Some raw, None)) =>
                (s <| q_amqp := Some q |>, ok (Some (mkMessage 0 (json_unmarshal raw) (now e 0))))
            end
        end
      else if in_memory sc then
        match get0 s.(q_mem) (scope_id sc) with
        | [] => (s, ok None)
        | m :: rest => (s <| q_mem := <[scope_id sc := rest]> s.(q_mem) |>, ok (Some m))
        end
      else
        match kd_dequeue (scope_id sc) (uuid e 0) s.(q_db) with
        | (d, None) => (s <| q_db := (kd_finish s.(q_db) d).1 |>, ok None)
        | (d, Some (id, raw, at_)) =>
            let '(d, err) := kd_finish s.(q_db) (kd_delete_message id d) in
            (s <| q_db := d |>, (Some (mkMessage id (json_unmarshal raw) at_), err))
        end
  end.

Definition Peek s (scope : option Scope) : QueueService * ret (option Message) :=
  match scope_of_kind ObjectKindQueue scope with
  | None => (s, fails None policy.ErrKindMismatch)
  | Some sc =>
      if sc.(Scope_Object).(DataObject_Backend) =s "rabbitmq" then
        match s.(q_amqp) with
        | None => (s, fails None errNoRabbit)
        | Some q =>
            match q_Peek q ("syna." +:+ scope_id sc) with
            | (q, (_, Some err)) => (s <| q_amqp := Some q |>, fails None err)
            | (q, (o, None)) => (s <| q_amqp := Some q |>, ok ((λ raw, mkMessage 0 (json_unmarshal raw) 0) <$> o))
            end
        end
      else if in_memory sc then (s, ok (head (get0 s.(q_mem) (scope_id sc))))
      else match kd_peek (scope_id sc) s.(q_db) with
      | None => (s, ok None)
      | Some (id, raw, at_) =>
          (s, (Some (mkMessage id (json_unmarshal raw) at_), (kd_finish s.(q_db) s.(q_db)).2))
      end
  end.

Definition Size s (scope : option Scope) : QueueService * ret Z :=
  match scope_of_kind ObjectKindQueue scope with
  | None => (s, fails 0%Z policy.ErrKindMismatch)
  | Some sc =>
      if sc.(Scope_Object).(DataObject_Backend) =s "rabbitmq" then
        match s.(q_amqp) with
        | None => (s, fails 0%Z errNoRabbit)
        | Some q => let '(q, r) := q_Size q ("syna." +:+ scope_id sc) in (s <| q_amqp := Some q |>, r)
        end
      else if in_memory sc then (s, ok (Z.of_nat (length (get0 s.(q_mem) (scope_id sc)))))
      else match kd_size (scope_id sc) s.(q_db) with
      | (_, Some err) => (s, fails 0%Z err)
      | (n, None) => (s, (n, (kd_finish s.(q_db) s.(q_db)).2))
      end
  end.

(** ** Counter *)

Record CounterService := mkCounterService {
  c_mem : gmap string float64;
  c_redis : option R;
  c_prefix : string;
  c_db : KD
}.
#[export] Instance settable_CounterService : Settable CounterService := λ c,
  mkCounterService c.(c_mem) c.(c_redis) c.(c_prefix) c.(c_db).
Implicit Types (c : CounterService).

Definition tsKey c (objectID : string) : string :=
  (if c.(c_prefix) <>s "" then c.(c_prefix) +:+ ":" else "") +:+ "ts:counter:" +:+ objectID.

(** The statements run in a transaction: the second component is its state. *)
Definition writeMeta (t : Time) c (sc : Scope) (value : float64) : CounterService * KD * option error :=
  if in_memory sc then (c <| c_mem := <[scope_id sc := value]> c.(c_mem) |>, c.(c_db), None)
  else let '(d, err) := kd_counter_write (scope_id sc) value t c.(c_db) in (c, d, err).

Definition readMeta c (sc : Scope) : float64 :=
  if in_memory sc then get0 c.(c_mem) (scope_id sc)
  else default f_zero (kd_counter_read (scope_id sc) c.(c_db)).

(** [scope.Commit]; a scope without a transaction commits nothing. *)
Definition counter_commit c (sc : Scope) (d : KD) : CounterService * option error :=
  match sc.(Scope_tx) with
  | None => (c, None)
  | Some _ => let '(d, err) := kd_finish c.(c_db) d in (c <| c_db := d |>, err)
  end.

Definition SetCounter (t : Time) c (scope : option Scope) (value : float64) : CounterService * ret float64 :=
  match scope_of_kind ObjectKindCounter scope with
  | None => (c, fails f_zero policy.ErrKindMismatch)
  | Some sc =>
      match writeMeta t c sc value with
      | (c, _, Some err) => (c, fails f_zero err)
      | (c, d, None) =>
          match c.(c_redis) with
          | Some r =>
              let key := tsKey c (scope_id sc) in
              match ts_add (ts_create r key) key value with
              | (r, Some err) => (c <| c_redis := Some r |>, fails f_zero (Wrapped "redis timeseries" err))
              | (r, None) =>
                  let '(c, err) := counter_commit (c <| c_redis := Some r |>) sc d in (c, (value, err))
              end
          | None =>
              let '(c, err) := counter_commit (c <| c_mem := <[scope_id sc := value]> c.(c_mem) |>) sc d in
              (c, (value, err))
          end
      end
  end.

Definition GetCounter c (scope : option Scope) : CounterService * ret float64 :=
  match scope_of_kind ObjectKindCounter scope with
  | None => (c, fails f_zero policy.ErrKindMismatch)
  | Some sc =>
      match (match c.(c_redis) with Some r => ts_get r (tsKey c (scope_id sc)) | None => None end) with
      | Some v => (c, ok v)
      | None => let '(c', err) := counter_commit c sc c.(c_db) in (c', (readMeta c sc, err))
      end
  end.

Definition adjust (t : Time) c (scope : option Scope) (delta : float64) : CounterService * ret float64 :=
  match scope_of_kind ObjectKindCounter scope with
  | None => (c, fails f_zero policy.ErrKindMismatch)
  | Some sc =>
      let delta := if f_eqb delta f_zero then f_one else delta in
      let next := f_add (readMeta c sc) delta in
      match writeMeta t c sc next with
      | (c, _, Some err) => (c, fails f_zero err)
      | (c, d, None) =>
          let c := match c.(c_redis) with
                   | Some r =>
                       let key := tsKey c (scope_id sc) in
                       c <| c_redis := Some (ts_add (ts_create r key) key next).1 |>
                   | None => c <| c_mem := <[scope_id sc := next]> c.(c_mem) |>
                   end in
          let '(c, err) := counter_commit c sc d in (c, (next, err))
      end
  end.

Definition Increase (t : Time) c scope delta := adjust t c scope delta.
Definition Decrease (t : Time) c scope delta := adjust t c scope (f_neg delta).

(** ** Variable *)

Record VarEntry := mkVarEntry {
  VarEntry_Name : string; VarEntry_Prefix : string; VarEntry_Payload : gmap string Any; VarEntry_UpdatedAt : Time }.
#[export] Instance zero_VarEntry : Zero VarEntry := mkVarEntry "" "" ∅ 0.
Record VariableService := mkVariableService { v_mem : gmap string (gmap string VarEntry); v_db : KD }.
#[export] Instance settable_VariableService : Settable VariableService := λ v, mkVariableService v.(v_mem) v.(v_db).
Implicit Types (v : VariableService).

Definition varKey (prefix name : string) : string := prefix +:+ String (ascii_of 0) name.

Definition SetVariable (t : Time) v (scope : option Scope) (name prefix : string)
    (payload : option (gmap string Any)) : VariableService * ret VarEntry :=
  match scope_of_kind ObjectKindVariable scope with
  | None => (v, fails zeroval policy.ErrKindMismatch)
  | Some sc =>
      if name =s "" then (v, fails zeroval (NewError "name required"))
      else
        let payload := default ∅ payload in
        let entry := mkVarEntry name prefix payload t in
        if in_memory sc then
          (v <| v_mem := <[scope_id sc := <[varKey prefix name := entry]> (get0 v.(v_mem) (scope_id sc))]> v.(v_mem) |>,
           ok entry)
        else
          match kd_variable_set (scope_id sc) name prefix (json_marshal payload) t v.(v_db) with
          | (_, Some err) => (v, fails zeroval err)
          | (d, None) => let '(d, err) := kd_finish v.(v_db) d in (v <| v_db := d |>, (entry, err))
          end
  end.

Definition GetVariable v (scope : option Scope) (name prefix : string) : ret (option VarEntry) :=
  match scope_of_kind ObjectKindVariable scope with
  | None => fails None policy.ErrKindMismatch
  | Some sc =>
      if in_memory sc then ok (get0 v.(v_mem) (scope_id sc) !! varKey prefix name)
      else match kd_variable_get (scope_id sc) prefix name v.(v_db) with
      | None => ok None
      | Some (n, p, raw, at_) =>
          (Some (mkVarEntry n p (json_unmarshal raw) at_), (kd_finish v.(v_db) v.(v_db)).2)
      end
  end.

(** ** Log *)

Record LogEntry := mkLogEntry {
  LogEntry_ID : Z; LogEntry_Level : string; LogEntry_Message : string;
  LogEntry_Fields : gmap string Any; LogEntry_CreatedAt : Time }.
#[export] Instance zero_LogEntry : Zero LogEntry := mkLogEntry 0 "" "" ∅ 0.
Record LogService := mkLogService { l_mem : gmap string (list LogEntry); l_db : KD }.
#[export] Instance settable_LogService : Settable LogService := λ l, mkLogService l.(l_mem) l.(l_db).
Implicit Types (l : LogService).

Definition AddLog (t : Time) l (scope : option Scope) (level message : string) (fields : option (gmap string Any))
    : LogService * ret LogEntry :=
  match scope_of_kind ObjectKindLog scope with
  | None => (l, fails zeroval policy.ErrKindMismatch)
  | Some sc =>
      if message =s "" then (l, fails zeroval (NewError "message required"))
      else
        let level := if level =s "" then "info" else level in
        let fields := default ∅ fields in
        if in_memory sc then
          let entries := get0 l.(l_mem) (scope_id sc) in
          let entry := mkLogEntry (Z.of_nat (length entries) + 1) level message fields t in
          (l <| l_mem := <[scope_id sc := entries ++ [entry]]> l.(l_mem) |>, ok entry)
        else
          match kd_log_insert (scope_id sc) level message (json_marshal fields) t l.(l_db) with
          | (_, (_, Some err)) => (l, fails zeroval err)
          | (d, (id, None)) =>
              let '(d, err) := kd_finish l.(l_db) d in
              (l <| l_db := d |>, (mkLogEntry id level message fields t, err))
          end
  end.

Definition TailLog l (scope : option Scope) (limit : Z) : ret (list LogEntry) :=
  match scope_of_kind ObjectKindLog scope with
  | None => fails [] policy.ErrKindMismatch
  | Some sc =>
      let limit := if (limit <=? 0)%Z then 100%Z else limit in
      if in_memory sc then
        let all := sort_by (λ a b, (b.(LogEntry_ID) <? a.(LogEntry_ID))%Z) (get0 l.(l_mem) (scope_id sc)) in
        ok (if (limit <? Z.of_nat (length all))%Z then take (Z.to_nat limit) all else all)
      else
        match kd_log_tail (scope_id sc) limit l.(l_db) with
        | (_, Some err) => fails [] err
        | (rows, None) =>
            ((λ r, let '(id, level, message, raw, at_) := r in
                   mkLogEntry id level message (json_unmarshal raw) at_) <$> rows,
             (kd_finish l.(l_db) l.(l_db)).2)
        end
  end.

(** ** Schedule *)

Record SchedEntry := mkSchedEntry {
  SchedEntry_Name : string; SchedEntry_Cron : string; SchedEntry_Task : string;
  SchedEntry_Data : gmap string Any; SchedEntry_NextRunAt : Time; SchedEntry_Enabled : bool;
  SchedEntry_UpdatedAt : Time }.
#[export] Instance settable_SchedEntry : Settable SchedEntry := λ x,
  mkSchedEntry x.(SchedEntry_Name) x.(SchedEntry_Cron) x.(SchedEntry_Task) x.(SchedEntry_Data)
    x.(SchedEntry_NextRunAt) x.(SchedEntry_Enabled) x.(SchedEntry_UpdatedAt).
#[export] Instance zero_SchedEntry : Zero SchedEntry := mkSchedEntry "" "" "" ∅ 0 false 0.
Record Delivery := mkDelivery {
  Delivery_ID : Z; Delivery_ObjectID : string; Delivery_EntryName : string;
  Delivery_RunAt : Time; Delivery_Task : string; Delivery_Data : gmap string Any }.
Record ScheduleService := mkScheduleService {
  sc_mem : gmap string (gmap string SchedEntry);
  sc_del : gmap string (list Delivery);
  sc_db : KD
}.
#[export] Instance settable_ScheduleService : Settable ScheduleService := λ x,
  mkScheduleService x.(sc_mem) x.(sc_del) x.(sc_db).
Implicit Types (x : ScheduleService).

(** "@every <duration>", else in one minute. *)
Definition nextFromCron (expr : string) (from : Time) : Time :=
  if (7 <? slen expr)%Z && (take_bytes 6 expr =s "@every") then
    match ParseDuration (drop_bytes 7 expr) with
    | (d, None) => if (0 <? d)%Z then (from + d)%Z else (from + Minute)%Z
    | (_, Some _) => (from + Minute)%Z
    end
  else (from + Minute)%Z.

Definition SetSchedule (t : Time) x (scope : option Scope) (name cronExpr task : string)
    (data : option (gmap string Any)) : ScheduleService * ret SchedEntry :=
  match scope_of_kind ObjectKindSchedule scope with
  | None => (x, fails zeroval policy.ErrKindMismatch)
  | Some sc =>
      if (name =s "") || (cronExpr =s "") || (task =s "")
      then (x, fails zeroval (NewError "name, time, and task required"))
      else
        let data := default ∅ data in
        let next := nextFromCron cronExpr t in
        let entry := mkSchedEntry name cronExpr task data next true t in
        if in_memory sc then
          (x <| sc_mem := <[scope_id sc := <[name := entry]> (get0 x.(sc_mem) (scope_id sc))]> x.(sc_mem) |>, ok entry)
        else
          match kd_schedule_set (scope_id sc) name cronExpr task (json_marshal data) next t x.(sc_db) with
          | (_, Some err) => (x, fails zeroval err)
          | (d, None) => let '(d, err) := kd_finish x.(sc_db) d in (x <| sc_db := d |>, (entry, err))
          end
  end.

Definition entryOfRow (row : string * string * string * string * Time * bool * Time) : SchedEntry :=
  let '(name, cron, task, raw, next, enabled, at_) := row in
  mkSchedEntry name cron task (json_unmarshal raw) next enabled at_.

Definition GetSchedule x (scope : option Scope) (name : string) : ret (option SchedEntry) :=
  match scope_of_kind ObjectKindSchedule scope with
  | None => fails None policy.ErrKindMismatch
  | Some sc =>
      if in_memory sc then ok (get0 x.(sc_mem) (scope_id sc) !! name)
      else match kd_schedule_get (scope_id sc) name x.(sc_db) with
      | None => ok None
      | Some row => (Some (entryOfRow row), (kd_finish x.(sc_db) x.(sc_db)).2)
      end
  end.

Definition ListSchedule x (scope : option Scope) : ret (list SchedEntry) :=
  match scope_of_kind ObjectKindSchedule scope with
  | None => fails [] policy.ErrKindMismatch
  | Some sc =>
      if in_memory sc then ok (range_vals (get0 x.(sc_mem) (scope_id sc)))
      else match kd_schedule_list (scope_id sc) x.(sc_db) with
      | (_, Some err) => fails [] err
      | (rows, None) => (entryOfRow <$> rows, (kd_finish x.(sc_db) x.(sc_db)).2)
      end
  end.

Definition ClaimMemory x (objectID : string) : ScheduleService * option Delivery :=
  match get0 x.(sc_del) objectID with
  | [] => (x, None)
  | d :: rest => (x <| sc_del := <[objectID := rest]> x.(sc_del) |>, Some d)
  end.

Definition ClaimSchedule x (scope : option Scope) (claimer : string) : ScheduleService * ret (option Delivery) :=
  match scope_of_kind ObjectKindSchedule scope with
  | None => (x, fails None policy.ErrKindMismatch)
  | Some sc =>
      if in_memory sc then let '(x, d) := ClaimMemory x (scope_id sc) in (x, ok d)
      else match kd_schedule_claim (scope_id sc) claimer x.(sc_db) with
      | (d, None) => (x <| sc_db := (kd_finish x.(sc_db) d).1 |>, ok None)
      | (d, Some (id, objectID, entryName, runAt, task, raw)) =>
          let '(d, err) := kd_finish x.(sc_db) d in
          (x <| sc_db := d |>, (Some (mkDelivery id objectID entryName runAt task (json_unmarshal raw)), err))
      end
  end.

Definition PushMemory x (d : Delivery) : ScheduleService :=
  x <| sc_del := <[d.(Delivery_ObjectID) := get0 x.(sc_del) d.(Delivery_ObjectID) ++ [d]]> x.(sc_del) |>.

Definition due (t : Time) (entry : SchedEntry) : bool :=
  negb (negb entry.(SchedEntry_Enabled) || After entry.(SchedEntry_NextRunAt) t).

(** The body of the loops of [FireDueMemory]. *)
Definition fireEntry (t : Time) (acc : ScheduleService * list Delivery)
    (oe : string * (string * SchedEntry)) : ScheduleService * list Delivery :=
  let '(x, out) := acc in
  let '(objectID, (name, entry)) := oe in
  if negb (due t entry) then acc
  else
    let d := mkDelivery 0 objectID name t entry.(SchedEntry_Task) entry.(SchedEntry_Data) in
    let entry := entry <| SchedEntry_NextRunAt := nextFromCron entry.(SchedEntry_Cron) t |>
                       <| SchedEntry_UpdatedAt := t |> in
    (x <| sc_mem := <[objectID := <[name := entry]> (get0 x.(sc_mem) objectID)]> x.(sc_mem) |>
       <| sc_del := <[objectID := get0 x.(sc_del) objectID ++ [d]]> x.(sc_del) |>, out ++ [d]).

(** The entries in the order the two loops visit them. *)
Definition allEntries (m : gmap string (gmap string SchedEntry)) : list (string * (string * SchedEntry)) :=
  concat ((λ oe, (λ ne, (oe.1, ne)) <$> range_map oe.2) <$> range_map m).

Definition FireDueMemory (t : Time) x : ScheduleService * list Delivery :=
  foldl (fireEntry t) (x, []) (allEntries x.(sc_mem)).

End Kinds.
