(* ===== verification/KindProps.v ===== *)
(** What the in-memory object kinds promise: the queue is first in first out,
    a variable reads back what was set, the log shows its newest entries, the
    scheduler fires every due entry once; and where the counter and the queue
    surprise. *)
From S2P Require Import Prelude GoStrings Models DataObj AccessObjects PolicyScope Bus Kinds.
From Stdlib Require Import Floats.SpecFloat.

(** A scope on an object of a kind, without a database. *)
Definition mem_scope (kind : ObjectKind) (id : string) : option Scope :=
  Some (mkScope ((zeroval : DataObject) <| DataObject_ID := id |> <| DataObject_Kind := kind |>
                   <| DataObject_Backend := "postgres" |>)
          "" zeroval zeroval None true).

Section Queue.
Context {Q : Type} `{!AMQP Q, !KindDB}.
Context (json_marshal : gmap string Any → string) (json_unmarshal : string → gmap string Any).
Implicit Types (s : QueueService (Q := Q)).

Inductive queue_op :=
| QEnqueue (t : Time) (id : string) (payload : gmap string Any)
| QDequeue (e : Env) (id : string)
| QPeek (id : string).

(** The state after a run and the messages the dequeues returned. *)
Fixpoint queue_run s (os : list queue_op) : QueueService * list (string * Message) :=
  match os with
  | [] => (s, [])
  | QEnqueue t id p :: os' => queue_run (Enqueue json_marshal t s (mem_scope ObjectKindQueue id) (Some p)).1 os'
  | QPeek id :: os' => queue_run (Peek json_unmarshal s (mem_scope ObjectKindQueue id)).1 os'
  | QDequeue e id :: os' =>
      let '(s', r) := Dequeue json_unmarshal e s (mem_scope ObjectKindQueue id) in
      let '(s'', out) := queue_run s' os' in
      (s'', match r.1 with Some m => (id, m) :: out | None => out end)
  end.

Definition enqueued (id : string) (os : list queue_op) : list (gmap string Any) :=
  concat ((λ o, match o with QEnqueue _ id' p => if decide (id' = id) then [p] else [] | _ => [] end) <$> os).
Definition taken (id : string) (out : list (string * Message)) : list (gmap string Any) :=
  concat ((λ r, if decide (r.1 = id) then [r.2.(Message_Payload)] else []) <$> out).

Lemma Dequeue_memory e s id :
  Dequeue json_unmarshal e s (mem_scope ObjectKindQueue id) =
  match get0 s.(q_mem) id with
  | [] => (s, ok None)
  | m :: rest => (s <| q_mem := <[id := rest]> s.(q_mem) |>, ok (Some m))
  end.
Proof. done. Qed.

Lemma Enqueue_memory t s id p :
  let queue := get0 s.(q_mem) id in
  let m := mkMessage (Z.of_nat (length queue) + 1) p t in
  Enqueue json_marshal t s (mem_scope ObjectKindQueue id) (Some p) =
  (s <| q_mem := <[id := queue ++ [m]]> s.(q_mem) |>, ok m).
Proof. done. Qed.

Lemma q_mem_set s m : (s <| q_mem := m |>).(q_mem) = m.
Proof. done. Qed.

Lemma queue_run_spec os s id :
  let '(s', out) := queue_run s os in
  (Message_Payload <$> get0 s.(q_mem) id) ++ enqueued id os =
  taken id out ++ (Message_Payload <$> get0 s'.(q_mem) id).
Proof.
  revert s. induction os as [|o os IH]; intros s; [by cbn; rewrite app_nil_r|].
  destruct o as [t id' p|e id'|id']; cbn [queue_run].
  - rewrite Enqueue_memory. cbn [fst]. specialize (IH (s <| q_mem := <[id' := get0 s.(q_mem) id' ++
      [mkMessage (Z.of_nat (length (get0 s.(q_mem) id')) + 1) p t]]> s.(q_mem) |>)).
    destruct (queue_run _ os) as [s' out]. rewrite q_mem_set, get0_insert_if in IH. unfold enqueued.
    rewrite fmap_cons. cbn [concat]. fold (enqueued id os). rewrite <- IH.
    destruct (decide (id' = id)) as [->|]; [by rewrite fmap_app, <- app_assoc|done].
  - rewrite Dequeue_memory. change (enqueued id (QDequeue e id' :: os)) with (enqueued id os).
    destruct (get0 s.(q_mem) id') as [|m rest] eqn:Hq.
    { specialize (IH s). destruct (queue_run s os) as [s' out]. done. }
    specialize (IH (s <| q_mem := <[id' := rest]> s.(q_mem) |>)).
    destruct (queue_run _ os) as [s' out]. rewrite q_mem_set, get0_insert_if in IH. cbn [ok fst].
    unfold taken. rewrite fmap_cons. cbn [concat fst snd]. fold (taken id out).
    destruct (decide (id' = id)) as [->|]; [|exact IH].
    rewrite Hq. cbn. f_equal. exact IH.
  - apply IH.
Qed.

(** The in-memory queue is first in, first out and loses nothing: over any
    run of [Enqueue], [Dequeue] and [Peek] on any queues, what was enqueued to
    a queue is, in order, what was dequeued from it and what it still holds. *)
Theorem queue_fifo os d id :
  let '(s, out) := queue_run (mkQueueService ∅ None d) os in
  enqueued id os = taken id out ++ (Message_Payload <$> get0 s.(q_mem) id).
Proof.
  pose proof (queue_run_spec os (mkQueueService ∅ None d) id) as Hr.
  destruct (queue_run _ os) as [s out]. exact Hr.
Qed.

(** Message ids of the in-memory queue are not unique: the id is the
    length of the queue plus one, so after a dequeue the next message gets
    the id of the newest one still waiting. *)
Theorem queue_id_reused s id t t' p p' e :
  get0 s.(q_mem) id ≠ [] →
  let '(s1, (m1, _)) := Enqueue json_marshal t s (mem_scope ObjectKindQueue id) (Some p) in
  let '(s2, _) := Dequeue json_unmarshal e s1 (mem_scope ObjectKindQueue id) in
  let '(s3, (m2, _)) := Enqueue json_marshal t' s2 (mem_scope ObjectKindQueue id) (Some p') in
  m1.(Message_ID) = m2.(Message_ID) ∧ m1 ∈ get0 s3.(q_mem) id ∧ m2 ∈ get0 s3.(q_mem) id.
Proof.
  intros Hne. rewrite Enqueue_memory. cbn [ok]. rewrite Dequeue_memory, q_mem_set, get0_insert_if, decide_True by done.
  destruct (get0 s.(q_mem) id) as [|m rest]; [done|]. cbn [app]. rewrite Enqueue_memory. cbn [ok].
  rewrite !q_mem_set, !get0_insert_if, !decide_True by done.
  rewrite length_app. cbn [length]. split_and!; [cbn; lia|set_solver|set_solver].
Qed.
End Queue.

Section Counter.
Context {R : Type} `{!TimeSeries R, !KindDB}.

(** A decrease without an amount goes up: [Decrease] by zero, which is
    what a request without a delta asks for, is [Increase] by one on every
    counter and backend; in memory the counter reads one more afterwards. *)
Theorem decrease_zero_increases t (c : CounterService (R := R)) scope id :
  Decrease t c scope f_zero = Increase t c scope f_one
  ∧ (c.(c_redis) = None →
     let '(c', r) := Decrease t c (mem_scope ObjectKindCounter id) f_zero in
     r = ok (f_add (get0 c.(c_mem) id) f_one)
     ∧ (GetCounter c' (mem_scope ObjectKindCounter id)).2 = ok (f_add (get0 c.(c_mem) id) f_one)).
Proof.
  split; [done|]. intros Hr. unfold Decrease, adjust, GetCounter, writeMeta, readMeta. cbn -[f_add get0 f_one].
  rewrite !Hr. cbn -[f_add get0 f_one]. rewrite Hr. cbn -[f_add get0 f_one]. unfold ok.
  rewrite get0_insert_if, decide_True by done. done.
Qed.
End Counter.

Section Variables.
Context `{!KindDB}.
Context (json_marshal : gmap string Any → string) (json_unmarshal : string → gmap string Any).

Definition no_nul (s : string) : Prop := Contains s (String (ascii_of 0) "") = false.

(** A prefix without a zero byte can be read off the key. *)
Lemma varKey_inj p n p' n' : no_nul p → no_nul p' → varKey p n = varKey p' n' → p = p' ∧ n = n'.
Proof.
  unfold no_nul, varKey. revert p'. induction p as [|c p IH]; intros [|c' p']; cbn -[ascii_of]; intros Hp Hp'.
  - by intros [= ->].
  - intros [= <- _]. cbn in Hp'. by destruct p'.
  - intros [= -> _]. cbn in Hp. by destruct p.
  - apply orb_false_iff in Hp as [_ Hp], Hp' as [_ Hp']. intros [= <- Heq].
    destruct (IH p' Hp Hp' Heq) as [-> ->]. done.
Qed.

(** A variable reads back what was set last: after [SetVariable] the
    variable has the new payload, and every other variable of every object is
    as before, for prefixes without a zero byte (the key joins prefix and
    name with one). *)
Theorem variable_get_set t v id name prefix payload id' name' prefix' :
  name ≠ "" → no_nul prefix → no_nul prefix' →
  let v' := (SetVariable json_marshal t v (mem_scope ObjectKindVariable id) name prefix (Some payload)).1 in
  GetVariable json_unmarshal v' (mem_scope ObjectKindVariable id') name' prefix' =
  if decide (id = id' ∧ name = name' ∧ prefix = prefix')
  then ok (Some (mkVarEntry name prefix payload t))
  else GetVariable json_unmarshal v (mem_scope ObjectKindVariable id') name' prefix'.
Proof.
  intros Hn Hp Hp'. unfold SetVariable, GetVariable. cbn -[get0 varKey]. rewrite seqb_neq_false by done.
  cbn -[get0 varKey]. unfold ok. rewrite get0_insert_if. destruct (decide (id = id')) as [<-|].
  2: { by rewrite decide_False by naive_solver. }
  rewrite lookup_insert. destruct (decide (varKey prefix name = varKey prefix' name')) as [Heq|Hne].
  - apply varKey_inj in Heq as [<- <-]; [|done..]. by rewrite decide_True.
  - rewrite decide_False; [done|]. intros (_ & <- & <-). done.
Qed.
End Variables.

Section Schedule.
Context `{!KindDB, !GoRange}.
Context (ParseDuration : string → ret Duration).
Implicit Types (x : ScheduleService).

Lemma nextFromCron_later expr t : (t < nextFromCron ParseDuration expr t)%Z.
Proof.
  assert (0 < Minute)%Z by done. unfold nextFromCron. repeat case_match; go_bool; lia.
Qed.

Definition fired (t : Time) (entry : SchedEntry) : SchedEntry :=
  entry <| SchedEntry_NextRunAt := nextFromCron ParseDuration entry.(SchedEntry_Cron) t |>
        <| SchedEntry_UpdatedAt := t |>.

Lemma fired_not_due t entry : due t (fired t entry) = false.
Proof.
  unfold due, fired, After. cbn. rewrite (proj2 (Z.ltb_lt _ _)) by apply nextFromCron_later. by rewrite orb_true_r.
Qed.

Abbreviation entry_at x o n := (get0 x.(sc_mem) o !! n) (only parsing).
Definition entry_key (oe : string * (string * SchedEntry)) : string * string := (oe.1, oe.2.1).

Lemma elem_of_allEntries x o n entry : (o, (n, entry)) ∈ allEntries x.(sc_mem) ↔ entry_at x o n = Some entry.
Proof.
  unfold allEntries. rewrite list_elem_of_In, in_concat. setoid_rewrite <- list_elem_of_In. split.
  - intros (l & Hl & Hin). apply list_elem_of_fmap in Hl as ([o' es] & -> & Ho%elem_of_range_map).
    apply list_elem_of_fmap in Hin as ([n' e'] & [= -> -> ->] & Hn%elem_of_range_map).
    unfold get0. by rewrite Ho.
  - intros Hn. unfold get0 in Hn. destruct (sc_mem x !! o) as [es|] eqn:Ho; [|cbn in Hn; unfold zeroval, zero_gmap in Hn; by rewrite lookup_empty in Hn].
    eexists. split.
    + apply list_elem_of_fmap. exists (o, es). split; [done|]. by apply elem_of_range_map.
    + apply list_elem_of_fmap. exists (n, entry). split; [done|]. by apply elem_of_range_map.
Qed.

Lemma NoDup_range_map {V} (m : gmap string V) : NoDup (range_map m).*1.
Proof. rewrite range_map_perm. apply NoDup_fst_map_to_list. Qed.

Lemma NoDup_concat_keys (L : list (string * gmap string SchedEntry)) : NoDup L.*1 →
  NoDup (entry_key <$> concat ((λ oe, (λ ne, (oe.1, ne)) <$> range_map oe.2) <$> L)).
Proof.
  induction L as [|[o es] L IH]; intros HL; [constructor|]. rewrite !fmap_cons in *. cbn [concat fst snd] in *.
  inversion_clear HL as [|? ? Ho HL']. rewrite fmap_app, NoDup_app. split_and!.
  - rewrite <- list_fmap_compose. apply (NoDup_fmap_1 snd). rewrite <- list_fmap_compose. apply NoDup_range_map.
  - intros [o' n'] Hin1 Hin2. apply Ho.
    apply list_elem_of_fmap in Hin1 as (oe1 & Heq1 & Hin1).
    apply list_elem_of_fmap in Hin1 as ([n1 e1] & -> & _). injection Heq1 as -> ->.
    apply list_elem_of_fmap in Hin2 as (oe2 & Heq2 & Hin2).
    rewrite list_elem_of_In, in_concat in Hin2. destruct Hin2 as (l & Hl & Hin2).
    apply list_elem_of_In, list_elem_of_fmap in Hl as ([o2 es2] & -> & Hl).
    apply list_elem_of_In, list_elem_of_fmap in Hin2 as ([n2 e2] & -> & _). injection Heq2 as -> ->.
    apply list_elem_of_fmap. by exists (o2, es2).
  - by apply IH.
Qed.

Definition deliver (t : Time) (oe : string * (string * SchedEntry)) : Delivery :=
  mkDelivery 0 oe.1 oe.2.1 t oe.2.2.(SchedEntry_Task) oe.2.2.(SchedEntry_Data).

(** The loop over entries that are in the map, each key once. *)
Lemma fire_fold t L x out : NoDup (entry_key <$> L) →
  (∀ o n entry, (o, (n, entry)) ∈ L → entry_at x o n = Some entry) →
  let '(x', out') := foldl (fireEntry ParseDuration t) (x, out) L in
  out' = out ++ (deliver t <$> List.filter (λ oe, due t oe.2.2) L)
  ∧ ∀ o n entry', entry_at x' o n = Some entry' →
      due t entry' = false ∨ (entry_at x o n = Some entry' ∧ ∀ entry, (o, (n, entry)) ∉ L).
Proof.
  revert x out. induction L as [|[o1 [n1 e1]] L IH]; intros x out HL Hin; cbn [foldl].
  { split; [by rewrite app_nil_r|]. intros o n e' He'. right. split; [done|]. intros ? ?%elem_of_nil. done. }
  rewrite fmap_cons in HL. inversion_clear HL as [|? ? Hk HL'].
  assert (Hother : ∀ o n e, (o, (n, e)) ∈ L → (o, n) ≠ (o1, n1)).
  { intros o n e Hin' [= -> ->]. apply Hk, list_elem_of_fmap. by exists (o1, (n1, e)). }
  cbn [fireEntry List.filter snd]. destruct (due t e1) eqn:Hd; cbn [negb].
  - set (x1 := x <| sc_mem := _ |> <| sc_del := _ |>).
    assert (Hx1 : ∀ o n, entry_at x1 o n = if decide ((o1, n1) = (o, n)) then Some (fired t e1) else entry_at x o n).
    { intros o n. change (sc_mem x1) with (<[o1 := <[n1 := fired t e1]> (get0 x.(sc_mem) o1)]> x.(sc_mem)).
      rewrite get0_insert_if. destruct (decide (o1 = o)) as [<-|]; [|by rewrite decide_False by naive_solver].
      rewrite lookup_insert. destruct (decide (n1 = n)) as [<-|]; [by rewrite decide_True|].
      by rewrite decide_False by naive_solver. }
    clearbody x1. specialize (IH x1 (out ++ [deliver t (o1, (n1, e1))]) HL').
    destruct (foldl _ _ L) as [x' out'] eqn:Hf.
    destruct IH as [Hout Hmem]; [|split].
    + intros o n e Hin'. rewrite Hx1, decide_False by (intros Heq; by apply (Hother o n e Hin')).
      apply Hin. by right.
    + rewrite Hout, <- app_assoc. done.
    + intros o n e' [?|[He' Hno]]%Hmem; [by left|]. rewrite Hx1 in He'.
      destruct (decide ((o1, n1) = (o, n))) as [|Hne]; [simplify_eq; left; apply fired_not_due|].
      right. split; [done|]. intros e [Heq|?]%elem_of_cons; [naive_solver|by eapply Hno].
  - specialize (IH x out HL'). destruct (foldl _ _ L) as [x' out'].
    destruct IH as [Hout Hmem]; [intros ? ? ? ?; apply Hin; by right|]. split; [done|].
    intros o n e' [?|[He' Hno]]%Hmem; [by left|].
    destruct (decide ((o1, n1) = (o, n))) as [Heq|Hne].
    + injection Heq as <- <-. left. rewrite (Hin o1 n1 e1) in He' by by left. by injection He' as <-.
    + right. split; [done|]. intros e [Heq|?]%elem_of_cons; [naive_solver|by eapply Hno].
Qed.

(** The in-memory scheduler fires every due entry exactly once per tick:
    the deliveries of [FireDueMemory] are those of the entries that were due,
    each entry at most once, and afterwards no entry is due any more. *)
Theorem fires_due_once t x :
  let '(x', out) := FireDueMemory ParseDuration t x in
  let keys := (λ d, (d.(Delivery_ObjectID), d.(Delivery_EntryName))) <$> out in
  NoDup keys
  ∧ (∀ o n, (o, n) ∈ keys ↔ ∃ entry, entry_at x o n = Some entry ∧ due t entry = true)
  ∧ (∀ o n entry', entry_at x' o n = Some entry' → due t entry' = false).
Proof.
  assert (HND : NoDup (entry_key <$> allEntries x.(sc_mem))) by apply NoDup_concat_keys, NoDup_range_map.
  pose proof (fire_fold t (allEntries x.(sc_mem)) x [] HND) as Hf. unfold FireDueMemory.
  destruct (foldl _ _ _) as [x' out]. destruct Hf as [-> Hmem].
  { intros o n e. apply elem_of_allEntries. }
  cbn [app]. rewrite <- list_fmap_compose.
  change (((λ d, (Delivery_ObjectID d, Delivery_EntryName d)) ∘ deliver t) <$> _) with
    (entry_key <$> List.filter (λ oe, due t oe.2.2) (allEntries (sc_mem x))). split_and!.
  - clear Hmem. induction (allEntries (sc_mem x)) as [|oe L IH]; [constructor|]. cbn [List.filter].
    rewrite fmap_cons in HND. inversion_clear HND as [|? ? Hk HL]. specialize (IH HL).
    destruct (due t oe.2.2); [|done]. rewrite fmap_cons. constructor; [|done].
    intros (oe' & Heq & [Hin _]%elem_of_filter_bool)%list_elem_of_fmap.
    apply Hk. rewrite Heq. apply list_elem_of_fmap. eauto.
  - intros o n. rewrite list_elem_of_fmap. setoid_rewrite elem_of_filter_bool. split.
    + intros ([o' [n' e']] & [= -> ->] & Hin & Hd). exists e'. by rewrite <- elem_of_allEntries.
    + intros (e & He & Hd). exists (o, (n, e)). split; [done|]. by rewrite elem_of_allEntries.
  - intros o n e' [?|[He' Hno]]%Hmem; [done|]. apply elem_of_allEntries in He'. by apply Hno in He'.
Qed.
End Schedule.

(** ** Witnesses *)

Section Witnesses.
#[local] Instance no_kind_db : KindDB := {|
  KD := unit; kd_commit := λ _, None;
  kd_enqueue := λ _ _ _ d, (d, ok 1%Z); kd_dequeue := λ _ _ d, (d, None); kd_delete_message := λ _ d, d;
  kd_peek := λ _ _, None; kd_size := λ _ _, ok 0%Z;
  kd_counter_write := λ _ _ _ d, (d, None); kd_counter_read := λ _ _, None;
  kd_variable_set := λ _ _ _ _ _ d, (d, None); kd_variable_get := λ _ _ _ _, None;
  kd_log_insert := λ _ _ _ _ _ d, (d, ok 1%Z); kd_log_tail := λ _ _ _, ok [];
  kd_schedule_set := λ _ _ _ _ _ _ _ d, (d, None); kd_schedule_get := λ _ _ _, None;
  kd_schedule_list := λ _ _, ok []; kd_schedule_claim := λ _ _ d, (d, None); kd_schedule_due := λ _ _, ok [];
  kd_schedule_deliver := λ _ _ _ _ _ d, d; kd_schedule_advance := λ _ _ _ _ d, d; kd_log_objects := λ _, ok [];
  kd_log_older := λ _ _ _, ok []; kd_log_delete := λ _ _ d, (d, None); kd_relation := λ _ _, None;
  kd_query := λ _ d, (d, ok ([], [])) |}.
#[local] Instance no_amqp : AMQP unit := {|
  q_Enqueue := λ q _ _, (q, None); q_Dequeue := λ q _, (q, ok None);
  q_Peek := λ q _, (q, ok None); q_Size := λ q _, (q, ok 0%Z) |}.
#[local] Instance no_timeseries : TimeSeries unit := {|
  ts_create := λ r _, r; ts_add := λ r _ _, (r, None); ts_get := λ _ _, None |}.

Definition w_kdb : KD := tt.
Definition w_queue : QueueService (Q := unit) :=
  mkQueueService {[ "q" := [mkMessage 1 ∅ 0] ]} None w_kdb.

Lemma queue_id_reused_witness :
  ∃ s1 m1 s2 s3 m2,
    Enqueue (λ _, "") 1 w_queue (mem_scope ObjectKindQueue "q") (Some ∅) = (s1, ok m1)
    ∧ (Dequeue (λ _, ∅) (mkEnv (λ _, 0%Z) (λ _, "") (λ _, None)) s1 (mem_scope ObjectKindQueue "q")).1 = s2
    ∧ Enqueue (λ _, "") 2 s2 (mem_scope ObjectKindQueue "q") (Some ∅) = (s3, ok m2)
    ∧ m1.(Message_ID) = m2.(Message_ID).
Proof.
  pose proof (queue_id_reused (λ _, "") (λ _, ∅) w_queue "q" 1 2 ∅ ∅ (mkEnv (λ _, 0%Z) (λ _, "") (λ _, None))) as Hr.
  do 5 eexists. do 3 (split; [reflexivity|]). apply Hr. discriminate.
Defined.

Lemma decrease_zero_increases_witness :
  (Decrease 0 (mkCounterService (R := unit) ∅ None "" w_kdb) (mem_scope ObjectKindCounter "c") f_zero).2 = ok f_one.
Proof.
  refine (proj1 (proj2 (decrease_zero_increases 0 (mkCounterService (R := unit) ∅ None "" w_kdb) None "c") _)).
  reflexivity.
Defined.

Lemma variable_get_set_witness :
  GetVariable (λ _, ∅)
    (SetVariable (λ _, "") 5 (mkVariableService ∅ w_kdb) (mem_scope ObjectKindVariable "v") "n" "p" (Some ∅)).1
    (mem_scope ObjectKindVariable "v") "n" "p" = ok (Some (mkVarEntry "n" "p" ∅ 5)).
Proof.
  refine (variable_get_set (λ _, "") (λ _, ∅) 5 (mkVariableService ∅ w_kdb) "v" "n" "p" ∅ "v" "n" "p" _ _ _);
    [done|reflexivity|reflexivity].
Defined.
End Witnesses.
