(* ===== verification/Tables.v ===== *)
(** [internal/sqltables/service.go]: SQL on a table object, and the check the
    statement passes first. The database is [KindDB]. *)
From S2P Require Import Prelude GoStrings Models DataObj AccessObjects PolicyScope Kinds.
From Stdlib Require Import Ascii.

(** ** The regular expressions *)

(** [^[a-z][a-z0-9_]{0,62}$] *)
Definition ident_part (b : Z) : bool := is_lower b || is_digit b || (b =? 95)%Z.
Definition identMatch (s : string) : bool :=
  match bytes s with
  | [] => false
  | b :: rest => is_lower b && (length rest <=? 62)%nat && forallb ident_part rest
  end.

(** The longest prefix of which each element satisfies [f], and the rest. *)
Fixpoint span {A} (f : A → bool) (l : list A) : list A * list A :=
  match l with
  | [] => ([], [])
  | x :: l' => if f x then let '(a, b) := span f l' in (x :: a, b) else ([], l)
  end.

Definition word_start (b : Z) : bool := is_lower b || (b =? 95)%Z.

(** A match of [[a-z_][a-z0-9_]*\.[a-z_][a-z0-9_]*] at the start of the bytes,
    and what is after it. *)
Definition relationAt (l : list Z) : option (list Z * list Z) :=
  match l with
  | b :: _ =>
      if negb (word_start b) then None
      else match span ident_part l with
      | (left_, 46%Z :: ((c :: _) as after)) =>
          if negb (word_start c) then None
          else let '(right_, rest) := span ident_part after in Some (left_ ++ 46%Z :: right_, rest)
      | _ => None
      end
  | [] => None
  end.

(** [FindAllString]: the matches from left to right, none overlapping;
    [fuel] is the number of bytes. *)
Fixpoint relations (fuel : nat) (l : list Z) : list string :=
  match fuel, l with
  | S fuel', _ :: l' =>
      match relationAt l with
      | Some (m, rest) => of_bytes m :: relations fuel' rest
      | None => relations fuel' l'
      end
  | _, _ => []
  end.

(** ** The check *)

Definition forbiddenWords : list string :=
  [" reset "; " copy "; " grant "; " revoke "; " create "; " drop "; " alter "; " truncate "; " vacuum "; " call "; " do ";
   " listen "; " notify "; " load "; " pg_read_file"; " dblink"; " lo_import"; " set role"; " set session"; " set local"].

Section Tables.
Context `{!KindDB}.
Context (unicode_lower : Z → Z).

Definition ValidateSQL (sqlText schema table : string) : option error :=
  let sqlText := TrimSpace sqlText in
  if sqlText =s "" then Some (NewError "empty SQL")
  else if Contains sqlText ";" then Some (NewError "multiple statements not allowed")
  else
    let lower := ToLower unicode_lower sqlText in
    if existsb (Contains (" " +:+ lower +:+ " ")) forbiddenWords then Some (NewError "forbidden SQL keyword")
    else if negb (HasPrefix lower "select" || HasPrefix lower "insert" || HasPrefix lower "update" || HasPrefix lower "delete")
    then Some (NewError "only SELECT/INSERT/UPDATE/DELETE allowed")
    else
      let qualified := ToLower unicode_lower (schema +:+ "." +:+ table) in
      if negb (Contains lower qualified) && negb (Contains lower (" " +:+ table +:+ " "))
         && negb (Contains lower (" " +:+ table +:+ "(")) && negb (HasSuffix lower (" " +:+ table))
         && negb (Contains lower ("into " +:+ table)) && negb (Contains lower ("from " +:+ table))
         && negb (Contains lower ("update " +:+ table))
      then Some (NewError ("SQL must reference only " +:+ qualified))
      else if Contains lower "." then
        match List.find (λ m, m <>s qualified) (relations (String.length lower) (bytes lower)) with
        | Some m => Some (NewError ("unauthorized relation " +:+ m))
        | None => None
        end
      else None.

(** ** The service *)

Record QueryResult := mkQueryResult {
  QR_Columns : list string;
  QR_Rows : list (gmap string Any);
  QR_RowCount : Z
}.
#[export] Instance zero_QueryResult : Zero QueryResult := mkQueryResult [] [] 0.

Definition relation (d : KD) (sc : Scope) : ret (string * string) :=
  if in_memory sc then ok ("syna_t_mem", "data")
  else match kd_relation (scope_id sc) d with
  | None => fails ("", "") (NewError "table object not provisioned")
  | Some (schema, table) =>
      if negb (identMatch schema) || negb (identMatch table) then fails ("", "") (NewError "invalid table identifiers")
      else ok (schema, table)
  end.

(** A row as a map; of columns with one name the last value stays. *)
Definition rowOf (cols : list string) (vals : list Any) : gmap string Any :=
  foldl (λ m cv, <[cv.1 := cv.2]> m) ∅ (zip cols vals).

Definition Query (d : KD) (scope : option Scope) (sqlText : string) : KD * ret QueryResult :=
  match scope_of_kind ObjectKindTable scope with
  | None => (d, fails zeroval policy.ErrKindMismatch)
  | Some sc =>
      match relation d sc with
      | (_, Some err) => (d, fails zeroval err)
      | ((schema, table), None) =>
          match ValidateSQL sqlText schema table with
          | Some err => (d, fails zeroval err)
          | None =>
              if in_memory sc then (d, ok zeroval)
              else match kd_query sqlText d with
              | (_, (_, Some err)) => (d, fails zeroval err)
              | (d', ((cols, rows), None)) =>
                  let out := rowOf cols <$> rows in
                  let '(d', err) := kd_finish d d' in
                  (d', (mkQueryResult cols out (Z.of_nat (length out)), err))
              end
          end
      end
  end.
End Tables.

(** A statement that reads another table than the object's passes the check:
    names without a schema are not compared. *)
Example other_table_accepted : ValidateSQL (λ r, r) "SELECT * FROM data, access_tokens" "syna_t_abc" "data" = None.
Proof. by vm_compute. Qed.
(** So does one that quotes the name of another table, or sets a blank beside
    its dot: such names are not found. *)
Definition quoted (s : string) : string := String (ascii_of_nat 34) (s +:+ String (ascii_of_nat 34) "").
Example quoted_table_accepted :
  ValidateSQL (λ r, r) ("SELECT * FROM data, " +:+ quoted "other" +:+ "." +:+ quoted "secrets") "syna_t_abc" "data" = None
  ∧ ValidateSQL (λ r, r) "SELECT * FROM data, other . secrets" "syna_t_abc" "data" = None.
Proof. by vm_compute. Qed.
Example other_schema_refused :
  ValidateSQL (λ r, r) "SELECT * FROM syna_t_abc.data JOIN public.tokens" "syna_t_abc" "data"
  = Some (NewError "unauthorized relation public.tokens").
Proof. by vm_compute. Qed.

(** ** Every schema-qualified name is found *)

Lemma span_app {A} (f : A → bool) l : (span f l).1 ++ (span f l).2 = l.
Proof. induction l as [|x l IH]; cbn; [done|]. destruct (f x); [|done]. destruct (span f l). cbn in *. by rewrite IH. Qed.

Lemma span_all {A} (f : A → bool) l : forallb f (span f l).1 = true.
Proof. induction l as [|x l IH]; cbn; [done|]. destruct (f x) eqn:Hx; [|done]. destruct (span f l). cbn in *. by rewrite Hx. Qed.

(** A run that ends where [f] does. *)
Lemma span_run {A} (f : A → bool) x b : forallb f x = true → (∀ c, head b = Some c → f c = false) → span f (x ++ b) = (x, b).
Proof.
  intros Hx Hb. induction x as [|c x IH]; cbn in *.
  - destruct b as [|c b]; [done|]. cbn. by rewrite (Hb c).
  - apply andb_true_iff in Hx as [-> Hx]. by rewrite (IH Hx).
Qed.

(** The bytes of a match are those of identifiers and the dot. *)
Definition name_byte (b : Z) : bool := ident_part b || (b =? 46)%Z.

Lemma relationAt_spec l m rest : relationAt l = Some (m, rest) → l = m ++ rest ∧ m ≠ [] ∧ forallb name_byte m = true.
Proof.
  unfold relationAt. destruct l as [|b l0]; [done|]. set (l := b :: l0). destruct (negb (word_start b)); [done|].
  pose proof (span_app ident_part l) as Happ. pose proof (span_all ident_part l) as Hall.
  destruct (span ident_part l) as [left_ [|c after]]; [done|]. cbn [fst snd] in *.
  destruct (Z.eqb_spec c 46) as [->|Hc]; [|destruct c as [|c|]; [done| |done]; repeat (destruct c as [c|c|]; try done)].
  destruct after as [|c after]; [done|]. destruct (negb (word_start c)); [done|].
  pose proof (span_app ident_part (c :: after)) as Happ'. pose proof (span_all ident_part (c :: after)) as Hall'.
  destruct (span ident_part (c :: after)) as [right_ rest']. cbn [fst snd] in *. intros [= <- <-].
  split_and!; [by rewrite <- Happ, <- Happ', <- app_assoc|by destruct left_|].
  rewrite forallb_app. cbn [forallb]. apply andb_true_iff. unfold name_byte.
  split; [|cbn]; [revert Hall|revert Hall']; rewrite !forallb_forall; intros Hx z Hz; by rewrite (Hx z Hz).
Qed.

(** [x.y] between boundaries: no byte of a name before it, and the end of an
    identifier after it. *)
Record qualified_at (a x y b : list Z) : Prop := mkQualifiedAt {
  qa_left : ∀ c, last a = Some c → name_byte c = false;
  qa_x : forallb ident_part x = true ∧ ∃ c x', x = c :: x' ∧ word_start c = true;
  qa_y : forallb ident_part y = true ∧ ∃ c y', y = c :: y' ∧ word_start c = true;
  qa_right : ∀ c, head b = Some c → ident_part c = false
}.

Lemma relationAt_here x y b : qualified_at [] x y b → relationAt (x ++ 46%Z :: y ++ b) = Some (x ++ 46%Z :: y, b).
Proof.
  intros [_ [Hx (cx & x' & -> & Hcx)] [Hy (cy & y' & -> & Hcy)] Hb]. unfold relationAt.
  change ((cx :: x') ++ 46%Z :: (cy :: y') ++ b) with (cx :: (x' ++ 46%Z :: cy :: y' ++ b)). cbv iota beta. rewrite Hcx. cbn [negb].
  change (cx :: (x' ++ 46%Z :: cy :: y' ++ b)) with ((cx :: x') ++ 46%Z :: cy :: y' ++ b).
  rewrite (span_run ident_part (cx :: x')) by (try done; by intros c [= <-]). cbv iota beta. rewrite Hcy. cbn [negb].
  change (cy :: y' ++ b) with ((cy :: y') ++ b). by rewrite (span_run ident_part (cy :: y')).
Qed.

Lemma relations_found n a x y b l : qualified_at a x y b → l = a ++ x ++ 46%Z :: y ++ b → (length l <= n)%nat →
  of_bytes (x ++ 46%Z :: y) ∈ relations n l.
Proof.
  revert a l. induction n as [|n IH]; intros a l Hq -> Hn.
  { exfalso. destruct Hq as [_ [_ (c & x' & -> & _)] _ _]. rewrite !length_app in Hn. cbn in Hn. lia. }
  destruct a as [|ca a].
  { cbn [app]. pose proof (relationAt_here x y b Hq) as Hat. destruct (x ++ 46%Z :: y ++ b) as [|c l] eqn:Hl; [by destruct x|].
    cbn [relations]. rewrite Hat. by left. }
  cbn [app relations]. destruct (relationAt (ca :: a ++ x ++ 46%Z :: y ++ b)) as [[m rest]|] eqn:Hat.
  - right. apply relationAt_spec in Hat as (Heq & Hne & Hm).
    assert (Hpre : ∃ a', ca :: a = m ++ a' ∧ a' ≠ []).
    { change (ca :: a ++ x ++ 46%Z :: y ++ b) with ((ca :: a) ++ x ++ 46%Z :: y ++ b) in Heq.
      destruct (app_eq_inv _ _ _ _ Heq) as [(k & Hk & _)|(k & Hk & _)].
      - exists k. split; [done|]. intros ->. rewrite app_nil_r in Hk.
        destruct (last (ca :: a)) as [z|] eqn:Hz; [|by apply last_None in Hz].
        pose proof (qa_left _ _ _ _ Hq z Hz) as Hbad. rewrite Hk in Hz. apply last_Some in Hz as [m' ->].
        rewrite forallb_app in Hm. cbn in Hm. rewrite Hbad in Hm. by destruct (forallb _ m').
      - destruct (last (ca :: a)) as [z|] eqn:Hz; [|by apply last_None in Hz].
        pose proof (qa_left _ _ _ _ Hq z Hz) as Hbad. apply last_Some in Hz as [a0 Ha0]. rewrite Hk, Ha0 in Hm.
        rewrite !forallb_app in Hm. cbn in Hm. rewrite Hbad in Hm. by destruct (forallb _ a0). }
    destruct Hpre as (a' & Ha & Hne'). change (ca :: a ++ x ++ 46%Z :: y ++ b) with ((ca :: a) ++ x ++ 46%Z :: y ++ b) in Heq.
    rewrite Ha, <- app_assoc in Heq. apply app_inv_head in Heq.
    eapply (IH a'); [|done|].
    + destruct Hq as [Hl Hx Hy Hr]. split; [|done..]. intros c Hc. apply Hl. rewrite Ha. by rewrite last_app, Hc.
    + apply (f_equal length) in Heq. apply (f_equal length) in Ha. rewrite length_app in Ha. cbn in Ha, Hn.
      rewrite length_app in Heq, Hn. destruct m; [done|]. cbn in Ha. lia.
  - eapply (IH a); [|done|cbn in Hn; lia]. destruct Hq as [Hl Hx Hy Hr]. split; [|done..].
    intros c Hc. apply Hl. rewrite last_cons, Hc. done.
Qed.

Lemma byte_Contains s c : byte_of c ∈ bytes s → Contains s (String c "") = true.
Proof.
  induction s as [|d s IH]; cbn [Contains HasPrefix bytes]; [by intros ?%not_elem_of_nil|].
  intros [Heq|Hin]%elem_of_cons; apply orb_true_iff; [left|right; by apply IH].
  apply (f_equal ascii_of) in Heq. rewrite !ascii_of_byte_of in Heq. subst d. rewrite Ascii.eqb_refl. by destruct s.
Qed.

(** C36. A statement the check lets through is one statement, begins with one
    of the four words, and contains no name written plainly as [x.y], two
    unquoted identifiers of ASCII letters, digits and underscores with the dot
    directly between them, other than the schema and table of the object.
    Names without a schema, quoted names and names with blanks beside the dot
    are not compared: see [other_table_accepted] and
    [quoted_table_accepted]. *)
Theorem sql_confined lower_table sqlText schema table :
  ValidateSQL lower_table sqlText schema table = None →
  let text := TrimSpace sqlText in
  let lower := ToLower lower_table text in
  Contains text ";" = false
  ∧ (∃ word, word ∈ ["select"; "insert"; "update"; "delete"] ∧ HasPrefix lower word = true)
  ∧ ∀ a x y b, bytes lower = a ++ x ++ 46%Z :: y ++ b → qualified_at a x y b →
      of_bytes (x ++ 46%Z :: y) = ToLower lower_table (schema +:+ "." +:+ table).
Proof.
  unfold ValidateSQL. set (text := TrimSpace sqlText). set (lower := ToLower lower_table text).
  destruct (text =s ""); [done|]. destruct (Contains text ";"); [done|]. destruct (existsb _ _); [done|].
  destruct (negb (_ || _)) eqn:Hw; [done|]. destruct (_ && negb (Contains lower ("update " +:+ table))); [done|].
  intros Hrel. split; [done|]. split.
  { apply negb_false_iff in Hw. rewrite !orb_true_iff in Hw.
    destruct Hw as [[[Hw|Hw]|Hw]|Hw]; eexists; (split; [|exact Hw]); set_solver. }
  intros a x y b Hb Hq. assert (Hdot : Contains lower "." = true).
  { apply byte_Contains. rewrite Hb. set_solver. }
  rewrite Hdot in Hrel. destruct (List.find _ _) eqn:Hf; [done|].
  assert (Hin : of_bytes (x ++ 46%Z :: y) ∈ relations (String.length lower) (bytes lower)).
  { eapply relations_found; [exact Hq|exact Hb|]. by rewrite length_bytes. }
  apply list_elem_of_In in Hin. apply (List.find_none _ _ Hf) in Hin. apply negb_false_iff, String.eqb_eq in Hin. done.
Qed.

Lemma sql_confined_witness :
  ValidateSQL (λ r, r) "SELECT id FROM syna_t_abc.data" "syna_t_abc" "data" = None
  ∧ HasPrefix (ToLower (λ r, r) (TrimSpace "SELECT id FROM syna_t_abc.data")) "select" = true
  ∧ Contains (TrimSpace "SELECT id FROM syna_t_abc.data") ";" = false.
Proof.
  split; [by vm_compute|]. split; [by vm_compute|].
  apply (sql_confined (λ r, r) "SELECT id FROM syna_t_abc.data" "syna_t_abc" "data"). by vm_compute.
Defined.
