(* ===== verification/Workers.v ===== *)
(** The workers of the data plane: [internal/logstore] archives old log
    entries ([RotateOlderThan] of [service.go], [tick] of [worker.go]) and
    [internal/schedule/worker.go] fires what is due in the database.

    A tick of a worker is one function; its ticker is not modelled. The blob
    store is the class [LogBlob]. *)
From S2P Require Import Prelude GoStrings Models DataObj AccessObjects PolicyScope Kinds.

(** The Go interface [BlobStore]. *)
Class LogBlob (B : Type) := blob_Put : string → string → B → B * option error.

Section Workers.
Context `{!KindDB, !GoRange} {B : Type} `{!LogBlob B}.
Context (json_unmarshal : string → gmap string Any) (ParseDuration : string → ret Duration).
Context (day_of : Time → string) (entries_json : list LogEntry → string).

(** ** Log rotation *)

Definition logEntryOfRow (row : Z * string * string * string * Time) : LogEntry :=
  let '(id, level, message, raw, at_) := row in mkLogEntry id level message (json_unmarshal raw) at_.

Definition byDay (entries : list LogEntry) : gmap string (list LogEntry) :=
  foldl (λ m e, let day := day_of e.(LogEntry_CreatedAt) in <[day := get0 m day ++ [e]]> m) ∅ entries.

Definition archiveKey (s3Prefix day : string) : string := s3Prefix +:+ "logs/" +:+ day +:+ ".jsonl".

(** One object per day, up to the first error. *)
Fixpoint archiveDays (b : B) (s3Prefix : string) (days : list (string * list LogEntry)) : B * option error :=
  match days with
  | [] => (b, None)
  | (day, l) :: days' =>
      match blob_Put (archiveKey s3Prefix day) (entries_json l) b with
      | (b, Some err) => (b, Some err)
      | (b, None) => archiveDays b s3Prefix days'
      end
  end.

(** [b]: [None] for a nil blob store. *)
Definition RotateOlderThan (b : option B) (d : KD) (objectID : string) (cutoff : Time) (s3Prefix : string)
    : option B * KD * option error :=
  match b with
  | None => (None, d, None)
  | Some bl =>
      match kd_log_older objectID cutoff d with
      | (_, Some err) => (b, d, Some err)
      | (rows, None) =>
          let entries := logEntryOfRow <$> rows in
          if bool_decide (entries = []) then (b, d, None)
          else match archiveDays bl s3Prefix (range_map (byDay entries)) with
          | (bl, Some err) => (Some bl, d, Some err)
          | (bl, None) => let '(d, err) := kd_log_delete objectID (LogEntry_ID <$> entries) d in (Some bl, d, err)
          end
      end
  end.

Definition day24 : Duration := (24 * 60 * Minute)%Z.

(** The objects one by one; an error of one of them is logged only. *)
Definition rotateObject (t : Time) (bd : option B * KD) (row : string * string * string) : option B * KD :=
  let '(id, prefix, rotateAfter) := row in
  let after := match ParseDuration rotateAfter with (n, None) => if (0 <? n)%Z then n else day24 | _ => day24 end in
  (RotateOlderThan bd.1 bd.2 id (t - after)%Z prefix).1.

Definition rotateTick (t : Time) (b : option B) (d : KD) : option B * KD :=
  match kd_log_objects d with
  | (_, Some _) => (b, d)
  | (rows, None) => foldl (rotateObject t) (b, d) rows
  end.

(** ** Firing from the database *)

Definition fireRow (t : Time) (x : ScheduleService) (row : string * string * string * string * string) : ScheduleService :=
  let '(objectID, name, cronExpr, task, raw) := row in
  let d := kd_schedule_deliver objectID name t task raw x.(sc_db) in
  let d := kd_schedule_advance (nextFromCron ParseDuration cronExpr t) t objectID name d in
  PushMemory (x <| sc_db := d |>) (mkDelivery 0 objectID name t task (json_unmarshal raw)).

(** [pool]: whether the worker has a pool. *)
Definition scheduleTick (pool : bool) (t : Time) (x : ScheduleService) : ScheduleService :=
  if negb pool then (FireDueMemory ParseDuration t x).1
  else match kd_schedule_due t x.(sc_db) with
  | (_, Some _) => x
  | (rows, None) => foldl (fireRow t) x rows
  end.
End Workers.

(** ** One rotation archives what it deletes *)

Lemma archiveKey_inj prefix day day' : archiveKey prefix day = archiveKey prefix day' → day = day'.
Proof.
  unfold archiveKey. intros Heq%(f_equal bytes). rewrite !bytes_app in Heq. do 2 apply app_inv_head in Heq.
  apply app_inv_tail in Heq. rewrite <- (of_bytes_bytes day), Heq. apply of_bytes_bytes.
Qed.

Section Rotation.
Context `{!KindDB, !GoRange} (json_unmarshal : string → gmap string Any) (day_of : Time → string)
  (entries_json : list LogEntry → string).

(** A blob store that keeps what was put last under a key. *)
#[local] Instance map_blob : LogBlob (gmap string string) := λ k v b, (<[k := v]> b, None).

Lemma byDay_entries l m e : e ∈ l → e ∈ get0 (foldl (λ m e, let day := day_of e.(LogEntry_CreatedAt) in
  <[day := get0 m day ++ [e]]> m) m l) (day_of e.(LogEntry_CreatedAt)).
Proof.
  assert (Hkeep : ∀ l m e day, e ∈ get0 m day → e ∈ get0 (foldl (λ m e, let day := day_of e.(LogEntry_CreatedAt) in
    <[day := get0 m day ++ [e]]> m) m l) day).
  { clear. induction l as [|x l IH]; intros m e day He; cbn; [done|]. apply IH. rewrite get0_insert.
    case_decide as Hd; [|done]. rewrite Hd. set_solver. }
  revert m. induction l as [|x l IH]; intros m; [by intros ?%not_elem_of_nil|]. cbn. intros [->|Hin]%elem_of_cons; [|by apply IH].
  apply Hkeep. rewrite get0_insert, decide_True by done. set_solver.
Qed.

Lemma archiveDays_puts b prefix days day l : NoDup days.*1 → (day, l) ∈ days →
  (archiveDays entries_json b prefix days).2 = None
  ∧ (archiveDays entries_json b prefix days).1 !! archiveKey prefix day = Some (entries_json l).
Proof.
  assert (Hok : ∀ days b, (archiveDays entries_json b prefix days).2 = None).
  { clear. induction days as [|[d l] days IH]; intros b; [done|]. cbn. apply IH. }
  assert (Hkeep : ∀ days b day, day ∉ days.*1 →
    (archiveDays entries_json b prefix days).1 !! archiveKey prefix day = b !! archiveKey prefix day).
  { clear. induction days as [|[d l] days IH]; intros b day Hd; [done|]. cbn in *. apply not_elem_of_cons in Hd as [Hne Hd].
    rewrite IH by done. apply lookup_insert_ne. intros Heq%archiveKey_inj. by apply Hne. }
  intros Hnd Hin. split; [apply Hok|]. revert b. induction days as [|[d k] days IH]; intros b; [by apply not_elem_of_nil in Hin|].
  cbn in *. apply NoDup_cons in Hnd as [Hnotin Hnd]. apply elem_of_cons in Hin as [[= -> ->]|Hin]; [|by apply IH].
  rewrite Hkeep by done. apply lookup_insert_eq.
Qed.

(** After a rotation each entry it took out of the table is in the archive of
    its day. *)
Lemma rotation_archives (b : gmap string string) d objectID cutoff prefix b' d' rows :
  kd_log_older objectID cutoff d = ok rows →
  RotateOlderThan json_unmarshal day_of entries_json (Some b) d objectID cutoff prefix = (Some b', d', None) →
  ∀ e, e ∈ logEntryOfRow json_unmarshal <$> rows → ∃ l, e ∈ l
    ∧ b' !! archiveKey prefix (day_of e.(LogEntry_CreatedAt)) = Some (entries_json l).
Proof.
  intros Hrows Hrot e He. unfold RotateOlderThan in Hrot. rewrite Hrows in Hrot. cbn [ok] in Hrot.
  rewrite bool_decide_false in Hrot by (intros Hnil; rewrite Hnil in He; by apply not_elem_of_nil in He).
  set (entries := logEntryOfRow json_unmarshal <$> rows) in *. set (days := range_map (byDay day_of entries)) in *.
  assert (Hin : e ∈ get0 (byDay day_of entries) (day_of e.(LogEntry_CreatedAt))) by exact (byDay_entries entries ∅ e He).
  unfold get0 in Hin. destruct (byDay day_of entries !! day_of e.(LogEntry_CreatedAt)) as [l|] eqn:Hl; [|by apply not_elem_of_nil in Hin].
  assert (Hperm := range_map_perm _ (byDay day_of entries)). fold days in Hperm.
  destruct (archiveDays_puts b prefix days (day_of e.(LogEntry_CreatedAt)) l) as [Hok Hput].
  { rewrite Hperm. apply NoDup_fst_map_to_list. }
  { rewrite Hperm. by apply elem_of_map_to_list. }
  destruct (archiveDays entries_json b prefix days) as [bl err]. cbn [fst snd] in *. subst err.
  destruct (kd_log_delete _ _ _) as [d1 e1]. injection Hrot as <- _ _. by exists l.
Qed.
End Rotation.

(** ** The next rotation of the day overwrites the archive *)

Section Overwrite.
#[local] Existing Instance canonical_range.
#[local] Existing Instance map_blob.
(** The rows of one log. *)
#[local] Instance log_rows : KindDB := {|
  KD := list (Z * string * string * string * Time); kd_commit := λ _, None;
  kd_enqueue := λ _ _ _ d, (d, ok 1%Z); kd_dequeue := λ _ _ d, (d, None); kd_delete_message := λ _ d, d;
  kd_peek := λ _ _, None; kd_size := λ _ _, ok 0%Z;
  kd_counter_write := λ _ _ _ d, (d, None); kd_counter_read := λ _ _, None;
  kd_variable_set := λ _ _ _ _ _ d, (d, None); kd_variable_get := λ _ _ _ _, None;
  kd_log_insert := λ _ level message raw t d, (d ++ [(Z.of_nat (length d) + 1, level, message, raw, t)], ok (Z.of_nat (length d) + 1))%Z;
  kd_log_tail := λ _ _ _, ok [];
  kd_schedule_set := λ _ _ _ _ _ _ _ d, (d, None); kd_schedule_get := λ _ _ _, None;
  kd_schedule_list := λ _ _, ok []; kd_schedule_claim := λ _ _ d, (d, None); kd_schedule_due := λ _ _, ok [];
  kd_schedule_deliver := λ _ _ _ _ _ d, d; kd_schedule_advance := λ _ _ _ _ d, d; kd_log_objects := λ _, ok [];
  kd_log_older := λ _ cutoff d, ok (List.filter (λ r, r.2 <? cutoff)%Z d);
  kd_log_delete := λ _ ids d, (List.filter (λ r, negb (existsb (Z.eqb r.1.1.1.1) ids)) d, None);
  kd_relation := λ _ _, None; kd_query := λ _ d, (d, ok ([], [])) |}.

Definition wr_rotate (cutoff : Time) (bd : option (gmap string string) * KD) :=
  (RotateOlderThan (λ _, ∅) (λ _, "2024-01-01") (λ l, foldr (λ e s, e.(LogEntry_Message) +:+ s) "" l) bd.1 bd.2 "o" cutoff "p/").1.

(** Two entries of one day, archived one minute apart: the first is in
    neither the table nor the archive any more. *)
Lemma rotation_loses_entries :
  wr_rotate 60 (wr_rotate 20 (Some ∅, [(1, "info", "first", "{}", 10); (2, "info", "second", "{}", 30)]%Z))
  = (Some {[ "p/logs/2024-01-01.jsonl" := "second" ]}, []).
Proof. by vm_compute. Qed.
End Overwrite.
