(* ===== verification/Proxy.v ===== *)
(** [internal/mcpproxy]: the names proxied tools, prompts and resources of
    upstream MCP servers get ([names.go]), and who may use a server
    ([access.go]). The store behind the access service is the class
    [MCPServerStore] of the two reads the service makes of it. *)
From S2P Require Import Prelude GoStrings Models DataObj AccessState AccessProps.
From Stdlib Require Import Ascii.

(** ** names.go *)

Definition resourcePrefix : string := "syna-mcp/".

Definition NamespacedTool (slug toolName : string) : string := slug +:+ "__" +:+ toolName.
Definition NamespacedPrompt (slug promptName : string) : string := slug +:+ "__" +:+ promptName.
Definition NamespacedResourceURI (slug upstreamURI : string) : string :=
  resourcePrefix +:+ slug +:+ "/" +:+ TrimPrefix upstreamURI "/".

Definition ParseNamespacedTool (name : string) : string * string * bool :=
  let '(slug, tool, found) := Cut name "__" in
  (slug, tool, found && (slug <>s "") && (tool <>s "")).
Definition ParseNamespacedPrompt (name : string) : string * string * bool := ParseNamespacedTool name.

Definition ParseNamespacedResourceURI (uri : string) : string * string * bool :=
  if negb (HasPrefix uri resourcePrefix) then ("", "", false)
  else
    let rest := TrimPrefix uri resourcePrefix in
    let '(slug, upstream, found) := Cut rest "/" in
    if negb found || (slug =s "") || (upstream =s "") then ("", "", false)
    else (slug, upstream, true).

Definition FilterAllowlist (items allowlist : list string) : list string :=
  match allowlist with
  | [] => items
  | _ =>
      let allowed : gset string := list_to_set allowlist in
      List.filter (λ item, bool_decide (item ∈ allowed)) items
  end.

Definition ErrUnknownProxyTarget : error := Sentinel "mcpproxy" "unknown proxied mcp target".

(** The loop of [Slugify]: [b] is the builder, a byte list. *)
Fixpoint slugLoop (rs : list Z) (b : list Z) (prevDash : bool) : list Z :=
  match rs with
  | [] => b
  | r :: rs' =>
      if is_lower r || is_digit r then slugLoop rs' (b ++ [r]) false
      else if negb prevDash && (0 <? length b)%nat then slugLoop rs' (b ++ [45%Z]) true
      else slugLoop rs' b prevDash
  end.

Definition Slugify (unicode_lower : Z → Z) (s : string) : string :=
  let s := ToLower unicode_lower (TrimSpace s) in
  trim_right_byte "-"%char (trim_left_byte "-"%char (of_bytes (slugLoop (runes s) [] false))).

(** ** access.go *)

Definition MCPServerRolePermissions (role : MCPServerRole) : list MCPServerPermission :=
  if (role =s RoleMCPServerOwner) || (role =s RoleMCPServerAdmin)
  then [PermissionMCPServerUse; PermissionMCPServerManage; PermissionMCPServerDelete]
  else if role =s RoleMCPServerUser then [PermissionMCPServerUse]
  else [].

Definition hasPlatformAdmin (p : Principal) : bool := sContains p.(Principal_Scopes) "platform_admin".

Definition serverPermissions (acl : list MCPServerACLBinding) (serverID : string) : gset MCPServerPermission :=
  list_to_set (concat ((λ b, MCPServerRolePermissions b.(MCPServerACLBinding_Role)) <$>
    List.filter (λ b, b.(MCPServerACLBinding_ServerID) =s serverID) acl)).

Definition evaluateMCPServerAccess (p : Principal) (token : option AccessToken)
    (tokenScopes : list AccessTokenMCPServer) (acl : list MCPServerACLBinding) (serverID : string)
    (permission : MCPServerPermission) : bool :=
  if match token with
     | Some _ => negb (existsb (λ sc, sc.(AccessTokenMCPServer_ServerID) =s serverID) tokenScopes)
     | None => false
     end
  then false
  else
    let perms := serverPermissions acl serverID in
    let perms := if bool_decide (size perms = 0) && hasPlatformAdmin p then {[permission]} ∪ perms else perms in
    bool_decide (permission ∈ perms).

Record AccessibleServer := mkAccessibleServer {
  AccessibleServer_Server : MCPServer;
  AccessibleServer_Scope : AccessTokenMCPServer
}.

(** What the access service reads from the store. *)
Class MCPServerStore (St : Type) := {
  ms_ACLForSubject : St → list string → ret (list MCPServerACLBinding);
  ms_ListServers : St → ret (list MCPServer)
}.

Section Access.
Context {St : Type} `{!MCPServerStore St}.

(** [s]: [None] for a nil service or store. *)
Definition CanAccessMCPServer (s : option St) (p : Principal) (token : option AccessToken)
    (tokenScopes : list AccessTokenMCPServer) (serverID : string) (permission : MCPServerPermission) : ret bool :=
  match s with
  | None => ok false
  | Some st =>
      match ms_ACLForSubject st (SubjectKeys p) with
      | (_, Some err) => fails false err
      | (acl, None) => ok (evaluateMCPServerAccess p token tokenScopes acl serverID permission)
      end
  end.

Definition AvailableMCPServers (s : option St) (p : Principal) (token : option AccessToken)
    (tokenScopes : list AccessTokenMCPServer) : ret (list AccessibleServer) :=
  match s with
  | None => ok []
  | Some st =>
      match ms_ACLForSubject st (SubjectKeys p) with
      | (_, Some err) => fails [] err
      | (acl, None) =>
          match token with
          | Some _ =>
              match tokenScopes with
              | [] => ok []
              | _ =>
                  match ms_ListServers st with
                  | (_, Some err) => fails [] err
                  | (all, None) =>
                      let serversByID : gmap string MCPServer :=
                        foldl (λ m srv, <[srv.(MCPServer_ID) := srv]> m) ∅ all in
                      ok (omap (λ sc,
                        match serversByID !! sc.(AccessTokenMCPServer_ServerID) with
                        | None => None
                        | Some srv =>
                            if evaluateMCPServerAccess p token tokenScopes acl srv.(MCPServer_ID) PermissionMCPServerUse
                            then Some (mkAccessibleServer srv sc) else None
                        end) tokenScopes)
                  end
              end
          | None =>
              match ms_ListServers st with
              | (_, Some err) => fails [] err
              | (all, None) =>
                  ok (omap (λ srv,
                    if evaluateMCPServerAccess p None [] acl srv.(MCPServer_ID) PermissionMCPServerUse
                    then Some (mkAccessibleServer srv
                                 ((zeroval : AccessTokenMCPServer) <| AccessTokenMCPServer_ServerID := srv.(MCPServer_ID) |>))
                    else None) all)
              end
          end
      end
  end.
End Access.

(** ** Names *)

Lemma HasPrefix_single s c : HasPrefix s (String c "") = true → ∃ t, s = String c t.
Proof. intros [t ->]%HasPrefix_spec. by exists t. Qed.

(** A separator that begins with [c] is not met in a string without [c]. *)
Lemma Cut_no_char a c sep b : Contains a (String c "") = false →
  Cut (a +:+ String c sep +:+ b) (String c sep) = (a, b, true).
Proof.
  intros Hno. apply Cut_app. intros a1 a2 -> Hne. destruct a2 as [|d a2]; [done|].
  autorewrite with go_simpl. cbn [HasPrefix]. destruct (Ascii.eqb_spec c d) as [<-|]; [|done].
  exfalso. clear Hne. induction a1 as [|e a1 IH]; autorewrite with go_simpl in Hno; cbn [Contains HasPrefix] in Hno.
  - by rewrite Ascii.eqb_refl in Hno; destruct a2.
  - apply orb_false_iff in Hno as [_ Hno]. by apply IH.
Qed.

Lemma Contains_byte s c : Contains s (String c "") = true → byte_of c ∈ bytes s.
Proof.
  induction s as [|d s IH]; cbn [Contains HasPrefix bytes]; [done|].
  intros [H|H]%orb_true_iff.
  - apply andb_true_iff in H as [->%Ascii.eqb_eq _]. by left.
  - right. by apply IH.
Qed.

(** The bytes of a slug: lower-case letters, digits, dashes. *)
Definition slug_byte (b : Z) : bool := is_lower b || is_digit b || (b =? 45)%Z.

(** What the loop keeps of its builder. *)
Definition slug_state (b : list Z) (prevDash : bool) : Prop :=
  Forall (λ x, slug_byte x = true) b
  ∧ head b ≠ Some 45%Z
  ∧ (∀ i, b !! i = Some 45%Z → b !! S i ≠ Some 45%Z)
  ∧ (prevDash = false → last b ≠ Some 45%Z).

Lemma slug_push b prevDash r : slug_state b prevDash → is_lower r || is_digit r = true →
  slug_state (b ++ [r]) false.
Proof.
  intros (Hf & Hh & Hd & _) Hr.
  assert (Hr45 : r ≠ 45%Z) by (intros ->; discriminate Hr). split_and!.
  - apply Forall_app_2; [done|]. constructor; [|done]. unfold slug_byte. by rewrite Hr.
  - destruct b; [simpl; congruence|done].
  - intros i Hi HSi. destruct (decide (S i < length b)%nat).
    + rewrite lookup_app_l in Hi, HSi by lia. by apply (Hd i).
    + rewrite lookup_app_r in HSi by lia. apply list_lookup_singleton_Some in HSi as [_ ?]. done.
  - intros _. rewrite last_snoc. congruence.
Qed.

Lemma slug_dash b : slug_state b false → b ≠ [] → slug_state (b ++ [45%Z]) true.
Proof.
  intros (Hf & Hh & Hd & Hl) Hne. specialize (Hl eq_refl). split_and!; [| | |done].
  - apply Forall_app_2; [done|]. by repeat constructor.
  - by destruct b.
  - intros i Hi HSi. destruct (decide (S i < length b)%nat).
    + rewrite lookup_app_l in Hi, HSi by lia. by apply (Hd i).
    + apply lookup_lt_Some in HSi. rewrite length_app in HSi. cbn in HSi.
      rewrite lookup_app_l in Hi by lia. apply Hl. rewrite last_lookup.
      by replace (pred (length b)) with i by lia.
Qed.

Lemma slugLoop_state rs b prevDash : slug_state b prevDash → ∃ p, slug_state (slugLoop rs b prevDash) p.
Proof.
  revert b prevDash. induction rs as [|r rs IH]; intros b prevDash Hb; cbn [slugLoop]; [eauto|].
  destruct (is_lower r || is_digit r) eqn:Hr; [by eapply IH, slug_push|].
  destruct (negb prevDash && _) eqn:Hc; [|by eapply IH].
  apply andb_true_iff in Hc as [Hp%negb_true_iff Hl%Nat.ltb_lt]. subst.
  eapply IH, slug_dash; [done|]. by destruct b; [cbn in Hl; lia|].
Qed.

Lemma drop_while_suffix {A} (f : A → bool) l : drop_while f l `suffix_of` l.
Proof.
  induction l as [|x l IH]; cbn; [done|]. destruct (f x); [|done]. by apply suffix_cons_r.
Qed.

(** The bytes of a slug are a prefix of what the loop built. *)
Lemma Slugify_bytes lower s : ∃ b p, slug_state b p ∧ bytes (Slugify lower s) `prefix_of` b
  ∧ last (bytes (Slugify lower s)) ≠ Some 45%Z.
Proof.
  unfold Slugify. set (rs := runes _).
  destruct (slugLoop_state rs [] false) as [p Hst].
  { split_and!; [constructor|done|done|done]. }
  set (b := slugLoop rs [] false) in *. exists b, p. split; [done|].
  assert (Hb : bytes (of_bytes b) = b).
  { apply bytes_of_bytes. eapply Forall_impl; [apply Hst|]. intros x Hx.
    unfold slug_byte, is_lower, is_digit, in_range in Hx. lia. }
  assert (Hleft : trim_left_byte "-"%char (of_bytes b) = of_bytes b).
  { unfold trim_left_byte. rewrite Hb. destruct b as [|x b']; [done|]. cbn [drop_while].
    rewrite (proj2 (Z.eqb_neq x _)); [done|]. intros ->. by destruct Hst as (_ & Hh & _). }
  rewrite Hleft. unfold trim_right_byte. rewrite Hb.
  set (d := drop_while _ (reverse b)).
  assert (Hd : reverse d `prefix_of` b).
  { destruct (drop_while_suffix (λ b0, (b0 =? byte_of "-"%char)%Z) (reverse b)) as [k Hk]. fold d in Hk.
    exists (reverse k). rewrite <- reverse_app, <- Hk. by rewrite reverse_involutive. }
  assert (Hrange : bytes (of_bytes (reverse d)) = reverse d).
  { apply bytes_of_bytes. destruct Hd as [k Hk]. destruct Hst as (Hf & _). rewrite Hk in Hf.
    apply Forall_app in Hf as [Hf _]. eapply Forall_impl; [exact Hf|]. intros x Hx. cbn in Hx.
    unfold slug_byte, is_lower, is_digit, in_range in Hx. lia. }
  rewrite Hrange. split; [done|]. rewrite last_reverse. destruct d as [|x d'] eqn:Hdd; [done|].
  assert (Hdw : drop_while (λ b0, (b0 =? byte_of "-"%char)%Z) (reverse b) = x :: d') by exact Hdd.
  apply drop_while_head in Hdw. apply Z.eqb_neq in Hdw. cbn. intros [= ->]. by apply Hdw.
Qed.

Lemma Slugify_no_char lower s c : slug_byte (byte_of c) = false → Contains (Slugify lower s) (String c "") = false.
Proof.
  intros Hc. apply not_true_iff_false. intros Hin%Contains_byte.
  destruct (Slugify_bytes lower s) as (b & p & (Hf & _) & [k Hk] & _).
  rewrite Hk in Hf. apply Forall_app in Hf as [Hf _].
  rewrite Forall_forall in Hf. apply Hf in Hin. cbn in Hin. congruence.
Qed.

(** C40. A slug is what its comment says: lower-case letters and digits
    separated by single dashes, none at either end, for every input. *)
Theorem slug_shape lower s :
  let bs := bytes (Slugify lower s) in
  Forall (λ x, slug_byte x = true) bs ∧ head bs ≠ Some 45%Z ∧ last bs ≠ Some 45%Z
  ∧ ∀ i, bs !! i = Some 45%Z → bs !! S i ≠ Some 45%Z.
Proof.
  destruct (Slugify_bytes lower s) as (b & p & (Hf & Hh & Hd & _) & [k Hk] & Hl). cbn zeta.
  set (bs := bytes (Slugify lower s)) in *. clearbody bs. subst b. split_and!; [|destruct bs; done|done|].
  - by apply Forall_app in Hf as [Hf _].
  - intros i Hi HSi. apply (Hd i); by apply lookup_app_l_Some.
Qed.

(** A name under a slug without the first byte of the separator splits back. *)
Lemma parse_tool slug name : slug ≠ "" → Contains slug "_" = false → name ≠ "" →
  ParseNamespacedTool (NamespacedTool slug name) = (slug, name, true).
Proof.
  intros Hs Hno Hn. unfold ParseNamespacedTool, NamespacedTool.
  rewrite (Cut_no_char slug "_"%char "_" name) by done. by rewrite !seqb_neq_false.
Qed.

Lemma parse_resource slug uri : slug ≠ "" → Contains slug "/" = false → TrimPrefix uri "/" ≠ "" →
  ParseNamespacedResourceURI (NamespacedResourceURI slug uri) = (slug, TrimPrefix uri "/", true).
Proof.
  intros Hs Hno Hn. unfold ParseNamespacedResourceURI, NamespacedResourceURI.
  rewrite HasPrefix_app, TrimPrefix_app. cbn [negb].
  rewrite (Cut_no_char slug "/"%char "" _) by done. by rewrite !seqb_neq_false.
Qed.

(** Names of proxied tools, prompts and resources split back to the
    server's slug and the upstream name, for every slug [Slugify] makes and
    every upstream name; of a resource URI a leading slash is lost. *)
Theorem namespaced_roundtrip lower s name :
  let slug := Slugify lower s in
  slug ≠ "" →
  (name ≠ "" → ParseNamespacedTool (NamespacedTool slug name) = (slug, name, true)
               ∧ ParseNamespacedPrompt (NamespacedPrompt slug name) = (slug, name, true))
  ∧ (TrimPrefix name "/" ≠ "" →
     ParseNamespacedResourceURI (NamespacedResourceURI slug name) = (slug, TrimPrefix name "/", true)).
Proof.
  intros slug Hslug. split; [intros Hn; split|intros Hn; apply parse_resource]; try done;
    [apply parse_tool..|]; try done; by apply Slugify_no_char.
Qed.

(** ** Access *)

Definition server_granted (acl : list MCPServerACLBinding) (sid : string) (perm : MCPServerPermission) : Prop :=
  ∃ b, b ∈ acl ∧ b.(MCPServerACLBinding_ServerID) = sid
     ∧ perm ∈ MCPServerRolePermissions b.(MCPServerACLBinding_Role).

Lemma elem_of_serverPermissions acl sid perm : perm ∈ serverPermissions acl sid ↔ server_granted acl sid perm.
Proof.
  unfold serverPermissions, server_granted. rewrite elem_of_list_to_set, list_elem_of_In, in_concat. split.
  - intros (l & Hl & Hp). apply list_elem_of_In, list_elem_of_fmap in Hl as (b & -> & Hb).
    apply elem_of_filter_bool in Hb as [Hb ?]. go_bool. exists b. split_and!; [done..|by apply list_elem_of_In].
  - intros (b & Hb & Hs & Hp). exists (MCPServerRolePermissions b.(MCPServerACLBinding_Role)).
    rewrite <- !list_elem_of_In. split; [|done]. apply list_elem_of_fmap. exists b. split; [done|].
    apply elem_of_filter_bool. by rewrite Hs, String.eqb_refl.
Qed.

(** Access to a proxied server is exactly: the caller's roles give the
    permission, or nothing at all is given on the server and the caller is a
    platform admin; and a token must name the server besides, so that a
    token only narrows. *)
Theorem mcp_access_rule p token scopes acl sid perm :
  evaluateMCPServerAccess p token scopes acl sid perm = true ↔
  (server_granted acl sid perm ∨ (is_admin p ∧ ∀ q, ¬ server_granted acl sid q))
  ∧ match token with
    | Some _ => sid ∈ (AccessTokenMCPServer_ServerID <$> scopes)
    | None => True
    end.
Proof.
  assert (Hperms : bool_decide (perm ∈ (if bool_decide (size (serverPermissions acl sid) = 0) && hasPlatformAdmin p
      then {[perm]} ∪ serverPermissions acl sid else serverPermissions acl sid)) = true ↔
    server_granted acl sid perm ∨ (is_admin p ∧ ∀ q, ¬ server_granted acl sid q)).
  { rewrite bool_decide_eq_true, <- elem_of_serverPermissions. setoid_rewrite <- elem_of_serverPermissions.
    unfold is_admin. rewrite <- sContains_spec. fold (hasPlatformAdmin p).
    assert (size (serverPermissions acl sid) = 0 ↔ ∀ q, q ∉ serverPermissions acl sid) by (rewrite size_empty_iff; set_solver).
    case_bool_decide; destruct (hasPlatformAdmin p); set_solver. }
  assert (Hscope : existsb (λ sc, sc.(AccessTokenMCPServer_ServerID) =s sid) scopes = true ↔
    sid ∈ (AccessTokenMCPServer_ServerID <$> scopes)).
  { rewrite existsb_elem_of, list_elem_of_fmap. setoid_rewrite String.eqb_eq. naive_solver. }
  unfold evaluateMCPServerAccess. destruct token as [t|]; [|rewrite Hperms; tauto].
  destruct (existsb _ scopes); cbn [negb]; [rewrite Hperms; tauto|]. split; [done|].
  intros [_ ?%Hscope]. done.
Qed.

(** ** Witnesses *)

Lemma namespaced_roundtrip_witness :
  ParseNamespacedTool (NamespacedTool (Slugify (λ r, r) "My Server!") "_get") = ("my-server", "_get", true).
Proof.
  refine (proj1 (proj1 (namespaced_roundtrip (λ r, r) "My Server!" "_get" _) _)); [|done].
  vm_compute. discriminate.
Defined.
