(* ===== verification/Auth.v ===== *)
(** [internal/auth]: the resource server in front of the API.
    [provider_router.go] (tokens of external identity providers),
    [resource_server.go] (the bearer middleware) and [publicurl.go].

    Parameters: the JWT library ([JWT]: decoding a token with and without its
    signature checked), the key sets that a JWKS URL delivers at the time of a
    call, [url.Parse] and [net.ParseIP] of the standard library, the Unicode
    tables, the environment variables. *)
From S2P Require Import Prelude GoStrings GoCrypto Models DataObj AccessState AccessObjects AccessService.
From Stdlib Require Import Ascii.

(** ** Configuration (internal/config) *)

Record ProviderConfig := mkProviderConfig {
  Provider_Name : string;
  Provider_Issuer : string;
  Provider_Audience : string;
  Provider_JWKSURL : string;
  Provider_ClientID : string;
  Provider_ClientSecretEnvRef : string
}.
#[export] Instance zero_ProviderConfig : Zero ProviderConfig := mkProviderConfig "" "" "" "" "" "".

Record TeleportConfig := mkTeleportConfig {
  Teleport_Enabled : bool;
  Teleport_Issuer : string;
  Teleport_Audience : string
}.

(** The part of [config.OAuthConfig] the gateway reads is in the first two
    fields. *)
Record GatewayConfig := mkGatewayConfig {
  gw_Providers : list ProviderConfig;
  gw_GoogleDomains : list string;
  gw_Teleport : TeleportConfig;
  gw_APIScopes : list string;
  gw_DevMode : bool;
  gw_ResourceMetadataURL : string
}.

Definition resolveSecret (getenv : string → string) (value : string) : string :=
  if HasPrefix value "env:" then getenv (TrimPrefix value "env:")
  else if HasPrefix value "$" then getenv (TrimPrefix value "$")
  else if HasPrefix value "literal:" then TrimPrefix value "literal:"
  else value.

Definition ClientSecret (getenv : string → string) (p : ProviderConfig) : string :=
  resolveSecret getenv p.(Provider_ClientSecretEnvRef).

(** ** Claims and the JWT library *)

(** [tokenClaims]; of [jwt.RegisteredClaims] the fields the code reads. *)
Record tokenClaims := mkTokenClaims {
  claims_Issuer : string;
  claims_Subject : string;
  claims_Audience : list string;
  claims_Email : string;
  claims_EmailVerified : bool;
  claims_Groups : list string;
  claims_Scopes : list string;
  claims_Scope : string;
  claims_HD : string;
  claims_TeleportRoles : list string;
  claims_TeleportAttrs : gmap string (list string)
}.
#[export] Instance settable_tokenClaims : Settable tokenClaims := λ c,
  mkTokenClaims c.(claims_Issuer) c.(claims_Subject) c.(claims_Audience) c.(claims_Email) c.(claims_EmailVerified)
    c.(claims_Groups) c.(claims_Scopes) c.(claims_Scope) c.(claims_HD) c.(claims_TeleportRoles)
    c.(claims_TeleportAttrs).
#[export] Instance zero_tokenClaims : Zero tokenClaims := mkTokenClaims "" "" [] "" false [] [] "" "" [] ∅.

(** The library: [ParseUnverified], and [ParseWithClaims] with the options
    [WithIssuer] and [WithLeeway] at a time. *)
Class JWT := {
  Keyfunc : Type;
  ParseUnverified : string → ret tokenClaims;
  ParseWithClaims : Time → string → Keyfunc → string → Duration → ret tokenClaims
}.

(** What [WithIssuer] promises: a token that verifies names that issuer. *)
Definition jwt_checks_issuer `{JWT} : Prop :=
  ∀ t raw k issuer leeway c, ParseWithClaims t raw k issuer leeway = (c, None) → c.(claims_Issuer) = issuer.

(** What one call reads from the network: the key set a JWKS URL delivers. *)
Abbreviation Fetch := (string → Keyfunc + error) (only parsing).

(** The tokens of this server, behind the interface [OpaqueTokenResolver]. *)
Class OpaqueTokenResolver (S : Type) := resolve_bearer : Env → S → string → S * ret (APIAccessContext * bool).

(** ** Requests and URLs *)

Record Request := mkRequest {
  req_Authorization : string;
  req_XForwardedProto : string;
  req_XForwardedHost : string;
  req_Host : string;
  req_TLS : bool
}.

(** What the code reads of [url.Parse]. *)
Record URL := mkURL { URL_Scheme : string; URL_Host : string; URL_Hostname : string; URL_Fragment : string }.

(** What the middleware does with a request. *)
Inductive gw_outcome :=
| Unauthorized (wwwAuthenticate : string) (msg : string)
| Forbidden
| Next (principal : Principal) (ctx : APIAccessContext).

Definition firstHeaderValue (v : string) : string :=
  if v =s "" then "" else TrimSpace (Cut v ",").1.1.

Definition hasAudience (auds : list string) (expected : string) : bool := existsb (λ aud, aud =s expected) auds.

Definition collectIssuers (cfg : GatewayConfig) : list string :=
  (Provider_Issuer <$> cfg.(gw_Providers)) ++
  (if cfg.(gw_Teleport).(Teleport_Enabled) && (cfg.(gw_Teleport).(Teleport_Issuer) <>s "")
   then [cfg.(gw_Teleport).(Teleport_Issuer)] else []).

Section Gateway.
Context (unicode_lower unicode_fold : Z → Z).
Context (url_parse : string → option URL) (ip_is_loopback : string → bool).
(** [fmt]'s verb [%q]. *)
Context (quote : string → string).

(** ** publicurl.go *)

Definition IsLoopbackPublicURL (raw : string) : bool :=
  let raw := TrimSpace raw in
  if raw =s "" then true
  else match url_parse raw with
  | None => true
  | Some u =>
      if u.(URL_Hostname) =s "" then true
      else
        let host := ToLower unicode_lower u.(URL_Hostname) in
        if host =s "localhost" then true else ip_is_loopback host
  end.

Definition PublicBaseFromRequest (r : Request) : string :=
  let scheme := if r.(req_TLS) then "https" else "http" in
  let proto := firstHeaderValue r.(req_XForwardedProto) in
  let scheme := if proto <>s "" then ToLower unicode_lower proto else scheme in
  let host := firstHeaderValue r.(req_XForwardedHost) in
  let host := if host =s "" then r.(req_Host) else host in
  let host := TrimSpace host in
  if host =s "" then "" else scheme +:+ "://" +:+ host.

Definition ResolvePublicBaseURL (configured : string) (r : Request) : string :=
  let configured := trim_right_byte "/" (TrimSpace configured) in
  if (configured <>s "") && negb (IsLoopbackPublicURL configured) then configured
  else
    let derived := trim_right_byte "/" (PublicBaseFromRequest r) in
    if derived <>s "" then derived else configured.

Definition extractBearer (header : string) : string :=
  if header =s "" then ""
  else match SplitN2 (TrimSpace header) " " with
  | [scheme; rest] => if EqualFold unicode_fold scheme "bearer" then TrimSpace rest else ""
  | _ => ""
  end.

Definition preferredProvider (cfg : GatewayConfig) : option ProviderConfig :=
  match List.find (λ p, EqualFold unicode_fold p.(Provider_Name) "keycloak") cfg.(gw_Providers) with
  | Some p => Some p
  | None => head cfg.(gw_Providers)
  end.

Definition defaultOAuthEndpoints (providerName issuer : string) : string * string :=
  if EqualFold unicode_fold providerName "keycloak"
  then (issuer +:+ "/protocol/openid-connect/auth", issuer +:+ "/protocol/openid-connect/token")
  else (issuer +:+ "/oauth2/authorize", issuer +:+ "/oauth2/token").

(** ** provider_router.go *)

Context `{JWT}.
Context (cfg : GatewayConfig).

(** The router's state: the key sets it has fetched, by issuer. *)
Record ProviderRouter := mkProviderRouter { verifier : gmap string Keyfunc }.
Definition NewProviderRouter : ProviderRouter := mkProviderRouter ∅.

Definition providerByIssuer (issuer : string) : ProviderConfig + error :=
  match List.find (λ p, p.(Provider_Issuer) =s issuer) cfg.(gw_Providers) with
  | Some p => inl p
  | None =>
      if cfg.(gw_Teleport).(Teleport_Enabled) && (issuer =s cfg.(gw_Teleport).(Teleport_Issuer))
      then inl (mkProviderConfig "" issuer ""
                  (trim_right_byte "/" cfg.(gw_Teleport).(Teleport_Issuer) +:+ "/.well-known/jwks.json") "" "")
      else inr (NewError ("unknown provider issuer: " +:+ issuer))
  end.

Definition audienceByIssuer (issuer : string) : string :=
  match List.find (λ p, (p.(Provider_Issuer) =s issuer) && (p.(Provider_Audience) <>s "")) cfg.(gw_Providers) with
  | Some p => p.(Provider_Audience)
  | None => if issuer =s cfg.(gw_Teleport).(Teleport_Issuer) then cfg.(gw_Teleport).(Teleport_Audience) else ""
  end.

Definition keyfuncByIssuer (fetch : Fetch) (r : ProviderRouter) (issuer : string)
    : ProviderRouter * (Keyfunc + error) :=
  match r.(verifier) !! issuer with
  | Some keyf => (r, inl keyf)
  | None =>
      match providerByIssuer issuer with
      | inr err => (r, inr err)
      | inl provider =>
          if provider.(Provider_JWKSURL) =s "" then (r, inr (NewError ("no jwks configured for issuer " +:+ quote issuer)))
          else if provider.(Provider_JWKSURL) =s "insecure"
          then (r, inr (NewError ("insecure jwks does not use keyfunc for issuer " +:+ quote issuer)))
          else match fetch provider.(Provider_JWKSURL) with
          | inr err => (r, inr err)
          | inl kf => (mkProviderRouter (<[issuer := kf]> r.(verifier)), inl kf)
          end
      end
  end.

(** [strings.Fields] of the scope claim where the token has no list. *)
Definition spreadScope (c : tokenClaims) : tokenClaims :=
  if bool_decide (c.(claims_Scopes) = []) && (c.(claims_Scope) <>s "")
  then c <| claims_Scopes := Fields c.(claims_Scope) |> else c.

(** [jwt.WithLeeway(30)]: an untyped constant, so 30 nanoseconds. *)
Definition leeway : Duration := 30%Z.

Definition VerifyAndParseClaims (t : Time) (fetch : Fetch) (r : ProviderRouter) (rawToken : string)
    : ProviderRouter * ret tokenClaims :=
  match ParseUnverified rawToken with
  | (_, Some err) => (r, fails zeroval (Wrapped "parse unverified token" err))
  | (unverified, None) =>
      if unverified.(claims_Issuer) =s "" then (r, fails zeroval (NewError "missing issuer"))
      else
        let insecure := match providerByIssuer unverified.(claims_Issuer) with
                        | inl p => p.(Provider_JWKSURL) =s "insecure"
                        | inr _ => false
                        end in
        if insecure then
          if negb cfg.(gw_DevMode) then (r, fails zeroval (NewError "insecure jwks requires server.dev_mode"))
          else (r, ok (spreadScope unverified))
        else
          match keyfuncByIssuer fetch r unverified.(claims_Issuer) with
          | (r, inr err) => (r, fails zeroval err)
          | (r, inl keyf) =>
              match ParseWithClaims t rawToken keyf unverified.(claims_Issuer) leeway with
              | (_, Some err) => (r, fails zeroval (Wrapped "verify token" err))
              | (verified, None) =>
                  let aud := audienceByIssuer unverified.(claims_Issuer) in
                  if (aud <>s "") && negb (hasAudience verified.(claims_Audience) aud)
                  then (r, fails zeroval (NewError "audience mismatch"))
                  else (r, ok (spreadScope verified))
              end
          end
  end.

Definition isTeleport (c : tokenClaims) : bool :=
  cfg.(gw_Teleport).(Teleport_Enabled)
  && ((c.(claims_Issuer) =s cfg.(gw_Teleport).(Teleport_Issuer))
      && hasAudience c.(claims_Audience) cfg.(gw_Teleport).(Teleport_Audience)).

Definition isKnownIssuer (issuer : string) : bool :=
  existsb (λ p, p.(Provider_Issuer) =s issuer) cfg.(gw_Providers).

Definition allowedGoogleDomain (email : string) : bool :=
  match Split email "@" with
  | [_; d] => existsb (λ allowed, EqualFold unicode_fold d allowed) cfg.(gw_GoogleDomains)
  | _ => false
  end.

(** The subject keys are derived from the other fields. *)
Definition withSubjectKeys (p : Principal) : Principal :=
  let p := p <| Principal_SubjectKey := SubjectKeyForPrincipal p |> in
  p <| Principal_GroupSubjectKeys := GroupSubjectKeysForPrincipal p |>.

Definition claimsPrincipal (c : tokenClaims) (authSource : string) (roles : list string) : Principal :=
  withSubjectKeys
    ((zeroval : Principal) <| Principal_UserID := c.(claims_Subject) |> <| Principal_Issuer := c.(claims_Issuer) |>
       <| Principal_Email := c.(claims_Email) |> <| Principal_EmailVerified := c.(claims_EmailVerified) |>
       <| Principal_Groups := c.(claims_Groups) |> <| Principal_Scopes := c.(claims_Scopes) |>
       <| Principal_AuthSource := authSource |> <| Principal_TeleportRoles := roles |>).

Definition ToPrincipal (claims : tokenClaims) : ret Principal :=
  if isTeleport claims then ok (claimsPrincipal claims "teleport_proxy" claims.(claims_TeleportRoles))
  else if negb (isKnownIssuer claims.(claims_Issuer)) then fails zeroval (NewError "unknown issuer")
  else if Contains claims.(claims_Issuer) "google" && negb (bool_decide (cfg.(gw_GoogleDomains) = [])) then
    if negb claims.(claims_EmailVerified) then fails zeroval (NewError "google email not verified")
    else if negb (allowedGoogleDomain claims.(claims_Email)) then fails zeroval (NewError "google domain denied")
    else ok (claimsPrincipal claims "oauth" [])
  else ok (claimsPrincipal claims "oauth" []).

(** ** resource_server.go *)

Context {S : Type} `{OpaqueTokenResolver S}.

Record Gateway := mkGateway { gw_router : ProviderRouter; gw_tokenResolver : option S }.
Definition NewGateway : Gateway := mkGateway NewProviderRouter None.
Definition SetOpaqueTokenResolver (g : Gateway) (s : S) : Gateway := mkGateway g.(gw_router) (Some s).

Definition writeUnauthorized (r : Request) (msg : string) : gw_outcome :=
  let meta := cfg.(gw_ResourceMetadataURL) in
  let meta := if (meta =s "") || IsLoopbackPublicURL meta then
                let base := ResolvePublicBaseURL "" r in
                if base <>s "" then base +:+ "/.well-known/oauth-protected-resource" else meta
              else meta in
  Unauthorized (if meta <>s "" then "Bearer resource_metadata=" +:+ String "034" meta +:+ String "034" "" else "") msg.

(** The JWT path of the middleware. *)
Definition jwtMiddleware (t : Time) (fetch : Fetch) (g : Gateway) (r : Request) (bearer : string)
    : Gateway * gw_outcome :=
  let '(router, res) := VerifyAndParseClaims t fetch g.(gw_router) bearer in
  let g := mkGateway router g.(gw_tokenResolver) in
  match res with
  | (_, Some _) => (g, writeUnauthorized r "invalid token")
  | (claims, None) =>
      match ToPrincipal claims with
      | (_, Some _) => (g, Forbidden)
      | (principal, None) =>
          (g, Next principal ((zeroval : APIAccessContext) <| APIAccessContext_Principal := principal |>
                 <| APIAccessContext_AuthMode := "bearer_jwt" |>
                 <| APIAccessContext_GrantedScopes := principal.(Principal_Scopes) |>))
      end
  end.

Definition Middleware (e : Env) (fetch : Fetch) (g : Gateway) (r : Request) : Gateway * gw_outcome :=
  let bearer := extractBearer r.(req_Authorization) in
  if bearer =s "" then (g, writeUnauthorized r "missing bearer token")
  else match g.(gw_tokenResolver) with
  | None => jwtMiddleware (now e 0) fetch g r bearer
  | Some s =>
      let '(s, res) := resolve_bearer (later 1 e) s bearer in
      let g := mkGateway g.(gw_router) (Some s) in
      match res with
      | (_, Some err) => (g, writeUnauthorized r (Error_text err))
      | ((ctx, true), None) => (g, Next ctx.(APIAccessContext_Principal) ctx)
      | ((_, false), None) => jwtMiddleware (now e 0) fetch g r bearer
      end
  end.

End Gateway.
