(* ===== verification/AuthProps.v ===== *)
(** What the bearer middleware of [Auth] lets through, over whole runs of
    requests: the tokens of this server against the interface
    [BearerSpec], which the access service discharges, and the tokens of the
    configured identity providers, with the cache of their keys. *)
From S2P Require Import Prelude GoStrings GoCrypto Models DataObj AccessState AccessObjects AccessService.
From S2P Require Import AccessInv Auth.

(** ** The interface to the access service *)

(** What a resolver of opaque tokens promises: on a state that is well
    formed, a context it hands out belongs to a live token with that secret,
    and the state stays well formed. *)
Class BearerSpec (S : Type) `{OpaqueTokenResolver S} := {
  bearer_wf : S → Prop;
  bearer_live : Env → S → string → APIAccessContext → Prop;
  resolve_sound : ∀ e s raw s' ctx, bearer_wf s → resolve_bearer e s raw = (s', ok (ctx, true)) →
    bearer_live e s raw ctx;
  resolve_wf : ∀ e s raw, bearer_wf s → bearer_wf (resolve_bearer e s raw).1
}.

Section AccessService.
Context `{Postgres, GoRange, Bcrypt}.
Context (mcpStore : option (string → ret (list AccessTokenMCPServer))).

#[export] Instance access_resolver : OpaqueTokenResolver Store := λ e s raw, ResolveBearer mcpStore e s raw.

(** The context of a live token: its owner, its scopes and nothing else. *)
Definition context_of_live (e : Env) (s : Store) (raw : string) (ctx : APIAccessContext) : Prop :=
  ∃ tok, live_token e s raw tok ∧ ctx.(APIAccessContext_AccessToken) = Some tok
    ∧ ctx.(APIAccessContext_TokenID) = tok.(AccessToken_ID)
    ∧ ctx.(APIAccessContext_Principal) = tokenPrincipal tok
    ∧ ctx.(APIAccessContext_AllowedStorage)
      = List.filter (λ sc, sc.(AccessTokenStorage_TokenID) =s tok.(AccessToken_ID)) s.(s_tokenScopes).

Lemma ResolveBearer_live e s raw s' ctx : store_wf s →
  ResolveBearer mcpStore e s raw = (s', ok (ctx, true)) → context_of_live e s raw ctx.
Proof.
  intros Hwf. unfold ResolveBearer. pose proof (ResolveToken_iff (λ r, r) e s raw) as Hiff.
  destruct (ResolveToken e s raw) as [s1 [[[tok scopes] [|]] [err|]]]; try done.
  destruct (proj1 (Hiff tok scopes Hwf) eq_refl) as [Hlive ->].
  destruct (TokenObjects _ _) as [objs [err|]]; [done|].
  destruct mcpStore as [load|]; [|intros [= _ <-]; by exists tok].
  destruct (load _) as [mcp [err|]]; [done|]. intros [= _ <-]. by exists tok.
Qed.

Lemma ResolveBearer_wf e s raw : store_wf s → store_wf (ResolveBearer mcpStore e s raw).1.
Proof.
  intros Hwf. pose proof (ResolveToken_wf e s raw Hwf) as Hwf1. unfold ResolveBearer.
  destruct (ResolveToken e s raw) as [s1 [[[tok scopes] [|]] [err|]]]; try done.
  destruct (TokenObjects _ _) as [objs [err|]]; [done|].
  destruct mcpStore as [load|]; [|done]. by destruct (load _) as [mcp [err|]].
Qed.

#[export] Instance access_bearer : BearerSpec Store := {|
  bearer_wf := store_wf;
  bearer_live := context_of_live;
  resolve_sound := ResolveBearer_live;
  resolve_wf := ResolveBearer_wf
|}.
End AccessService.

(** ** Runs of the gateway *)

Section Gateway.
Context (unicode_lower unicode_fold : Z → Z).
Context (url_parse : string → option URL) (ip_is_loopback : string → bool) (quote : string → string).
Context `{JWT}.
Context (cfg : GatewayConfig).
Context {S : Type} `{BearerSpec S}.
Implicit Types (g : Gateway (S := S)).

(** One request with what it reads. *)
Record gw_call := mkGwCall { gc_env : Env; gc_fetch : Fetch; gc_req : Request }.

Definition pass (c : gw_call) g : Gateway * gw_outcome :=
  Middleware unicode_lower unicode_fold url_parse ip_is_loopback quote cfg
    c.(gc_env) c.(gc_fetch) g c.(gc_req).

(** The gateway after the requests, in order. *)
Fixpoint passed (cs : list gw_call) g : Gateway :=
  match cs with [] => g | c :: cs' => passed cs' (pass c g).1 end.

(** ** Keys *)

(** One of the requests fetched the keys from the URL configured for the issuer. *)
Definition fetched (cs : list gw_call) (issuer : string) (k : Keyfunc) : Prop :=
  ∃ c p, c ∈ cs ∧ providerByIssuer cfg issuer = inl p ∧ p.(Provider_JWKSURL) ≠ ""
    ∧ p.(Provider_JWKSURL) ≠ "insecure" ∧ c.(gc_fetch) p.(Provider_JWKSURL) = inl k.

Definition keys_fetched (cs : list gw_call) (r : ProviderRouter) : Prop :=
  ∀ issuer k, r.(verifier) !! issuer = Some k → fetched cs issuer k.

Definition resolver_wf g : Prop := ∀ s, g.(gw_tokenResolver) = Some s → bearer_wf s.

Lemma fetched_mono cs cs' issuer k : cs ⊆ cs' → fetched cs issuer k → fetched cs' issuer k.
Proof. intros Hsub (c & p & Hc & ?). exists c, p. split; [by apply Hsub|done]. Qed.

Lemma keyfuncByIssuer_fetched cs c r issuer : keys_fetched cs r →
  let '(r', res) := keyfuncByIssuer quote cfg c.(gc_fetch) r issuer in
  keys_fetched (cs ++ [c]) r' ∧ ∀ k, res = inl k → fetched (cs ++ [c]) issuer k.
Proof.
  intros Hr. assert (Hr' : keys_fetched (cs ++ [c]) r).
  { intros iss k Hk. eapply fetched_mono; [|by apply Hr]. set_solver. }
  unfold keyfuncByIssuer. destruct (verifier r !! issuer) as [k0|] eqn:Hv.
  { split; [done|]. intros k [= <-]. by apply Hr'. }
  destruct (providerByIssuer cfg issuer) as [p|err] eqn:Hp; [|done].
  destruct (String.eqb_spec (Provider_JWKSURL p) "") as [|Hne]; [done|].
  destruct (String.eqb_spec (Provider_JWKSURL p) "insecure") as [|Hsec]; [done|].
  destruct (gc_fetch c (Provider_JWKSURL p)) as [k0|err] eqn:Hf; [|done].
  assert (Hnew : fetched (cs ++ [c]) issuer k0).
  { exists c, p. split_and!; try done. apply elem_of_app. right. by constructor. }
  split; [|by intros k [= <-]]. intros iss k. cbn. rewrite lookup_insert_Some.
  intros [[<- <-]|[_ Hk]]; [done|by apply Hr'].
Qed.

(** ** Accepted claims *)

(** The claims were signed with the keys of the issuer they name, and are
    meant for the audience configured for it. *)
Definition signed (cs : list gw_call) (t : Time) (raw : string) (claims : tokenClaims) : Prop :=
  ∃ k v, fetched cs claims.(claims_Issuer) k
    ∧ ParseWithClaims t raw k claims.(claims_Issuer) leeway = ok v ∧ claims = spreadScope v
    ∧ let aud := audienceByIssuer cfg claims.(claims_Issuer) in aud = "" ∨ aud ∈ claims.(claims_Audience).

(** The development exception: a provider whose keys are not checked. *)
Definition unsigned_dev (raw : string) (claims : tokenClaims) : Prop :=
  cfg.(gw_DevMode) = true ∧ ∃ p u, providerByIssuer cfg claims.(claims_Issuer) = inl p
    ∧ p.(Provider_JWKSURL) = "insecure" ∧ ParseUnverified raw = ok u ∧ claims = spreadScope u.

Lemma spreadScope_issuer c : (spreadScope c).(claims_Issuer) = c.(claims_Issuer).
Proof. unfold spreadScope. by destruct (_ && _). Qed.
Lemma spreadScope_audience c : (spreadScope c).(claims_Audience) = c.(claims_Audience).
Proof. unfold spreadScope. by destruct (_ && _). Qed.

Lemma hasAudience_elem auds a : hasAudience auds a = true → a ∈ auds.
Proof. intros (x & Hx & ->%String.eqb_eq)%existsb_elem_of. done. Qed.

Lemma VerifyAndParseClaims_sound cs c t r raw : jwt_checks_issuer → keys_fetched cs r →
  let '(r', res) := VerifyAndParseClaims quote cfg t c.(gc_fetch) r raw in
  keys_fetched (cs ++ [c]) r' ∧
  ∀ claims, res = ok claims → signed (cs ++ [c]) t raw claims ∨ unsigned_dev raw claims.
Proof.
  intros Hjwt Hr. assert (Hr' : keys_fetched (cs ++ [c]) r).
  { intros iss k Hk. eapply fetched_mono; [|by apply Hr]. set_solver. }
  unfold VerifyAndParseClaims. destruct (ParseUnverified raw) as [u [err|]] eqn:Hu; [by split|].
  destruct (claims_Issuer u =s ""); [by split|].
  destruct (match providerByIssuer cfg (claims_Issuer u) with inl p => _ | inr _ => _ end) eqn:Hsec.
  - destruct (providerByIssuer cfg (claims_Issuer u)) as [p|] eqn:Hp; [|done]. apply String.eqb_eq in Hsec.
    destruct (gw_DevMode cfg) eqn:Hdev; [|by split]. split; [done|]. intros claims [= <-]. right.
    split; [done|]. exists p, u. by rewrite spreadScope_issuer.
  - apply keyfuncByIssuer_fetched with (c := c) (issuer := claims_Issuer u) in Hr.
    destruct (keyfuncByIssuer _ _ _ _ _) as [r1 [k|err]]; [|by destruct Hr]. destruct Hr as [Hr1 Hk].
    destruct (ParseWithClaims _ _ _ _ _) as [v [err|]] eqn:Hv; [by split|].
    destruct (_ && _) eqn:Haud; [by split|]. split; [done|]. intros claims [= <-]. left.
    pose proof (Hjwt _ _ _ _ _ _ Hv) as Hiss. exists k, v. rewrite spreadScope_issuer, spreadScope_audience, Hiss.
    split_and!; [by apply Hk|done|done|]. apply andb_false_iff in Haud as [Haud|Haud].
    + left. by apply negb_false_iff, String.eqb_eq in Haud.
    + right. by apply hasAudience_elem, negb_false_iff.
Qed.

Lemma jwtMiddleware_sound cs c t g bearer : jwt_checks_issuer → keys_fetched cs g.(gw_router) →
  let '(g', out) := jwtMiddleware unicode_lower unicode_fold url_parse ip_is_loopback quote cfg
                      t c.(gc_fetch) g c.(gc_req) bearer in
  keys_fetched (cs ++ [c]) g'.(gw_router) ∧ g'.(gw_tokenResolver) = g.(gw_tokenResolver) ∧
  ∀ p ctx, out = Next p ctx → ∃ claims,
    (signed (cs ++ [c]) t bearer claims ∨ unsigned_dev bearer claims)
    ∧ ToPrincipal unicode_fold cfg claims = ok p ∧ ctx.(APIAccessContext_Principal) = p
    ∧ ctx.(APIAccessContext_AccessToken) = None.
Proof.
  intros Hjwt Hk. unfold jwtMiddleware.
  pose proof (VerifyAndParseClaims_sound cs c t g.(gw_router) bearer Hjwt Hk) as Hs.
  destruct (VerifyAndParseClaims _ _ _ _ _ _) as [r' [claims [err|]]]; destruct Hs as [Hk' Hs]; [done|].
  destruct (ToPrincipal _ _ claims) as [p0 [err|]] eqn:Hp; [done|]. split_and!; [done..|].
  intros p ctx [= <- <-]. exists claims. split_and!; [by apply Hs|done..].
Qed.

(** What holds of a gateway after some requests. *)
Definition gw_inv (cs : list gw_call) g : Prop := keys_fetched cs g.(gw_router) ∧ resolver_wf g.

(** Why a request was let through. *)
Definition authentic (cs : list gw_call) (c : gw_call) g (p : Principal) (ctx : APIAccessContext) : Prop :=
  let bearer := extractBearer unicode_fold c.(gc_req).(req_Authorization) in
  p = ctx.(APIAccessContext_Principal) ∧
  ((∃ s, g.(gw_tokenResolver) = Some s ∧ bearer_live (later 1 c.(gc_env)) s bearer ctx)
   ∨ (∃ claims, ToPrincipal unicode_fold cfg claims = ok p ∧ ctx.(APIAccessContext_AccessToken) = None
       ∧ (signed (cs ++ [c]) (now c.(gc_env) 0) bearer claims ∨ unsigned_dev bearer claims))).

Lemma pass_sound cs c g : jwt_checks_issuer → gw_inv cs g →
  gw_inv (cs ++ [c]) (pass c g).1 ∧
  ∀ p ctx, (pass c g).2 = Next p ctx → authentic cs c g p ctx.
Proof.
  intros Hjwt [Hk Hwf]. unfold pass, Middleware, authentic. set (bearer := extractBearer _ _).
  assert (Hk' : keys_fetched (cs ++ [c]) g.(gw_router)).
  { intros iss k Hl. eapply fetched_mono; [|by apply Hk]. set_solver. }
  destruct (bearer =s ""); [done|].
  destruct (gw_tokenResolver g) as [s|] eqn:Hs.
  - destruct (resolve_bearer _ s bearer) as [s' [[ctx0 [|]] [err|]]] eqn:Hr.
    all: assert (Hs' : bearer_wf s') by (replace s' with (resolve_bearer (later 1 (gc_env c)) s bearer).1
           by (by rewrite Hr); apply resolve_wf; auto).
    1, 3: split; [split; [done|by intros x [= <-]]|done].
    { split; [split; [done|by intros x [= <-]]|]. intros p ctx [= <- <-]. split; [done|]. left.
      exists s. split; [done|]. eapply resolve_sound; [by auto|done]. }
    pose proof (jwtMiddleware_sound cs c (now (gc_env c) 0) (mkGateway (gw_router g) (Some s')) bearer Hjwt Hk) as Hj.
    destruct (jwtMiddleware _ _ _ _ _ _ _ _ _ _ _) as [g' out]. destruct Hj as (Hk1 & Hres & Hj). cbn [fst snd].
    split; [split; [done|]; intros x; rewrite Hres; by intros [= <-]|].
    intros p ctx Ho. destruct (Hj p ctx Ho) as (claims & ? & ? & ? & ?). split; [done|]. right. by exists claims.
  - pose proof (jwtMiddleware_sound cs c (now (gc_env c) 0) g bearer Hjwt Hk) as Hj.
    destruct (jwtMiddleware _ _ _ _ _ _ _ _ _ _ _) as [g' out]. destruct Hj as (Hk1 & Hres & Hj). cbn [fst snd].
    split; [split; [done|]; intros x; by rewrite Hres, Hs|].
    intros p ctx Ho. destruct (Hj p ctx Ho) as (claims & ? & ? & ? & ?). split; [done|]. right. by exists claims.
Qed.

Lemma passed_inv cs cs0 g : jwt_checks_issuer → gw_inv cs0 g → gw_inv (cs0 ++ cs) (passed cs g).
Proof.
  intros Hjwt. revert cs0 g. induction cs as [|c cs IH]; intros cs0 g Hinv; [by rewrite app_nil_r|].
  cbn. rewrite (assoc_L (++) cs0 [c] cs : cs0 ++ c :: cs = (cs0 ++ [c]) ++ cs). apply IH.
  by apply pass_sound.
Qed.

(** C9. Nobody gets past the gateway without proof of identity. After any
    requests, a request is let through only with a bearer that is the secret
    of a live token of this server, whose owner and scopes become the
    caller's, or that is a JWT whose signature checks against keys that were
    fetched from the URL configured for the very issuer it names, for the
    audience configured for that issuer, the caller being the principal of
    its claims. There is one exception, [unsigned_dev]: in a server in
    development mode the claims of a JWT whose issuer is configured with the
    key URL [insecure] are taken as they are, signed or not. *)
Theorem gateway_authentic (s : S) cs c p ctx :
  jwt_checks_issuer → bearer_wf s →
  let g := passed cs (SetOpaqueTokenResolver NewGateway s) in
  (pass c g).2 = Next p ctx → authentic cs c g p ctx.
Proof.
  intros Hjwt Hs. apply pass_sound; [done|]. apply (passed_inv cs []); [done|]. split; [done|].
  by intros x [= <-].
Qed.
End Gateway.

(** ** Witness *)

Section Witness.
#[local] Existing Instance canonical_range.
#[local] Existing Instance no_postgres.
#[local] Instance wg_bcrypt : Bcrypt := {| bcrypt_generate := λ _ pw, ok pw; bcrypt_matches := String.eqb |}.
#[local] Instance wg_jwt : JWT := {|
  Keyfunc := string;
  ParseUnverified := λ _, ok ((zeroval : tokenClaims) <| claims_Issuer := "https://idp" |>);
  ParseWithClaims := λ _ _ k issuer _,
    if k =s "key" then ok ((zeroval : tokenClaims) <| claims_Issuer := issuer |> <| claims_Subject := "alice" |>)
    else fails zeroval (NewError "signature is invalid")
|}.
#[local] Existing Instance access_resolver.

Lemma wg_checks_issuer : jwt_checks_issuer.
Proof. intros t raw k issuer lw c. cbn. destruct (k =s "key"); [by intros [= <-]|done]. Qed.

Definition wg_id (r : Z) : Z := r.
Definition wg_cfg : GatewayConfig :=
  mkGatewayConfig [mkProviderConfig "idp" "https://idp" "" "https://idp/jwks" "" ""] []
    (mkTeleportConfig false "" "") [] false "".
Definition wg_call : gw_call :=
  mkGwCall (mkEnv (λ _, 100%Z) (λ _, "uuid") (λ _, Some "x")) (λ _, inl "key") (mkRequest "Bearer abc" "" "" "" false).
Definition wg_store : Store := NewInMemoryStore tt.
Definition wg_gateway : Gateway := SetOpaqueTokenResolver NewGateway wg_store.
Definition wg_pass : gw_call → Gateway → Gateway * gw_outcome :=
  pass wg_id wg_id (λ _, None) (λ _, false) (λ s, s) wg_cfg (S := Store) (H0 := access_resolver None).

(** A second request of the same caller, answered with the cached keys. *)
Lemma gateway_authentic_witness :
  match (wg_pass wg_call (wg_pass wg_call wg_gateway).1).2 with
  | Next p ctx => p.(Principal_UserID) = "alice" ∧
      authentic wg_id wg_cfg (S := Store) (H0 := access_resolver None) (H1 := access_bearer None)
        [wg_call] wg_call (wg_pass wg_call wg_gateway).1 p ctx
  | _ => False
  end.
Proof.
  destruct (wg_pass wg_call (wg_pass wg_call wg_gateway).1).2 as [| |p ctx] eqn:Hout;
    [vm_compute in Hout; discriminate Hout..|].
  split; [vm_compute in Hout; injection Hout as <- _; reflexivity|].
  apply (gateway_authentic wg_id wg_id (λ _, None) (λ _, false) (λ s, s) wg_cfg (S := Store)
    (H0 := access_resolver None) (H1 := access_bearer None) wg_store [wg_call] wg_call p ctx);
    [exact wg_checks_issuer|apply NewInMemoryStore_wf|exact Hout].
Defined.
End Witness.
