(* ===== verification/OAuth.v ===== *)
(** [internal/auth/oauthas]: the OAuth 2.1 authorization server that mints
    access tokens for MCP clients. [store.go] (clients, authorization codes,
    refresh tokens, login sessions; in memory or in Postgres), [pkce.go], and
    the handlers of [server.go] that register clients, log users in and
    exchange codes and refresh tokens. The access store is the one of
    [AccessState].

    Parameters: the database ([OAuthDB]), [url.Parse] of the standard
    library as the parts of a URL the code looks at, the environment
    variables, and what an external identity provider answers in
    [oidcCallback] (a principal or an error). *)
From S2P Require Import Prelude GoStrings GoCrypto Models DataObj AccessState AccessObjects AccessService.

(** ** Records *)

Record Client := mkClient {
  Client_ClientID : string;
  Client_ClientSecretHash : string;
  Client_ClientName : string;
  Client_RedirectURIs : list string;
  Client_TokenEndpointAuthMethod : string;
  Client_CreatedAt : Time
}.
#[export] Instance settable_Client : Settable Client := λ c,
  mkClient c.(Client_ClientID) c.(Client_ClientSecretHash) c.(Client_ClientName) c.(Client_RedirectURIs)
    c.(Client_TokenEndpointAuthMethod) c.(Client_CreatedAt).
#[export] Instance zero_Client : Zero Client := mkClient "" "" "" [] "" 0.

Record AuthorizationCode := mkAuthorizationCode {
  Code_Code : string;
  Code_ClientID : string;
  Code_SubjectKey : string;
  Code_Principal : Principal;
  Code_RedirectURI : string;
  Code_Scope : string;
  Code_CodeChallenge : string;
  Code_CodeChallengeMethod : string;
  Code_ExpiresAt : Time;
  Code_UsedAt : option Time;
  Code_CreatedAt : Time
}.
#[export] Instance settable_AuthorizationCode : Settable AuthorizationCode := λ c,
  mkAuthorizationCode c.(Code_Code) c.(Code_ClientID) c.(Code_SubjectKey) c.(Code_Principal) c.(Code_RedirectURI)
    c.(Code_Scope) c.(Code_CodeChallenge) c.(Code_CodeChallengeMethod) c.(Code_ExpiresAt) c.(Code_UsedAt)
    c.(Code_CreatedAt).
#[export] Instance zero_AuthorizationCode : Zero AuthorizationCode :=
  mkAuthorizationCode "" "" "" zeroval "" "" "" "" 0 None 0.

Record RefreshToken := mkRefreshToken {
  Refresh_TokenHash : string;
  Refresh_ClientID : string;
  Refresh_SubjectKey : string;
  Refresh_AccessTokenID : string;
  Refresh_ExpiresAt : Time;
  Refresh_RevokedAt : option Time;
  Refresh_CreatedAt : Time
}.
#[export] Instance settable_RefreshToken : Settable RefreshToken := λ t,
  mkRefreshToken t.(Refresh_TokenHash) t.(Refresh_ClientID) t.(Refresh_SubjectKey) t.(Refresh_AccessTokenID)
    t.(Refresh_ExpiresAt) t.(Refresh_RevokedAt) t.(Refresh_CreatedAt).
#[export] Instance zero_RefreshToken : Zero RefreshToken := mkRefreshToken "" "" "" "" 0 None 0.

Record LoginSession := mkLoginSession {
  Login_ID : string;
  Login_ClientID : string;
  Login_RedirectURI : string;
  Login_Scope : string;
  Login_State : string;
  Login_CodeChallenge : string;
  Login_CodeChallengeMethod : string;
  Login_ProviderName : string;
  Login_ExpiresAt : Time;
  Login_CreatedAt : Time
}.
#[export] Instance settable_LoginSession : Settable LoginSession := λ l,
  mkLoginSession l.(Login_ID) l.(Login_ClientID) l.(Login_RedirectURI) l.(Login_Scope) l.(Login_State)
    l.(Login_CodeChallenge) l.(Login_CodeChallengeMethod) l.(Login_ProviderName) l.(Login_ExpiresAt)
    l.(Login_CreatedAt).
#[export] Instance zero_LoginSession : Zero LoginSession := mkLoginSession "" "" "" "" "" "" "" "" 0 0.

(** ** The store (store.go) *)

Inductive oauth_stmt :=
| InsertClient (c : Client)
| InsertCode (c : AuthorizationCode)
| MarkCodeUsed (at_ : Time) (code : string)
| InsertRefresh (t : RefreshToken)
| MarkRefreshRevoked (at_ : Time) (hash : string)
| UpsertLogin (l : LoginSession)
| DeleteLogin (id : string).

Class OAuthDB := {
  OD : Type;
  od_exec : oauth_stmt → OD → OD * option error;
  od_begin : OD → option error;
  od_commit : OD → option error;
  od_client : string → OD → ret (option Client);
  od_code : string → OD → ret (option AuthorizationCode);
  od_refresh : string → OD → ret (option RefreshToken);
  od_login : string → OD → ret (option LoginSession)
}.

Record OStore `{OAuthDB} := mkOStore {
  o_clients : gmap string Client;
  o_codes : gmap string AuthorizationCode;
  o_refresh : gmap string RefreshToken;
  o_logins : gmap string LoginSession;
  o_db : OD;
  o_useDB : bool
}.
#[export] Instance settable_OStore `{OAuthDB} : Settable OStore := λ o,
  mkOStore _ o.(o_clients) o.(o_codes) o.(o_refresh) o.(o_logins) o.(o_db) o.(o_useDB).

Section Store.
Context `{OAuthDB}.
Implicit Types (o : OStore) (e : Env).

Definition NewInMemoryOStore (d : OD) : OStore := mkOStore _ ∅ ∅ ∅ ∅ d false.

Definition o_exec o (q : oauth_stmt) : OStore * option error :=
  let '(d, err) := od_exec q o.(o_db) in (o <| o_db := d |>, err).

Definition CreateClient e o (c : Client) : OStore * ret Client :=
  let c := if c.(Client_ClientID) =s "" then c <| Client_ClientID := uuid e 0 |> else c in
  let c := if c.(Client_TokenEndpointAuthMethod) =s ""
           then c <| Client_TokenEndpointAuthMethod := "none" |> else c in
  let c := c <| Client_CreatedAt := now e 0 |> in
  if o.(o_useDB) then let '(o, err) := o_exec o (InsertClient c) in (o, (c, err))
  else (o <| o_clients := <[c.(Client_ClientID) := c]> o.(o_clients) |>, ok c).

Definition GetClient o (clientID : string) : ret (option Client) :=
  if o.(o_useDB) then od_client clientID o.(o_db) else ok (o.(o_clients) !! clientID).

Definition SaveAuthorizationCode (t : Time) o (code : AuthorizationCode) : OStore * option error :=
  let code := if IsZero code.(Code_CreatedAt) then code <| Code_CreatedAt := t |> else code in
  if o.(o_useDB) then o_exec o (InsertCode code)
  else (o <| o_codes := <[code.(Code_Code) := code]> o.(o_codes) |>, None).

Definition errInvalidCode : error := NewError "invalid authorization code".
Definition errCodeUsed : error := NewError "authorization code already used".
Definition errCodeExpired : error := NewError "authorization code expired".

Definition ConsumeAuthorizationCode (t : Time) o (rawCode : string) : OStore * ret AuthorizationCode :=
  if o.(o_useDB) then
    match od_begin o.(o_db) with
    | Some err => (o, fails zeroval err)
    | None =>
        match od_code rawCode o.(o_db) with
        | (_, Some err) => (o, fails zeroval err)
        | (None, None) => (o, fails zeroval errInvalidCode)
        | (Some code, None) =>
            if bool_decide (is_Some code.(Code_UsedAt)) then (o, fails zeroval errCodeUsed)
            else if After t code.(Code_ExpiresAt) then (o, fails zeroval errCodeExpired)
            else match od_exec (MarkCodeUsed t rawCode) o.(o_db) with
            | (_, Some err) => (o, fails zeroval err)
            | (d, None) =>
                let code := code <| Code_UsedAt := Some t |> in
                match od_commit d with
                | Some err => (o, (code, Some err))
                | None => (o <| o_db := d |>, ok code)
                end
            end
        end
    end
  else
    match o.(o_codes) !! rawCode with
    | None => (o, fails zeroval errInvalidCode)
    | Some code =>
        if bool_decide (is_Some code.(Code_UsedAt)) then (o, fails zeroval errCodeUsed)
        else if After t code.(Code_ExpiresAt) then (o, fails zeroval errCodeExpired)
        else
          let code := code <| Code_UsedAt := Some t |> in
          (o <| o_codes := <[rawCode := code]> o.(o_codes) |>, ok code)
    end.

Definition SaveRefreshToken (t : Time) o (token : RefreshToken) : OStore * option error :=
  let token := if IsZero token.(Refresh_CreatedAt) then token <| Refresh_CreatedAt := t |> else token in
  if o.(o_useDB) then o_exec o (InsertRefresh token)
  else (o <| o_refresh := <[token.(Refresh_TokenHash) := token]> o.(o_refresh) |>, None).

Definition errInvalidRefresh : error := NewError "invalid refresh token".
Definition errRefreshRevoked : error := NewError "refresh token revoked".
Definition errRefreshExpired : error := NewError "refresh token expired".

Definition ConsumeRefreshToken (t : Time) o (tokenHash : string) : OStore * ret RefreshToken :=
  if o.(o_useDB) then
    match od_begin o.(o_db) with
    | Some err => (o, fails zeroval err)
    | None =>
        match od_refresh tokenHash o.(o_db) with
        | (_, Some err) => (o, fails zeroval err)
        | (None, None) => (o, fails zeroval errInvalidRefresh)
        | (Some tok, None) =>
            if bool_decide (is_Some tok.(Refresh_RevokedAt)) then (o, fails zeroval errRefreshRevoked)
            else if After t tok.(Refresh_ExpiresAt) then (o, fails zeroval errRefreshExpired)
            else match od_exec (MarkRefreshRevoked t tokenHash) o.(o_db) with
            | (_, Some err) => (o, fails zeroval err)
            | (d, None) =>
                let tok := tok <| Refresh_RevokedAt := Some t |> in
                match od_commit d with
                | Some err => (o, (tok, Some err))
                | None => (o <| o_db := d |>, ok tok)
                end
            end
        end
    end
  else
    match o.(o_refresh) !! tokenHash with
    | None => (o, fails zeroval errInvalidRefresh)
    | Some tok =>
        if bool_decide (is_Some tok.(Refresh_RevokedAt)) then (o, fails zeroval errRefreshRevoked)
        else if After t tok.(Refresh_ExpiresAt) then (o, fails zeroval errRefreshExpired)
        else
          let tok := tok <| Refresh_RevokedAt := Some t |> in
          (o <| o_refresh := <[tokenHash := tok]> o.(o_refresh) |>, ok tok)
    end.

Definition SaveLoginSession e o (sess : LoginSession) : OStore * ret LoginSession :=
  let sess := if sess.(Login_ID) =s "" then sess <| Login_ID := uuid e 0 |> else sess in
  let sess := if IsZero sess.(Login_CreatedAt) then sess <| Login_CreatedAt := now e 0 |> else sess in
  if o.(o_useDB) then let '(o, err) := o_exec o (UpsertLogin sess) in (o, (sess, err))
  else (o <| o_logins := <[sess.(Login_ID) := sess]> o.(o_logins) |>, ok sess).

(** [None] for the result [false]. *)
Definition TakeLoginSession (t : Time) o (id : string) : OStore * ret (option LoginSession) :=
  if o.(o_useDB) then
    match od_begin o.(o_db) with
    | Some err => (o, fails None err)
    | None =>
        match od_login id o.(o_db) with
        | (_, Some err) => (o, fails None err)
        | (None, None) => (o, ok None)
        | (Some sess, None) =>
            match od_exec (DeleteLogin id) o.(o_db) with
            | (_, Some err) => (o, fails None err)
            | (d, None) =>
                if After t sess.(Login_ExpiresAt) then
                  ((match od_commit d with None => o <| o_db := d |> | Some _ => o end), ok None)
                else match od_commit d with
                | Some err => (o, (Some sess, Some err))
                | None => (o <| o_db := d |>, ok (Some sess))
                end
            end
        end
    end
  else
    match o.(o_logins) !! id with
    | None => (o, ok None)
    | Some sess =>
        let o := o <| o_logins := delete id o.(o_logins) |> in
        if After t sess.(Login_ExpiresAt) then (o, ok None) else (o, ok (Some sess))
    end.

Definition GetLoginSession (t : Time) o (id : string) : ret (option LoginSession) :=
  if o.(o_useDB) then
    match od_login id o.(o_db) with
    | (_, Some err) => fails None err
    | (None, None) => ok None
    | (Some sess, None) => if After t sess.(Login_ExpiresAt) then ok None else ok (Some sess)
    end
  else match o.(o_logins) !! id with
  | None => ok None
  | Some sess => if After t sess.(Login_ExpiresAt) then ok None else ok (Some sess)
  end.

End Store.

Definition RandomURLToken (e : Env) : ret string :=
  match rnd e 0 with
  | None => fails "" (NewError "rand")
  | Some buf => ok (b64_encode buf)
  end.

Definition HashOpaque (raw : string) : string := hex_encode (Sum256 raw).
