(* ===== verification/OAuthServer.v ===== *)
(** [internal/auth/oauthas]: [pkce.go] and the handlers of [server.go] over
    the store of [OAuth] and the access store. A request is its decoded form;
    a response carries what the handler writes. *)
From S2P Require Import Prelude GoStrings GoCrypto Models DataObj AccessState AccessObjects AccessService Auth OAuth.
From Stdlib Require Import Ascii.

(** ** pkce.go *)

Definition VerifyPKCES256 (codeVerifier codeChallenge : string) : bool :=
  if (codeVerifier =s "") || (codeChallenge =s "") then false
  else b64_encode (Sum256 codeVerifier) =s codeChallenge.

(** A single trailing '*' is a wildcard. *)
Definition matchSimpleGlob (pattern value : string) : bool :=
  if pattern =s "*" then true
  else if HasSuffix pattern "*" then HasPrefix value (TrimSuffix pattern "*")
  else pattern =s value.

Definition matchPatterns (value : string) (patterns : list string) : bool :=
  match patterns with
  | [] => true
  | _ => existsb (λ pattern, matchSimpleGlob pattern value) patterns
  end.

Definition ClientHasRedirectURI (client : Client) (redirectURI : string) : bool :=
  existsb (λ uri, uri =s redirectURI) client.(Client_RedirectURIs).

(** ** Configuration, requests, responses *)

Record OAuthConfig := mkOAuthConfig {
  cfg_PublicBaseURL : string;
  cfg_Providers : list ProviderConfig;
  cfg_AuthorizationCodeTTLSeconds : Z;
  cfg_AccessTokenTTLHours : Z;
  cfg_RefreshTokenTTLHours : Z;
  cfg_DefaultTokenMode : string;
  cfg_AllowedRedirectURIPatterns : list string;
  cfg_AdminEnabled : bool;
  cfg_AdminUsername : string;
  cfg_AdminPasswordEnvRef : string;
  cfg_S3Bucket : string
}.

Inductive oauth_req :=
| ReqRegister (redirectURIs : list string) (clientName method : string)
| ReqAuthorize (clientID redirectURI responseType state scope challenge method : string)
| ReqLogin (sessionID username password : string)
| ReqOIDCStart (sessionID provider : string)
| ReqCallback (sessionID code : string)
| ReqTokenCode (code redirectURI clientID verifier : string)
| ReqTokenRefresh (refresh clientID : string)
| ReqTokenOther.

Record TokenResponse := mkTokenResponse {
  TR_access_token : string;
  TR_expires_in : Z;
  TR_refresh_token : string;
  TR_scope : string
}.

Inductive oauth_resp :=
| RespError (status : Z) (code desc : string)
| RespText (status : Z) (text : string)
| RespClient (c : Client)
| RespLogin (sessionID : string) (client : Client) (errMsg : string)
| RespRedirect (status : Z) (url : string) (query : list (string * string))
| RespTokens (t : TokenResponse).

Section Server.
Context `{Postgres, GoRange, Bcrypt, OAuthDB, JWT}.
Context (unicode_lower unicode_fold : Z → Z) (quote : string → string).
Context (url_parse : string → option URL) (ip_is_loopback : string → bool) (getenv : string → string).
(** [json.Unmarshal] of a token response: its [id_token] and [access_token]. *)
Context (token_json : string → (string * string) + error).
(** The server's configuration, and the one of the provider router. *)
Context (cfg : OAuthConfig) (gcfg : GatewayConfig).

(** What one request reads from the network: the JWKS documents, and what a
    token endpoint answers to a form (status code, status line, body). *)
Record Net := mkNet {
  net_fetch : Fetch;
  net_post : string → list (string * string) → (Z * string * string) + error
}.

Record OState := mkOState { os_store : OStore; os_access : option Store; os_router : ProviderRouter }.
#[export] Instance settable_OState : Settable OState := λ st,
  mkOState st.(os_store) st.(os_access) st.(os_router).
Implicit Types (st : OState).

Definition RedirectURIAllowed (redirectURI : string) (registered patterns : list string) : bool :=
  if redirectURI =s "" then false
  else match url_parse redirectURI with
  | None => false
  | Some u =>
      if (u.(URL_Scheme) =s "") || (u.(URL_Host) =s "") then false
      else if u.(URL_Fragment) <>s "" then false
      else
        let scheme := ToLower unicode_lower u.(URL_Scheme) in
        let host := ToLower unicode_lower u.(URL_Hostname) in
        let isLocal := (host =s "localhost") || (host =s "127.0.0.1") || (host =s "::1") in
        if (scheme <>s "https") && negb ((scheme =s "http") && isLocal) then false
        else match registered with
        | [] => matchPatterns redirectURI patterns
        | _ => if existsb (λ allowed, allowed =s redirectURI) registered
               then matchPatterns redirectURI patterns else false
        end
  end.

(** ** Handlers *)

Definition register (e : Env) st (redirectURIs : list string) (clientName method : string) : OState * oauth_resp :=
  if bool_decide (redirectURIs = []) then (st, RespError 400 "invalid_redirect_uri" "redirect_uris required")
  else match List.find (λ uri, negb (RedirectURIAllowed uri [] cfg.(cfg_AllowedRedirectURIPatterns))) redirectURIs with
  | Some uri => (st, RespError 400 "invalid_redirect_uri" ("redirect_uri not allowed: " +:+ uri))
  | None =>
      let method := if method =s "" then "none" else method in
      let '(o, r) := CreateClient e st.(os_store) (mkClient "" "" clientName redirectURIs method 0) in
      let st := st <| os_store := o |> in
      match r with
      | (_, Some err) => (st, RespError 500 "server_error" (Error_text err))
      | (client, None) => (st, RespClient client)
      end
  end.

Definition codeTTL : Duration := wrap64 (cfg.(cfg_AuthorizationCodeTTLSeconds) * Second).

Definition renderLogin (sess : LoginSession) (client : Client) (errMsg : string) : oauth_resp :=
  if sess.(Login_ID) =s "" then RespText 500 "missing login session" else RespLogin sess.(Login_ID) client errMsg.

Definition authorize (e : Env) st (clientID redirectURI responseType state scope challenge method : string)
    : OState * oauth_resp :=
  if responseType <>s "code" then (st, RespText 400 "unsupported_response_type")
  else if (method <>s "") && (method <>s "S256") then (st, RespText 400 "code_challenge_method must be S256")
  else if challenge =s "" then (st, RespText 400 "code_challenge required")
  else match GetClient st.(os_store) clientID with
  | (Some client, None) =>
      if negb (ClientHasRedirectURI client redirectURI)
         || negb (RedirectURIAllowed redirectURI client.(Client_RedirectURIs) cfg.(cfg_AllowedRedirectURIPatterns))
      then (st, RespText 400 "invalid_redirect_uri")
      else
        let '(o, r) := SaveLoginSession (later 1 e) st.(os_store)
          (mkLoginSession "" clientID redirectURI scope state challenge "S256" "" (now e 0 + codeTTL)%Z 0) in
        let st := st <| os_store := o |> in
        match r with
        | (_, Some err) => (st, RespText 500 (Error_text err))
        | (sess, None) => (st, renderLogin sess client "")
        end
  | _ => (st, RespText 400 "invalid_client")
  end.

Definition configResolveSecret (value : string) : string :=
  if HasPrefix value "env:" then getenv (TrimPrefix value "env:")
  else if HasPrefix value "$" then getenv (TrimPrefix value "$")
  else if HasPrefix value "literal:" then TrimPrefix value "literal:"
  else value.

Definition adminScopes : list string := ["platform_admin"; "admin"].

(** The principal of a stored user. *)
Definition principalOfUser (user : User) : Principal :=
  let p := (zeroval : Principal) <| Principal_UserID := user.(User_ExternalSubject) |>
             <| Principal_Email := user.(User_Email) |> <| Principal_SubjectKey := user.(User_SubjectKey) |>
             <| Principal_AuthSource := user.(User_Source) |> in
  if user.(User_SubjectKey) =s "user:internal:default-admin" then p <| Principal_Scopes := adminScopes |> else p.

Definition authenticateInternal st (username password : string) : ret Principal :=
  let expectedPassword :=
    if cfg.(cfg_AdminEnabled) then configResolveSecret cfg.(cfg_AdminPasswordEnvRef) else "" in
  if cfg.(cfg_AdminEnabled) && (expectedPassword <>s "") && (username =s cfg.(cfg_AdminUsername))
     && (password =s expectedPassword)
  then ok ((zeroval : Principal) <| Principal_UserID := "default-admin" |>
             <| Principal_Email := cfg.(cfg_AdminUsername) |>
             <| Principal_SubjectKey := "user:internal:default-admin" |>
             <| Principal_Scopes := adminScopes |> <| Principal_AuthSource := "internal" |>)
  else match st.(os_access) with
  | None => fails zeroval (NewError "invalid credentials")
  | Some a =>
      match AuthenticateUser a username password with
      | (_, Some err) => fails zeroval err
      | (None, None) => fails zeroval (NewError "invalid credentials")
      | (Some user, None) => ok (principalOfUser user)
      end
  end.

(** [env 0] is the environment of [EnsurePrincipal], [env 1 0] that of the rest. *)
Definition completeAuthorize (env : nat → nat → Env) st (sess : LoginSession) (principal : Principal)
    : OState * oauth_resp :=
  let st := match st.(os_access) with
            | None => st
            | Some a => st <| os_access := Some (EnsurePrincipal (env 0%nat) a principal cfg.(cfg_S3Bucket)).1 |>
            end in
  let e := env 1%nat 0%nat in
  match RandomURLToken e with
  | (_, Some err) => (st, RespText 500 (Error_text err))
  | (code, None) =>
      let authCode := mkAuthorizationCode code sess.(Login_ClientID) (SubjectKeyForPrincipal principal) principal
        sess.(Login_RedirectURI) sess.(Login_Scope) sess.(Login_CodeChallenge) sess.(Login_CodeChallengeMethod)
        (now e 0 + codeTTL)%Z None 0 in
      match SaveAuthorizationCode (now e 1) st.(os_store) authCode with
      | (o, Some err) => (st <| os_store := o |>, RespText 500 (Error_text err))
      | (o, None) =>
          let st := st <| os_store := o |> in
          match url_parse sess.(Login_RedirectURI) with
          | None => (st, RespText 400 "invalid redirect_uri")
          | Some _ =>
              (st, RespRedirect 303 sess.(Login_RedirectURI)
                     (("code", code) :: if sess.(Login_State) <>s "" then [("state", sess.(Login_State))] else []))
          end
      end
  end.

Definition authorizeLogin (env : nat → nat → Env) st (sessionID username password : string) : OState * oauth_resp :=
  let e := env 2%nat 0%nat in
  match GetLoginSession (now e 0) st.(os_store) sessionID with
  | (Some sess, None) =>
      match GetClient st.(os_store) sess.(Login_ClientID) with
      | (Some client, None) =>
          match authenticateInternal st (TrimSpace username) password with
          | (_, Some _) => (st, renderLogin sess client "invalid credentials")
          | (principal, None) =>
              match TakeLoginSession (now e 1) st.(os_store) sessionID with
              | (o, (_, Some err)) => (st <| os_store := o |>, RespText 500 (Error_text err))
              | (o, (_, None)) => completeAuthorize env (st <| os_store := o |>) sess principal
              end
          end
      | _ => (st, RespText 400 "invalid_client")
      end
  | _ => (st, RespText 400 "login session expired")
  end.

Definition providerByName (name : string) : option ProviderConfig :=
  List.find (λ p, EqualFold unicode_fold p.(Provider_Name) name) cfg.(cfg_Providers).

Definition oidcEndpoints (provider : ProviderConfig) : string * string :=
  let issuer := trim_right_byte "/" provider.(Provider_Issuer) in
  if EqualFold unicode_fold provider.(Provider_Name) "keycloak" || Contains issuer "/realms/"
  then (issuer +:+ "/protocol/openid-connect/auth", issuer +:+ "/protocol/openid-connect/token")
  else if Contains issuer "accounts.google.com"
  then ("https://accounts.google.com/o/oauth2/v2/auth", "https://oauth2.googleapis.com/token")
  else (issuer +:+ "/oauth2/authorize", issuer +:+ "/oauth2/token").

Definition Issuer (r : Request) : string :=
  ResolvePublicBaseURL unicode_lower url_parse ip_is_loopback cfg.(cfg_PublicBaseURL) r.

Definition authorizeOIDCStart (e : Env) (r : Request) st (sessionID providerName : string) : OState * oauth_resp :=
  match GetLoginSession (now e 0) st.(os_store) sessionID with
  | (Some sess, None) =>
      match providerByName providerName with
      | None => (st, RespText 400 "provider not configured for login")
      | Some provider =>
          if provider.(Provider_ClientID) =s "" then (st, RespText 400 "provider not configured for login")
          else
            match SaveLoginSession (later 1 e) st.(os_store)
                    (sess <| Login_ProviderName := provider.(Provider_Name) |>) with
            | (o, (_, Some err)) => (st <| os_store := o |>, RespText 500 (Error_text err))
            | (o, (_, None)) =>
                (st <| os_store := o |>,
                 RespRedirect 302 (oidcEndpoints provider).1
                   [("response_type", "code"); ("client_id", provider.(Provider_ClientID));
                    ("redirect_uri", Issuer r +:+ "/oauth/callback");
                    ("scope", "openid email profile"); ("state", sess.(Login_ID))])
            end
      end
  | _ => (st, RespText 400 "login session expired")
  end.

Definition exchangeOIDCCode (net : Net) (provider : ProviderConfig) (code redirectURI : string) : ret string :=
  let secret := ClientSecret getenv provider in
  match net.(net_post) (oidcEndpoints provider).2
          ([("grant_type", "authorization_code"); ("code", code); ("redirect_uri", redirectURI);
            ("client_id", provider.(Provider_ClientID))]
           ++ if secret <>s "" then [("client_secret", secret)] else []) with
  | inr err => fails "" err
  | inl (code, status, body) =>
      if ((code <? 200) || (300 <=? code))%Z then fails "" (NewError ("oidc token exchange failed: " +:+ status))
      else match token_json body with
      | inr err => fails "" err
      | inl (id_token, access_token) =>
          if id_token <>s "" then ok id_token
          else if access_token <>s "" then ok access_token
          else fails "" (NewError "oidc token response missing id_token")
      end
  end.

Definition oidcCallback (env : nat → nat → Env) (net : Net) (r : Request) st (sessionID code : string)
    : OState * oauth_resp :=
  if (sessionID =s "") || (code =s "") then (st, RespText 400 "missing code/state")
  else match TakeLoginSession (now (env 2%nat 0%nat) 0) st.(os_store) sessionID with
  | (o, (Some sess, None)) =>
      let st := st <| os_store := o |> in
      match providerByName sess.(Login_ProviderName) with
      | None => (st, RespText 400 "unknown provider")
      | Some provider =>
          match exchangeOIDCCode net provider code (Issuer r +:+ "/oauth/callback") with
          | (_, Some err) => (st, RespText 400 (Error_text err))
          | (rawIDToken, None) =>
              let '(router, res) :=
                VerifyAndParseClaims quote gcfg (now (env 2%nat 0%nat) 1) net.(net_fetch) st.(os_router) rawIDToken in
              let st := st <| os_router := router |> in
              match res with
              | (_, Some err) => (st, RespText 400 ("invalid id token: " +:+ Error_text err))
              | (claims, None) =>
                  match ToPrincipal unicode_fold gcfg claims with
                  | (_, Some err) => (st, RespText 403 (Error_text err))
                  | (principal, None) => completeAuthorize env st sess principal
                  end
              end
          end
      end
  | (o, _) => (st <| os_store := o |>, RespText 400 "login session expired")
  end.

(** ** The token endpoint *)

Definition mintTokens (env : nat → nat → Env) st (principal : Principal) (clientID scope : string)
    : OState * ret TokenResponse :=
  let failed st err := (st, fails (mkTokenResponse "" 0 "" "") err) in
  match st.(os_access) with
  | None => failed st (NewError "access service required")
  | Some a =>
      let '(a, r) := EnsurePrincipal (env 0%nat) a principal cfg.(cfg_S3Bucket) in
      let st := st <| os_access := Some a |> in
      match r with
      | (_, Some err) => failed st err
      | ((_, personal), None) =>
          let e := env 1%nat 0%nat in
          match ReadableStorageIDs (env 1%nat 1%nat) a principal None [] with
          | (_, Some err) => failed st err
          | (readable, None) =>
              let ids := range_set readable in
              let ids := match ids with [] => [personal.(Storage_ID)] | _ => ids end in
              let mode := if cfg.(cfg_DefaultTokenMode) =s "" then AccessModeReadWrite else cfg.(cfg_DefaultTokenMode) in
              let scopes := (λ id, (zeroval : AccessTokenStorage) <| AccessTokenStorage_StorageID := id |>
                                     <| AccessTokenStorage_MaxMode := mode |>) <$> ids in
              let expires := (now e 0 + wrap64 (cfg.(cfg_AccessTokenTTLHours) * Hour))%Z in
              let '(a, r) := CreateToken unicode_lower (env 1%nat 2%nat) a
                (mkCreateTokenInput (SubjectKeyForPrincipal principal) "oauth:mcp-client" mode scopes zeroval
                   (Some expires) "oauth_as") in
              let st := st <| os_access := Some a |> in
              match r with
              | (_, Some err) => failed st err
              | ((token, raw), None) =>
                  match RandomURLToken (env 1%nat 3%nat) with
                  | (_, Some err) => failed st err
                  | (refreshRaw, None) =>
                      match SaveRefreshToken (now e 2) st.(os_store)
                        (mkRefreshToken (HashOpaque refreshRaw) clientID (SubjectKeyForPrincipal principal)
                           token.(AccessToken_ID) (now e 1 + wrap64 (cfg.(cfg_RefreshTokenTTLHours) * Hour))%Z None 0) with
                      | (o, Some err) => failed (st <| os_store := o |>) err
                      | (o, None) =>
                          let scope := if scope =s "" then "mcp" else scope in
                          (st <| os_store := o |>,
                           ok (mkTokenResponse raw (Z.quot (expires - now e 3) Second) refreshRaw scope))
                      end
                  end
              end
          end
      end
  end.

Definition tokenResponse (r : OState * ret TokenResponse) : OState * oauth_resp :=
  match r with
  | (st, (_, Some err)) => (st, RespError 500 "server_error" (Error_text err))
  | (st, (t, None)) => (st, RespTokens t)
  end.

Definition tokenAuthorizationCode (env : nat → nat → Env) st (code redirectURI clientID verifier : string)
    : OState * oauth_resp :=
  match ConsumeAuthorizationCode (now (env 2%nat 0%nat) 0) st.(os_store) code with
  | (o, (_, Some err)) => (st <| os_store := o |>, RespError 400 "invalid_grant" (Error_text err))
  | (o, (authCode, None)) =>
      let st := st <| os_store := o |> in
      if authCode.(Code_ClientID) <>s clientID then (st, RespError 400 "invalid_grant" "client_id mismatch")
      else if authCode.(Code_RedirectURI) <>s redirectURI then
        (st, RespError 400 "invalid_grant" "redirect_uri mismatch")
      else if negb (VerifyPKCES256 verifier authCode.(Code_CodeChallenge)) then
        (st, RespError 400 "invalid_grant" "pkce verification failed")
      else tokenResponse (mintTokens env st authCode.(Code_Principal) clientID authCode.(Code_Scope))
  end.

Definition tokenRefresh (env : nat → nat → Env) st (rawRefresh clientID : string) : OState * oauth_resp :=
  match ConsumeRefreshToken (now (env 2%nat 0%nat) 0) st.(os_store) (HashOpaque rawRefresh) with
  | (o, (_, Some err)) => (st <| os_store := o |>, RespError 400 "invalid_grant" (Error_text err))
  | (o, (existing, None)) =>
      let st := st <| os_store := o |> in
      if (clientID <>s "") && (existing.(Refresh_ClientID) <>s clientID) then
        (st, RespError 400 "invalid_grant" "client_id mismatch")
      else
        let bare := (zeroval : Principal) <| Principal_SubjectKey := existing.(Refresh_SubjectKey) |>
                      <| Principal_UserID := existing.(Refresh_SubjectKey) |> <| Principal_AuthSource := "oauth" |> in
        let '(st, principal) :=
          match st.(os_access) with
          | None => (st, bare)
          | Some a =>
              let a := (RevokeToken (env 2%nat 1%nat) a existing.(Refresh_AccessTokenID)).1 in
              (st <| os_access := Some a |>,
               match (UserBySubjectKey a existing.(Refresh_SubjectKey)).1 with
               | Some user => principalOfUser user
               | None => bare
               end)
          end in
        tokenResponse (mintTokens env st principal existing.(Refresh_ClientID) "")
  end.

(** The handler of a request. *)
Definition handle (env : nat → nat → Env) (net : Net) (r : Request) st (req : oauth_req) : OState * oauth_resp :=
  match req with
  | ReqRegister uris name method => register (env 2%nat 0%nat) st uris name method
  | ReqAuthorize c u rt state scope ch m => authorize (env 2%nat 0%nat) st c u rt state scope ch m
  | ReqLogin id user pw => authorizeLogin env st id user pw
  | ReqOIDCStart id pr => authorizeOIDCStart (env 2%nat 0%nat) r st id pr
  | ReqCallback id code => oidcCallback env net r st id code
  | ReqTokenCode code uri c v => tokenAuthorizationCode env st code uri c v
  | ReqTokenRefresh raw c => tokenRefresh env st raw c
  | ReqTokenOther => (st, RespError 400 "unsupported_grant_type" "unsupported grant_type")
  end.

End Server.
