(* ===== verification/OAuthProps.v ===== *)
(** What the authorization server of [OAuthServer] guarantees over whole
    runs of requests: where a token comes from, and that authorization codes
    and refresh tokens are used once. The store is the one in memory. *)
From S2P Require Import Prelude GoStrings GoCrypto Models DataObj AccessState AccessObjects AccessService.
From S2P Require Import AccessInv Auth OAuth OAuthServer.

Section Runs.
Context `{Postgres, GoRange, Bcrypt, OAuthDB, JWT}.
Context (unicode_lower unicode_fold : Z → Z) (quote : string → string).
Context (url_parse : string → option URL) (ip_is_loopback : string → bool) (getenv : string → string).
Context (token_json : string → (string * string) + error).
Context (cfg : OAuthConfig) (gcfg : GatewayConfig).
Implicit Types (st : OState) (o : OStore).

(** One request with everything it reads. *)
Record call := mkCall { c_env : nat → nat → Env; c_net : Net; c_http : Request; c_req : oauth_req }.

Definition serve (c : call) st : OState * oauth_resp :=
  handle unicode_lower unicode_fold quote url_parse ip_is_loopback getenv token_json cfg gcfg
    c.(c_env) c.(c_net) c.(c_http) st c.(c_req).

(** A request in a run: the state it meets and the response it gets. *)
Record event := mkEvent { ev_call : call; ev_before : OState; ev_resp : oauth_resp }.

(** A run: the requests in order, and the state after them. *)
Inductive served (st0 : OState) : list event → OState → Prop :=
| served_nil : served st0 [] st0
| served_snoc tr st c resp st' :
    served st0 tr st → serve c st = (st', resp) → served st0 (tr ++ [mkEvent c st resp]) st'.

Abbreviation allowed uri registered :=
  (RedirectURIAllowed unicode_lower url_parse uri registered cfg.(cfg_AllowedRedirectURIPatterns) = true).

(** ** What a request does to the store *)

(** The refresh token a request mints, if it does. *)
Inductive minted_refresh (c : call) o : OStore → Prop :=
| MR_none : minted_refresh c o o
| MR_some rt raw :
    RandomURLToken (c.(c_env) 1%nat 3%nat) = ok raw → rt.(Refresh_TokenHash) = HashOpaque raw →
    rt.(Refresh_RevokedAt) = None →
    minted_refresh c o (o <| o_refresh := <[HashOpaque raw := rt]> o.(o_refresh) |>).

(** The request that logs a user in with a session. *)
Definition logs_in (req : oauth_req) : option string :=
  match req with ReqLogin id _ _ | ReqCallback id _ => Some id | _ => None end.

(** The request proves that its sender is the principal: by the password of
    a user of this server, or by a token of an identity provider. *)
Definition authenticated (c : call) st (p : Principal) : Prop :=
  match c.(c_req) with
  | ReqLogin _ user pw => authenticateInternal getenv cfg st (TrimSpace user) pw = ok p
  | ReqCallback _ code => ∃ provider raw claims uri t,
      exchangeOIDCCode unicode_fold getenv token_json c.(c_net) provider code uri = ok raw
      ∧ (VerifyAndParseClaims quote gcfg t c.(c_net).(net_fetch) st.(os_router) raw).2 = ok claims
      ∧ ToPrincipal unicode_fold gcfg claims = ok p
  | _ => False
  end.

(** [proves] is what the request shows of its sender. *)
Inductive store_effect (c : call) (proves : Principal → Prop) o : oauth_resp → OStore → Prop :=
| SE_same resp : store_effect c proves o resp o
| SE_client uris name method cl :
    c.(c_req) = ReqRegister uris name method → cl.(Client_RedirectURIs) = uris →
    (∀ uri, uri ∈ uris → allowed uri []) →
    store_effect c proves o (RespClient cl) (o <| o_clients := <[cl.(Client_ClientID) := cl]> o.(o_clients) |>)
| SE_login cid uri state scope challenge method cl l resp :
    c.(c_req) = ReqAuthorize cid uri "code" state scope challenge method →
    o.(o_clients) !! cid = Some cl → uri ∈ cl.(Client_RedirectURIs) → allowed uri cl.(Client_RedirectURIs) →
    challenge ≠ "" → l.(Login_ClientID) = cid → l.(Login_RedirectURI) = uri →
    l.(Login_CodeChallenge) = challenge →
    store_effect c proves o resp (o <| o_logins := <[l.(Login_ID) := l]> o.(o_logins) |>)
| SE_provider l id name t resp :
    o.(o_logins) !! id = Some l →
    let l' := l <| Login_ProviderName := name |> <| Login_ID := t.1 |> <| Login_CreatedAt := t.2 |> in
    store_effect c proves o resp (o <| o_logins := <[t.1 := l']> o.(o_logins) |>)
| SE_take id resp : store_effect c proves o resp (o <| o_logins := delete id o.(o_logins) |>)
| SE_code id l code a resp :
    logs_in c.(c_req) = Some id → o.(o_logins) !! id = Some l →
    RandomURLToken (c.(c_env) 1%nat 0%nat) = ok code →
    a.(Code_ClientID) = l.(Login_ClientID) → a.(Code_RedirectURI) = l.(Login_RedirectURI) →
    a.(Code_CodeChallenge) = l.(Login_CodeChallenge) → a.(Code_UsedAt) = None → proves a.(Code_Principal) →
    (is_Some (url_parse l.(Login_RedirectURI)) →
     ∃ rest, resp = RespRedirect 303 l.(Login_RedirectURI) (("code", code) :: rest)) →
    store_effect c proves o resp
      (o <| o_logins := delete id o.(o_logins) |> <| o_codes := <[code := a]> o.(o_codes) |>)
| SE_exchange code uri cid verifier a t resp o' :
    c.(c_req) = ReqTokenCode code uri cid verifier →
    o.(o_codes) !! code = Some a → a.(Code_UsedAt) = None →
    minted_refresh c (o <| o_codes := <[code := a <| Code_UsedAt := Some t |>]> o.(o_codes) |>) o' →
    store_effect c proves o resp o'
| SE_refresh raw cid rt t resp o' :
    c.(c_req) = ReqTokenRefresh raw cid →
    o.(o_refresh) !! HashOpaque raw = Some rt → rt.(Refresh_RevokedAt) = None →
    minted_refresh c (o <| o_refresh := <[HashOpaque raw := rt <| Refresh_RevokedAt := Some t |>]> o.(o_refresh) |>) o' →
    store_effect c proves o resp o'.

Lemma mintTokens_refresh c st o p cid scope : st.(os_store) = o → o.(o_useDB) = false →
  minted_refresh c o (mintTokens unicode_lower cfg c.(c_env) st p cid scope).1.(os_store).
Proof.
  intros <- Hdb. unfold mintTokens. destruct st as [o [a|] r]; [|constructor]. cbn in *.
  destruct (EnsurePrincipal _ a p _) as [a1 [[u personal] [err|]]]; [constructor|]. cbn.
  destruct (ReadableStorageIDs _ a1 p None []) as [readable [err|]]; [constructor|]. cbn.
  destruct (CreateToken _ _ a1 _) as [a2 [[tok raw] [err|]]]; [constructor|]. cbn.
  destruct (RandomURLToken (c_env c 1%nat 3%nat)) as [rr [err|]] eqn:Hr; [constructor|].
  unfold SaveRefreshToken. cbn. rewrite Hdb. cbn. by eapply MR_some.
Qed.

Lemma find_none_forall {A} (f : A → bool) l x : List.find (λ y, negb (f y)) l = None → x ∈ l → f x = true.
Proof.
  intros Hf Hx. apply (List.find_none _ _) with (x := x) in Hf; [|by apply list_elem_of_In].
  by apply negb_false_iff.
Qed.

Lemma register_effect c st uris name method st' resp : o_useDB st.(os_store) = false →
  c.(c_req) = ReqRegister uris name method → serve c st = (st', resp) →
  store_effect c (authenticated c st) st.(os_store) resp st'.(os_store).
Proof.
  intros Hdb Hreq. unfold serve. rewrite Hreq. cbn [handle]. unfold register, CreateClient.
  case_bool_decide; [intros [= <- <-]; constructor|].
  destruct (List.find _ uris) eqn:Hf; [intros [= <- <-]; constructor|]. cbn. rewrite Hdb. cbn.
  intros [= <- <-]. eapply SE_client; [done|by repeat case_match|].
  intros uri Huri. exact (find_none_forall (λ u, RedirectURIAllowed unicode_lower url_parse u [] _) uris uri Hf Huri).
Qed.

Lemma authorize_effect c st cid uri rt state scope ch method st' resp : o_useDB st.(os_store) = false →
  c.(c_req) = ReqAuthorize cid uri rt state scope ch method → serve c st = (st', resp) →
  store_effect c (authenticated c st) st.(os_store) resp st'.(os_store).
Proof.
  intros Hdb Hreq. unfold serve. rewrite Hreq. cbn [handle]. unfold authorize, GetClient, SaveLoginSession.
  rewrite Hdb. cbn.
  destruct (String.eqb_spec rt "code") as [->|]; [|intros [= <- <-]; constructor]. cbn.
  destruct (_ && _); [intros [= <- <-]; constructor|].
  destruct (String.eqb_spec ch "") as [->|Hch]; [intros [= <- <-]; constructor|].
  destruct (o_clients _ !! cid) as [cl|] eqn:Hcl; [|intros [= <- <-]; constructor].
  destruct (_ || _) eqn:Hok; [intros [= <- <-]; constructor|].
  apply orb_false_iff in Hok as [Hhas%negb_false_iff Hall%negb_false_iff].
  apply existsb_elem_of in Hhas as (u & Hu & ->%String.eqb_eq).
  intros [= <- <-]. by eapply SE_login.
Qed.

Lemma SaveLoginSession_memory e o l : o.(o_useDB) = false → ∃ id t,
  let l' := l <| Login_ID := id |> <| Login_CreatedAt := t |> in
  SaveLoginSession e o l = (o <| o_logins := <[id := l']> o.(o_logins) |>, ok l').
Proof.
  intros Hdb. exists (if Login_ID l =s "" then uuid e 0 else Login_ID l).
  exists (if IsZero (Login_CreatedAt l) then now e 0 else Login_CreatedAt l).
  unfold SaveLoginSession. rewrite Hdb. destruct l as [id]; cbn. by destruct (id =s ""); cbn; destruct (IsZero _).
Qed.

Lemma oidcStart_effect c st id name st' resp : o_useDB st.(os_store) = false →
  c.(c_req) = ReqOIDCStart id name → serve c st = (st', resp) →
  store_effect c (authenticated c st) st.(os_store) resp st'.(os_store).
Proof.
  intros Hdb Hreq. unfold serve. rewrite Hreq. cbn [handle].
  unfold authorizeOIDCStart, GetLoginSession. rewrite Hdb. cbn.
  destruct (o_logins _ !! id) as [l|] eqn:Hl; [|intros [= <- <-]; constructor].
  destruct (After _ _); [intros [= <- <-]; constructor|]. cbn [ok].
  destruct (providerByName _ _ name) as [p|]; [|intros [= <- <-]; constructor].
  destruct (_ =s ""); [intros [= <- <-]; constructor|].
  destruct (SaveLoginSession_memory (later 1 (c_env c 2%nat 0%nat)) st.(os_store)
    (l <| Login_ProviderName := Provider_Name p |>) Hdb) as (id' & t & ->).
  intros [= <- <-]. by eapply (SE_provider _ _ _ l id _ (id', t)).
Qed.

(** The last step of both ways to log in. *)
Lemma completeAuthorize_effect c st st1 l id p : o_useDB st.(os_store) = false →
  logs_in c.(c_req) = Some id → o_logins st.(os_store) !! id = Some l → authenticated c st p →
  st1.(os_store) = st.(os_store) <| o_logins := delete id (o_logins st.(os_store)) |> →
  ∀ st' resp, completeAuthorize url_parse cfg c.(c_env) st1 l p = (st', resp) →
  store_effect c (authenticated c st) st.(os_store) resp st'.(os_store).
Proof.
  intros Hdb Hreq Hl Hp Hst1 st' resp. unfold completeAuthorize.
  set (st2 := match os_access st1 with Some _ => _ | None => _ end).
  assert (Hst2 : st2.(os_store) = st1.(os_store)) by (subst st2; by destruct (os_access st1)).
  destruct (RandomURLToken _) as [code [err|]] eqn:Hr.
  - intros [= <- <-]. rewrite Hst2, Hst1. apply SE_take.
  - unfold SaveAuthorizationCode. cbn. rewrite Hst2, Hst1. cbn. rewrite Hdb. cbn.
    intros Heq. destruct (url_parse (Login_RedirectURI l)) eqn:Hu; injection Heq as <- <-;
      (eapply SE_code; [done..|]); rewrite Hu; [eauto|by intros []].
Qed.

Lemma login_effect c st id user pw st' resp : o_useDB st.(os_store) = false →
  c.(c_req) = ReqLogin id user pw → serve c st = (st', resp) →
  store_effect c (authenticated c st) st.(os_store) resp st'.(os_store).
Proof.
  intros Hdb Hreq. unfold serve. rewrite Hreq. cbn [handle].
  unfold authorizeLogin, GetLoginSession, GetClient, TakeLoginSession. rewrite Hdb.
  destruct (o_logins _ !! id) as [l|] eqn:Hl; [|intros [= <- <-]; constructor].
  destruct (After _ _); [intros [= <- <-]; constructor|]. cbn [ok].
  destruct (o_clients _ !! _) as [cl|]; [|intros [= <- <-]; constructor]. cbn [ok].
  destruct (authenticateInternal _ _ _ _ _) as [p [err|]] eqn:Hp; [intros [= <- <-]; constructor|].
  destruct (After _ _); apply completeAuthorize_effect with (id := id); try done; unfold authenticated; by rewrite Hreq.
Qed.

Lemma callback_effect c st id code st' resp : o_useDB st.(os_store) = false →
  c.(c_req) = ReqCallback id code → serve c st = (st', resp) →
  store_effect c (authenticated c st) st.(os_store) resp st'.(os_store).
Proof.
  intros Hdb Hreq. unfold serve. rewrite Hreq. cbn [handle].
  unfold oidcCallback, TakeLoginSession. rewrite Hdb.
  destruct (_ || _); [intros [= <- <-]; constructor|].
  destruct (o_logins _ !! id) as [l|] eqn:Hl; [|intros [= <- <-]; destruct st; constructor].
  destruct (After _ _); [intros [= <- <-]; apply SE_take|]. cbn [ok].
  destruct (providerByName _ _ _) as [p|]; [|intros [= <- <-]; apply SE_take].
  destruct (exchangeOIDCCode _ _ _ _ _ _ _) as [raw [err|]] eqn:Hx; [intros [= <- <-]; apply SE_take|].
  destruct (VerifyAndParseClaims _ _ _ _ _ _) as [router [claims [err|]]] eqn:Hv; [intros [= <- <-]; apply SE_take|].
  destruct (ToPrincipal _ _ _) as [pr [err|]] eqn:Hp; [intros [= <- <-]; apply SE_take|].
  apply completeAuthorize_effect with (id := id); try done; unfold authenticated; rewrite Hreq; [done|].
  repeat eexists; [exact Hx| |exact Hp]. cbn in Hv. by rewrite Hv.
Qed.

Lemma tokenResponse_state (r : OState * ret TokenResponse) : (tokenResponse r).1 = r.1.
Proof. by destruct r as [st [t [err|]]]. Qed.

Lemma tokenCode_effect c st code uri cid verifier st' resp : o_useDB st.(os_store) = false →
  c.(c_req) = ReqTokenCode code uri cid verifier → serve c st = (st', resp) →
  store_effect c (authenticated c st) st.(os_store) resp st'.(os_store).
Proof.
  intros Hdb Hreq. unfold serve. rewrite Hreq. cbn [handle].
  unfold tokenAuthorizationCode, ConsumeAuthorizationCode. rewrite Hdb.
  destruct (o_codes _ !! code) as [a|] eqn:Ha; [|intros [= <- <-]; destruct st; constructor].
  destruct (Code_UsedAt a) eqn:Hu; [intros [= <- <-]; destruct st; constructor|]. cbn [bool_decide].
  destruct (After _ _); [intros [= <- <-]; destruct st; constructor|]. cbn.
  destruct (_ <>s _); [intros [= <- <-]; by eapply SE_exchange; [..|constructor]|].
  destruct (_ <>s _); [intros [= <- <-]; by eapply SE_exchange; [..|constructor]|].
  destruct (VerifyPKCES256 _ _); [|intros [= <- <-]; by eapply SE_exchange; [..|constructor]].
  cbn [negb]. intros Hm. apply (f_equal fst) in Hm. rewrite tokenResponse_state in Hm. cbn in Hm. subst st'.
  eapply SE_exchange; [done..|]. by apply mintTokens_refresh.
Qed.

Lemma tokenRefresh_effect c st raw cid st' resp : o_useDB st.(os_store) = false →
  c.(c_req) = ReqTokenRefresh raw cid → serve c st = (st', resp) →
  store_effect c (authenticated c st) st.(os_store) resp st'.(os_store).
Proof.
  intros Hdb Hreq. unfold serve. rewrite Hreq. cbn [handle].
  unfold tokenRefresh, ConsumeRefreshToken. rewrite Hdb.
  destruct (o_refresh _ !! _) as [rt|] eqn:Hrt; [|intros [= <- <-]; destruct st; constructor].
  destruct (Refresh_RevokedAt rt) eqn:Hu; [intros [= <- <-]; destruct st; constructor|]. cbn [bool_decide].
  destruct (After _ _); [intros [= <- <-]; destruct st; constructor|]. cbn.
  destruct (_ && _); [intros [= <- <-]; by eapply SE_refresh; [..|constructor]|].
  destruct (os_access st) as [a|];
    intros Hm; apply (f_equal fst) in Hm; rewrite tokenResponse_state in Hm; cbn [fst] in Hm; subst st';
    (eapply SE_refresh; [done..|]); by apply mintTokens_refresh.
Qed.

(** What any request does to the store. *)
Lemma serve_effect c st st' resp : o_useDB st.(os_store) = false → serve c st = (st', resp) →
  store_effect c (authenticated c st) st.(os_store) resp st'.(os_store).
Proof.
  intros Hdb. destruct (c_req c) eqn:Hreq.
  - by eapply register_effect.
  - by eapply authorize_effect.
  - by eapply login_effect.
  - by eapply oidcStart_effect.
  - by eapply callback_effect.
  - by eapply tokenCode_effect.
  - by eapply tokenRefresh_effect.
  - unfold serve. rewrite Hreq. intros [= <- <-]. constructor.
Qed.

Lemma minted_memory c o o' : minted_refresh c o o' → o'.(o_useDB) = o.(o_useDB).
Proof. by intros []. Qed.

Lemma effect_memory c proves o resp o' : store_effect c proves o resp o' → o'.(o_useDB) = o.(o_useDB).
Proof. intros []; try done; match goal with H : minted_refresh _ _ _ |- _ => by rewrite (minted_memory _ _ _ H) end. Qed.

(** ** Where a code comes from *)

(** The event registers a client with the redirect URI. *)
Definition registered (ev : event) (cid uri : string) : Prop :=
  ∃ uris name method cl, ev.(ev_call).(c_req) = ReqRegister uris name method ∧ ev.(ev_resp) = RespClient cl
    ∧ cl.(Client_ClientID) = cid ∧ uri ∈ uris ∧ allowed uri [].

(** The event asks for a code for that client, URI and challenge. *)
Definition requested (ev : event) (cid uri challenge : string) : Prop :=
  challenge ≠ "" ∧ ∃ state scope method,
    ev.(ev_call).(c_req) = ReqAuthorize cid uri "code" state scope challenge method.

(** The event authenticates the principal and sends the code to the URI. *)
Definition granted (ev : event) (p : Principal) (uri code : string) : Prop :=
  authenticated ev.(ev_call) ev.(ev_before) p
  ∧ ∃ rest, ev.(ev_resp) = RespRedirect 303 uri (("code", code) :: rest).

Record provenance (tr : list event) o : Prop := {
  pv_memory : o.(o_useDB) = false;
  pv_clients : ∀ id cl, o.(o_clients) !! id = Some cl →
    ∃ reg, [reg] `sublist_of` tr ∧ ∀ uri, uri ∈ cl.(Client_RedirectURIs) → registered reg id uri;
  pv_logins : ∀ id l, o.(o_logins) !! id = Some l → is_Some (url_parse l.(Login_RedirectURI)) ∧
    ∃ reg req, [reg; req] `sublist_of` tr ∧ registered reg l.(Login_ClientID) l.(Login_RedirectURI)
      ∧ requested req l.(Login_ClientID) l.(Login_RedirectURI) l.(Login_CodeChallenge);
  pv_codes : ∀ code a, o.(o_codes) !! code = Some a →
    ∃ reg req log, [reg; req; log] `sublist_of` tr ∧ registered reg a.(Code_ClientID) a.(Code_RedirectURI)
      ∧ requested req a.(Code_ClientID) a.(Code_RedirectURI) a.(Code_CodeChallenge)
      ∧ granted log a.(Code_Principal) a.(Code_RedirectURI) code
}.

Lemma allowed_parses uri registered_uris patterns :
  RedirectURIAllowed unicode_lower url_parse uri registered_uris patterns = true → is_Some (url_parse uri).
Proof. unfold RedirectURIAllowed. destruct (uri =s ""); [done|]. by destruct (url_parse uri). Qed.

Lemma provenance_skip tr ev o : provenance tr o → provenance (tr ++ [ev]) o.
Proof.
  intros [Hdb Hc Hl Hk]. split; [done|..].
  - intros id cl (reg & ? & ?)%Hc. eauto using sublist_snoc_skip.
  - intros id l (? & reg & req & ? & ? & ?)%Hl. eauto 8 using sublist_snoc_skip.
  - intros code a (reg & req & log & ? & ? & ? & ?)%Hk. eauto 10 using sublist_snoc_skip.
Qed.

Lemma provenance_refresh tr c o o' : minted_refresh c o o' → provenance tr o → provenance tr o'.
Proof. by intros [] [? ? ? ?]. Qed.

Lemma provenance_effect tr c st resp o' :
  store_effect c (authenticated c st) st.(os_store) resp o' → provenance tr st.(os_store) →
  provenance (tr ++ [mkEvent c st resp]) o'.
Proof.
  intros Heff Hpv. pose proof (provenance_skip _ (mkEvent c st resp) _ Hpv) as [Hdb' Hc' Hl' Hk'].
  pose proof Hpv as [Hdb Hc Hl Hk].
  destruct Heff as [resp|uris name method cl Hreq <- Hall|cid uri state scope ch method cl l resp Hreq Hcl Hin Hall Hch <- <- <-
    |l id name t resp Hlk l'|id resp|id l code a resp Hreq Hlk Hr Hid Huri Hch Hu Hp Hresp
    |code uri cid verifier a t resp o' Hreq Ha Hu Hmint|raw cid rt t resp o' Hreq Hrt Hu Hmint].
  - by apply provenance_skip.
  - split; [done| |done..]. cbn. intros id' cl'. rewrite lookup_insert_Some.
    intros [[<- <-]|[_ ?%Hc']]; [|done]. exists (mkEvent c st (RespClient cl)).
    split; [apply (sublist_snoc_both []), sublist_nil_l|]. intros uri Huri. do 4 eexists.
    split_and!; [done..|]. by apply Hall.
  - split; [done..| |done]. cbn. intros id' l'. rewrite lookup_insert_Some.
    intros [[<- <-]|[_ ?%Hl']]; [|done]. split; [by eapply allowed_parses|].
    apply Hc in Hcl as (reg & Hreg & Hregd). exists reg, (mkEvent c st resp).
    split; [by apply (sublist_snoc_both [reg])|]. split; [by apply Hregd|]. split; [done|by do 3 eexists].
  - split; [done..| |done]. cbn. intros id' l''. rewrite lookup_insert_Some.
    intros [[_ <-]|[_ ?%Hl']]; [|done]. by apply Hl' in Hlk.
  - split; [done..| |done]. cbn. intros id' l''. rewrite lookup_delete_Some. intros [_ ?%Hl']. done.
  - split; [done..| |]; cbn.
    { intros id' l''. rewrite lookup_delete_Some. intros [_ ?%Hl']. done. }
    intros code' a'. rewrite lookup_insert_Some. intros [[<- <-]|[_ ?%Hk']]; [|done].
    apply Hl in Hlk as (Hparse & reg & req & Hsub & Hreg & Hrq). exists reg, req, (mkEvent c st resp).
    rewrite Hid, Huri, Hch. split_and!; [by apply (sublist_snoc_both [reg; req])|done|done|].
    split; [done|by apply Hresp].
  - eapply provenance_refresh; [done|]. split; [done..|]. cbn. intros code' a'. rewrite lookup_insert_Some.
    intros [[<- <-]|[_ ?%Hk']]; [|done]. by apply (Hk' code a).
  - eapply provenance_refresh; [done|]. by split.
Qed.

Lemma served_provenance d access router tr st :
  served (mkOState (NewInMemoryOStore d) access router) tr st → provenance tr st.(os_store).
Proof.
  induction 1 as [|tr st c resp st' _ IH Hs]; [by split|].
  apply provenance_effect with (o' := st'.(os_store)); [|done]. apply serve_effect; [apply IH|done].
Qed.

(** ** What minting does to the access store *)

Lemma run_app os os' (s : Store) : run unicode_lower (os ++ os') s = run unicode_lower os' (run unicode_lower os s).
Proof. revert s. induction os as [|op os IH]; intros s; [done|]. apply IH. Qed.

Lemma EnsurePrincipal_run env (s : Store) p bucket : ∃ os,
  (EnsurePrincipal env s p bucket).1 = run unicode_lower os s ∧ Forall (λ op, token_op op = false) os.
Proof.
  unfold EnsurePrincipal. pose (u := OpUpsertUserFromPrincipal (env 0%nat) p).
  destruct (UpsertUserFromPrincipal (env 0%nat) s p) as [s1 [user [err|]]] eqn:Hu.
  { exists [u]. cbn. rewrite Hu. split; [done|by repeat constructor]. }
  set (keys := imap _ _). set (s2 := foldl _ s1 keys).
  assert (Hf : ∃ os, s2 = run unicode_lower os s1 ∧ Forall (λ op, token_op op = false) os).
  { subst s2. clearbody keys. clear Hu. revert s1. induction keys as [|[i k] keys IH]; intros s1; [by exists []|].
    destruct (IH (CreateGroup (env (1 + i)%nat) s1 (groupOfKey p k)).1) as (os & Heq & Hos).
    exists (OpCreateGroup (env (1 + i)%nat) (groupOfKey p k) :: os). split; [exact Heq|by constructor]. }
  destruct Hf as (os & -> & Hos).
  exists (u :: os ++ [OpEnsurePersonalStorage (env (1 + length (GroupSubjectKeysForPrincipal p))%nat) p bucket]).
  split; [|constructor; [done|]; apply Forall_app; split; [done|by repeat constructor]].
  cbn. rewrite Hu, run_app. cbn. by destruct (EnsurePersonalStorage _ _ _ _) as [? [? [?|]]].
Qed.

Lemma run_fresh_other os (s : Store) : Forall (λ op, token_op op = false) os → run_fresh unicode_lower os s.
Proof.
  intros Hos. revert s. induction Hos as [|op os Hop Hos IH]; intros s; [done|]. split; [by destruct op|apply IH].
Qed.

(** Minting is a run of operations of the access store that ends in the
    creation of the token of the response. *)
Lemma mintTokens_run env st p cid scope st' t :
  mintTokens unicode_lower cfg env st p cid scope = (st', ok t) →
  ∃ a os inp a' tok, st.(os_access) = Some a ∧ Forall (λ op, token_op op = false) os
    ∧ CreateToken unicode_lower (env 1%nat 2%nat) (run unicode_lower os a) inp = (a', ok (tok, t.(TR_access_token)))
    ∧ inp.(In_OwnerSubjectKey) = SubjectKeyForPrincipal p ∧ st'.(os_access) = Some a'.
Proof.
  unfold mintTokens. destruct (os_access st) as [a|]; [|done].
  pose proof (EnsurePrincipal_run (env 0%nat) a p cfg.(cfg_S3Bucket)) as (os & Hrun & Hos).
  destruct (EnsurePrincipal _ a p _) as [a1 [[u personal] [err|]]]; [done|]. cbn in Hrun. subst a1.
  destruct (ReadableStorageIDs _ _ p None []) as [readable [err|]]; [done|].
  destruct (CreateToken _ _ _ _) as [a2 [[tok raw] [err|]]] eqn:Hc; [done|].
  destruct (RandomURLToken _) as [rr [err|]]; [done|].
  destruct (SaveRefreshToken _ _ _) as [o [err|]]; [done|]. intros [= <- <-].
  exists a, os. eexists _, a2, tok. split_and!; [done..|exact Hc|done|done].
Qed.

(** The token of the response is in the access store, for the principal. *)
Lemma mintTokens_owner env st p cid scope st' t :
  (∀ a, st.(os_access) = Some a → store_wf a) →
  mintTokens unicode_lower cfg env st p cid scope = (st', ok t) →
  ∃ a' tok, st'.(os_access) = Some a' ∧ find_token a' t.(TR_access_token) = Some tok
    ∧ tok.(AccessToken_OwnerSubjectKey) = SubjectKeyForPrincipal p ∧ tok.(AccessToken_RevokedAt) = None.
Proof.
  intros Hwf (a & os & inp & a' & tok & Ha & Hos & Hc & Hown & Ha')%mintTokens_run.
  assert (Hwf1 : store_wf (run unicode_lower os a)) by (apply run_wf; auto using run_fresh_other).
  unfold CreateToken in Hc. rewrite (wf_memory _ Hwf1) in Hc. destruct (_ =s ""); [done|].
  destruct (newRawToken _) as [r [err|]]; [done|]. injection Hc as <- <- <-.
  do 2 eexists. split; [done|]. split; [unfold find_token; cbn; by rewrite !lookup_insert_eq|done].
Qed.

Lemma exchange_success c st code uri cid verifier st' t : o_useDB st.(os_store) = false →
  c.(c_req) = ReqTokenCode code uri cid verifier → serve c st = (st', RespTokens t) →
  ∃ a, o_codes st.(os_store) !! code = Some a ∧ a.(Code_UsedAt) = None
    ∧ (now (c.(c_env) 2%nat 0%nat) 0 ≤ a.(Code_ExpiresAt))%Z
    ∧ a.(Code_ClientID) = cid ∧ a.(Code_RedirectURI) = uri
    ∧ a.(Code_CodeChallenge) = b64_encode (Sum256 verifier)
    ∧ ∃ o, mintTokens unicode_lower cfg c.(c_env) (st <| os_store := o |>) a.(Code_Principal) cid a.(Code_Scope)
      = (st', ok t).
Proof.
  intros Hdb Hreq. unfold serve. rewrite Hreq. cbn [handle].
  unfold tokenAuthorizationCode, ConsumeAuthorizationCode. rewrite Hdb.
  destruct (o_codes _ !! code) as [a|] eqn:Ha; [|done].
  destruct (Code_UsedAt a) eqn:Hu; [done|]. cbn [bool_decide].
  destruct (After _ _) eqn:He; [done|]. unfold After in He. apply Z.ltb_ge in He. cbn -[mintTokens VerifyPKCES256].
  destruct (String.eqb_spec (Code_ClientID a) cid) as [<-|]; [|done].
  destruct (String.eqb_spec (Code_RedirectURI a) uri) as [<-|]; [|done]. cbn -[mintTokens VerifyPKCES256].
  destruct (VerifyPKCES256 _ _) eqn:Hp; [|done]. unfold VerifyPKCES256 in Hp. destruct (_ || _); [done|].
  apply String.eqb_eq in Hp. cbn [negb].
  destruct (mintTokens _ _ _ _ _ _ _) as [st1 [t1 [err|]]] eqn:Hm; [done|]. intros [= <- <-].
  exists a. split_and!; [done..|]. by eexists.
Qed.

(** ** Codes and refresh tokens are used once *)

Definition code_spent (code : string) o : Prop :=
  ∃ a, o.(o_codes) !! code = Some a ∧ is_Some a.(Code_UsedAt).

Definition refresh_spent (hash : string) o : Prop :=
  ∃ rt, o.(o_refresh) !! hash = Some rt ∧ is_Some rt.(Refresh_RevokedAt).

(** The random source gives the request something else than the secret. *)
Definition draws_other_code (code : string) (c : call) : Prop := RandomURLToken (c.(c_env) 1%nat 0%nat) ≠ ok code.
Definition draws_other_refresh (hash : string) (c : call) : Prop :=
  ∀ raw, RandomURLToken (c.(c_env) 1%nat 3%nat) = ok raw → HashOpaque raw ≠ hash.

Lemma minted_codes c o o' : minted_refresh c o o' → o'.(o_codes) = o.(o_codes).
Proof. by intros []. Qed.

Lemma minted_refresh_spent hash c o o' : minted_refresh c o o' → draws_other_refresh hash c →
  refresh_spent hash o → refresh_spent hash o'.
Proof.
  intros [|rt raw Hr _ _] Hd (rt' & Hrt & Hu); [by exists rt'|]. exists rt'. split; [|done]. cbn.
  rewrite lookup_insert_ne; [done|by apply Hd].
Qed.

Lemma code_spent_kept code c proves o resp o' : store_effect c proves o resp o' → draws_other_code code c →
  code_spent code o → code_spent code o'.
Proof.
  intros Heff Hd (a & Ha & Hu). destruct Heff as [| | | | |id l code' a' resp _ _ Hr _ _ _ _ _ _
    |code' uri cid verifier a' t resp o' _ Ha' Hu' Hm|raw cid rt t resp o' _ _ _ Hm]; try by exists a.
  - exists a. split; [|done]. cbn. rewrite lookup_insert_ne; [done|]. intros ->. by apply Hd.
  - exists a. split; [|done]. rewrite (minted_codes _ _ _ Hm). cbn. rewrite lookup_insert_ne; [done|].
    intros ->. rewrite Ha in Ha'. injection Ha' as ->. rewrite Hu' in Hu. by destruct Hu.
  - exists a. by rewrite (minted_codes _ _ _ Hm).
Qed.

Lemma refresh_spent_kept hash c proves o resp o' : store_effect c proves o resp o' → draws_other_refresh hash c →
  refresh_spent hash o → refresh_spent hash o'.
Proof.
  intros Heff Hd Hs. destruct Heff as [| | | | | |code' uri cid verifier a' t resp o' _ _ _ Hm
    |raw cid rt t resp o' _ Hrt Hu' Hm]; try done.
  - by eapply minted_refresh_spent.
  - eapply minted_refresh_spent; [done..|]. destruct Hs as (rt0 & Hrt0 & Hu). exists rt0. split; [|done]. cbn.
    rewrite lookup_insert_ne; [done|]. intros <-. rewrite Hrt0 in Hrt. injection Hrt as ->. rewrite Hu' in Hu.
    by destruct Hu.
Qed.

(** A property of the store that requests of a kind keep holds after a run of them. *)
Lemma served_keeps (good : call → Prop) (P : OStore → Prop) st tr st' :
  (∀ c proves o resp o', store_effect c proves o resp o' → good c → P o → P o') →
  o_useDB st.(os_store) = false → P st.(os_store) → (∀ ev, ev ∈ tr → good ev.(ev_call)) →
  served st tr st' → o_useDB st'.(os_store) = false ∧ P st'.(os_store).
Proof.
  intros Hkeep Hdb HP Hgood Hs. revert Hgood. induction Hs as [|tr st1 c resp st2 Hs IH Hserve]; [done|].
  intros Hgood. destruct IH as [Hdb1 HP1]; [intros ev Hev; apply Hgood, elem_of_app; by left|].
  pose proof (serve_effect _ _ _ _ Hdb1 Hserve) as Heff. split; [by rewrite (effect_memory _ _ _ _ _ Heff)|].
  eapply Hkeep; [done| |done]. apply (Hgood (mkEvent c st1 resp)), elem_of_app. right. by constructor.
Qed.

Lemma present_spent_code c st code uri cid verifier : o_useDB st.(os_store) = false →
  code_spent code st.(os_store) → c.(c_req) = ReqTokenCode code uri cid verifier →
  (serve c st).2 = RespError 400 "invalid_grant" "authorization code already used".
Proof.
  intros Hdb (a & Ha & x & Hu) Hreq. unfold serve. rewrite Hreq. cbn [handle].
  unfold tokenAuthorizationCode, ConsumeAuthorizationCode. by rewrite Hdb, Ha, Hu.
Qed.

Lemma present_spent_refresh c st raw cid : o_useDB st.(os_store) = false →
  refresh_spent (HashOpaque raw) st.(os_store) → c.(c_req) = ReqTokenRefresh raw cid →
  (serve c st).2 = RespError 400 "invalid_grant" "refresh token revoked".
Proof.
  intros Hdb (rt & Hrt & x & Hu) Hreq. unfold serve. rewrite Hreq. cbn [handle].
  unfold tokenRefresh, ConsumeRefreshToken. by rewrite Hdb, Hrt, Hu.
Qed.

(** The first presentation of a code, whoever makes it, spends it. *)
Lemma presenting_spends c st a code uri cid verifier st' resp : o_useDB st.(os_store) = false →
  c.(c_req) = ReqTokenCode code uri cid verifier → o_codes st.(os_store) !! code = Some a →
  a.(Code_UsedAt) = None → (now (c.(c_env) 2%nat 0%nat) 0 ≤ a.(Code_ExpiresAt))%Z →
  serve c st = (st', resp) → code_spent code st'.(os_store) ∧ o_useDB st'.(os_store) = false.
Proof.
  intros Hdb Hreq Ha Hu He Hs. pose proof (serve_effect _ _ _ _ Hdb Hs) as Heff.
  split; [|by rewrite (effect_memory _ _ _ _ _ Heff)]. revert Hs. unfold serve. rewrite Hreq. cbn [handle].
  unfold tokenAuthorizationCode, ConsumeAuthorizationCode. rewrite Hdb, Ha, Hu. cbn [bool_decide].
  unfold After. rewrite (proj2 (Z.ltb_ge _ _) He). cbn -[mintTokens VerifyPKCES256].
  set (o1 := _ <| o_codes := _ |>).
  assert (Hspent : code_spent code o1).
  { eexists. split; [cbn; apply lookup_insert_eq|by eexists]. }
  do 3 (destruct (negb _); [by intros [= <- <-]|]).
  intros Hm. apply (f_equal fst) in Hm. rewrite tokenResponse_state in Hm. cbn [fst] in Hm. subst st'.
  pose proof (mintTokens_refresh c (st <| os_store := o1 |>) o1 (Code_Principal a) cid (Code_Scope a) eq_refl Hdb) as Hmint.
  destruct Hspent as (a1 & ? & ?). exists a1. by rewrite (minted_codes _ _ _ Hmint).
Qed.

(** ** Refreshing *)

(** The principal a refresh token stands for, in an access store. *)
Definition refreshPrincipal (a : Store) (rt : RefreshToken) : Principal :=
  match (UserBySubjectKey a rt.(Refresh_SubjectKey)).1 with
  | Some user => principalOfUser user
  | None => (zeroval : Principal) <| Principal_SubjectKey := rt.(Refresh_SubjectKey) |>
              <| Principal_UserID := rt.(Refresh_SubjectKey) |> <| Principal_AuthSource := "oauth" |>
  end.

Lemma refreshPrincipal_key (a : Store) rt : a.(s_useDB) = false → rt.(Refresh_SubjectKey) ≠ "" →
  SubjectKeyForPrincipal (refreshPrincipal a rt) = rt.(Refresh_SubjectKey).
Proof.
  intros Hdb Hne%String.eqb_neq. unfold refreshPrincipal, UserBySubjectKey. rewrite Hdb. cbn [fst ok].
  destruct (List.find _ _) as [u|] eqn:Hf; [|unfold SubjectKeyForPrincipal; cbn; by rewrite Hne].
  apply List.find_some in Hf as [_ Hkey%String.eqb_eq]. unfold SubjectKeyForPrincipal, principalOfUser.
  destruct (_ =s "user:internal:default-admin"); cbn; by rewrite Hkey, Hne.
Qed.

Lemma refresh_success c st raw cid st' t : o_useDB st.(os_store) = false →
  c.(c_req) = ReqTokenRefresh raw cid → serve c st = (st', RespTokens t) →
  ∃ rt a, o_refresh st.(os_store) !! HashOpaque raw = Some rt ∧ rt.(Refresh_RevokedAt) = None
    ∧ (now (c.(c_env) 2%nat 0%nat) 0 ≤ rt.(Refresh_ExpiresAt))%Z
    ∧ (cid = "" ∨ rt.(Refresh_ClientID) = cid) ∧ st.(os_access) = Some a
    ∧ let a1 := (RevokeToken (c.(c_env) 2%nat 1%nat) a rt.(Refresh_AccessTokenID)).1 in
      let o1 := st.(os_store) <| o_refresh := <[HashOpaque raw := rt <| Refresh_RevokedAt :=
                  Some (now (c.(c_env) 2%nat 0%nat) 0) |>]> (o_refresh st.(os_store)) |> in
      mintTokens unicode_lower cfg c.(c_env) (mkOState o1 (Some a1) st.(os_router)) (refreshPrincipal a1 rt)
        rt.(Refresh_ClientID) "" = (st', ok t).
Proof.
  intros Hdb Hreq. unfold serve. rewrite Hreq. cbn [handle].
  unfold tokenRefresh, ConsumeRefreshToken. rewrite Hdb.
  destruct (o_refresh _ !! _) as [rt|] eqn:Hrt; [|done].
  destruct (Refresh_RevokedAt rt) eqn:Hu; [done|]. cbn [bool_decide].
  destruct (After _ _) eqn:He; [done|]. unfold After in He. apply Z.ltb_ge in He. cbn -[mintTokens].
  destruct (_ && _) eqn:Hc; [done|].
  assert (Hcid : cid = "" ∨ Refresh_ClientID rt = cid).
  { destruct (String.eqb_spec cid ""); [by left|]. destruct (String.eqb_spec (Refresh_ClientID rt) cid); [by right|done]. }
  destruct (os_access st) as [a|] eqn:Ha; [|unfold mintTokens; cbn; by rewrite Ha].
  destruct (mintTokens _ _ _ _ _ _ _) as [st1 [t1 [err|]]] eqn:Hm; [done|]. intros [= <- <-].
  exists rt, a. by split_and!.
Qed.

(** Minting revives no dead token, unless it draws the same secret. *)
Lemma mintTokens_dead env st a p cid scope st' t h : st.(os_access) = Some a → store_wf a →
  mintTokens unicode_lower cfg env st p cid scope = (st', ok t) → HashToken (minted (env 1%nat 2%nat)) ≠ h →
  dead h a → ∃ a', st'.(os_access) = Some a' ∧ dead h a'.
Proof.
  intros Ha Hwf (a0 & os & inp & a' & tok & Ha0 & Hos & Hc & _ & Ha')%mintTokens_run Hne Hd.
  rewrite Ha in Ha0. injection Ha0 as <-. exists a'. split; [done|].
  assert (Hrun : dead h (run unicode_lower os a)).
  { apply run_dead; [done|by apply run_fresh_other| |done]. intros e i Hin.
    by apply (proj1 (Forall_forall _ _) Hos) in Hin. }
  replace a' with (apply_op unicode_lower (OpCreateToken (env 1%nat 2%nat) inp) (run unicode_lower os a))
    by (cbn; by rewrite Hc).
  apply dead_kept; [by apply run_wf, run_fresh_other| |done]. intros e i Heq. by injection Heq as <- <-.
Qed.

(** ** The access store stays well formed up to the token endpoint *)

Definition access_wf st : Prop := ∀ a, st.(os_access) = Some a → store_wf a.

Lemma completeAuthorize_access_wf env st sess p : access_wf st →
  access_wf (completeAuthorize url_parse cfg env st sess p).1.
Proof.
  intros Hwf. unfold completeAuthorize. set (st1 := match os_access st with Some _ => _ | None => _ end).
  assert (Hwf1 : access_wf st1).
  { subst st1. destruct (os_access st) as [a|] eqn:Ha; [|done]. intros a' [= <-].
    destruct (EnsurePrincipal_run (env 0%nat) a p cfg.(cfg_S3Bucket)) as (os & -> & Hos).
    apply run_wf; auto using run_fresh_other. }
  clearbody st1. destruct (RandomURLToken _) as [? [?|]]; [done|].
  destruct (SaveAuthorizationCode _ _ _) as [? [?|]]; [done|]. by destruct (url_parse _).
Qed.

Lemma serve_access_wf c st : access_wf st → is_Some (logs_in c.(c_req)) → access_wf (serve c st).1.
Proof.
  intros Hwf Hreq. unfold serve. destruct (c_req c); try by destruct Hreq. all: cbn [handle].
  - unfold authorizeLogin. destruct (GetLoginSession _ _ _) as [[sess|] [err|]]; try done.
    destruct (GetClient _ _) as [[cl|] [err|]]; try done.
    destruct (authenticateInternal _ _ _ _ _) as [p [err|]]; [done|].
    destruct (TakeLoginSession _ _ _) as [o [? [err|]]]; [done|]. by apply completeAuthorize_access_wf.
  - unfold oidcCallback. destruct (_ || _); [done|].
    destruct (TakeLoginSession _ _ _) as [o [[sess|] [err|]]]; try done.
    destruct (providerByName _ _ _); [|done]. destruct (exchangeOIDCCode _ _ _ _ _ _ _) as [raw [err|]]; [done|].
    destruct (VerifyAndParseClaims _ _ _ _ _ _) as [router [claims [err|]]]; [done|].
    destruct (ToPrincipal _ _ _) as [pr [err|]]; [done|]. by apply completeAuthorize_access_wf.
Qed.

(** C6. The authorization code flow is sound from end to end. In any run from
    an empty store, a request that exchanges a code for tokens succeeds only
    after, in this order, the client was registered with that redirect URI,
    a code was requested for that client and URI with a PKCE challenge that
    is the hash of the verifier now presented, and a request authenticated a
    principal and was answered by sending the code to that URI. The access
    token that the exchange returns then stands in the access store for
    exactly that principal. *)
Theorem code_flow_integrity d access router tr st c code uri cid verifier st' t :
  served (mkOState (NewInMemoryOStore d) access router) tr st →
  access_wf st →
  c.(c_req) = ReqTokenCode code uri cid verifier → serve c st = (st', RespTokens t) →
  ∃ reg req log p, [reg; req; log] `sublist_of` tr
    ∧ registered reg cid uri
    ∧ requested req cid uri (b64_encode (Sum256 verifier))
    ∧ granted log p uri code
    ∧ ∃ a' tok, st'.(os_access) = Some a' ∧ find_token a' t.(TR_access_token) = Some tok
      ∧ tok.(AccessToken_OwnerSubjectKey) = SubjectKeyForPrincipal p ∧ tok.(AccessToken_RevokedAt) = None.
Proof.
  intros Hpv%served_provenance Hwf Hreq Hs.
  destruct (exchange_success _ _ _ _ _ _ _ _ (pv_memory _ _ Hpv) Hreq Hs)
    as (a & Ha & _ & _ & <- & <- & <- & o & Hm).
  apply (pv_codes _ _ Hpv) in Ha as (reg & rq & log & Hsub & Hreg & Hrq & Hg).
  exists reg, rq, log, a.(Code_Principal). split_and!; [done..|]. by eapply mintTokens_owner; [|exact Hm].
Qed.

(** C28. An authorization code is good for one presentation: once an
    unexpired code has been presented to the token endpoint, even by a client
    that does not match it, every later presentation is refused as already
    used, whatever requests come between, unless the random source draws the
    same code anew. *)
Theorem code_single_use st c a code uri cid verifier st1 resp tr st2 c2 uri2 cid2 verifier2 :
  o_useDB st.(os_store) = false →
  c.(c_req) = ReqTokenCode code uri cid verifier → o_codes st.(os_store) !! code = Some a →
  a.(Code_UsedAt) = None → (now (c.(c_env) 2%nat 0%nat) 0 ≤ a.(Code_ExpiresAt))%Z →
  serve c st = (st1, resp) → served st1 tr st2 → (∀ ev, ev ∈ tr → draws_other_code code ev.(ev_call)) →
  c2.(c_req) = ReqTokenCode code uri2 cid2 verifier2 →
  (serve c2 st2).2 = RespError 400 "invalid_grant" "authorization code already used".
Proof.
  intros Hdb Hreq Ha Hu He Hs Hrun Hd Hreq2.
  destruct (presenting_spends c st a code uri cid verifier st1 resp) as [Hsp Hdb1]; [done..|].
  destruct (served_keeps (draws_other_code code) (code_spent code) st1 tr st2) as [Hdb2 Hsp2];
    [apply code_spent_kept|done..|].
  by eapply present_spent_code.
Qed.

(** C29. Refreshing rotates. A refresh succeeds only with a stored, unrevoked
    and unexpired refresh token of that client; the new access token belongs
    to the same subject; the access token the refresh token was issued with
    no longer resolves; and every later presentation of the old refresh token
    is refused as revoked, whatever requests come between, unless the random
    source draws a secret with the same hash. *)
Theorem refresh_rotates st c a raw cid st1 t tr st2 c2 cid2 :
  o_useDB st.(os_store) = false → st.(os_access) = Some a → store_wf a →
  c.(c_req) = ReqTokenRefresh raw cid → serve c st = (st1, RespTokens t) →
  draws_other_refresh (HashOpaque raw) c →
  served st1 tr st2 → (∀ ev, ev ∈ tr → draws_other_refresh (HashOpaque raw) ev.(ev_call)) →
  c2.(c_req) = ReqTokenRefresh raw cid2 →
  ∃ rt a1, o_refresh st.(os_store) !! HashOpaque raw = Some rt ∧ rt.(Refresh_RevokedAt) = None
    ∧ (now (c.(c_env) 2%nat 0%nat) 0 ≤ rt.(Refresh_ExpiresAt))%Z
    ∧ (cid = "" ∨ rt.(Refresh_ClientID) = cid)
    ∧ st1.(os_access) = Some a1
    ∧ (rt.(Refresh_SubjectKey) ≠ "" → ∃ tok, find_token a1 t.(TR_access_token) = Some tok
         ∧ tok.(AccessToken_OwnerSubjectKey) = rt.(Refresh_SubjectKey) ∧ tok.(AccessToken_RevokedAt) = None)
    ∧ (∀ tok0, a.(s_tokens) !! rt.(Refresh_AccessTokenID) = Some tok0 →
         HashToken (minted (c.(c_env) 1%nat 2%nat)) ≠ tok0.(AccessToken_TokenHash) →
         dead tok0.(AccessToken_TokenHash) a1)
    ∧ (serve c2 st2).2 = RespError 400 "invalid_grant" "refresh token revoked".
Proof.
  intros Hdb Ha Hwf Hreq Hs Hd Hrun Hdraws Hreq2. pose proof (serve_effect _ _ _ _ Hdb Hs) as Heff.
  assert (Hdb1 : o_useDB (os_store st1) = false) by (by rewrite (effect_memory _ _ _ _ _ Heff)).
  destruct (refresh_success _ _ _ _ _ _ Hdb Hreq Hs) as (rt & a0 & Hrt & Hrev & Hexp & Hcid & Ha0 & Hm).
  rewrite Ha in Ha0. injection Ha0 as <-. cbn zeta in Hm.
  set (op := OpRevokeToken (c_env c 2%nat 1%nat) (Refresh_AccessTokenID rt)).
  assert (Hwf1 : store_wf (apply_op unicode_lower op a)) by by apply apply_op_wf.
  assert (Hsp : refresh_spent (HashOpaque raw) (os_store st1)).
  { pose proof (f_equal fst Hm) as Hst1. cbn [fst ok] in Hst1. rewrite <- Hst1.
    eapply minted_refresh_spent; [by apply mintTokens_refresh|done|].
    eexists. split; [cbn; apply lookup_insert_eq|by eexists]. }
  destruct (served_keeps (draws_other_refresh (HashOpaque raw)) (refresh_spent (HashOpaque raw)) st1 tr st2)
    as [Hdb2 Hsp2]; [apply refresh_spent_kept|done..|].
  eapply mintTokens_owner in Hm as Hnew; [|intros x Hx; injection Hx as <-; exact Hwf1].
  destruct Hnew as (a1 & tok & Ha1 & Hf & Hown & Hnr).
  exists rt, a1. split_and!; [done..| | |by eapply present_spent_refresh].
  - intros Hne. exists tok. rewrite Hown. split_and!; [done| |done].
    apply refreshPrincipal_key; [apply Hwf1|done].
  - intros tok0 Htok0 Hne. destruct (mintTokens_dead _ (mkOState _ _ _) _ _ _ _ _ _ _ eq_refl Hwf1 Hm Hne)
      as (a1' & Ha1' & Hdead);
      [|rewrite Ha1 in Ha1'; by injection Ha1' as <-].
    by apply (kills_dead unicode_lower op a (Refresh_AccessTokenID rt)); [..|left; eexists|].
Qed.
End Runs.

(** ** Witnesses *)

Section Witnesses.
#[local] Existing Instance canonical_range.
#[local] Existing Instance no_postgres.
#[local] Instance wo_bcrypt : Bcrypt := {| bcrypt_generate := λ _ pw, ok pw; bcrypt_matches := String.eqb |}.
#[local] Instance wo_db : OAuthDB := {|
  OD := unit; od_exec := λ _ d, (d, None); od_begin := λ _, None; od_commit := λ _, None;
  od_client := λ _ _, ok None; od_code := λ _ _, ok None; od_refresh := λ _ _, ok None; od_login := λ _ _, ok None
|}.
#[local] Instance wo_jwt : JWT := {|
  Keyfunc := unit; ParseUnverified := λ _, ok zeroval; ParseWithClaims := λ _ _ _ _ _, ok zeroval
|}.

Definition wo_id (r : Z) : Z := r.
Definition wo_uri : string := "http://localhost/cb".
Definition wo_parse (u : string) : option URL :=
  if u =s wo_uri then Some (mkURL "http" "localhost" "localhost" "") else None.
Definition wo_cfg : OAuthConfig := mkOAuthConfig "" [] 600 1 24 "" [] true "admin" "literal:pw" "bucket".
Definition wo_gcfg : GatewayConfig := mkGatewayConfig [] [] (mkTeleportConfig false "" "") [] false "".
Definition wo_net : Net := mkNet (λ _, inl tt) (λ _ _, inr (NewError "offline")).
Definition wo_http : Request := mkRequest "" "" "" "" false.
Definition wo_env (seed : string) (i j : nat) : Env :=
  mkEnv (λ k, 1000%Z) (λ k, seed +:+ pretty i +:+ pretty j +:+ pretty k)
    (λ k, Some (seed +:+ pretty i +:+ pretty j +:+ pretty k)).
Definition wo_call (seed : string) (req : oauth_req) : call := mkCall (wo_env seed) wo_net wo_http req.

Definition wo_serve : call → OState → OState * oauth_resp :=
  serve wo_id wo_id (λ s, s) wo_parse (λ _, false) (λ _, "") (λ _, inl ("", "")) wo_cfg wo_gcfg.
Definition wo_served : OState → list event → OState → Prop :=
  served wo_id wo_id (λ s, s) wo_parse (λ _, false) (λ _, "") (λ _, inl ("", "")) wo_cfg wo_gcfg.

Definition wo_st0 : OState := mkOState (NewInMemoryOStore tt) (Some (NewInMemoryStore tt)) NewProviderRouter.
Definition wo_c1 : call := wo_call "a" (ReqRegister [wo_uri] "client" "").
Definition wo_cid : string := "a200".
Definition wo_c2 : call := wo_call "b" (ReqAuthorize wo_cid wo_uri "code" "s" "" (b64_encode (Sum256 "verifier")) "S256").
Definition wo_sid : string := "b201".
Definition wo_c3 : call := wo_call "c" (ReqLogin wo_sid "admin" "pw").
Definition wo_code : string := b64_encode "c100".
Definition wo_c4 : call := wo_call "d" (ReqTokenCode wo_code wo_uri wo_cid "verifier").
Definition wo_st1 : OState := (wo_serve wo_c1 wo_st0).1.
Definition wo_st2 : OState := (wo_serve wo_c2 wo_st1).1.
Definition wo_st3 : OState := (wo_serve wo_c3 wo_st2).1.
Definition wo_st4 : OState := (wo_serve wo_c4 wo_st3).1.
Definition wo_tokens : TokenResponse :=
  match (wo_serve wo_c4 wo_st3).2 with RespTokens t => t | _ => mkTokenResponse "" 0 "" "" end.
Definition wo_trace : list event :=
  [mkEvent wo_c1 wo_st0 (wo_serve wo_c1 wo_st0).2; mkEvent wo_c2 wo_st1 (wo_serve wo_c2 wo_st1).2;
   mkEvent wo_c3 wo_st2 (wo_serve wo_c3 wo_st2).2].

Lemma wo_run : wo_served wo_st0 wo_trace wo_st3.
Proof.
  apply (served_snoc _ _ _ _ _ _ _ _ _ wo_st0 [_; _] wo_st2); [|apply surjective_pairing].
  apply (served_snoc _ _ _ _ _ _ _ _ _ wo_st0 [_] wo_st1); [|apply surjective_pairing].
  apply (served_snoc _ _ _ _ _ _ _ _ _ wo_st0 [] wo_st0); [constructor|apply surjective_pairing].
Qed.

Lemma wo_wf : access_wf wo_st3.
Proof.
  apply serve_access_wf; [|by eexists]. intros a Ha.
  assert (a = NewInMemoryStore tt) as ->; [|apply NewInMemoryStore_wf].
  assert (Some a = Some (NewInMemoryStore tt)) by (rewrite <- Ha; vm_compute; reflexivity). congruence.
Qed.

Lemma code_flow_integrity_witness :
  ∃ reg req log p, [reg; req; log] `sublist_of` wo_trace
    ∧ registered wo_id wo_parse wo_cfg reg wo_cid wo_uri
    ∧ requested req wo_cid wo_uri (b64_encode (Sum256 "verifier"))
    ∧ granted wo_id (λ s, s) (λ _, "") (λ _, inl ("", "")) wo_cfg wo_gcfg log p wo_uri wo_code
    ∧ ∃ a' tok, wo_st4.(os_access) = Some a' ∧ find_token a' wo_tokens.(TR_access_token) = Some tok
      ∧ tok.(AccessToken_OwnerSubjectKey) = SubjectKeyForPrincipal p ∧ tok.(AccessToken_RevokedAt) = None.
Proof.
  apply (code_flow_integrity wo_id wo_id (λ s, s) wo_parse (λ _, false) (λ _, "") (λ _, inl ("", "")) wo_cfg wo_gcfg
    (tt : @OD wo_db) (Some (NewInMemoryStore (tt : @DB no_postgres))) NewProviderRouter wo_trace wo_st3 wo_c4); [exact wo_run|exact wo_wf|reflexivity|].
  change (wo_serve wo_c4 wo_st3 = (wo_st4, RespTokens wo_tokens)).
  rewrite (surjective_pairing (wo_serve wo_c4 wo_st3)). apply (f_equal (pair wo_st4)). vm_compute. reflexivity.
Defined.

Definition wo_acode : AuthorizationCode := get0 (o_codes (os_store wo_st3)) wo_code.
Definition wo_c5 : call := wo_call "e" (ReqTokenCode wo_code wo_uri wo_cid "verifier").

Lemma code_single_use_witness :
  (wo_serve wo_c5 wo_st4).2 = RespError 400 "invalid_grant" "authorization code already used".
Proof.
  apply (code_single_use wo_id wo_id (λ s, s) wo_parse (λ _, false) (λ _, "") (λ _, inl ("", "")) wo_cfg wo_gcfg
    wo_st3 wo_c4 wo_acode wo_code wo_uri wo_cid "verifier" wo_st4 (wo_serve wo_c4 wo_st3).2 [] wo_st4 wo_c5
    wo_uri wo_cid "verifier");
    [vm_compute; reflexivity|reflexivity|vm_compute; reflexivity|vm_compute; reflexivity|vm_compute; discriminate
    |apply surjective_pairing|constructor|intros ev Hev; by apply elem_of_nil in Hev|reflexivity].
Defined.

Definition wo_subject : string := "user:internal:u".
Definition wo_input : CreateTokenInput := mkCreateTokenInput wo_subject "" AccessModeRead [] zeroval None "oauth_as".
Definition wo_access : Store := apply_op wo_id (OpCreateToken (wo_env "t" 0 0) wo_input) (NewInMemoryStore tt).
Definition wo_tok0 : AccessToken := get0 wo_access.(s_tokens) "t000".
Definition wo_rt : RefreshToken :=
  mkRefreshToken (HashOpaque "refresh") wo_cid wo_subject "t000" 5000 None 1.
Definition wo_rst : OState :=
  mkOState ((NewInMemoryOStore tt) <| o_refresh := {[ HashOpaque "refresh" := wo_rt ]} |>) (Some wo_access)
    NewProviderRouter.
Definition wo_c6 : call := wo_call "f" (ReqTokenRefresh "refresh" wo_cid).
Definition wo_c7 : call := wo_call "g" (ReqTokenRefresh "refresh" "").
Definition wo_rst1 : OState := (wo_serve wo_c6 wo_rst).1.

Lemma refresh_rotates_witness :
  ∃ rt a1 tok0, o_refresh (os_store wo_rst) !! HashOpaque "refresh" = Some rt ∧ wo_rst1.(os_access) = Some a1
    ∧ wo_access.(s_tokens) !! rt.(Refresh_AccessTokenID) = Some tok0 ∧ dead tok0.(AccessToken_TokenHash) a1
    ∧ (wo_serve wo_c7 wo_rst1).2 = RespError 400 "invalid_grant" "refresh token revoked".
Proof.
  destruct (refresh_rotates wo_id wo_id (λ s, s) wo_parse (λ _, false) (λ _, "") (λ _, inl ("", "")) wo_cfg wo_gcfg
    wo_rst wo_c6 wo_access "refresh" wo_cid wo_rst1
    (match (wo_serve wo_c6 wo_rst).2 with RespTokens t => t | _ => mkTokenResponse "" 0 "" "" end)
    [] wo_rst1 wo_c7 "") as (rt & a1 & Hrt & _ & _ & _ & Ha1 & _ & Hdead & Hagain);
    [reflexivity|reflexivity|apply apply_op_wf; [apply NewInMemoryStore_wf|by split]|reflexivity| | | |
    |reflexivity|].
  - change (wo_serve wo_c6 wo_rst = (wo_rst1, RespTokens (match (wo_serve wo_c6 wo_rst).2 with
      RespTokens t => t | _ => mkTokenResponse "" 0 "" "" end))).
    rewrite (surjective_pairing (wo_serve wo_c6 wo_rst)) at 1. apply (f_equal (pair wo_rst1)).
    vm_compute. reflexivity.
  - intros raw Hr. vm_compute in Hr. injection Hr as <-. vm_compute. discriminate.
  - constructor.
  - intros ev Hev. destruct (not_elem_of_nil _ Hev).
  - assert (rt = wo_rt) as -> by (assert (Some rt = Some wo_rt) by (rewrite <- Hrt; vm_compute; reflexivity); congruence).
    assert (Ht : s_tokens wo_access !! Refresh_AccessTokenID wo_rt = Some wo_tok0) by (vm_compute; reflexivity).
    exists wo_rt, a1, wo_tok0. split_and!; [exact Hrt|exact Ha1|exact Ht| |exact Hagain].
    apply (Hdead wo_tok0 Ht). vm_compute. discriminate.
Defined.
End Witnesses.
