(* ===== verification/AgentKeys.v ===== *)
(** [internal/agentkeys]: the public keys of agents. [store.go] (challenges,
    registration with proof of possession, revocation) and [canonical.go].

    Parameters: the signature schemes of the standard library ([Signatures]),
    [json.Marshal], the time format, Postgres ([AgentDB]) and Redis
    ([AgentRedis]). *)
From S2P Require Import Prelude GoStrings GoCrypto Models.
From Stdlib Require Import Floats.SpecFloat.

(** ** Canonical JSON (canonical.go) *)

(** [float64(t)] of an integer. *)
Definition float_of_int (z : Z) : spec_float := binary_normalize 53 1024 z 0 false.

(** [normalize] on the values [Any] holds; an object is its members. *)
Fixpoint normalize (v : Any) : Any :=
  match v with
  | AInt z => AFloat (float_of_int z)
  | AArray l => AArray (map normalize l)
  | AObject o =>
      AObject (sort_by (λ a b, sless a.1 b.1) (map (λ kv, (kv.1, normalize kv.2)) o))
  | _ => v
  end.

(** Signature schemes on a digest. [p256_unmarshal] is whether
    [elliptic.Unmarshal] gives a point. *)
Class Signatures := {
  ed25519_verify : string → string → string → bool;
  p256_unmarshal : string → bool;
  ecdsa_verify_asn1 : string → string → string → bool;
  ecdsa_verify : string → string → string → string → bool
}.

(** ** Records *)

Record AgentKey := mkAgentKey {
  Key_KeyID : string;
  Key_SubjectKey : string;
  Key_TokenID : string;
  Key_Algorithm : string;
  Key_PublicKey : string;
  Key_PublicKeyB64 : string;
  Key_CreatedAt : Time;
  Key_RevokedAt : option Time
}.
#[export] Instance settable_AgentKey : Settable AgentKey := λ k,
  mkAgentKey k.(Key_KeyID) k.(Key_SubjectKey) k.(Key_TokenID) k.(Key_Algorithm) k.(Key_PublicKey) k.(Key_PublicKeyB64)
    k.(Key_CreatedAt) k.(Key_RevokedAt).
#[export] Instance zero_AgentKey : Zero AgentKey := mkAgentKey "" "" "" "" "" "" 0 None.

Record Challenge := mkChallenge { Chal_Nonce : string; Chal_ExpiresAt : Time; Chal_Binder : string }.
#[export] Instance zero_Challenge : Zero Challenge := mkChallenge "" 0 "".

Record RegisterInput := mkRegisterInput {
  Reg_SubjectKey : string;
  Reg_TokenID : string;
  Reg_Algorithm : string;
  Reg_PublicKey : string;
  Reg_Nonce : string;
  Reg_Signature : string;
  Reg_Binder : string
}.

(** Key ownership: same subject, and a key with a token needs that token. *)
Definition BelongsToCaller (k : AgentKey) (subjectKey tokenID : string) : bool :=
  if k.(Key_SubjectKey) <>s subjectKey then false
  else if bool_decide (is_Some k.(Key_RevokedAt)) then false
  else if (k.(Key_TokenID) <>s "") && (tokenID <>s "") && (k.(Key_TokenID) <>s tokenID) then false
  else if (k.(Key_TokenID) <>s "") && (tokenID =s "") then false
  else true.

(** ** The store *)

(** [ad_revoke] gives the number of rows it changed. *)
Class AgentDB := {
  AD : Type;
  ad_insert : AgentKey → AD → AD * option error;
  ad_get : string → AD → ret (option AgentKey);
  ad_list : string → AD → ret (list AgentKey);
  ad_revoke : Time → string → string → AD → AD * ret Z
}.

Class AgentRedis := {
  AR : Type;
  ar_set : string → string → Duration → AR → AR * option error;
  ar_getdel : string → AR → AR * ret (option string)      (* [None]: [redis.Nil] *)
}.

Record KeyStore `{AgentDB, AgentRedis} := mkKeyStore {
  ak_mem : gmap string AgentKey;
  ak_challs : gmap string Challenge;
  ak_pool : option AD;
  ak_redis : option AR;
  ak_prefix : string
}.
#[export] Instance settable_KeyStore `{AgentDB, AgentRedis} : Settable KeyStore := λ s,
  mkKeyStore _ _ s.(ak_mem) s.(ak_challs) s.(ak_pool) s.(ak_redis) s.(ak_prefix).

Section Store.
Context `{AgentDB, AgentRedis, Signatures, GoRange}.
Context (json_marshal : Any → option string) (rfc3339nano : Time → string) (quote : string → string).
Implicit Types (s : KeyStore) (e : Env).

Definition NewKeyStore (pool : option AD) (redis : option AR) (prefix : string) : KeyStore :=
  mkKeyStore _ _ ∅ ∅ pool redis prefix.

Definition canonicalJSON (v : Any) : option string := json_marshal (normalize v).

Definition challengeKey s (nonce : string) : string := s.(ak_prefix) +:+ ":agentkey:chal:" +:+ nonce.

Definition CreateChallenge e s (binder : string) (ttl : Duration) : KeyStore * ret Challenge :=
  if binder =s "" then (s, fails zeroval (NewError "binder required"))
  else
    let ttl := if (ttl <=? 0)%Z then (5 * Minute)%Z else ttl in
    let ch := mkChallenge (uuid e 0) (now e 0 + ttl)%Z binder in
    match s.(ak_redis) with
    | Some r =>
        match ar_set (challengeKey s ch.(Chal_Nonce))
                (binder +:+ "|" +:+ rfc3339nano ch.(Chal_ExpiresAt)) ttl r with
        | (r, Some err) => (s <| ak_redis := Some r |>, fails zeroval err)
        | (r, None) => (s <| ak_redis := Some r |>, ok ch)
        end
    | None => (s <| ak_challs := <[ch.(Chal_Nonce) := ch]> s.(ak_challs) |>, ok ch)
    end.

Definition errNoChallenge : error := NewError "challenge not found or expired".
Definition errBinder : error := NewError "challenge binder mismatch".

Definition ConsumeChallenge (t : Time) s (nonce binder : string) : KeyStore * option error :=
  if nonce =s "" then (s, Some (NewError "nonce required"))
  else match s.(ak_redis) with
  | Some r =>
      let '(r, res) := ar_getdel (challengeKey s nonce) r in
      let s := s <| ak_redis := Some r |> in
      match res with
      | (_, Some err) => (s, Some err)
      | (None, None) => (s, Some errNoChallenge)
      | (Some val, None) =>
          let '(before, _, found) := Cut val "|" in
          let storedBinder := if found : bool then before else val in
          if storedBinder <>s binder then (s, Some errBinder) else (s, None)
      end
  | None =>
      match s.(ak_challs) !! nonce with
      | None => (s <| ak_challs := delete nonce s.(ak_challs) |>, Some errNoChallenge)
      | Some ch =>
          if After t ch.(Chal_ExpiresAt)
          then (s <| ak_challs := delete nonce s.(ak_challs) |>, Some errNoChallenge)
          else if ch.(Chal_Binder) <>s binder then (s, Some errBinder)
          else (s <| ak_challs := delete nonce s.(ak_challs) |>, None)
      end
  end.

Definition verifyEd25519 (pub : string) (envelope : Any) (sig : string) : bool :=
  match canonicalJSON envelope with
  | None => false
  | Some raw => ed25519_verify pub (Sum256 raw) sig
  end.

Definition verifyECDSAP256 (pub : string) (envelope : Any) (sig : string) : bool :=
  if negb (p256_unmarshal pub) then false
  else match canonicalJSON envelope with
  | None => false
  | Some raw =>
      let sum := Sum256 raw in
      if ecdsa_verify_asn1 pub sum sig then true
      else if (slen sig =? 64)%Z then ecdsa_verify pub sum (take_bytes 32 sig) (drop_bytes 32 sig)
      else false
  end.

(** What a registration signs. *)
Definition proofEnvelope (inp : RegisterInput) : Any :=
  AObject ([("nonce", AString inp.(Reg_Nonce)); ("publicKey", AString (b64_encode inp.(Reg_PublicKey)))]
    ++ if inp.(Reg_TokenID) <>s "" then [("tokenId", AString inp.(Reg_TokenID))]
       else [("sessionId", AString inp.(Reg_Binder))]).

Definition proofOK (alg : string) (inp : RegisterInput) : bool :=
  if alg =s "ed25519" then verifyEd25519 inp.(Reg_PublicKey) (proofEnvelope inp) inp.(Reg_Signature)
  else if alg =s "ecdsa-p256" then verifyECDSAP256 inp.(Reg_PublicKey) (proofEnvelope inp) inp.(Reg_Signature)
  else false.

(** The switch on the algorithm, before the challenge is consumed. *)
Definition checkAlgorithm (alg pub : string) : option error :=
  if alg =s "ed25519" then
    if (slen pub =? 32)%Z then None else Some (NewError "invalid ed25519 public key length")
  else if alg =s "ecdsa-p256" then
    if p256_unmarshal pub then None else Some (NewError "invalid ecdsa-p256 public key")
  else Some (NewError ("unsupported algorithm " +:+ quote alg)).

Definition Register e s (inp : RegisterInput) : KeyStore * ret AgentKey :=
  if (inp.(Reg_SubjectKey) =s "") || (slen inp.(Reg_PublicKey) =? 0)%Z || (inp.(Reg_Nonce) =s "")
     || (slen inp.(Reg_Signature) =? 0)%Z
  then (s, fails zeroval (NewError "subjectKey, publicKey, nonce, and signature required"))
  else
    let alg := if inp.(Reg_Algorithm) =s "" then "ed25519" else inp.(Reg_Algorithm) in
    match checkAlgorithm alg inp.(Reg_PublicKey) with
    | Some err => (s, fails zeroval err)
    | None =>
        match ConsumeChallenge (now e 0) s inp.(Reg_Nonce) inp.(Reg_Binder) with
        | (s, Some err) => (s, fails zeroval err)
        | (s, None) =>
            if negb (proofOK alg inp) then (s, fails zeroval (NewError "invalid proof-of-possession signature"))
            else
              let key := mkAgentKey ("k_" +:+ uuid e 0) inp.(Reg_SubjectKey) inp.(Reg_TokenID) alg inp.(Reg_PublicKey)
                           (b64_encode inp.(Reg_PublicKey)) (now e 1) None in
              match s.(ak_pool) with
              | None => (s <| ak_mem := <[key.(Key_KeyID) := key]> s.(ak_mem) |>, ok key)
              | Some d =>
                  match ad_insert key d with
                  | (d, Some err) => (s <| ak_pool := Some d |>, fails zeroval err)
                  | (d, None) => (s <| ak_pool := Some d |>, ok key)
                  end
              end
        end
    end.

Definition GetKey s (keyID : string) : ret (option AgentKey) :=
  match s.(ak_pool) with
  | None => ok (s.(ak_mem) !! keyID)
  | Some d => ad_get keyID d
  end.

Definition ListForSubject s (subjectKey : string) : ret (list AgentKey) :=
  match s.(ak_pool) with
  | None => ok (List.filter (λ k, k.(Key_SubjectKey) =s subjectKey) (range_vals s.(ak_mem)))
  | Some d => ad_list subjectKey d
  end.

Definition errKeyNotFound : error := NewError "key not found".

Definition RevokeKey (t : Time) s (keyID subjectKey : string) : KeyStore * option error :=
  match s.(ak_pool) with
  | None =>
      match s.(ak_mem) !! keyID with
      | None => (s, Some errKeyNotFound)
      | Some k =>
          if k.(Key_SubjectKey) <>s subjectKey then (s, Some errKeyNotFound)
          else (s <| ak_mem := <[keyID := k <| Key_RevokedAt := Some t |>]> s.(ak_mem) |>, None)
      end
  | Some d =>
      match ad_revoke t keyID subjectKey d with
      | (d, (_, Some err)) => (s <| ak_pool := Some d |>, Some err)
      | (d, (n, None)) => (s <| ak_pool := Some d |>, if (n =? 0)%Z then Some errKeyNotFound else None)
      end
  end.

End Store.
