(* ===== verification/SecureBus.v ===== *)
(** [internal/securebus]: signed topics. [policy.go] (policy documents),
    [filter.go] (conditions), [canonical.go] (what is signed), [signer.go]
    (the server's signature on policies), [service.go] and [consume.go] (the
    service, in memory and in Postgres).

    Parameters: the signature schemes, JSON encoding and decoding, time
    formats, base64 decoding, the database ([SecureBusDB], one function per
    statement). The keys of agents are behind the interface [KeyLookup]. *)
From S2P Require Import Prelude GoStrings GoCrypto Models DataObj AccessObjects PolicyScope AgentKeys.
From Stdlib Require Import Floats.SpecFloat.

(** ** Policy documents (policy.go) *)

Definition PolicySchemaID : string := "synamcps.securebus.policy/v1".

Record AgentRef := mkAgentRef { Agent_KeyID : string; Agent_Alg : string; Agent_PublicKey : string }.
#[export] Instance zero_AgentRef : Zero AgentRef := mkAgentRef "" "" "".

Record Rules := mkRules { Rules_Publish : list string; Rules_Attest : list string; Rules_Subscribe : list string }.

Record AttestationPolicy := mkAttestationPolicy {
  AP_Statuses : list string;
  AP_CommentMaxBytes : Z;
  AP_Supersede : bool
}.

Record ConditionRequire := mkConditionRequire { Require_Agent : string; Require_Status : string }.

Record Condition := mkCondition {
  Cond_Authors : list string;
  Cond_Require : list ConditionRequire;
  Cond_MinOk : Z;
  Cond_AnyDeny : option bool;
  Cond_Mode : string
}.

Record Document := mkDocument {
  Doc_Schema : string;
  Doc_TopicID : string;
  Doc_Version : Z;
  Doc_IssuedAt : string;
  Doc_Chain : bool;
  Doc_Agents : gmap string AgentRef;
  Doc_Rules : Rules;
  Doc_Attestation : AttestationPolicy;
  Doc_Conditions : gmap string Condition
}.
#[export] Instance settable_Document : Settable Document := λ d,
  mkDocument d.(Doc_Schema) d.(Doc_TopicID) d.(Doc_Version) d.(Doc_IssuedAt) d.(Doc_Chain) d.(Doc_Agents)
    d.(Doc_Rules) d.(Doc_Attestation) d.(Doc_Conditions).
#[export] Instance zero_Document : Zero Document :=
  mkDocument "" "" 0 "" false ∅ (mkRules [] [] []) (mkAttestationPolicy [] 0 false) ∅.

Record SignedPolicy := mkSignedPolicy {
  SP_Document : Document;
  SP_Hash : string;
  SP_Signature : string;
  SP_SignerKID : string;
  SP_Version : Z;
  SP_CreatedAt : Time
}.
#[export] Instance zero_SignedPolicy : Zero SignedPolicy := mkSignedPolicy zeroval "" "" "" 0 0.

(** The first error of a loop. *)
Definition first_error {A} (f : A → option error) (l : list A) : option error :=
  foldl (λ acc x, match acc with Some err => Some err | None => f x end) None l.

Section Policy.
Context `{GoRange}.
Context (quote : string → string).

Definition checkAgent (na : string * AgentRef) : option error :=
  let '(name, a) := na in
  if (name =s "") || (a.(Agent_KeyID) =s "") || (a.(Agent_PublicKey) =s "")
  then Some (NewError ("invalid agent " +:+ quote name))
  else if (a.(Agent_Alg) <>s "ed25519") && (a.(Agent_Alg) <>s "ecdsa-p256")
  then Some (NewError ("unsupported alg " +:+ quote a.(Agent_Alg) +:+ " for agent " +:+ quote name))
  else None.

Definition checkNames (doc : Document) (role : string) (names : list string) : option error :=
  first_error (λ n, match doc.(Doc_Agents) !! n with
                    | Some _ => None
                    | None => Some (NewError ("rules." +:+ role +:+ " references unknown agent " +:+ quote n))
                    end) names.

Definition checkCondition (doc : Document) (nc : string * Condition) : option error :=
  let '(name, c) := nc in
  match first_error (λ a, match doc.(Doc_Agents) !! a with
                          | Some _ => None
                          | None => Some (NewError ("condition " +:+ quote name +:+ " author unknown agent " +:+ quote a))
                          end) c.(Cond_Authors) with
  | Some err => Some err
  | None =>
      first_error (λ r, match doc.(Doc_Agents) !! r.(Require_Agent) with
                        | None => Some (NewError ("condition " +:+ quote name +:+ " require unknown agent "
                                                  +:+ quote r.(Require_Agent)))
                        | Some _ =>
                            if (r.(Require_Status) <>s "ok") && (r.(Require_Status) <>s "deny")
                            then Some (NewError ("condition " +:+ quote name +:+ " invalid status "
                                                 +:+ quote r.(Require_Status)))
                            else None
                        end) c.(Cond_Require)
  end.

(** The defaults it sets are on its own copy of the document and are lost. *)
Definition ValidateDocument (doc : Document) : option error :=
  if doc.(Doc_Schema) <>s PolicySchemaID
  then Some (NewError ("unsupported policy schema " +:+ quote doc.(Doc_Schema)))
  else if doc.(Doc_TopicID) =s "" then Some (NewError "topicId required")
  else if (doc.(Doc_Version) <? 1)%Z then Some (NewError "version must be >= 1")
  else if doc.(Doc_IssuedAt) =s "" then Some (NewError "issuedAt required")
  else if bool_decide (doc.(Doc_Agents) = ∅) then Some (NewError "agents required")
  else match first_error checkAgent (range_map doc.(Doc_Agents)) with
  | Some err => Some err
  | None =>
  match checkNames doc "publish" doc.(Doc_Rules).(Rules_Publish) with
  | Some err => Some err
  | None =>
  match checkNames doc "attest" doc.(Doc_Rules).(Rules_Attest) with
  | Some err => Some err
  | None =>
  match checkNames doc "subscribe" doc.(Doc_Rules).(Rules_Subscribe) with
  | Some err => Some err
  | None => first_error (checkCondition doc) (range_map doc.(Doc_Conditions))
  end end end end.

(** [None] for the result [false]. *)
Definition AgentNameForKey (d : Document) (keyID : string) : option string :=
  fst <$> List.find (λ na, na.2.(Agent_KeyID) =s keyID) (range_map d.(Doc_Agents)).

Definition May (d : Document) (rule agentName : string) : bool :=
  let listed l := existsb (λ n, n =s agentName) l in
  if rule =s "publish" then listed d.(Doc_Rules).(Rules_Publish)
  else if rule =s "attest" then listed d.(Doc_Rules).(Rules_Attest)
  else if rule =s "subscribe" then listed d.(Doc_Rules).(Rules_Subscribe)
  else false.

End Policy.

(** ** Conditions (filter.go) *)

Record AttestationView := mkAttestationView { AV_AgentName : string; AV_KeyID : string; AV_Status : string }.
Record MessageView := mkMessageView {
  MV_AuthorKeyID : string;
  MV_AuthorName : string;
  MV_Attestations : list AttestationView
}.

(** The last status of each agent. *)
Definition latestStatus (l : list AttestationView) : gmap string string :=
  foldl (λ m a, <[a.(AV_AgentName) := a.(AV_Status)]> m) ∅ l.

(** The mode only decides between branches that all give [true]. *)
Definition MatchCondition (cond : Condition) (msg : MessageView) : bool :=
  let listed l x := existsb (λ n, n =s x) l in
  if negb (bool_decide (cond.(Cond_Authors) = [])) && negb (listed cond.(Cond_Authors) msg.(MV_AuthorName))
  then false
  else
    let latest := latestStatus msg.(MV_Attestations) in
    let statuses := (map_to_list latest).*2 in
    let okCount := Z.of_nat (length (List.filter (λ st, st =s "ok") statuses)) in
    let hasDeny := existsb (λ st, st =s "deny") statuses in
    match cond.(Cond_AnyDeny) with
    | Some true => hasDeny
    | anyDeny =>
        if match anyDeny with Some false => hasDeny | _ => false end then false
        else if negb (forallb (λ r, get0 latest r.(Require_Agent) =s r.(Require_Status)) cond.(Cond_Require))
        then false
        else if (0 <? cond.(Cond_MinOk))%Z && (okCount <? cond.(Cond_MinOk))%Z then false
        else true
    end.

Definition ErrUnknownCondition : error := Sentinel "securebus" "unknown condition".

(** ** The service's data (service.go) *)

Definition ErrInvalidSignature : error := Sentinel "securebus" "invalid signature".
Definition ErrForbiddenByPolicy : error := Sentinel "securebus" "forbidden by topic policy".
Definition ErrStalePolicy : error := Sentinel "securebus" "stale policy version".
Definition ErrKeyNotAllowed : error := Sentinel "securebus" "key not allowed for caller".
Definition securebus_ErrNotFound : error := Sentinel "securebus" "not found".

Record SBMessage := mkSBMessage {
  Msg_ID : Z;
  Msg_ObjectID : string;
  Msg_AuthorKeyID : string;
  Msg_PolicyVersion : Z;
  Msg_PolicyHash : string;
  Msg_Nonce : string;
  Msg_Payload : gmap string Any;
  Msg_Hash : string;
  Msg_PrevHash : string;
  Msg_Signature : string;
  Msg_CreatedAt : Time
}.
#[export] Instance settable_SBMessage : Settable SBMessage := λ m,
  mkSBMessage m.(Msg_ID) m.(Msg_ObjectID) m.(Msg_AuthorKeyID) m.(Msg_PolicyVersion) m.(Msg_PolicyHash) m.(Msg_Nonce)
    m.(Msg_Payload) m.(Msg_Hash) m.(Msg_PrevHash) m.(Msg_Signature) m.(Msg_CreatedAt).
#[export] Instance zero_SBMessage : Zero SBMessage := mkSBMessage 0 "" "" 0 "" "" ∅ "" "" "" 0.

Record Attestation := mkAttestation {
  Att_ID : Z;
  Att_ObjectID : string;
  Att_MessageID : Z;
  Att_SignerKeyID : string;
  Att_PolicyVersion : Z;
  Att_Status : string;
  Att_Comment : string;
  Att_MessageHash : string;
  Att_Signature : string;
  Att_CreatedAt : Time;
  Att_SupersededAt : option Time
}.
#[export] Instance settable_Attestation : Settable Attestation := λ a,
  mkAttestation a.(Att_ID) a.(Att_ObjectID) a.(Att_MessageID) a.(Att_SignerKeyID) a.(Att_PolicyVersion)
    a.(Att_Status) a.(Att_Comment) a.(Att_MessageHash) a.(Att_Signature) a.(Att_CreatedAt) a.(Att_SupersededAt).
#[export] Instance zero_Attestation : Zero Attestation := mkAttestation 0 "" 0 "" 0 "" "" "" "" 0 None.

Record SBEvent := mkSBEvent {
  Ev_ID : Z;
  Ev_ObjectID : string;
  Ev_Kind : string;
  Ev_MessageID : Z;
  Ev_AttestationID : option Z;
  Ev_CreatedAt : Time
}.

Record Subscription := mkSubscription {
  Sub_Consumer : string;
  Sub_Filter : gmap string Any;
  Sub_LastEventID : Z
}.
#[export] Instance zero_Subscription : Zero Subscription := mkSubscription "" ∅ 0.

Record PublishInput := mkPublishInput {
  Pub_KeyID : string;
  Pub_SubjectKey : string;
  Pub_TokenID : string;
  Pub_PolicyVersion : Z;
  Pub_PolicyHash : string;
  Pub_Nonce : string;
  Pub_CreatedAt : Time;
  Pub_Payload : option (gmap string Any);
  Pub_Signature : string;
  Pub_PrevHash : string
}.

Record AttestInput := mkAttestInput {
  AI_KeyID : string;
  AI_SubjectKey : string;
  AI_TokenID : string;
  AI_MessageID : Z;
  AI_PolicyVersion : Z;
  AI_Status : string;
  AI_Comment : string;
  AI_CreatedAt : Time;
  AI_Signature : string
}.

(** The interface [KeyLookup] to the keys of agents. *)
Class KeyLookup (K : Type) := key_get : K → string → ret (option AgentKey).

#[export] Instance KeyStore_lookup `{AgentDB, AgentRedis} : KeyLookup KeyStore := GetKey.

(** The server's key for policies; an empty private key is not configured. *)
Record PolicySigner := mkPolicySigner { PS_KID : string; PS_Priv : string }.

(** A row of securebus_policies: the document is its JSON text. *)
Record PolicyRow := mkPolicyRow {
  Row_Version : Z;
  Row_Document : string;
  Row_Hash : string;
  Row_Signature : string;
  Row_SignerKID : string;
  Row_CreatedAt : Time
}.

(** The statements, in an open transaction. A query that finds no row and one
    that fails are one to the code where it maps both to an error. *)
Class SecureBusDB := {
  SD : Type;
  sd_max_version : string → SD → option Z;
  sd_insert_policy : string → PolicyRow → string → SD → SD * option error;
  sd_update_config : string → gmap string Any → Time → SD → SD * option error;
  sd_policy : string → option Z → SD → option PolicyRow;       (* [None]: the newest *)
  sd_last_hash : string → SD → option string;
  sd_insert_message : string → SBMessage → SD → SD * ret Z;
  sd_insert_event : string → string → Z → option Z → Time → SD → SD * option error;
  sd_supersede : string → Z → string → Time → SD → SD;
  sd_insert_attestation : string → Attestation → SD → SD * ret Z;
  sd_message : string → Z → SD → option SBMessage;
  sd_attestations : string → Z → SD → ret (list Attestation);
  sd_live_statuses : string → Z → SD → ret (list (string * string));
  sd_sub_last : string → string → SD → Z;                      (* 0 without a row *)
  sd_sub_upsert : string → string → gmap string Any → Z → SD → SD;
  sd_sub_set_last : string → string → Z → SD → SD * option error;
  sd_events_after : string → Z → Z → SD → ret (list (Z * Z));  (* id and message id, in order *)
  sd_delivered : string → string → Z → SD → bool;
  sd_deliver : string → string → Z → SD → SD;
  sd_commit : SD → option error
}.

Record SBService `{SecureBusDB} := mkSBService {
  sb_policies : gmap string (list SignedPolicy);
  sb_messages : gmap string (list SBMessage);
  sb_attests : gmap string (list Attestation);
  sb_events : gmap string (list SBEvent);
  sb_subs : gmap string (gmap string Subscription);
  sb_delivered : gmap string (gmap string (gset Z));
  sb_db : SD
}.
#[export] Instance settable_SBService `{SecureBusDB} : Settable SBService := λ s,
  mkSBService _ s.(sb_policies) s.(sb_messages) s.(sb_attests) s.(sb_events) s.(sb_subs) s.(sb_delivered) s.(sb_db).
#[export] Instance zero_delivered : Zero (gset Z) := (∅ : gset Z).

Section Service.
Context `{SecureBusDB, GoRange, Signatures} {K : Type} `{!KeyLookup K}.
Context (quote : string → string) (rfc3339 rfc3339nano : Time → string).
(** [json.Marshal] of a value; the value a document and a condition have as
    JSON; decoding a document and a condition. *)
Context (json_marshal : Any → option string) (document_json : Document → Any).
Context (document_parse : string → Document + error) (condition_decode : gmap string Any → Condition + error).
Context (b64url_decode b64std_decode : string → option string).
(** [ed25519.Sign] *)
Context (ed25519_sign : string → string → string).
Context (signer : option PolicySigner) (graceSeconds : Z).
Implicit Types (s : SBService) (k : K).

Definition NewSBService (d : SD) : SBService := mkSBService _ ∅ ∅ ∅ ∅ ∅ ∅ d.

Definition grace : Duration :=
  let g := wrap64 (graceSeconds * Second) in if (g <=? 0)%Z then (5 * Minute)%Z else g.

(** ** What is hashed and signed (canonical.go, signer.go) *)

Definition CanonicalJSON (v : Any) : option string := json_marshal (normalize v).

Definition HashCanonical (v : Any) : option string := Sum256 <$> CanonicalJSON v.

Definition VerifyEd25519 (pub : string) (envelope : Any) (sig : string) : bool :=
  match HashCanonical envelope with None => false | Some h => ed25519_verify pub h sig end.

Definition VerifyAgentSig (alg pub sig : string) (envelope : Any) : bool :=
  if (alg =s "") || (alg =s "ed25519") then VerifyEd25519 pub envelope sig
  else if alg =s "ecdsa-p256" then
    if negb (p256_unmarshal pub) then false
    else match HashCanonical envelope with
    | None => false
    | Some h =>
        if ecdsa_verify_asn1 pub h sig then true
        else if (slen sig =? 64)%Z then ecdsa_verify pub h (take_bytes 32 sig) (drop_bytes 32 sig)
        else false
    end
  else false.

Definition B64 (b : string) : string := b64_encode b.

Definition DecodeB64 (s : string) : option string :=
  if s =s "" then None
  else match b64url_decode s with Some out => Some out | None => b64std_decode s end.

Definition SignDocument (doc : Document) : ret (string * string) :=
  match signer with
  | None => fails ("", "") (NewError "policy signer not configured")
  | Some sg =>
      if sg.(PS_Priv) =s "" then fails ("", "") (NewError "policy signer not configured")
      else match HashCanonical (document_json doc) with
      | None => fails ("", "") (NewError "json")
      | Some hash => ok (hash, ed25519_sign sg.(PS_Priv) hash)
      end
  end.

Definition signerKID : string := match signer with Some sg => sg.(PS_KID) | None => "" end.

Definition messageEnvelope (objectID : string) (version : Z) (policyHash keyID nonce : string) (createdAt : Time)
    (payload : gmap string Any) (prevHash : string) : Any :=
  AObject ([("objectId", AString objectID); ("policyVersion", AFloat (float_of_int version));
            ("policyHash", AString policyHash); ("authorKeyId", AString keyID); ("nonce", AString nonce);
            ("createdAt", AString (rfc3339nano createdAt)); ("payload", AObject (map_to_list payload))]
           ++ if prevHash <>s "" then [("prevHash", AString prevHash)] else []).

Definition attestationEnvelope (messageID : Z) (messageHash : string) (version : Z) (keyID status comment : string)
    (createdAt : Time) : Any :=
  AObject [("messageId", AFloat (float_of_int messageID)); ("messageHash", AString messageHash);
           ("policyVersion", AFloat (float_of_int version)); ("signerKeyId", AString keyID);
           ("status", AString status); ("comment", AString comment);
           ("createdAt", AString (rfc3339nano createdAt))].

(** ** Policies *)

Definition ParseDocument (raw : string) : Document + error :=
  match document_parse raw with
  | inr err => inr err
  | inl doc => match ValidateDocument quote doc with Some err => inr err | None => inl doc end
  end.

Definition policyOfRow (row : PolicyRow) : SignedPolicy + error :=
  match ParseDocument row.(Row_Document) with
  | inr err => inr err
  | inl doc => inl (mkSignedPolicy doc (B64 row.(Row_Hash)) (B64 row.(Row_Signature)) row.(Row_SignerKID)
                      row.(Row_Version) row.(Row_CreatedAt))
  end.

Definition readPolicy (d : SD) (id : string) (version : option Z) : ret SignedPolicy :=
  match sd_policy id version d with
  | None => fails zeroval securebus_ErrNotFound
  | Some row => match policyOfRow row with inl sp => ok sp | inr err => fails zeroval err end
  end.

(** The scope of an operation, after the check of its kind. *)
Definition sb_scope (scope : option Scope) : option Scope :=
  match scope with
  | Some sc => if sc.(Scope_Object).(DataObject_Kind) =s ObjectKindSecureBus then Some sc else None
  | None => None
  end.

Definition sb_id (sc : Scope) : string := sc.(Scope_Object).(DataObject_ID).

(** [scope.Commit] of a transaction in state [d]. *)
Definition sb_commit s (d : SD) : SBService * option error :=
  match sd_commit d with
  | None => (s <| sb_db := d |>, None)
  | Some err => (s, Some err)
  end.

(** The keys of the agents of a policy exist and are not revoked. *)
Definition checkAgentKeys k (doc : Document) : option error :=
  first_error (λ a, match key_get k a.(Agent_KeyID) with
                    | (_, Some err) => Some err
                    | (key, None) =>
                        let bad := Some (NewError ("agent key " +:+ quote a.(Agent_KeyID) +:+ " missing or revoked")) in
                        match key with
                        | None => bad
                        | Some key => if bool_decide (is_Some key.(Key_RevokedAt)) then bad else None
                        end
                    end) (range_vals doc.(Doc_Agents)).

Definition PutPolicy (e : Env) s k (scope : option Scope) (doc : Document) (createdBy : string)
    : SBService * ret SignedPolicy :=
  match sb_scope scope with
  | None => (s, fails zeroval policy.ErrKindMismatch)
  | Some sc =>
      let id := sb_id sc in
      let doc := doc <| Doc_TopicID := id |> <| Doc_Schema := PolicySchemaID |> in
      let doc := if doc.(Doc_IssuedAt) =s "" then doc <| Doc_IssuedAt := rfc3339 (now e 0) |> else doc in
      match ValidateDocument quote doc with
      | Some err => (s, fails zeroval err)
      | None =>
      match checkAgentKeys k doc with
      | Some err => (s, fails zeroval err)
      | None =>
          if in_memory sc then
            let vers := get0 s.(sb_policies) id in
            let next := match last vers with Some sp => (sp.(SP_Version) + 1)%Z | None => 1%Z end in
            let doc := doc <| Doc_Version := next |> in
            match SignDocument doc with
            | (_, Some err) => (s, fails zeroval err)
            | ((hash, sig), None) =>
                let sp := mkSignedPolicy doc (B64 hash) (B64 sig) signerKID next (now e 1) in
                (s <| sb_policies := <[id := vers ++ [sp]]> s.(sb_policies) |>, ok sp)
            end
          else
            let next := match sd_max_version id s.(sb_db) with Some v => (v + 1)%Z | None => 1%Z end in
            let doc := doc <| Doc_Version := next |> in
            match SignDocument doc with
            | (_, Some err) => (s, fails zeroval err)
            | ((hash, sig), None) =>
                let t := now e 1 in
                let raw := default "" (json_marshal (document_json doc)) in
                match sd_insert_policy id (mkPolicyRow next raw hash sig signerKID t) createdBy s.(sb_db) with
                | (_, Some err) => (s, fails zeroval err)
                | (d, None) =>
                    let cfg := <["policyVersion" := AInt next]> (default ∅ sc.(Scope_Object).(DataObject_Config)) in
                    match sd_update_config id cfg t d with
                    | (_, Some err) => (s, fails zeroval err)
                    | (d, None) =>
                        let '(s, err) := sb_commit s d in
                        (s, (mkSignedPolicy doc (B64 hash) (B64 sig) signerKID next t, err))
                    end
                end
            end
      end end
  end.

Definition GetPolicy s (scope : option Scope) (version : Z) : SBService * ret SignedPolicy :=
  match sb_scope scope with
  | None => (s, fails zeroval policy.ErrKindMismatch)
  | Some sc =>
      let id := sb_id sc in
      if in_memory sc then
        let vers := get0 s.(sb_policies) id in
        (s, match last vers with
            | None => fails zeroval securebus_ErrNotFound
            | Some latest =>
                if (version <=? 0)%Z then ok latest
                else match List.find (λ sp, (sp.(SP_Version) =? version)%Z) vers with
                | Some sp => ok sp
                | None => fails zeroval securebus_ErrNotFound
                end
            end)
      else match readPolicy s.(sb_db) id (if (0 <? version)%Z then Some version else None) with
      | (_, Some err) => (s, fails zeroval err)
      | (sp, None) => let '(s, err) := sb_commit s s.(sb_db) in (s, (sp, err))
      end
  end.

Definition currentPolicy s (sc : Scope) : ret SignedPolicy :=
  if in_memory sc then (GetPolicy s (Some sc) 0).2 else readPolicy s.(sb_db) (sb_id sc) None.

Definition loadPolicyVersion s (sc : Scope) (version : Z) : ret SignedPolicy :=
  if in_memory sc then
    match List.find (λ sp, (sp.(SP_Version) =? version)%Z) (get0 s.(sb_policies) (sb_id sc)) with
    | Some sp => ok sp
    | None => fails zeroval securebus_ErrNotFound
    end
  else readPolicy s.(sb_db) (sb_id sc) (Some version).

(** [t]: the reading of the clock in [time.Since]. *)
Definition acceptPolicyVersion (t : Time) (current : SignedPolicy) (wantVersion : Z) (wantHash : string)
    : option error :=
  if (wantVersion =? current.(SP_Version))%Z && ((wantHash =s "") || (wantHash =s current.(SP_Hash))) then None
  else if (wantVersion =? current.(SP_Version) - 1)%Z && (t - current.(SP_CreatedAt) <=? grace)%Z then None
  else Some ErrStalePolicy.

(** The checks [Publish] and [Attest] begin with: the key is the caller's, the
    policy version is accepted, and its rules let the key's agent act. *)
Definition authorizeKey (t : Time) s k (sc : Scope) (rule keyID subjectKey tokenID : string) (version : Z)
    (policyHash : string) : ret (AgentKey * SignedPolicy) :=
  let failed := fails (zeroval, zeroval) in
  match key_get k keyID with
  | (_, Some err) => failed err
  | (None, None) => failed ErrKeyNotAllowed
  | (Some key, None) =>
      if negb (BelongsToCaller key subjectKey tokenID) then failed ErrKeyNotAllowed
      else match currentPolicy s sc with
      | (_, Some err) => failed err
      | (cur, None) =>
      match acceptPolicyVersion t cur version policyHash with
      | Some err => failed err
      | None =>
      match loadPolicyVersion s sc version with
      | (_, Some err) => failed err
      | (pol, None) =>
          match AgentNameForKey pol.(SP_Document) keyID with
          | None => failed ErrForbiddenByPolicy
          | Some agentName =>
              if May pol.(SP_Document) rule agentName then ok (key, pol) else failed ErrForbiddenByPolicy
          end
      end end end
  end.

(** ** Publishing *)

Definition errPrevRequired : error := NewError "prevHash required when chain enabled".
Definition errPrevMismatch : error := NewError "prevHash mismatch".
Definition errPrevDB : error := NewError "prevHash required/mismatch when chain enabled".

(** The chain check in memory, on the last message of the topic: the message
    as it is stored. *)
Definition chainMessage (key : AgentKey) (sig : string) (chain : bool) (previous : option SBMessage)
    (m : SBMessage) : SBMessage + error :=
  match chain, previous with
  | true, Some prevMsg =>
      let prev := prevMsg.(Msg_Hash) in
      if m.(Msg_PrevHash) =s "" then
        let envelope := messageEnvelope m.(Msg_ObjectID) m.(Msg_PolicyVersion) m.(Msg_PolicyHash)
          m.(Msg_AuthorKeyID) m.(Msg_Nonce) m.(Msg_CreatedAt) m.(Msg_Payload) prev in
        if VerifyAgentSig key.(Key_Algorithm) key.(Key_PublicKey) sig envelope
        then inl (m <| Msg_PrevHash := prev |> <| Msg_Hash := B64 (default "" (HashCanonical envelope)) |>)
        else inr errPrevRequired
      else if m.(Msg_PrevHash) <>s prev then inr errPrevMismatch
      else inl m
  | _, _ => inl m
  end.

(** The message an input stands for, before it has an id. *)
Definition inputMessage (t : Time) (id : string) (inp : PublishInput) : SBMessage :=
  let createdAt := if IsZero inp.(Pub_CreatedAt) then t else inp.(Pub_CreatedAt) in
  let payload := default ∅ inp.(Pub_Payload) in
  let envelope := messageEnvelope id inp.(Pub_PolicyVersion) inp.(Pub_PolicyHash) inp.(Pub_KeyID) inp.(Pub_Nonce)
                    createdAt payload inp.(Pub_PrevHash) in
  mkSBMessage 0 id inp.(Pub_KeyID) inp.(Pub_PolicyVersion) inp.(Pub_PolicyHash) inp.(Pub_Nonce) payload
    (B64 (default "" (HashCanonical envelope))) inp.(Pub_PrevHash) inp.(Pub_Signature) createdAt.

(** The envelope of a message. *)
Definition envelopeOf (id : string) (m : SBMessage) : Any :=
  messageEnvelope id m.(Msg_PolicyVersion) m.(Msg_PolicyHash) m.(Msg_AuthorKeyID) m.(Msg_Nonce) m.(Msg_CreatedAt)
    m.(Msg_Payload) m.(Msg_PrevHash).

Definition appendMessage s (id : string) (m : SBMessage) : SBService * SBMessage :=
  let msgs := get0 s.(sb_messages) id in
  let evs := get0 s.(sb_events) id in
  let m := m <| Msg_ID := (Z.of_nat (length msgs) + 1)%Z |> in
  let ev := mkSBEvent (Z.of_nat (length evs) + 1) id "message_published" m.(Msg_ID) None m.(Msg_CreatedAt) in
  (s <| sb_messages := <[id := msgs ++ [m]]> s.(sb_messages) |>
     <| sb_events := <[id := evs ++ [ev]]> s.(sb_events) |>, m).

Definition Publish (e : Env) s k (scope : option Scope) (inp : PublishInput) : SBService * ret SBMessage :=
  match sb_scope scope with
  | None => (s, fails zeroval policy.ErrKindMismatch)
  | Some sc =>
      let id := sb_id sc in
      match authorizeKey (now e 0) s k sc "publish" inp.(Pub_KeyID) inp.(Pub_SubjectKey) inp.(Pub_TokenID)
              inp.(Pub_PolicyVersion) inp.(Pub_PolicyHash) with
      | (_, Some err) => (s, fails zeroval err)
      | ((key, pol), None) =>
          let msg := inputMessage (now e 1) id inp in
          match DecodeB64 inp.(Pub_Signature) with
          | None => (s, fails zeroval ErrInvalidSignature)
          | Some sig =>
              if negb (VerifyAgentSig key.(Key_Algorithm) key.(Key_PublicKey) sig (envelopeOf id msg))
              then (s, fails zeroval ErrInvalidSignature)
              else if in_memory sc then
                match chainMessage key sig pol.(SP_Document).(Doc_Chain) (last (get0 s.(sb_messages) id)) msg with
                | inr err => (s, fails zeroval err)
                | inl msg => let '(s, msg) := appendMessage s id msg in (s, ok msg)
                end
              else
                let prev := if pol.(SP_Document).(Doc_Chain) then default "" (sd_last_hash id s.(sb_db)) else "" in
                if (prev <>s "") && ((inp.(Pub_PrevHash) =s "") || (inp.(Pub_PrevHash) <>s B64 prev))
                then (s, fails zeroval errPrevDB)
                else match sd_insert_message id msg s.(sb_db) with
                | (_, (_, Some err)) => (s, fails zeroval err)
                | (d, (mid, None)) =>
                    let msg := msg <| Msg_ID := mid |> in
                    match sd_insert_event id "message_published" mid None msg.(Msg_CreatedAt) d with
                    | (_, Some err) => (s, fails zeroval err)
                    | (d, None) => let '(s, err) := sb_commit s d in (s, (msg, err))
                    end
                end
          end
      end
  end.

(** ** Attesting *)

Definition findMsg (msgs : list SBMessage) (id : Z) : option SBMessage :=
  List.find (λ m, (m.(Msg_ID) =? id)%Z) msgs.

Definition getMessage s (sc : Scope) (id : Z) : ret SBMessage :=
  let found := if in_memory sc then findMsg (get0 s.(sb_messages) (sb_id sc)) id
               else sd_message (sb_id sc) id s.(sb_db) in
  match found with Some m => ok m | None => fails zeroval securebus_ErrNotFound end.

(** An attestation of the same key on the same message is superseded. *)
Definition supersede (t : Time) (messageID : Z) (keyID : string) (a : Attestation) : Attestation :=
  if (a.(Att_MessageID) =? messageID)%Z && (a.(Att_SignerKeyID) =s keyID)
     && bool_decide (a.(Att_SupersededAt) = None)
  then a <| Att_SupersededAt := Some t |> else a.

Definition appendAttestation s (id : string) (a : Attestation) : SBService * Attestation :=
  let atts := supersede a.(Att_CreatedAt) a.(Att_MessageID) a.(Att_SignerKeyID) <$> get0 s.(sb_attests) id in
  let evs := get0 s.(sb_events) id in
  let a := a <| Att_ID := (Z.of_nat (length atts) + 1)%Z |> in
  let ev := mkSBEvent (Z.of_nat (length evs) + 1) id "attestation_added" a.(Att_MessageID) (Some a.(Att_ID))
              a.(Att_CreatedAt) in
  (s <| sb_attests := <[id := atts ++ [a]]> s.(sb_attests) |>
     <| sb_events := <[id := evs ++ [ev]]> s.(sb_events) |>, a).

Definition errStatus : error := NewError "status must be ok or deny".
Definition errComment : error := NewError "comment too long".

Definition Attest (e : Env) s k (scope : option Scope) (inp : AttestInput) : SBService * ret Attestation :=
  match sb_scope scope with
  | None => (s, fails zeroval policy.ErrKindMismatch)
  | Some sc =>
      let id := sb_id sc in
      match authorizeKey (now e 0) s k sc "attest" inp.(AI_KeyID) inp.(AI_SubjectKey) inp.(AI_TokenID)
              inp.(AI_PolicyVersion) "" with
      | (_, Some err) => (s, fails zeroval err)
      | ((key, pol), None) =>
          if (inp.(AI_Status) <>s "ok") && (inp.(AI_Status) <>s "deny") then (s, fails zeroval errStatus)
          else
            let limit := pol.(SP_Document).(Doc_Attestation).(AP_CommentMaxBytes) in
            let maxComment := if (limit =? 0)%Z then 4096%Z else limit in
            if (maxComment <? slen inp.(AI_Comment))%Z then (s, fails zeroval errComment)
            else match getMessage s sc inp.(AI_MessageID) with
            | (_, Some err) => (s, fails zeroval err)
            | (msg, None) =>
                let createdAt := if IsZero inp.(AI_CreatedAt) then now e 1 else inp.(AI_CreatedAt) in
                let envelope := attestationEnvelope inp.(AI_MessageID) msg.(Msg_Hash) inp.(AI_PolicyVersion)
                                  inp.(AI_KeyID) inp.(AI_Status) inp.(AI_Comment) createdAt in
                match DecodeB64 inp.(AI_Signature) with
                | None => (s, fails zeroval ErrInvalidSignature)
                | Some sig =>
                    if negb (VerifyAgentSig key.(Key_Algorithm) key.(Key_PublicKey) sig envelope)
                    then (s, fails zeroval ErrInvalidSignature)
                    else
                      let att := mkAttestation 0 id inp.(AI_MessageID) inp.(AI_KeyID) inp.(AI_PolicyVersion)
                                   inp.(AI_Status) inp.(AI_Comment) msg.(Msg_Hash) inp.(AI_Signature) createdAt None in
                      if in_memory sc then let '(s, att) := appendAttestation s id att in (s, ok att)
                      else
                        let d := sd_supersede id inp.(AI_MessageID) inp.(AI_KeyID) createdAt s.(sb_db) in
                        match sd_insert_attestation id att d with
                        | (_, (_, Some err)) => (s, fails zeroval err)
                        | (d, (aid, None)) =>
                            let att := att <| Att_ID := aid |> in
                            match sd_insert_event id "attestation_added" inp.(AI_MessageID) (Some aid) createdAt d with
                            | (_, Some err) => (s, fails zeroval err)
                            | (d, None) => let '(s, err) := sb_commit s d in (s, (att, err))
                            end
                        end
                end
            end
      end
  end.

(** ** Verifying *)

Definition listAttestations s (sc : Scope) (messageID : Z) : ret (list Attestation) :=
  if in_memory sc
  then ok (List.filter (λ a, (a.(Att_MessageID) =? messageID)%Z) (get0 s.(sb_attests) (sb_id sc)))
  else sd_attestations (sb_id sc) messageID s.(sb_db).

Record AttestationCheck := mkAttestationCheck {
  AC_SignerKeyID : string;
  AC_Status : string;
  AC_SignatureOK : bool;
  AC_KeyRevokedAt : option Time;
  AC_Superseded : bool
}.

Record VerifyResult := mkVerifyResult {
  VR_Message : SBMessage;
  VR_Attestations : list Attestation;
  VR_SignatureOK : bool;
  VR_HashOK : bool;
  VR_PolicyVersion : Z;
  VR_AttestationChecks : list AttestationCheck
}.
#[export] Instance zero_VerifyResult : Zero VerifyResult := mkVerifyResult zeroval [] false false 0 [].

(** The signature of an envelope under a key that may be missing. *)
Definition signatureOK (key : option AgentKey) (signature : string) (envelope : Any) : bool :=
  match key, DecodeB64 signature with
  | Some key, Some sig => VerifyAgentSig key.(Key_Algorithm) key.(Key_PublicKey) sig envelope
  | _, _ => false
  end.

Definition checkAttestation k (a : Attestation) : AttestationCheck :=
  let key := (key_get k a.(Att_SignerKeyID)).1 in
  mkAttestationCheck a.(Att_SignerKeyID) a.(Att_Status)
    (signatureOK key a.(Att_Signature)
       (attestationEnvelope a.(Att_MessageID) a.(Att_MessageHash) a.(Att_PolicyVersion) a.(Att_SignerKeyID)
          a.(Att_Status) a.(Att_Comment) a.(Att_CreatedAt)))
    (match key with Some key => key.(Key_RevokedAt) | None => None end)
    (bool_decide (is_Some a.(Att_SupersededAt))).

Definition Verify s k (scope : option Scope) (messageID : Z) : ret VerifyResult :=
  match sb_scope scope with
  | None => fails zeroval policy.ErrKindMismatch
  | Some sc =>
      match getMessage s sc messageID with
      | (_, Some err) => fails zeroval err
      | (msg, None) =>
      match listAttestations s sc messageID with
      | (_, Some err) => fails zeroval err
      | (atts, None) =>
          let envelope := envelopeOf (sb_id sc) msg in
          ok (mkVerifyResult msg atts
                (signatureOK (key_get k msg.(Msg_AuthorKeyID)).1 msg.(Msg_Signature) envelope)
                (B64 (default "" (HashCanonical envelope)) =s msg.(Msg_Hash))
                msg.(Msg_PolicyVersion) (checkAttestation k <$> atts))
      end end
  end.

Definition Keys s k (scope : option Scope) : ret (list AgentKey) :=
  match sb_scope scope with
  | None => fails [] policy.ErrKindMismatch
  | Some sc =>
      match currentPolicy s sc with
      | (_, Some err) => fails [] err
      | (pol, None) =>
          foldl (λ acc a, match acc with
                          | (_, Some _) => acc
                          | (out, None) =>
                              match key_get k a.(Agent_KeyID) with
                              | (_, Some err) => fails [] err
                              | (Some key, None) => ok (out ++ [key])
                              | (None, None) => acc
                              end
                          end) (ok []) (range_vals pol.(SP_Document).(Doc_Agents))
      end
  end.

(** ** Consuming (consume.go) *)

Definition ResolveCondition (doc : Document) (name : string) (adHoc : option (gmap string Any)) : ret Condition :=
  let none := mkCondition [] [] 0 None "" in
  if name <>s "" then
    match doc.(Doc_Conditions) !! name with
    | None => fails none ErrUnknownCondition
    | Some c => ok c
    end
  else match adHoc with
  | None => ok (mkCondition [] [] 0 None "on_publish")
  | Some m => match condition_decode m with inl c => ok c | inr err => fails none err end
  end.

Definition agentName (doc : Document) (keyID : string) : string := default "" (AgentNameForKey doc keyID).

Definition messageViewLocked (atts : list Attestation) (doc : Document) (msg : SBMessage) : MessageView :=
  mkMessageView msg.(Msg_AuthorKeyID) (agentName doc msg.(Msg_AuthorKeyID))
    ((λ a, mkAttestationView (agentName doc a.(Att_SignerKeyID)) a.(Att_SignerKeyID) a.(Att_Status)) <$>
       List.filter (λ a, (a.(Att_MessageID) =? msg.(Msg_ID))%Z && bool_decide (a.(Att_SupersededAt) = None)) atts).

Definition messageViewDB (d : SD) (id : string) (doc : Document) (msg : SBMessage) : ret MessageView :=
  let author := agentName doc msg.(Msg_AuthorKeyID) in
  match sd_live_statuses id msg.(Msg_ID) d with
  | (_, Some err) => fails (mkMessageView msg.(Msg_AuthorKeyID) author []) err
  | (rows, None) =>
      ok (mkMessageView msg.(Msg_AuthorKeyID) author
            ((λ r, mkAttestationView (agentName doc r.1) r.1 r.2) <$> rows))
  end.

(** The loop in memory: the cursor, what was delivered and the output so far.
    [accept]: the message of the event exists and matches. *)
Fixpoint deliverLoop (accept : Z → option SBMessage) (max : Z) (evs : list SBEvent) (last_ : Z) (done : gset Z)
    (out : list SBMessage) : Z * gset Z * list SBMessage :=
  match evs with
  | [] => (last_, done, out)
  | ev :: evs =>
      if (ev.(Ev_ID) <=? last_)%Z then deliverLoop accept max evs last_ done out
      else
        let last_ := ev.(Ev_ID) in
        if bool_decide (ev.(Ev_MessageID) ∈ done) then deliverLoop accept max evs last_ done out
        else match accept ev.(Ev_MessageID) with
        | None => deliverLoop accept max evs last_ done out
        | Some msg =>
            let out := out ++ [msg] in
            let done := {[ msg.(Msg_ID) ]} ∪ done in
            if (max <=? Z.of_nat (length out))%Z then (last_, done, out)
            else deliverLoop accept max evs last_ done out
        end
  end.

(** The loop over the rows of a query; an error of the view stops it. *)
Fixpoint deliverDB (id consumer : string) (doc : Document) (cond : Condition) (max : Z) (evs : list (Z * Z)) (d : SD)
    (out : list SBMessage) : SD * ret (list SBMessage) :=
  match evs with
  | [] => (d, ok out)
  | (_, mid) :: evs =>
      if sd_delivered id consumer mid d then deliverDB id consumer doc cond max evs d out
      else match sd_message id mid d with
      | None => deliverDB id consumer doc cond max evs d out
      | Some msg =>
          match messageViewDB d id doc msg with
          | (_, Some err) => (d, fails out err)
          | (view, None) =>
              if negb (MatchCondition cond view) then deliverDB id consumer doc cond max evs d out
              else
                let d := sd_deliver id consumer msg.(Msg_ID) d in
                let out := out ++ [msg] in
                if (max <=? Z.of_nat (length out))%Z then (d, ok out)
                else deliverDB id consumer doc cond max evs d out
          end
      end
  end.

Definition SBConsume s (scope : option Scope) (consumer conditionName : string) (adHoc : option (gmap string Any))
    (max : Z) : SBService * ret (list SBMessage) :=
  match sb_scope scope with
  | None => (s, fails [] policy.ErrKindMismatch)
  | Some sc =>
      let id := sb_id sc in
      let consumer := if consumer =s "" then "default" else consumer in
      let max := if (max <=? 0)%Z then 10%Z else max in
      match currentPolicy s sc with
      | (_, Some err) => (s, fails [] err)
      | (pol, None) =>
      match ResolveCondition pol.(SP_Document) conditionName adHoc with
      | (_, Some err) => (s, fails [] err)
      | (cond, None) =>
          if in_memory sc then
            let subs := get0 s.(sb_subs) id in
            let dels := get0 s.(sb_delivered) id in
            let sub := get0 subs consumer in
            let flt := if conditionName <>s "" then {[ "condition" := AString conditionName ]}
                       else default sub.(Sub_Filter) adHoc in
            let atts := get0 s.(sb_attests) id in
            let msgs := get0 s.(sb_messages) id in
            let accept mid :=
              match findMsg msgs mid with
              | None => None
              | Some msg => if MatchCondition cond (messageViewLocked atts pol.(SP_Document) msg)
                            then Some msg else None
              end in
            let '(last_, done, out) :=
              deliverLoop accept max (get0 s.(sb_events) id) sub.(Sub_LastEventID) (get0 dels consumer) [] in
            (s <| sb_subs := <[id := <[consumer := mkSubscription consumer flt last_]> subs]> s.(sb_subs) |>
               <| sb_delivered := <[id := <[consumer := done]> dels]> s.(sb_delivered) |>, ok out)
          else
            let flt := <["condition" := AString conditionName]>
                         {[ "filter" := match adHoc with Some m => AObject (map_to_list m) | None => ANil end ]} in
            let d := s.(sb_db) in
            let last_ := sd_sub_last id consumer d in
            let d := sd_sub_upsert id consumer flt last_ d in
            match sd_events_after id last_ (max * 5) d with
            | (_, Some err) => (s, fails [] err)
            | (evs, None) =>
                let maxSeen := foldl Z.max last_ evs.*1 in
                match deliverDB id consumer pol.(SP_Document) cond max evs d [] with
                | (_, (_, Some err)) => (s, fails [] err)
                | (d, (out, None)) =>
                    match sd_sub_set_last id consumer maxSeen d with
                    | (_, Some err) => (s, fails [] err)
                    | (d, None) => let '(s, err) := sb_commit s d in (s, (out, err))
                    end
                end
            end
      end end
  end.

End Service.
