(* ===== verification/SecureBusProps.v ===== *)
(** What a signed topic of [SecureBus] guarantees over whole runs of its
    operations, in memory: every stored message and attestation was signed by
    a key its policy allowed, messages of chained topics are linked, and a
    consumer gets every message that comes to satisfy its condition, once. *)
From S2P Require Import Prelude GoStrings GoCrypto Models DataObj AccessObjects PolicyScope AgentKeys SecureBus.

Section Topics.
Context `{SecureBusDB, GoRange, Signatures} {K : Type} `{!KeyLookup K}.
Context (quote : string → string) (rfc3339 rfc3339nano : Time → string).
Context (json_marshal : Any → option string) (document_json : Document → Any).
Context (document_parse : string → Document + error) (condition_decode : gmap string Any → Condition + error).
Context (b64url_decode b64std_decode : string → option string).
Context (ed25519_sign : string → string → string).
Context (signer : option PolicySigner) (graceSeconds : Z).
Implicit Types (s : SBService) (k : K) (m : SBMessage) (a : Attestation).

(** ** Runs *)

Inductive sb_op :=
| OpPutPolicy (e : Env) (k : K) (sc : Scope) (doc : Document) (createdBy : string)
| OpPublish (e : Env) (k : K) (sc : Scope) (inp : PublishInput)
| OpAttest (e : Env) (k : K) (sc : Scope) (inp : AttestInput)
| OpConsume (sc : Scope) (consumer conditionName : string) (adHoc : option (gmap string Any)) (max : Z).

Abbreviation put := (PutPolicy quote rfc3339 json_marshal document_json ed25519_sign signer).
Abbreviation publish := (Publish quote rfc3339nano json_marshal document_parse b64url_decode b64std_decode graceSeconds).
Abbreviation attest := (Attest quote rfc3339nano json_marshal document_parse b64url_decode b64std_decode graceSeconds).
Abbreviation consume := (SBConsume quote document_parse condition_decode).
Abbreviation verify := (Verify rfc3339nano json_marshal b64url_decode b64std_decode).
Abbreviation envelope := (envelopeOf rfc3339nano).
Abbreviation decode := (DecodeB64 b64url_decode b64std_decode).
Abbreviation sig_ok := (VerifyAgentSig json_marshal).
Abbreviation hash_of := (λ v, B64 (default "" (HashCanonical json_marshal v))).

Definition sb_apply (op : sb_op) s : SBService :=
  match op with
  | OpPutPolicy e k sc doc by_ => (put e s k (Some sc) doc by_).1
  | OpPublish e k sc inp => (publish e s k (Some sc) inp).1
  | OpAttest e k sc inp => (attest e s k (Some sc) inp).1
  | OpConsume sc c name adHoc max => (consume s (Some sc) c name adHoc max).1
  end.

Fixpoint sb_run (ops : list sb_op) s : SBService :=
  match ops with [] => s | op :: ops' => sb_run ops' (sb_apply op s) end.

Definition op_scope (op : sb_op) : Scope :=
  match op with OpPutPolicy _ _ sc _ _ | OpPublish _ _ sc _ | OpAttest _ _ sc _ | OpConsume sc _ _ _ _ => sc end.
Definition op_keys (op : sb_op) : option K :=
  match op with OpPutPolicy _ k _ _ _ | OpPublish _ k _ _ | OpAttest _ k _ _ => Some k | _ => None end.

(** Algorithm and public key of a key id. *)
Context (material : string → string * string).

(** The keys a lookup finds have that material: what a key store that never
    changes a registered key gives. *)
Definition keys_agree k : Prop :=
  ∀ id key err, key_get k id = (Some key, err) → (key.(Key_Algorithm), key.(Key_PublicKey)) = material id.

(** An operation on a topic in memory, with such keys. *)
Definition op_ok (op : sb_op) : Prop :=
  in_memory (op_scope op) = true ∧ ∀ k, op_keys op = Some k → keys_agree k.

(** ** The invariant of a topic *)

Definition signed_by (keyID signature : string) (env : Any) : Prop :=
  ∃ sig, decode signature = Some sig ∧ sig_ok (material keyID).1 (material keyID).2 sig env = true.

(** An agent with the key is listed in the rule. *)
Definition listed_key (doc : Document) (rule : list string) (keyID : string) : Prop :=
  ∃ name ref, doc.(Doc_Agents) !! name = Some ref ∧ ref.(Agent_KeyID) = keyID ∧ name ∈ rule.

(** [prev]: the message before it in the topic. *)
Definition message_ok (id : string) (pols : list SignedPolicy) (prev : option SBMessage) m : Prop :=
  m.(Msg_ObjectID) = id
  ∧ m.(Msg_Hash) = hash_of (envelope id m)
  ∧ signed_by m.(Msg_AuthorKeyID) m.(Msg_Signature) (envelope id m)
  ∧ ∃ pol, pol ∈ pols ∧ pol.(SP_Version) = m.(Msg_PolicyVersion)
    ∧ listed_key pol.(SP_Document) pol.(SP_Document).(Doc_Rules).(Rules_Publish) m.(Msg_AuthorKeyID)
    ∧ (pol.(SP_Document).(Doc_Chain) = true → ∀ p, prev = Some p → m.(Msg_PrevHash) = p.(Msg_Hash)).

Definition attestation_ok (pols : list SignedPolicy) (msgs : list SBMessage) a : Prop :=
  (a.(Att_Status) = "ok" ∨ a.(Att_Status) = "deny")
  ∧ (∃ m, m ∈ msgs ∧ m.(Msg_ID) = a.(Att_MessageID) ∧ m.(Msg_Hash) = a.(Att_MessageHash))
  ∧ signed_by a.(Att_SignerKeyID) a.(Att_Signature)
      (attestationEnvelope rfc3339nano a.(Att_MessageID) a.(Att_MessageHash) a.(Att_PolicyVersion) a.(Att_SignerKeyID)
         a.(Att_Status) a.(Att_Comment) a.(Att_CreatedAt))
  ∧ ∃ pol, pol ∈ pols ∧ pol.(SP_Version) = a.(Att_PolicyVersion)
    ∧ listed_key pol.(SP_Document) pol.(SP_Document).(Doc_Rules).(Rules_Attest) a.(Att_SignerKeyID).

(** Ids count from 1. *)
Definition numbered {A} (id : A → Z) (l : list A) : Prop := ∀ i x, l !! i = Some x → id x = (Z.of_nat i + 1)%Z.

Definition live_for (messageID : Z) (keyID : string) a : Prop :=
  a.(Att_MessageID) = messageID ∧ a.(Att_SignerKeyID) = keyID ∧ a.(Att_SupersededAt) = None.

Definition before {A} (l : list A) (i : nat) : option A := match i with O => None | S j => l !! j end.

Record topic_ok (id : string) (pols : list SignedPolicy) (msgs : list SBMessage) (atts : list Attestation)
    (evs : list SBEvent) : Prop := {
  to_versions : numbered SP_Version pols;
  to_msg_ids : numbered Msg_ID msgs;
  to_att_ids : numbered Att_ID atts;
  to_ev_ids : numbered Ev_ID evs;
  to_msgs : ∀ i m, msgs !! i = Some m → message_ok id pols (before msgs i) m;
  to_atts : ∀ a, a ∈ atts → attestation_ok pols msgs a;
  to_live : ∀ i j a b, atts !! i = Some a → atts !! j = Some b →
    a.(Att_SupersededAt) = None → live_for a.(Att_MessageID) a.(Att_SignerKeyID) b → i = j;
  to_announced : ∀ m, m ∈ msgs → ∃ ev, ev ∈ evs ∧ ev.(Ev_MessageID) = m.(Msg_ID)
}.

Definition sb_ok s : Prop := ∀ id,
  topic_ok id (get0 s.(sb_policies) id) (get0 s.(sb_messages) id) (get0 s.(sb_attests) id) (get0 s.(sb_events) id).

Lemma numbered_nil {A} (id : A → Z) : numbered id [].
Proof. intros i x Hi. by rewrite lookup_nil in Hi. Qed.
Lemma numbered_snoc {A} (id : A → Z) l x : numbered id l → id x = (Z.of_nat (length l) + 1)%Z →
  numbered id (l ++ [x]).
Proof.
  intros Hl Hx i y Hy. apply lookup_app_Some in Hy as [Hy|[Hlen Hy]]; [by apply Hl|].
  apply list_lookup_singleton_Some in Hy as [Hi <-]. rewrite Hx. lia.
Qed.
Lemma numbered_fmap {A} (id : A → Z) f l : (∀ x, id (f x) = id x) → numbered id l → numbered id (f <$> l).
Proof.
  intros Hf Hl i y. rewrite list_lookup_fmap_Some. intros (x & -> & Hx). rewrite Hf. by apply Hl.
Qed.

Lemma message_ok_mono id pols pols' prev m : pols ⊆ pols' → message_ok id pols prev m → message_ok id pols' prev m.
Proof. intros Hsub (? & ? & ? & pol & Hin & ?). split_and!; [done..|]. exists pol. split; [by apply Hsub|done]. Qed.

Lemma attestation_ok_mono pols pols' msgs msgs' a : pols ⊆ pols' → msgs ⊆ msgs' →
  attestation_ok pols msgs a → attestation_ok pols' msgs' a.
Proof.
  intros Hp Hm (? & (m & Hin & ?) & ? & pol & Hpol & ?). split_and!; [done| |done|].
  - exists m. split; [by apply Hm|done].
  - exists pol. split; [by apply Hp|done].
Qed.

Lemma supersede_fields t mid key a : let a' := supersede t mid key a in
  a'.(Att_ID) = a.(Att_ID) ∧ a'.(Att_MessageID) = a.(Att_MessageID) ∧ a'.(Att_SignerKeyID) = a.(Att_SignerKeyID)
  ∧ a'.(Att_Status) = a.(Att_Status) ∧ (a'.(Att_SupersededAt) = None → a.(Att_SupersededAt) = None).
Proof. unfold supersede. by destruct (_ && _). Qed.

Lemma supersede_kills t mid key a : ¬ live_for mid key (supersede t mid key a).
Proof.
  unfold supersede, live_for. destruct (_ && _) eqn:Hc; cbn; [naive_solver|].
  intros (<- & <- & Hn). rewrite Z.eqb_refl, String.eqb_refl, Hn in Hc. done.
Qed.

Lemma supersede_ok t mid key pols msgs a : attestation_ok pols msgs a →
  attestation_ok pols msgs (supersede t mid key a).
Proof. unfold supersede. by destruct (_ && _). Qed.

Lemma numbered_last {A} (id : A → Z) l : numbered id l →
  match last l with Some x => (id x + 1)%Z | None => 1%Z end = (Z.of_nat (length l) + 1)%Z.
Proof.
  intros Hl. destruct l as [|x l] using rev_ind; [done|]. rewrite last_snoc, length_app. cbn.
  rewrite (Hl (length l) x) by (by rewrite lookup_app_r, Nat.sub_diag). lia.
Qed.

(** ** The caller's key *)

Definition rule_names (doc : Document) (rule : string) : list string :=
  if rule =s "publish" then doc.(Doc_Rules).(Rules_Publish)
  else if rule =s "attest" then doc.(Doc_Rules).(Rules_Attest)
  else if rule =s "subscribe" then doc.(Doc_Rules).(Rules_Subscribe) else [].

Lemma May_elem doc rule name : May doc rule name = true → name ∈ rule_names doc rule.
Proof.
  unfold May, rule_names. repeat case_match; try done;
    intros (n & Hn & ->%String.eqb_eq)%existsb_elem_of; done.
Qed.

Lemma AgentNameForKey_elem doc keyID name : AgentNameForKey doc keyID = Some name →
  ∃ ref, doc.(Doc_Agents) !! name = Some ref ∧ ref.(Agent_KeyID) = keyID.
Proof.
  unfold AgentNameForKey. destruct (List.find _ _) as [[n ref]|] eqn:Hf; [|done]. intros [= <-].
  apply find_elem_of in Hf as [Hin%elem_of_range_map Hk%String.eqb_eq]. by exists ref.
Qed.

Lemma authorizeKey_sound t s k sc rule keyID subj tok ver hash key pol :
  in_memory sc = true → keys_agree k →
  authorizeKey quote document_parse graceSeconds t s k sc rule keyID subj tok ver hash = ok (key, pol) →
  (key.(Key_Algorithm), key.(Key_PublicKey)) = material keyID ∧ BelongsToCaller key subj tok = true
  ∧ pol ∈ get0 s.(sb_policies) (sb_id sc) ∧ pol.(SP_Version) = ver
  ∧ listed_key pol.(SP_Document) (rule_names pol.(SP_Document) rule) keyID.
Proof.
  intros Hmem Hk. unfold authorizeKey, loadPolicyVersion.
  destruct (key_get k keyID) as [[key0|] [err|]] eqn:Hkey; try done.
  destruct (BelongsToCaller key0 subj tok) eqn:Hb; [|done]. cbn [negb].
  destruct (currentPolicy _ _ _ _) as [cur [err|]]; [done|].
  destruct (acceptPolicyVersion _ _ _ _ _); [done|]. rewrite Hmem.
  destruct (List.find _ _) as [pol0|] eqn:Hf; [|done]. cbn [ok].
  destruct (AgentNameForKey _ keyID) as [name|] eqn:Hn; [|done].
  destruct (May _ rule name) eqn:Hmay; [|done]. intros [= <- <-].
  apply find_elem_of in Hf as [Hin Hv%Z.eqb_eq]. split_and!; [by eapply Hk|done..|].
  apply AgentNameForKey_elem in Hn as (ref & Href & Hid). exists name, ref. by apply May_elem in Hmay.
Qed.

(** ** Every operation keeps the invariant *)

Lemma sb_scope_id sc : sb_scope (Some sc) = Some sc ∨ sb_scope (Some sc) = None.
Proof. unfold sb_scope. destruct (_ =s _); auto. Qed.

Lemma put_ok e s k sc doc by_ : in_memory sc = true → sb_ok s → sb_ok (put e s k (Some sc) doc by_).1.
Proof.
  intros Hmem Hs. unfold PutPolicy. destruct (sb_scope_id sc) as [-> | ->]; [|done].
  set (doc1 := if _ =s "" then _ else _).
  destruct (ValidateDocument _ _); [done|]. destruct (checkAgentKeys _ _ _); [done|]. rewrite Hmem.
  destruct (SignDocument _ _ _ _ _) as [[hash sig] [err|]]; [done|]. cbn.
  intros id. specialize (Hs id). cbn. rewrite get0_insert. destruct (decide (_ = _)) as [<-|]; [|done].
  destruct Hs as [Hv Hm Ha He Hms Has Hl Han]. split; try done.
  - apply numbered_snoc; [done|]. cbn. by apply numbered_last.
  - intros i m Hi. eapply message_ok_mono; [|by apply Hms]. set_solver.
  - intros a Hin. eapply attestation_ok_mono; [| |by apply Has]; set_solver.
Qed.

Lemma inputMessage_ok t id inp : let m := inputMessage rfc3339nano json_marshal t id inp in
  m.(Msg_ObjectID) = id ∧ m.(Msg_AuthorKeyID) = inp.(Pub_KeyID) ∧ m.(Msg_PolicyVersion) = inp.(Pub_PolicyVersion)
  ∧ m.(Msg_Signature) = inp.(Pub_Signature) ∧ m.(Msg_Hash) = hash_of (envelope id m).
Proof. done. Qed.

(** What the chain check keeps of a signed message and adds to it. *)
Lemma chainMessage_ok key sig chain prev m m' id :
  (key.(Key_Algorithm), key.(Key_PublicKey)) = material m.(Msg_AuthorKeyID) →
  m.(Msg_ObjectID) = id → m.(Msg_Hash) = hash_of (envelope id m) →
  sig_ok (material m.(Msg_AuthorKeyID)).1 (material m.(Msg_AuthorKeyID)).2 sig (envelope id m) = true →
  chainMessage rfc3339nano json_marshal key sig chain prev m = inl m' →
  m'.(Msg_ObjectID) = id ∧ m'.(Msg_AuthorKeyID) = m.(Msg_AuthorKeyID)
  ∧ m'.(Msg_PolicyVersion) = m.(Msg_PolicyVersion) ∧ m'.(Msg_Signature) = m.(Msg_Signature)
  ∧ m'.(Msg_Hash) = hash_of (envelope id m')
  ∧ sig_ok (material m.(Msg_AuthorKeyID)).1 (material m.(Msg_AuthorKeyID)).2 sig (envelope id m') = true
  ∧ (chain = true → ∀ p, prev = Some p → m'.(Msg_PrevHash) = p.(Msg_Hash)).
Proof.
  intros Hkey Hid Hh Hsig Hc. unfold chainMessage in Hc.
  destruct chain; [|injection Hc as <-; by split_and!].
  destruct prev as [p|]; [|injection Hc as <-; by split_and!].
  destruct (String.eqb_spec (Msg_PrevHash m) "") as [Hp|Hp].
  - destruct (VerifyAgentSig _ (Key_Algorithm key) _ _ _) eqn:Hv; [|done]. injection Hc as <-. cbn. subst id.
    unfold envelopeOf. cbn. rewrite <- Hkey. cbn. split_and!; try done. by intros _ p' [= <-].
  - destruct (String.eqb_spec (Msg_PrevHash m) (Msg_Hash p)) as [He|]; [|done]. injection Hc as <-.
    split_and!; try done. by intros _ p' [= <-].
Qed.

Lemma lookup_snoc_cases {A} (l : list A) x i y : (l ++ [x]) !! i = Some y →
  l !! i = Some y ∨ (i = length l ∧ y = x).
Proof.
  intros [Hl|[Hlen Hl]]%lookup_app_Some; [by left|]. right.
  apply list_lookup_singleton_Some in Hl as [? ->]. split; [lia|done].
Qed.

Lemma before_snoc {A} (l : list A) x i : i < length l → before (l ++ [x]) i = before l i.
Proof. destruct i as [|j]; [done|]. cbn. intros. rewrite lookup_app_l; [done|lia]. Qed.
Lemma before_last {A} (l : list A) x : before (l ++ [x]) (length l) = last l.
Proof.
  destruct l as [|y l] using rev_ind; [done|]. rewrite last_snoc, length_app, Nat.add_1_r. cbn.
  rewrite lookup_app_l by (rewrite length_app; cbn; lia). by rewrite lookup_app_r, Nat.sub_diag.
Qed.

Lemma appendMessage_ok s id m : sb_ok s →
  message_ok id (get0 s.(sb_policies) id) (last (get0 s.(sb_messages) id)) m → sb_ok (appendMessage s id m).1.
Proof.
  intros Hs Hm id'. specialize (Hs id'). cbn. rewrite !get0_insert. destruct (decide (_ = _)) as [<-|]; [|done].
  destruct Hs as [Hv Hmi Ha He Hms Has Hl Han]. split; try done.
  - by apply numbered_snoc.
  - by apply numbered_snoc.
  - intros i m' [Hi|[-> ->]]%lookup_snoc_cases.
    + rewrite before_snoc by by eapply lookup_lt_Some. by apply Hms.
    + by rewrite before_last.
  - intros a Hin. eapply attestation_ok_mono; [| |by apply Has]; set_solver.
  - intros m' [Hin|Hin]%elem_of_app.
    + destruct (Han m' Hin) as (ev & Hev & ?). exists ev. split; [apply elem_of_app; by left|done].
    + apply list_elem_of_singleton in Hin as ->. eexists. split; [apply elem_of_app; right; by constructor|done].
Qed.

Lemma publish_ok e s k sc inp : in_memory sc = true → keys_agree k → sb_ok s →
  sb_ok (publish e s k (Some sc) inp).1.
Proof.
  intros Hmem Hk Hs. unfold Publish. destruct (sb_scope_id sc) as [-> | ->]; [|done].
  destruct (authorizeKey _ _ _ _ _ _ _ _ _ _ _ _ _) as [[key pol] [err|]] eqn:Hauth; [done|].
  apply authorizeKey_sound in Hauth as (Hmat & _ & Hpol & Hver & Hlist); [|done..].
  destruct (DecodeB64 _ _ _) as [sig|] eqn:Hdec; [|done].
  pose proof (inputMessage_ok (now e 1) (sb_id sc) inp) as Hin. cbn zeta in Hin.
  set (m0 := inputMessage _ _ _ _ _) in *. destruct Hin as (Hoid & Hauthor & Hpv & Hsg & Hh).
  destruct (VerifyAgentSig _ _ _ _ _) eqn:Hv; [|done]. cbn [negb]. rewrite Hmem.
  destruct (chainMessage _ _ _ _ _ _ _) as [m|err] eqn:Hc; [|done].
  destruct (appendMessage s (sb_id sc) m) as [s' m'] eqn:Happ. cbn.
  replace s' with (appendMessage s (sb_id sc) m).1 by (by rewrite Happ).
  rewrite <- Hauthor in Hmat. apply chainMessage_ok with (id := sb_id sc) in Hc; [|done..|by rewrite <- Hmat].
  destruct Hc as (? & Ha & ? & ? & ? & ? & ?). apply appendMessage_ok; [done|]. split_and!; [done..| |].
  - exists sig. rewrite Ha. split; [congruence|done].
  - exists pol. rewrite Ha, Hauthor. split_and!; [done|congruence|done..].
Qed.

Lemma appendAttestation_ok s id a : sb_ok s → a.(Att_SupersededAt) = None →
  attestation_ok (get0 s.(sb_policies) id) (get0 s.(sb_messages) id) a → sb_ok (appendAttestation s id a).1.
Proof.
  intros Hs Hlive Ha id'. specialize (Hs id'). cbn. rewrite !get0_insert. destruct (decide (_ = _)) as [<-|]; [|done].
  destruct Hs as [Hv Hmi Hai He Hms Has Hl Han]. split; try done.
  - apply numbered_snoc; [|done]. apply numbered_fmap; [|done]. intros x. apply supersede_fields.
  - by apply numbered_snoc.
  - intros b [Hb|Hb]%elem_of_app.
    + apply list_elem_of_fmap in Hb as (b' & -> & Hb'). by apply supersede_ok, Has.
    + by apply list_elem_of_singleton in Hb as ->.
  - intros i j b c [Hb|[-> ->]]%lookup_snoc_cases [Hc|[-> ->]]%lookup_snoc_cases; [| | |done].
    + apply list_lookup_fmap_Some in Hb as (b' & -> & Hb'), Hc as (c' & -> & Hc'). intros Hlb Hlc.
      destruct (supersede_fields (Att_CreatedAt a) (Att_MessageID a) (Att_SignerKeyID a) b')
        as (_ & Hbm & Hbk & _ & Hbl).
      destruct (supersede_fields (Att_CreatedAt a) (Att_MessageID a) (Att_SignerKeyID a) c')
        as (_ & Hcm & Hck & _ & Hcl).
      destruct Hlc as (? & ? & ?). eapply (Hl i j b' c' Hb' Hc'); [auto|]. split_and!; [congruence..|auto].
    + apply list_lookup_fmap_Some in Hb as (b' & -> & Hb'). cbn. intros Hlb (Hm & Hk & _). exfalso.
      eapply (supersede_kills (Att_CreatedAt a) (Att_MessageID a) (Att_SignerKeyID a) b'). by split_and!.
    + apply list_lookup_fmap_Some in Hc as (c' & -> & Hc'). cbn. intros _ Hlc. exfalso.
      by eapply (supersede_kills (Att_CreatedAt a) (Att_MessageID a) (Att_SignerKeyID a) c').
  - intros m Hin. destruct (Han m Hin) as (ev & Hev & ?). exists ev. split; [apply elem_of_app; by left|done].
Qed.

Lemma attest_ok e s k sc inp : in_memory sc = true → keys_agree k → sb_ok s →
  sb_ok (attest e s k (Some sc) inp).1.
Proof.
  intros Hmem Hk Hs. unfold Attest. destruct (sb_scope_id sc) as [-> | ->]; [|done].
  destruct (authorizeKey _ _ _ _ _ _ _ _ _ _ _ _ _) as [[key pol] [err|]] eqn:Hauth; [done|].
  apply authorizeKey_sound in Hauth as (Hmat & _ & Hpol & Hver & Hlist); [|done..].
  destruct (_ && _) eqn:Hst; [done|].
  assert (Hstatus : AI_Status inp = "ok" ∨ AI_Status inp = "deny").
  { destruct (String.eqb_spec (AI_Status inp) "ok"); [by left|].
    destruct (String.eqb_spec (AI_Status inp) "deny"); [by right|done]. }
  destruct (_ <? _)%Z; [done|]. unfold getMessage. rewrite Hmem.
  destruct (findMsg _ _) as [m|] eqn:Hm; [|done]. apply find_elem_of in Hm as [Hmin Hmid%Z.eqb_eq]. cbn [ok].
  destruct (DecodeB64 _ _ _) as [sig|] eqn:Hdec; [|done].
  destruct (VerifyAgentSig _ _ _ _ _) eqn:Hv; [|done]. cbn [negb].
  set (a := mkAttestation _ _ _ _ _ _ _ _ _ _ _). destruct (appendAttestation s (sb_id sc) a) as [s' a'] eqn:Happ.
  cbn. replace s' with (appendAttestation s (sb_id sc) a).1 by (by rewrite Happ).
  apply appendAttestation_ok; [done..|]. split_and!; [done|by exists m| |by exists pol].
  exists sig. cbn. split; [done|]. by rewrite <- Hmat.
Qed.

Lemma consume_keeps s sc c name adHoc max : in_memory sc = true →
  let s' := (consume s (Some sc) c name adHoc max).1 in
  s'.(sb_policies) = s.(sb_policies) ∧ s'.(sb_messages) = s.(sb_messages) ∧ s'.(sb_attests) = s.(sb_attests)
  ∧ s'.(sb_events) = s.(sb_events).
Proof.
  intros Hmem. unfold SBConsume. destruct (sb_scope_id sc) as [-> | ->]; [|done].
  destruct (currentPolicy _ _ _ _) as [pol [err|]]; [done|].
  destruct (ResolveCondition _ _ _ _) as [cond [err|]]; [done|]. rewrite Hmem.
  by destruct (deliverLoop _ _ _ _ _ _) as [[? ?] ?].
Qed.

Lemma sb_apply_ok op s : op_ok op → sb_ok s → sb_ok (sb_apply op s).
Proof.
  intros [Hmem Hk] Hs. destruct op; cbn in *.
  - by apply put_ok.
  - apply publish_ok; auto.
  - apply attest_ok; auto.
  - intros id. destruct (consume_keeps s sc consumer conditionName adHoc max Hmem) as (-> & -> & -> & ->). apply Hs.
Qed.

Lemma NewSBService_ok d : sb_ok (NewSBService d).
Proof. intros id. split; try apply numbered_nil; cbn; by intros ?; rewrite ?elem_of_nil. Qed.

Lemma sb_run_ok ops s : Forall op_ok ops → sb_ok s → sb_ok (sb_run ops s).
Proof. intros Hops. revert s. induction Hops; intros s Hs; [done|]. cbn. auto using sb_apply_ok. Qed.

(** ** Verifying *)

Lemma find_numbered {A} (id : A → Z) l i x : numbered id l → l !! i = Some x →
  List.find (λ y, (id y =? Z.of_nat i + 1)%Z) l = Some x.
Proof.
  intros Hn Hi. destruct (List.find _ l) as [y|] eqn:Hf.
  - apply find_elem_of in Hf as [Hy Hid%Z.eqb_eq]. apply list_elem_of_lookup in Hy as [j Hj].
    rewrite (Hn j y Hj) in Hid. assert (i = j) as -> by lia. congruence.
  - pose proof (List.find_none _ _ Hf x) as Hnone. cbn in Hnone. rewrite (Hn i x Hi), Z.eqb_refl in Hnone.
    discriminate Hnone. apply list_elem_of_In. by eapply list_elem_of_lookup_2.
Qed.

Lemma signatureOK_signed k keyID signature env key err : keys_agree k →
  key_get k keyID = (Some key, err) → signed_by keyID signature env →
  signatureOK json_marshal b64url_decode b64std_decode (key_get k keyID).1 signature env = true.
Proof.
  intros Hk Hkey (sig & Hdec & Hsig). unfold signatureOK. rewrite Hkey. cbn. rewrite Hdec.
  apply Hk in Hkey. by rewrite <- Hkey in Hsig.
Qed.

(** The keys of all signers are in the store. *)
Definition has_key k (keyID : string) : Prop := ∃ key err, key_get k keyID = (Some key, err).

Lemma verify_ok s k sc i m : sb_ok s → sb_scope (Some sc) = Some sc → in_memory sc = true → keys_agree k →
  get0 s.(sb_messages) (sb_id sc) !! i = Some m →
  (∀ a, a ∈ get0 s.(sb_attests) (sb_id sc) → has_key k a.(Att_SignerKeyID)) → has_key k m.(Msg_AuthorKeyID) →
  ∃ r, verify s k (Some sc) m.(Msg_ID) = ok r ∧ r.(VR_Message) = m ∧ r.(VR_SignatureOK) = true
    ∧ r.(VR_HashOK) = true ∧ ∀ ch, ch ∈ r.(VR_AttestationChecks) → ch.(AC_SignatureOK) = true.
Proof.
  intros Hs Hsc Hmem Hk Hi Hatts (key & err & Hkey). specialize (Hs (sb_id sc)).
  pose proof (to_msgs _ _ _ _ _ Hs i m Hi) as (_ & Hh & Hsig & _).
  unfold Verify, getMessage, listAttestations. rewrite Hsc, Hmem. unfold findMsg.
  rewrite (to_msg_ids _ _ _ _ _ Hs i m Hi), (find_numbered Msg_ID _ i m) by (done || apply Hs).
  cbn [ok]. eexists. split; [done|]. cbn. split_and!; [done|by eapply signatureOK_signed| |].
  - by rewrite <- Hh, String.eqb_refl.
  - intros ch (a & -> & Ha)%list_elem_of_fmap. apply elem_of_filter_bool in Ha as [Ha _].
    destruct (Hatts a Ha) as (ak & aerr & Hak). apply (to_atts _ _ _ _ _ Hs) in Ha as (_ & _ & Hasig & _).
    cbn. by eapply signatureOK_signed.
Qed.

(** ** Consuming *)

(** The condition a consumer asks for, under a policy document. *)
Definition condition_of (doc : Document) (name : string) (adHoc : option (gmap string Any)) : option Condition :=
  match ResolveCondition condition_decode doc name adHoc with (c, None) => Some c | _ => None end.

Definition matches s (id : string) (doc : Document) (cond : Condition) m : Prop :=
  MatchCondition cond (messageViewLocked (get0 s.(sb_attests) id) doc m) = true.

(** The loop from an event list whose ids count on from [n]. *)
Definition ids_from (n : Z) (evs : list SBEvent) : Prop :=
  ∀ i ev, evs !! i = Some ev → ev.(Ev_ID) = (n + Z.of_nat i + 1)%Z.

Lemma ids_from_cons n ev evs : ids_from n (ev :: evs) → ev.(Ev_ID) = (n + 1)%Z ∧ ids_from (n + 1) evs.
Proof.
  intros Hn. split; [rewrite (Hn 0 ev eq_refl); lia|]. intros i x Hx. rewrite (Hn (S i) x Hx). lia.
Qed.

(** What the loop did: [new] is delivered, the cursor is at [last']. *)
Record delivered (accept : Z → option SBMessage) (max : Z) (n : Z) (evs : list SBEvent) (last_ : Z) (done : gset Z)
    (out : list SBMessage) (last' : Z) (done' : gset Z) (new : list SBMessage) : Prop := {
  dl_cursor : (last_ ≤ last')%Z ∧ (last' ≤ Z.max last_ (n + Z.of_nat (length evs)))%Z;
  dl_done : done' = list_to_set (Msg_ID <$> new) ∪ done;
  dl_once : NoDup (Msg_ID <$> new) ∧ ∀ m, m ∈ new → m.(Msg_ID) ∉ done;
  dl_accepted : ∀ m, m ∈ new → accept m.(Msg_ID) = Some m;
  dl_seen : ∀ ev, ev ∈ evs → (last_ < ev.(Ev_ID) ≤ last')%Z →
    accept ev.(Ev_MessageID) = None ∨ ev.(Ev_MessageID) ∈ done';
  dl_all : (Z.of_nat (length (out ++ new)) < max)%Z → ∀ ev, ev ∈ evs → (ev.(Ev_ID) ≤ last')%Z
}.

Lemma deliverLoop_spec accept max evs n last_ done out :
  (∀ mid m, accept mid = Some m → m.(Msg_ID) = mid) → ids_from n evs →
  ∃ last' done' new, deliverLoop accept max evs last_ done out = (last', done', out ++ new)
    ∧ delivered accept max n evs last_ done out last' done' new.
Proof.
  intros Hacc. revert n last_ done out. induction evs as [|ev evs IH]; intros n last_ done out Hn.
  { exists last_, done, []. rewrite app_nil_r. split; [done|]. split; try set_solver; cbn; [lia|].
    split; [constructor|set_solver]. }
  apply ids_from_cons in Hn as [Hid Hn]. cbn [deliverLoop].
  destruct (Z.leb_spec (Ev_ID ev) last_) as [Hle|Hgt].
  { destruct (IH (n + 1)%Z last_ done out) as (l' & d' & new & -> & [Hc Hd Ho Ha Hs Hall]); [done|].
    exists l', d', new. split; [done|]. split; try done; cbn [length].
    - lia.
    - intros ev' [->|Hin]%elem_of_cons; [lia|by apply Hs].
    - intros Hlen ev' [->|Hin]%elem_of_cons; [lia|by apply Hall]. }
  assert (Hskip : accept (Ev_MessageID ev) = None ∨ Ev_MessageID ev ∈ done →
    ∃ last' done' new, deliverLoop accept max evs (Ev_ID ev) done out = (last', done', out ++ new)
      ∧ delivered accept max n (ev :: evs) last_ done out last' done' new).
  { intros Hno. destruct (IH (n + 1)%Z (Ev_ID ev) done out) as (l' & d' & new & -> & [Hc Hd Ho Ha Hs Hall]); [done|].
    exists l', d', new. split; [done|]. split; try done; cbn [length].
    - lia.
    - intros ev' [->|Hin]%elem_of_cons Hev; [set_solver|].
      destruct (Z.le_gt_cases (Ev_ID ev') (Ev_ID ev)); [|by apply Hs; [|lia]].
      apply list_elem_of_lookup in Hin as [i Hi]. pose proof (Hn i ev' Hi). lia.
    - intros Hlen ev' [->|Hin]%elem_of_cons; [lia|by apply Hall]. }
  case_bool_decide as Hdone; [by apply Hskip; right|].
  destruct (accept (Ev_MessageID ev)) as [m|] eqn:Hm; [|by apply Hskip; left]. clear Hskip.
  pose proof (Hacc _ _ Hm) as Hmid.
  destruct (Z.leb_spec max (Z.of_nat (length (out ++ [m])))) as [Hmax|Hmax].
  - exists (Ev_ID ev), ({[ Msg_ID m ]} ∪ done), [m]. split; [done|]. split; cbn [length].
    + lia.
    + set_solver.
    + split; [cbn; apply NoDup_singleton|]. intros m' ->%list_elem_of_singleton. by rewrite Hmid.
    + intros m' ->%list_elem_of_singleton. by rewrite Hmid.
    + intros ev' [->|Hin]%elem_of_cons Hev; [right; set_solver|].
      apply list_elem_of_lookup in Hin as [i Hi]. pose proof (Hn i ev' Hi). lia.
    + lia.
  - destruct (IH (n + 1)%Z (Ev_ID ev) ({[ Msg_ID m ]} ∪ done) (out ++ [m])) as (l' & d' & new & -> & [Hc Hd Ho Ha Hs Hall]);
      [done|].
    exists l', d', (m :: new). rewrite <- (assoc_L (++)). split; [done|]. split; cbn [length].
    + lia.
    + rewrite Hd. set_solver.
    + destruct Ho as [Hnd Hnew]. split.
      * cbn. constructor; [|done]. intros (m' & Heq & Hin)%list_elem_of_fmap. apply Hnew in Hin. set_solver.
      * intros m' [->|Hin]%elem_of_cons; [by rewrite Hmid|]. apply Hnew in Hin. set_solver.
    + intros m' [->|Hin]%elem_of_cons; [by rewrite Hmid|by apply Ha].
    + intros ev' [->|Hin]%elem_of_cons Hev; [right; set_solver|].
      destruct (Z.le_gt_cases (Ev_ID ev') (Ev_ID ev)); [|by apply Hs; [|lia]].
      apply list_elem_of_lookup in Hin as [i Hi]. pose proof (Hn i ev' Hi). lia.
    + rewrite <- (assoc_L (++)) in Hall. intros Hlen ev' [->|Hin]%elem_of_cons; [lia|by apply Hall].
Qed.

(** What the operations do to the lists of the topics. *)
Lemma put_cases e s k sc doc by_ : in_memory sc = true →
  let s' := (put e s k (Some sc) doc by_).1 in
  s' = s ∨ ∃ vers, s' = s <| sb_policies := <[sb_id sc := vers]> s.(sb_policies) |>.
Proof.
  intros Hmem. unfold PutPolicy. destruct (sb_scope_id sc) as [-> | ->]; [|by left].
  destruct (ValidateDocument _ _); [by left|]. destruct (checkAgentKeys _ _ _); [by left|]. rewrite Hmem.
  destruct (SignDocument _ _ _ _ _) as [[hash sig] [err|]]; [by left|]. right. by eexists.
Qed.

Lemma publish_cases e s k sc inp : in_memory sc = true →
  let s' := (publish e s k (Some sc) inp).1 in s' = s ∨ ∃ m, s' = (appendMessage s (sb_id sc) m).1.
Proof.
  intros Hmem. unfold Publish. destruct (sb_scope_id sc) as [-> | ->]; [|by left].
  destruct (authorizeKey _ _ _ _ _ _ _ _ _ _ _ _ _) as [[key pol] [err|]]; [by left|].
  destruct (DecodeB64 _ _ _) as [sig|]; [|by left]. destruct (VerifyAgentSig _ _ _ _ _); [|by left].
  cbn [negb]. rewrite Hmem. destruct (chainMessage _ _ _ _ _ _ _) as [m|err]; [|by left]. right. by exists m.
Qed.

Lemma attest_cases e s k sc inp : in_memory sc = true →
  let s' := (attest e s k (Some sc) inp).1 in s' = s ∨ ∃ a, s' = (appendAttestation s (sb_id sc) a).1.
Proof.
  intros Hmem. unfold Attest. destruct (sb_scope_id sc) as [-> | ->]; [|by left].
  destruct (authorizeKey _ _ _ _ _ _ _ _ _ _ _ _ _) as [[key pol] [err|]]; [by left|].
  destruct (_ && _); [by left|]. destruct (_ <? _)%Z; [by left|].
  destruct (getMessage _ _ _) as [m [err|]]; [by left|]. destruct (DecodeB64 _ _ _) as [sig|]; [|by left].
  destruct (VerifyAgentSig _ _ _ _ _); [|by left]. cbn [negb]. rewrite Hmem. right. by eexists.
Qed.

(** A consumer [c] of a topic [id] that always asks with the same arguments,
    under a policy that stays. *)
Context (id c name : string) (adHoc : option (gmap string Any)) (doc : Document) (cond : Condition).

Definition cursor s : Z := (get0 (get0 s.(sb_subs) id) c).(Sub_LastEventID).
Definition done s : gset Z := get0 (get0 s.(sb_delivered) id) c.
Abbreviation topic_msgs s := (get0 s.(sb_messages) id).
Abbreviation topic_evs s := (get0 s.(sb_events) id).
Abbreviation policy_is s := (∃ pol, last (get0 s.(sb_policies) id) = Some pol ∧ pol.(SP_Document) = doc).
Definition consumer_name (consumer : string) : string := if consumer =s "" then "default" else consumer.

Record consumer_inv s : Prop := {
  ci_cursor : (0 ≤ cursor s ≤ Z.of_nat (length (topic_evs s)))%Z;
  ci_pending : ∀ m, m ∈ topic_msgs s →
    m.(Msg_ID) ∈ done s ∨ ¬ matches s id doc cond m
    ∨ ∃ ev, ev ∈ topic_evs s ∧ ev.(Ev_MessageID) = m.(Msg_ID) ∧ (cursor s < ev.(Ev_ID))%Z
}.

(** The operation is not a change of the topic's policy, and the consumer's
    own calls ask with the same arguments. *)
Definition steady (op : sb_op) : Prop :=
  op_ok op ∧
  match op with
  | OpPutPolicy _ _ sc _ _ => sb_id sc ≠ id
  | OpConsume sc c' name' adHoc' _ => sb_id sc = id → consumer_name c' = c → name' = name ∧ adHoc' = adHoc
  | _ => True
  end.

(** What the consumer gets from an operation. *)
Definition outputs (op : sb_op) s : list SBMessage :=
  match op with
  | OpConsume sc c' name' adHoc' max =>
      if decide (sb_id sc = id ∧ consumer_name c' = c) then (consume s (Some sc) c' name' adHoc' max).2.1 else []
  | _ => []
  end.

(** What a call of the consumer accepts, in a state. *)
Definition acceptable s (mid : Z) : option SBMessage :=
  match findMsg (topic_msgs s) mid with
  | Some m => if MatchCondition cond (messageViewLocked (get0 s.(sb_attests) id) doc m) then Some m else None
  | None => None
  end.

Definition batch (max : Z) : Z := if (max <=? 0)%Z then 10%Z else max.

Lemma currentPolicy_memory s sc pol : in_memory sc = true → sb_scope (Some sc) = Some sc →
  last (get0 s.(sb_policies) (sb_id sc)) = Some pol → currentPolicy quote document_parse s sc = ok pol.
Proof. intros Hmem Hsc Hl. unfold currentPolicy, GetPolicy. by rewrite Hmem, Hsc, Hmem, Hl. Qed.

Lemma acceptable_id s mid m : acceptable s mid = Some m →
  m.(Msg_ID) = mid ∧ m ∈ topic_msgs s ∧ matches s id doc cond m.
Proof.
  unfold acceptable, findMsg. destruct (List.find _ _) as [m0|] eqn:Hf; [|done].
  destruct (MatchCondition _ _) eqn:Hm; [|done]. intros [= <-].
  apply find_elem_of in Hf as [Hin Hid%Z.eqb_eq]. done.
Qed.

Lemma acceptable_msg s m : numbered Msg_ID (topic_msgs s) → m ∈ topic_msgs s → matches s id doc cond m →
  acceptable s m.(Msg_ID) = Some m.
Proof.
  intros Hn [i Hi]%list_elem_of_lookup Hm. unfold acceptable, findMsg.
  rewrite (Hn i m Hi), (find_numbered Msg_ID _ i m Hn Hi). by rewrite Hm.
Qed.

(** One call of the consumer: either it fails and changes nothing, or the
    loop ran over the events of the topic. *)
Lemma consume_step s sc c' max :
  sb_ok s → policy_is s → condition_of doc name adHoc = Some cond → in_memory sc = true → sb_id sc = id →
  consumer_name c' = c →
  let r := consume s (Some sc) c' name adHoc max in
  (r.1 = s ∧ r.2.1 = [] ∧ is_Some r.2.2)
  ∨ (r.2.2 = None ∧
     delivered (acceptable s) (batch max) 0 (topic_evs s) (cursor s) (done s) [] (cursor r.1) (done r.1) r.2.1).
Proof.
  intros Hs (pol & Hpol & Hdoc) Hcond Hmem Hid Hc. cbn zeta. unfold SBConsume.
  destruct (sb_scope_id sc) as [Hsc | ->]; [|left; split_and!; [done..|by eexists]].
  rewrite <- Hid in Hpol. rewrite Hsc, (currentPolicy_memory s sc pol Hmem Hsc Hpol). cbn [ok]. rewrite Hdoc.
  unfold condition_of in Hcond. destruct (ResolveCondition _ _ _ _) as [cond' [err|]]; [done|].
  injection Hcond as ->. rewrite Hmem. fold (consumer_name c') (batch max). rewrite Hc, Hid.
  fold (acceptable s) (cursor s) (done s). right.
  destruct (deliverLoop_spec (acceptable s) (batch max) (topic_evs s) 0 (cursor s) (done s) [])
    as (l' & d' & new & -> & Hdel).
  - intros mid m Hm. by apply acceptable_id in Hm as [? _].
  - intros i ev Hi. rewrite (to_ev_ids _ _ _ _ _ (Hs id) i ev Hi). lia.
  - cbn. split; [done|]. unfold cursor, done. cbn. rewrite !get0_insert. rewrite !decide_True by done.
    rewrite !get0_insert, !decide_True by done. done.
Qed.

(** What an operation of a steady run does for the consumer. *)
Record stepped s s' (out : list SBMessage) : Prop := {
  st_inv : consumer_inv s';
  st_policy : policy_is s';
  st_done : done s' = list_to_set (Msg_ID <$> out) ∪ done s;
  st_once : NoDup (Msg_ID <$> out) ∧ ∀ m, m ∈ out → m.(Msg_ID) ∉ done s;
  st_match : ∀ m, m ∈ out → m ∈ topic_msgs s ∧ matches s id doc cond m;
  st_grows : topic_msgs s ⊆ topic_msgs s'
}.

(** An operation that leaves the consumer and the topic alone. *)
Lemma stepped_same s s' : consumer_inv s → policy_is s → cursor s' = cursor s → done s' = done s →
  get0 s'.(sb_policies) id = get0 s.(sb_policies) id → topic_msgs s' = topic_msgs s →
  topic_evs s' = topic_evs s → get0 s'.(sb_attests) id = get0 s.(sb_attests) id → stepped s s' [].
Proof.
  intros [Hc Hp] Hpol Hcur Hdone Hps Hms Hes Has.
  split; rewrite ?Hps, ?Hms, ?Hdone; try set_solver.
  - split; unfold matches; rewrite ?Hcur, ?Hdone, ?Hms, ?Hes, ?Has; done.
  - split; [constructor|set_solver].
Qed.

Lemma cursor_event_new s ev : consumer_inv s → ev.(Ev_ID) = (Z.of_nat (length (topic_evs s)) + 1)%Z →
  (cursor s < ev.(Ev_ID))%Z.
Proof. intros [[_ Hc] _] ->. lia. Qed.

Lemma publish_stepped s id' m : sb_ok s → consumer_inv s → policy_is s →
  stepped s (appendMessage s id' m).1 [].
Proof.
  intros Hs Hinv Hpol. destruct (decide (id' = id)) as [->|Hne].
  2: { apply stepped_same; try done; cbn; rewrite get0_insert; by rewrite decide_False. }
  pose proof (cursor_event_new s) as Hnew. pose proof Hinv as [Hc Hp]. split; cbn; try set_solver.
  - split; cbn; rewrite !get0_insert, !decide_True by done.
    + rewrite length_app. cbn. unfold cursor in *. cbn. lia.
    + intros m' [Hm'|Hm']%elem_of_app.
      * destruct (Hp m' Hm') as [?|[?|(ev & Hev & ? & ?)]]; [by left|by right; left|].
        right. right. exists ev. split_and!; [|done..]. apply elem_of_app. by left.
      * apply list_elem_of_singleton in Hm' as ->. right. right. eexists. split; [apply elem_of_app; right; by constructor|].
        split; [done|]. by apply Hnew.
  - split; [constructor|set_solver].
  - rewrite get0_insert, decide_True by done. set_solver.
Qed.

Lemma view_other a atts m : m.(Msg_ID) ≠ a.(Att_MessageID) →
  messageViewLocked ((supersede a.(Att_CreatedAt) a.(Att_MessageID) a.(Att_SignerKeyID) <$> atts)
                     ++ [a <| Att_ID := (Z.of_nat (length atts) + 1)%Z |>]) doc m
  = messageViewLocked atts doc m.
Proof.
  intros Hne. unfold messageViewLocked. f_equal.
  rewrite List.filter_app. cbn [List.filter Att_MessageID]. cbn.
  replace (Att_MessageID a =? Msg_ID m)%Z with false by lia. cbn. rewrite app_nil_r.
  induction atts as [|b atts IH]; [done|]. cbn.
  destruct (Z.eqb_spec (Att_MessageID b) (Att_MessageID a)) as [Heq|Hneq].
  - destruct (supersede_fields (Att_CreatedAt a) (Att_MessageID a) (Att_SignerKeyID a) b) as (_ & -> & _).
    rewrite Heq. replace (Att_MessageID a =? Msg_ID m)%Z with false by lia. exact IH.
  - assert (supersede (Att_CreatedAt a) (Att_MessageID a) (Att_SignerKeyID a) b = b) as ->
      by (unfold supersede; by rewrite (proj2 (Z.eqb_neq _ _) Hneq)).
    destruct (_ && _); cbn; [f_equal|]; exact IH.
Qed.

Lemma attest_stepped s id' a : sb_ok s → consumer_inv s → policy_is s →
  stepped s (appendAttestation s id' a).1 [].
Proof.
  intros Hs Hinv Hpol. destruct (decide (id' = id)) as [->|Hne].
  2: { apply stepped_same; try done; cbn; rewrite get0_insert; by rewrite decide_False. }
  pose proof (cursor_event_new s) as Hnew. pose proof Hinv as [Hc Hp]. split; cbn; try set_solver.
  - split; cbn; rewrite !get0_insert, !decide_True by done.
    + rewrite length_app. cbn. unfold cursor in *. cbn. lia.
    + intros m Hm. destruct (decide (m.(Msg_ID) = a.(Att_MessageID))) as [Heq|Hneq].
      { right. right. eexists. split; [apply elem_of_app; right; by constructor|]. split; [done|]. by apply Hnew. }
      destruct (Hp m Hm) as [?|[Hno|(ev & Hev & ? & ?)]]; [by left| |].
      * right. left. unfold matches in *. cbn. rewrite get0_insert, decide_True by done.
        by rewrite length_fmap, view_other.
      * right. right. exists ev. split_and!; [|done..]. apply elem_of_app. by left.
  - split; [constructor|set_solver].
Qed.

Lemma consume_other s sc c' name' adHoc' max : in_memory sc = true → ¬ (sb_id sc = id ∧ consumer_name c' = c) →
  let s' := (consume s (Some sc) c' name' adHoc' max).1 in cursor s' = cursor s ∧ done s' = done s.
Proof.
  intros Hmem Hne. unfold SBConsume. destruct (sb_scope_id sc) as [-> | ->]; [|done].
  destruct (currentPolicy _ _ _ _) as [pol [err|]]; [done|].
  destruct (ResolveCondition _ _ _ _) as [cond' [err|]]; [done|]. rewrite Hmem. fold (consumer_name c').
  destruct (deliverLoop _ _ _ _ _ _) as [[l' d'] new]. unfold cursor, done. cbn. rewrite !get0_insert.
  destruct (decide (sb_id sc = id)) as [<-|]; [|done]. rewrite !get0_insert.
  rewrite !decide_False; [done|naive_solver..].
Qed.

Lemma consume_stepped s sc c' max :
  sb_ok s → policy_is s → condition_of doc name adHoc = Some cond → in_memory sc = true → sb_id sc = id →
  consumer_name c' = c → consumer_inv s →
  let r := consume s (Some sc) c' name adHoc max in stepped s r.1 r.2.1.
Proof.
  intros Hs Hpol Hcond Hmem Hid Hc Hinv. cbn zeta.
  destruct (consume_keeps s sc c' name adHoc max Hmem) as (Hps & Hms & Has & Hes).
  destruct (consume_step s sc c' max) as [(-> & -> & _)|[_ [Hcur Hd Ho Ha Hseen _]]]; [done..|by apply stepped_same|].
  pose proof Hinv as [Hci Hpend].
  split; rewrite ?Hps, ?Hms; try done.
  - split; rewrite ?Hes, ?Hms; [lia|]. intros m Hm. unfold matches. rewrite Has. fold (matches s id doc cond m).
    destruct (Hpend m Hm) as [Hin|[Hno|(ev & Hev & Hmid & Hlt)]]; [left; set_solver|by right; left|].
    destruct (Z.le_gt_cases (Ev_ID ev) (cursor (consume s (Some sc) c' name adHoc max).1)) as [Hle|Hgt];
      [|right; right; by exists ev].
    destruct (Hseen ev Hev) as [Hnone|Hin]; [lia| |left; congruence]. right. left. intros Hmt.
    rewrite Hmid, (acceptable_msg s m) in Hnone by (done || apply Hs). done.
  - intros m Hm. apply Ha, acceptable_id in Hm as (_ & ? & ?). done.
Qed.

Lemma steady_stepped op s : steady op → sb_ok s → policy_is s → condition_of doc name adHoc = Some cond →
  consumer_inv s → stepped s (sb_apply op s) (outputs op s).
Proof.
  intros [[Hmem _] Hst] Hs Hpol Hcond Hinv. destruct op; cbn in *.
  - destruct (put_cases e s k sc doc0 createdBy Hmem) as [-> | (vers & ->)]; [by apply stepped_same|].
    apply stepped_same; try done. cbn. rewrite get0_insert. by rewrite decide_False.
  - destruct (publish_cases e s k sc inp Hmem) as [-> | (m & ->)]; [by apply stepped_same|by apply publish_stepped].
  - destruct (attest_cases e s k sc inp Hmem) as [-> | (a & ->)]; [by apply stepped_same|by apply attest_stepped].
  - destruct (decide _) as [[Hid Hc]|Hne].
    + destruct (Hst Hid Hc) as [-> ->]. by apply consume_stepped.
    + destruct (consume_keeps s sc consumer conditionName adHoc0 max Hmem) as (Hps & Hms & Has & Hes).
      destruct (consume_other s sc consumer conditionName adHoc0 max Hmem Hne).
      apply stepped_same; try done; congruence.
Qed.

(** Everything the consumer gets in a run. *)
Fixpoint deliveries (ops : list sb_op) s : list SBMessage :=
  match ops with [] => [] | op :: ops' => outputs op s ++ deliveries ops' (sb_apply op s) end.

Record ran s0 s (outs : list SBMessage) : Prop := {
  rn_ok : sb_ok s;
  rn_inv : consumer_inv s;
  rn_policy : policy_is s;
  rn_done : done s = list_to_set (Msg_ID <$> outs) ∪ done s0;
  rn_once : NoDup (Msg_ID <$> outs) ∧ ∀ m, m ∈ outs → m.(Msg_ID) ∉ done s0;
  rn_stored : ∀ m, m ∈ outs → m ∈ topic_msgs s;
  rn_grows : topic_msgs s0 ⊆ topic_msgs s
}.

Lemma steady_run ops s : Forall steady ops → sb_ok s → policy_is s → condition_of doc name adHoc = Some cond →
  consumer_inv s → ran s (sb_run ops s) (deliveries ops s).
Proof.
  intros Hops. revert s. induction Hops as [|op ops Hop _ IH]; intros s Hs Hpol Hcond Hinv.
  { split; try set_solver. cbn. split; [constructor|set_solver]. }
  destruct (steady_stepped op s Hop Hs Hpol Hcond Hinv) as [Hinv1 Hpol1 Hdone1 [Hnd1 Hnew1] Hm1 Hg1].
  destruct (IH (sb_apply op s)) as [Hs2 Hinv2 Hpol2 Hdone2 [Hnd2 Hnew2] Hst2 Hg2]; try done.
  { apply sb_apply_ok; [apply Hop|done]. }
  cbn. split; try done.
  - rewrite Hdone2, Hdone1, fmap_app, list_to_set_app_L. set_solver.
  - rewrite fmap_app. split.
    + apply NoDup_app. split_and!; [done| |done].
      intros x Hx (m & -> & Hm)%list_elem_of_fmap. apply Hnew2 in Hm. set_solver.
    + intros m [Hm|Hm]%elem_of_app; [by apply Hnew1|]. apply Hnew2 in Hm. set_solver.
  - intros m [Hm|Hm]%elem_of_app; [|by apply Hst2]. apply Hg2, Hg1. by apply Hm1.
  - set_solver.
Qed.

Lemma Forall_app_cons {A} (P : A → Prop) l x l' : Forall P (l ++ x :: l') → Forall P l ∧ P x.
Proof. rewrite Forall_app, Forall_cons. naive_solver. Qed.

(** A consumer that has asked for nothing yet. *)
Lemma fresh_inv s : sb_ok s → cursor s = 0%Z → consumer_inv s.
Proof.
  intros Hs Hc. split; [rewrite Hc; lia|]. intros m Hm. right. right.
  destruct (to_announced _ _ _ _ _ (Hs id) m Hm) as (ev & Hin & Hid). exists ev. split_and!; [done..|].
  apply list_elem_of_lookup in Hin as [i Hi]. rewrite Hc, (to_ev_ids _ _ _ _ _ (Hs id) i ev Hi). lia.
Qed.

(** A call that returns less than a full batch leaves nothing behind. *)
Lemma complete_after ops s0 s : ran s0 s (deliveries ops s0) → done s0 = ∅ → condition_of doc name adHoc = Some cond →
  ∀ sc max out, in_memory sc = true → sb_id sc = id → c ≠ "" →
    (consume s (Some sc) c name adHoc max).2 = ok out → (Z.of_nat (length out) < batch max)%Z →
    ∀ m, m ∈ topic_msgs s → matches s id doc cond m → m ∈ deliveries ops s0 ++ out.
Proof.
  intros [Hs Hi Hp Hd _ Hst _] Hd0 Hcond sc max out Hmem Hid Hc Hout Hlen m Hm Hmt.
  assert (Hcn : consumer_name c = c) by (unfold consumer_name; by rewrite (proj2 (String.eqb_neq _ _) Hc)).
  destruct (consume_step s sc c max Hs Hp Hcond Hmem Hid Hcn) as [(_ & _ & [err Herr])|[_ Hdel]];
    rewrite Hout in *; [done|]. destruct Hdel as [_ Hdone _ Hacc Hseen Hall]. cbn in Hdone, Hacc, Hall, Hlen.
  assert (Hin : m.(Msg_ID) ∈ list_to_set (C := gset Z) (Msg_ID <$> (deliveries ops s0 ++ out))).
  { rewrite Hd0, (right_id_L ∅ (∪)) in Hd. rewrite fmap_app, list_to_set_app_L, <- Hd.
    destruct (ci_pending s Hi m Hm) as [Hin|[Hno|(ev & Hev & Hmid & Hlt)]];
      [by apply elem_of_union_l|done|].
    destruct (Hseen ev Hev) as [Hnone|Hin]; [split; [done|by apply Hall]| |].
    2: { rewrite Hmid, Hdone in Hin. by rewrite (comm_L (∪)). }
    rewrite Hmid, (acceptable_msg s m) in Hnone by (done || apply Hs). done. }
  apply elem_of_list_to_set, list_elem_of_fmap in Hin as (m' & Hids & Hin).
  assert (Hm' : m' ∈ topic_msgs s).
  { apply elem_of_app in Hin as [Hin|Hin]; [by apply Hst|]. by apply Hacc, acceptable_id in Hin as (_ & ? & _). }
  apply list_elem_of_lookup in Hm as [i Him], Hm' as [j Hjm].
  rewrite (to_msg_ids _ _ _ _ _ (Hs id) i m Him), (to_msg_ids _ _ _ _ _ (Hs id) j m' Hjm) in Hids.
  assert (i = j) as -> by lia. by simplify_eq.
Qed.

(** *** Without any condition on the run *)

(** The operation is a call of the consumer, and the message satisfies the
    condition of that call under the policy the topic has then. *)
Definition asked_for (op : sb_op) s m : Prop :=
  match op with
  | OpConsume sc c' name' adHoc' _ => sb_id sc = id ∧ consumer_name c' = c
      ∧ ∃ pol cond', currentPolicy quote document_parse s sc = ok pol ∧ condition_of pol.(SP_Document) name' adHoc' = Some cond'
          ∧ matches s id pol.(SP_Document) cond' m
  | _ => False
  end.

(** What any operation does for the consumer. *)
Record gives (op : sb_op) s : Prop := {
  gv_done : done (sb_apply op s) = list_to_set (Msg_ID <$> outputs op s) ∪ done s;
  gv_once : NoDup (Msg_ID <$> outputs op s) ∧ ∀ m, m ∈ outputs op s → m.(Msg_ID) ∉ done s;
  gv_asked : ∀ m, m ∈ outputs op s → m ∈ topic_msgs s ∧ asked_for op s m
}.

Lemma gives_nothing op s : outputs op s = [] → done (sb_apply op s) = done s → gives op s.
Proof. intros Ho Hd. split; rewrite Ho; [rewrite Hd; set_solver|split; [constructor|set_solver]|set_solver]. Qed.

Lemma consume_gives s sc c' name' adHoc' max : sb_ok s → in_memory sc = true → gives (OpConsume sc c' name' adHoc' max) s.
Proof.
  intros Hs Hmem. destruct (decide (sb_id sc = id ∧ consumer_name c' = c)) as [[Hid Hc]|Hne].
  2: { apply gives_nothing; cbn; [by rewrite decide_False|]. by apply consume_other. }
  destruct (consume s (Some sc) c' name' adHoc' max) as [s' [out err]] eqn:Hr.
  assert (Hout : outputs (OpConsume sc c' name' adHoc' max) s = out) by (cbn; rewrite decide_True by done; by rewrite Hr).
  assert (Happ : sb_apply (OpConsume sc c' name' adHoc' max) s = s') by (cbn; by rewrite Hr).
  revert Hr. unfold SBConsume. destruct (sb_scope_id sc) as [Hsc | ->].
  2: { intros [= <- <- _]. by apply gives_nothing; rewrite ?Happ. }
  rewrite Hsc. destruct (currentPolicy _ _ _ _) as [pol [perr|]] eqn:Hpol.
  { intros [= <- <- _]. by apply gives_nothing; rewrite ?Happ. }
  destruct (ResolveCondition _ _ _ _) as [cond' [cerr|]] eqn:Hcond.
  { intros [= <- <- _]. by apply gives_nothing; rewrite ?Happ. }
  rewrite Hmem. fold (consumer_name c') (batch max). rewrite Hc, Hid.
  match goal with |- context [deliverLoop ?f _ _ _ _ _] => set (accept := f) end.
  assert (Hacc : ∀ mid m, accept mid = Some m → m.(Msg_ID) = mid ∧ m ∈ topic_msgs s ∧ matches s id pol.(SP_Document) cond' m).
  { intros mid m. unfold accept, findMsg. destruct (List.find _ _) as [m0|] eqn:Hf; [|done].
    destruct (MatchCondition _ _) eqn:Hm; [|done]. intros [= <-]. by apply find_elem_of in Hf as [Hin Heq%Z.eqb_eq]. }
  destruct (deliverLoop_spec accept (batch max) (topic_evs s) 0 (cursor s) (done s) []) as (l' & d' & new & Hloop & [_ Hd Ho Ha _ _]).
  - intros mid m Hm. by apply Hacc in Hm as [? _].
  - intros i ev Hi. rewrite (to_ev_ids _ _ _ _ _ (Hs id) i ev Hi). lia.
  - unfold cursor, done in Hloop. rewrite Hloop. intros [= Hs' Hnew _]. cbn in Hnew. subst new. split; rewrite ?Hout, ?Happ.
    + rewrite <- Hd, <- Hs'. unfold done. cbn. by rewrite !get0_insert, !decide_True, !get0_insert, !decide_True by done.
    + exact Ho.
    + intros m Hm. apply Ha, Hacc in Hm as (_ & Hin & Hmt). split; [done|]. split; [done|]. split; [done|].
      exists pol, cond'. split; [exact Hpol|]. split; [|done]. unfold condition_of. by rewrite Hcond.
Qed.

Lemma op_gives op s : op_ok op → sb_ok s → gives op s.
Proof.
  intros [Hmem _] Hs. destruct op as [e k sc d by_|e k sc inp|e k sc inp|sc c' name' adHoc' max]; cbn [op_scope] in Hmem.
  - apply gives_nothing; [done|]. cbn. by destruct (put_cases e s k sc d by_ Hmem) as [-> | (vers & ->)].
  - apply gives_nothing; [done|]. cbn. by destruct (publish_cases e s k sc inp Hmem) as [-> | (m & ->)].
  - apply gives_nothing; [done|]. cbn. by destruct (attest_cases e s k sc inp Hmem) as [-> | (a & ->)].
  - by apply consume_gives.
Qed.

Lemma deliveries_once ops s : Forall op_ok ops → sb_ok s →
  NoDup (Msg_ID <$> deliveries ops s) ∧ ∀ m, m ∈ deliveries ops s → m.(Msg_ID) ∉ done s.
Proof.
  intros Hops. revert s. induction Hops as [|op ops Hop _ IH]; intros s Hs; [split; [constructor|set_solver]|].
  destruct (op_gives op s Hop Hs) as [Hd [Hnd Hnew] _].
  destruct (IH (sb_apply op s)) as [Hnd' Hnew']; [by apply sb_apply_ok|]. cbn [deliveries]. rewrite fmap_app. split.
  - apply NoDup_app. split_and!; [done| |done]. intros x Hx (m & -> & Hm)%list_elem_of_fmap. apply Hnew' in Hm. set_solver.
  - intros m [Hm|Hm]%elem_of_app; [by apply Hnew|]. apply Hnew' in Hm. set_solver.
Qed.

(** C13. A consumer of a signed topic in memory gets every message that comes
    to satisfy its condition, exactly once. In any run of new policies,
    publications, attestations and consumptions, of this and other topics and
    consumers, no message is delivered to it twice, and each one was, when it
    was delivered, a message of the topic that satisfied the condition of the
    call under the policy and the attestations of that moment. For a consumer
    that starts with the run, while the topic keeps its policy and the
    consumer its condition: once a call returns less than a full batch, every
    message of the topic that satisfies the condition now has been
    delivered. *)
Theorem consume_exactly_once ops s0 :
  sb_ok s0 → Forall op_ok ops →
  let s := sb_run ops s0 in
  NoDup (Msg_ID <$> deliveries ops s0)
  ∧ (∀ ops1 op ops2 m, ops = ops1 ++ op :: ops2 → m ∈ outputs op (sb_run ops1 s0) →
       m ∈ topic_msgs (sb_run ops1 s0) ∧ asked_for op (sb_run ops1 s0) m)
  ∧ (cursor s0 = 0%Z → done s0 = ∅ → policy_is s0 → condition_of doc name adHoc = Some cond → Forall steady ops →
     ∀ sc max out, in_memory sc = true → sb_id sc = id → c ≠ "" →
      (consume s (Some sc) c name adHoc max).2 = ok out → (Z.of_nat (length out) < batch max)%Z →
      ∀ m, m ∈ topic_msgs s → matches s id doc cond m → m ∈ deliveries ops s0 ++ out).
Proof.
  intros Hs0 Hok s. split; [by apply deliveries_once|]. split.
  - intros ops1 op ops2 m -> Hm. apply Forall_app_cons in Hok as [Hok1 Hop].
    eapply gv_asked; [|exact Hm]. by apply op_gives, sb_run_ok.
  - intros Hc0 Hd0 Hpol Hcond Hops. pose proof (fresh_inv s0 Hs0 Hc0) as Hinv.
    pose proof (steady_run ops s0 Hops Hs0 Hpol Hcond Hinv) as Hran. by apply complete_after.
Qed.

(** C7. A signed topic holds only what its agents signed and its policies
    allow. In memory, after any run of operations with keys whose material
    does not change, every message carries the hash of its own content and a
    signature of its author's key over it, was published under a stored
    version of the topic's policy that lists an agent with that key as
    publisher, and, where that policy chains messages, names the hash of the
    message before it; no key has two live attestations of one message; and
    [Verify] confirms the message and every attestation of it as long as the
    signers' keys can be looked up. *)
Theorem signed_topic_integrity d ops sc k i m :
  Forall op_ok ops → sb_scope (Some sc) = Some sc → in_memory sc = true → keys_agree k →
  let s := sb_run ops (NewSBService d) in
  let msgs := get0 s.(sb_messages) (sb_id sc) in
  let atts := get0 s.(sb_attests) (sb_id sc) in
  msgs !! i = Some m →
  message_ok (sb_id sc) (get0 s.(sb_policies) (sb_id sc)) (before msgs i) m
  ∧ (∀ j l a b, atts !! j = Some a → atts !! l = Some b → a.(Att_SupersededAt) = None →
       live_for a.(Att_MessageID) a.(Att_SignerKeyID) b → j = l)
  ∧ (has_key k m.(Msg_AuthorKeyID) → (∀ a, a ∈ atts → has_key k a.(Att_SignerKeyID)) →
     ∃ r, verify s k (Some sc) m.(Msg_ID) = ok r ∧ r.(VR_Message) = m ∧ r.(VR_SignatureOK) = true
       ∧ r.(VR_HashOK) = true ∧ ∀ ch, ch ∈ r.(VR_AttestationChecks) → ch.(AC_SignatureOK) = true).
Proof.
  intros Hops Hsc Hmem Hk s msgs atts Hi.
  assert (Hs : sb_ok s) by (apply sb_run_ok; [done|apply NewSBService_ok]).
  split_and!.
  - by apply (to_msgs _ _ _ _ _ (Hs (sb_id sc))).
  - apply (to_live _ _ _ _ _ (Hs (sb_id sc))).
  - intros Hkey Hatts. by eapply verify_ok.
Qed.
End Topics.

(** ** Witnesses *)

Section Witnesses.
#[local] Existing Instance canonical_range.
#[local] Instance wb_db : SecureBusDB := {|
  SD := unit; sd_max_version := λ _ _, None; sd_insert_policy := λ _ _ _ d, (d, None);
  sd_update_config := λ _ _ _ d, (d, None); sd_policy := λ _ _ _, None; sd_last_hash := λ _ _, None;
  sd_insert_message := λ _ _ d, (d, ok 0%Z); sd_insert_event := λ _ _ _ _ _ d, (d, None);
  sd_supersede := λ _ _ _ _ d, d; sd_insert_attestation := λ _ _ d, (d, ok 0%Z); sd_message := λ _ _ _, None;
  sd_attestations := λ _ _ _, ok []; sd_live_statuses := λ _ _ _, ok []; sd_sub_last := λ _ _ _, 0%Z;
  sd_sub_upsert := λ _ _ _ _ d, d; sd_sub_set_last := λ _ _ _ d, (d, None); sd_events_after := λ _ _ _ _, ok [];
  sd_delivered := λ _ _ _ _, false; sd_deliver := λ _ _ _ d, d; sd_commit := λ _, None
|}.
(** A scheme in which the public key is the signature. *)
#[local] Instance wb_sigs : Signatures := {|
  ed25519_verify := λ pub _ sig, sig =s pub; p256_unmarshal := λ _, false;
  ecdsa_verify_asn1 := λ _ _ _, false; ecdsa_verify := λ _ _ _ _, false
|}.
#[local] Instance wb_lookup : KeyLookup (gmap string AgentKey) := λ k id, ok (k !! id).

Definition wb_key : AgentKey := mkAgentKey "k1" "user:u" "" "ed25519" "pub" "" 1 None.
Definition wb_keys : gmap string AgentKey := {[ "k1" := wb_key ]}.
Definition wb_material (_ : string) : string * string := ("ed25519", "pub").
Definition wb_scope : Scope :=
  mkScope ((zeroval : DataObject) <| DataObject_ID := "t" |> <| DataObject_Kind := ObjectKindSecureBus |>)
    "publish" zeroval zeroval None true.
Definition wb_cond : Condition := mkCondition [] [mkConditionRequire "w" "ok"] 0 None "".
Definition wb_doc : Document :=
  mkDocument "" "" 1 "now" true {[ "w" := mkAgentRef "k1" "ed25519" "pub" ]} (mkRules ["w"] ["w"] [])
    (mkAttestationPolicy [] 0 true) {[ "approved" := wb_cond ]}.
Definition wb_env : Env := mkEnv (λ _, 100%Z) (λ _, "uuid") (λ _, Some "x").
Definition wb_json (_ : Any) : option string := Some "{}".
Definition wb_hash : string := B64 (Sum256 "{}").
Definition wb_pub (nonce prev : string) : PublishInput :=
  mkPublishInput "k1" "user:u" "" 1 "" nonce 5 None "pub" prev.
Definition wb_att : AttestInput := mkAttestInput "k1" "user:u" "" 1 1 "ok" "" 6 "pub".
Definition wb_op := sb_op (K := gmap string AgentKey).
Definition wb_put : wb_op := OpPutPolicy wb_env wb_keys wb_scope wb_doc "user:u".
Definition wb_ops : list wb_op :=
  [OpPublish wb_env wb_keys wb_scope (wb_pub "n1" ""); OpPublish wb_env wb_keys wb_scope (wb_pub "n2" wb_hash);
   OpAttest wb_env wb_keys wb_scope wb_att; OpConsume wb_scope "c" "approved" None 10].
Definition wb_run (ops : list wb_op) (s : SBService) : SBService :=
  sb_run (λ s, s) (λ _, "") (λ _, "") wb_json (λ _, ANil) (λ _, inr (NewError "")) (λ _, inr (NewError ""))
    Some Some (λ _ _, "sig") (Some (mkPolicySigner "kid" "priv")) 0 ops s.
Definition wb_s0 : SBService := wb_run [wb_put] (NewSBService tt).

Lemma wb_agree : keys_agree wb_material wb_keys.
Proof.
  intros id key err. unfold key_get, wb_lookup, wb_keys. destruct (decide (id = "k1")) as [->|Hne].
  - rewrite lookup_singleton_eq. by intros [= <- _].
  - by rewrite lookup_singleton_ne.
Qed.

Lemma wb_op_ok op : op ∈ wb_put :: wb_ops → op_ok wb_material op.
Proof.
  intros Hop. split.
  - case_elem Hop; reflexivity.
  - case_elem Hop; intros k [= <-]; apply wb_agree.
Qed.

Definition wb_final : SBService := wb_run (wb_put :: wb_ops) (NewSBService tt).

Lemma wb_signers a : a ∈ get0 wb_final.(sb_attests) "t" → a.(Att_SignerKeyID) = "k1".
Proof.
  intros Ha%(list_elem_of_fmap_2 Att_SignerKeyID).
  assert (Hall : Att_SignerKeyID <$> get0 wb_final.(sb_attests) "t" = ["k1"]) by (vm_compute; reflexivity).
  rewrite Hall in Ha. by apply list_elem_of_singleton in Ha.
Qed.

Lemma signed_topic_integrity_witness :
  ∃ m r, get0 wb_final.(sb_messages) "t" !! 1 = Some m ∧ m.(Msg_PrevHash) = wb_hash
    ∧ Verify (λ _, "") wb_json Some Some wb_final wb_keys (Some wb_scope) m.(Msg_ID) = ok r
    ∧ r.(VR_SignatureOK) = true ∧ r.(VR_HashOK) = true.
Proof.
  assert (Hm : ∃ m, get0 wb_final.(sb_messages) "t" !! 1 = Some m ∧ m.(Msg_PrevHash) = wb_hash
    ∧ m.(Msg_AuthorKeyID) = "k1") by (eexists; split; [vm_compute; reflexivity|split; vm_compute; reflexivity]).
  destruct Hm as (m & Hm & Hprev & Hk).
  destruct (signed_topic_integrity (λ s, s) (λ _, "") (λ _, "") wb_json (λ _, ANil) (λ _, inr (NewError ""))
    (λ _, inr (NewError "")) Some Some (λ _ _, "sig") (Some (mkPolicySigner "kid" "priv")) 0 wb_material
    (tt : @SD wb_db) (wb_put :: wb_ops) wb_scope wb_keys 1 m) as (_ & _ & Hv).
  - apply Forall_forall. exact wb_op_ok.
  - reflexivity.
  - reflexivity.
  - exact wb_agree.
  - exact Hm.
  - destruct Hv as (r & Hr & _ & Hs & Hh & _).
    + rewrite Hk. exists wb_key, None. vm_compute. reflexivity.
    + intros a Ha. exists wb_key, None. rewrite (wb_signers a Ha). vm_compute. reflexivity.
    + exists m, r. split_and!; assumption.
Defined.
Definition wb_doc1 : Document := wb_doc <| Doc_TopicID := "t" |> <| Doc_Schema := PolicySchemaID |>.

Lemma wb_steady : Forall (steady wb_material "t" "c" "approved" None) wb_ops.
Proof.
  apply Forall_forall. intros op Hop. split; [apply wb_op_ok; by constructor|]. case_elem Hop; cbn; auto.
Qed.

(** The first message is delivered once it is attested, the second never; all
    that satisfies the condition has been delivered. *)
Lemma consume_exactly_once_witness :
  let outs := deliveries (λ s, s) (λ _, "") (λ _, "") wb_json (λ _, ANil) (λ _, inr (NewError ""))
    (λ _, inr (NewError "")) Some Some (λ _ _, "sig") (Some (mkPolicySigner "kid" "priv")) 0 "t" "c" wb_ops wb_s0 in
  Msg_ID <$> outs = [1%Z] ∧ NoDup (Msg_ID <$> outs)
  ∧ ∀ m, m ∈ get0 (wb_run wb_ops wb_s0).(sb_messages) "t" → matches (wb_run wb_ops wb_s0) "t" wb_doc1 wb_cond m → m ∈ outs.
Proof.
  split; [vm_compute; reflexivity|].
  destruct (consume_exactly_once (λ s, s) (λ _, "") (λ _, "") wb_json (λ _, ANil) (λ _, inr (NewError ""))
    (λ _, inr (NewError "")) Some Some (λ _ _, "sig") (Some (mkPolicySigner "kid" "priv")) 0 wb_material
    "t" "c" "approved" None wb_doc1 wb_cond wb_ops wb_s0) as (Hnd & _ & Hall).
  - apply sb_run_ok; [|apply NewSBService_ok]. apply Forall_singleton, wb_op_ok. by constructor.
  - apply Forall_forall. intros op Hop. apply wb_op_ok. by constructor.
  - split; [exact Hnd|]. intros m Hm Hmt. rewrite <- (app_nil_r (deliveries _ _ _ _ _ _ _ _ _ _ _ _ _ _ _ _)).
    eapply (Hall eq_refl eq_refl); [eexists; split; vm_compute; reflexivity|reflexivity|exact wb_steady|..|exact Hm|exact Hmt].
    + instantiate (1 := wb_scope). reflexivity.
    + reflexivity.
    + discriminate.
    + instantiate (1 := 10%Z). vm_compute. reflexivity.
    + vm_compute. reflexivity.
Defined.
End Witnesses.
