(* ===== verification/AgentKeyProps.v ===== *)
(** What the key store of [AgentKeys] guarantees over whole runs, in memory:
    a key is there only after its holder proved possession with a challenge
    of its own, a challenge serves once, and a registered key never changes
    but to be revoked. The last part is what [SecureBusProps] needs of a key
    lookup. *)
From S2P Require Import Prelude GoStrings GoCrypto Models DataObj AccessObjects PolicyScope AgentKeys SecureBus SecureBusProps.

Section Runs.
Context `{AgentDB, AgentRedis, Signatures, GoRange}.
Context (json_marshal : Any → option string) (rfc3339nano : Time → string) (quote : string → string).
Implicit Types (s : KeyStore).

Inductive ak_op :=
| OpChallenge (e : Env) (binder : string) (ttl : Duration)
| OpRegister (e : Env) (inp : RegisterInput)
| OpRevoke (t : Time) (keyID subjectKey : string).

Inductive ak_result :=
| ResChallenge (r : ret Challenge)
| ResKey (r : ret AgentKey)
| ResRevoke (err : option error).

Abbreviation register := (Register json_marshal quote).

Definition ak_apply (op : ak_op) s : KeyStore * ak_result :=
  match op with
  | OpChallenge e binder ttl => let '(s, r) := CreateChallenge rfc3339nano e s binder ttl in (s, ResChallenge r)
  | OpRegister e inp => let '(s, r) := register e s inp in (s, ResKey r)
  | OpRevoke t id subj => let '(s, err) := RevokeKey t s id subj in (s, ResRevoke err)
  end.

(** A run: the operations with their results, and the store after them. *)
Inductive ak_ran (s0 : KeyStore) : list (ak_op * ak_result) → KeyStore → Prop :=
| ak_ran_nil : ak_ran s0 [] s0
| ak_ran_snoc tr s op res s' : ak_ran s0 tr s → ak_apply op s = (s', res) → ak_ran s0 (tr ++ [(op, res)]) s'.

Definition in_process s : Prop := s.(ak_pool) = None ∧ s.(ak_redis) = None.

(** ** What an operation does *)

Inductive ak_effect (op : ak_op) s : ak_result → KeyStore → Prop :=
| AE_same res : (∀ key, res ≠ ResKey (ok key)) → ak_effect op s res s
| AE_challenge e binder ttl ch :
    op = OpChallenge e binder ttl → ch.(Chal_Nonce) = uuid e 0 → ch.(Chal_Binder) = binder →
    ak_effect op s (ResChallenge (ok ch)) (s <| ak_challs := <[uuid e 0 := ch]> s.(ak_challs) |>)
| AE_dropped e inp res : op = OpRegister e inp → (∀ key, res ≠ ResKey (ok key)) →
    ak_effect op s res (s <| ak_challs := delete inp.(Reg_Nonce) s.(ak_challs) |>)
| AE_registered e inp ch key :
    op = OpRegister e inp → s.(ak_challs) !! inp.(Reg_Nonce) = Some ch →
    ch.(Chal_Binder) = inp.(Reg_Binder) → (now e 0 ≤ ch.(Chal_ExpiresAt))%Z →
    proofOK json_marshal key.(Key_Algorithm) inp = true →
    key.(Key_KeyID) = "k_" +:+ uuid e 0 → key.(Key_SubjectKey) = inp.(Reg_SubjectKey) →
    key.(Key_TokenID) = inp.(Reg_TokenID) → key.(Key_PublicKey) = inp.(Reg_PublicKey) →
    key.(Key_RevokedAt) = None →
    ak_effect op s (ResKey (ok key))
      (s <| ak_challs := delete inp.(Reg_Nonce) s.(ak_challs) |> <| ak_mem := <[key.(Key_KeyID) := key]> s.(ak_mem) |>)
| AE_revoked t id subj key :
    op = OpRevoke t id subj → s.(ak_mem) !! id = Some key → key.(Key_SubjectKey) = subj →
    ak_effect op s (ResRevoke None)
      (s <| ak_mem := <[id := key <| Key_RevokedAt := Some t |>]> s.(ak_mem) |>).

Lemma ak_register_effect e s inp s' r : in_process s → register e s inp = (s', r) →
  ak_effect (OpRegister e inp) s (ResKey r) s'.
Proof.
  intros [Hp Hr]. unfold Register, ConsumeChallenge. rewrite Hr.
  destruct (_ || _); [intros [= <- <-]; by apply AE_same|].
  set (alg := if _ =s "" then _ else _).
  destruct (checkAlgorithm _ _ _); [intros [= <- <-]; by apply AE_same|].
  destruct (Reg_Nonce inp =s ""); [intros [= <- <-]; by apply AE_same|].
  destruct (ak_challs s !! Reg_Nonce inp) as [ch|] eqn:Hch; [|intros [= <- <-]; by eapply AE_dropped].
  destruct (After _ _) eqn:Hexp; [intros [= <- <-]; by eapply AE_dropped|].
  unfold After in Hexp. apply Z.ltb_ge in Hexp.
  destruct (String.eqb_spec (Chal_Binder ch) (Reg_Binder inp)) as [Hb|]; [|intros [= <- <-]; by apply AE_same]. cbn [negb].
  destruct (proofOK _ alg inp) eqn:Hproof; [|intros [= <- <-]; by eapply AE_dropped]. cbn. rewrite Hp.
  intros [= <- <-]. by eapply (AE_registered _ _ e inp ch (mkAgentKey _ _ _ alg _ _ _ _)).
Qed.

Lemma ak_apply_effect op s s' res : in_process s → ak_apply op s = (s', res) → ak_effect op s res s'.
Proof.
  intros Hin. destruct op; cbn.
  - destruct Hin as [Hp Hr]. unfold CreateChallenge. destruct (_ =s ""); [intros [= <- <-]; by apply AE_same|].
    rewrite Hr. intros [= <- <-]. by eapply (AE_challenge _ _ e binder ttl (mkChallenge _ _ _)).
  - destruct (register e s inp) as [s1 r] eqn:Heq. intros [= <- <-]. by eapply ak_register_effect.
  - destruct Hin as [Hp Hr]. unfold RevokeKey. rewrite Hp.
    destruct (ak_mem s !! keyID) as [key|] eqn:Hk; [|intros [= <- <-]; by apply AE_same].
    destruct (String.eqb_spec (Key_SubjectKey key) subjectKey) as [Hs|]; [|intros [= <- <-]; by apply AE_same].
    intros [= <- <-]. by eapply AE_revoked.
Qed.

Lemma ak_effect_process op s res s' : ak_effect op s res s' → in_process s → in_process s'.
Proof. by intros []. Qed.

(** ** Where a key comes from *)

(** The event hands out the challenge. *)
Definition challenged (ev : ak_op * ak_result) (ch : Challenge) : Prop :=
  ∃ e ttl, ev.1 = OpChallenge e ch.(Chal_Binder) ttl ∧ ev.2 = ResChallenge (ok ch).

(** The event registers the key, with a proof of possession made for the
    challenge and its binder. *)
Definition registered_with (ev : ak_op * ak_result) (ch : Challenge) (key : AgentKey) : Prop :=
  ∃ e inp key0, ev.1 = OpRegister e inp ∧ ev.2 = ResKey (ok key0)
    ∧ inp.(Reg_Nonce) = ch.(Chal_Nonce) ∧ inp.(Reg_Binder) = ch.(Chal_Binder)
    ∧ (now e 0 ≤ ch.(Chal_ExpiresAt))%Z
    ∧ proofOK json_marshal key.(Key_Algorithm) inp = true
    ∧ key0.(Key_KeyID) = key.(Key_KeyID)
    ∧ inp.(Reg_SubjectKey) = key.(Key_SubjectKey) ∧ inp.(Reg_TokenID) = key.(Key_TokenID)
    ∧ inp.(Reg_PublicKey) = key.(Key_PublicKey).

Record ak_inv (tr : list (ak_op * ak_result)) s : Prop := {
  ai_process : in_process s;
  ai_challs : ∀ nonce ch, s.(ak_challs) !! nonce = Some ch →
    ch.(Chal_Nonce) = nonce ∧ ∃ ev, [ev] `sublist_of` tr ∧ challenged ev ch;
  ai_keys : ∀ id key, s.(ak_mem) !! id = Some key → key.(Key_KeyID) = id ∧
    ∃ ev1 ev2 ch, [ev1; ev2] `sublist_of` tr ∧ challenged ev1 ch ∧ registered_with ev2 ch key
}.

Lemma ak_inv_skip tr s ev : ak_inv tr s → ak_inv (tr ++ [ev]) s.
Proof.
  intros [Hp Hc Hk]. split; [done| |].
  - intros nonce ch (? & e & ? & ?)%Hc. eauto using sublist_snoc_skip.
  - intros id key (? & e1 & e2 & ch & ? & ? & ?)%Hk. eauto 8 using sublist_snoc_skip.
Qed.

Lemma ak_inv_step tr s op res s' : ak_inv tr s → ak_apply op s = (s', res) → ak_inv (tr ++ [(op, res)]) s'.
Proof.
  intros Hinv Happ. pose proof (ak_inv_skip tr s (op, res) Hinv) as [Hp' Hc' Hk'].
  pose proof Hinv as [Hp Hc Hk]. pose proof (ak_apply_effect _ _ _ _ Hp Happ) as Heff. clear Happ.
  destruct Heff as [res _|e binder ttl ch -> Hn Hb|e inp res -> Hno
    |e inp ch key -> Hch Hb Hexp Hproof Hid Hsub Htok Hpub Hrev|t id subj key -> Hkey Hsub].
  - done.
  - split; [done| |done]. cbn. intros nonce ch'. rewrite lookup_insert_Some.
    intros [[<- <-]|[_ Hl]]; [|by apply Hc']. split; [done|]. exists (OpChallenge e binder ttl, ResChallenge (ok ch)).
    split; [by apply sublist_inserts_l|]. exists e, ttl. by rewrite Hb.
  - split; [done| |done]. cbn. intros nonce ch'. rewrite lookup_delete_Some. intros [_ Hl]. by apply Hc'.
  - split; [done| |]; cbn.
    { intros nonce ch'. rewrite lookup_delete_Some. intros [_ Hl]. by apply Hc'. }
    intros id key'. rewrite lookup_insert_Some. intros [[<- <-]|[_ Hl]]; [|by apply Hk'].
    apply Hc in Hch as (Hnonce & ev & Hev & Hcev). split; [done|]. eexists ev, _, ch.
    split; [by apply (sublist_app [ev] tr [_] [_])|]. split; [done|]. exists e, inp, key. by split_and!.
  - split; [done..|]. cbn. intros id' key'. rewrite lookup_insert_Some.
    intros [[<- <-]|[_ Hl]]; [|by apply Hk']. by apply Hk' in Hkey.
Qed.

Lemma ak_ran_inv prefix tr s : ak_ran (NewKeyStore None None prefix) tr s → ak_inv tr s.
Proof. induction 1; [by split|by eapply ak_inv_step]. Qed.

(** ** A challenge serves once *)

Lemma ak_ran_process s0 tr s : ak_ran s0 tr s → in_process s0 → in_process s.
Proof.
  induction 1 as [|tr s op res s' _ IH Happ]; [done|]. intros Hp. specialize (IH Hp).
  exact (ak_effect_process _ _ _ _ (ak_apply_effect _ _ _ _ IH Happ) IH).
Qed.

Definition reissues (nonce : string) (ev : ak_op * ak_result) : Prop :=
  ∃ e binder ttl, ev.1 = OpChallenge e binder ttl ∧ uuid e 0 = nonce.

Lemma nonce_gone s0 tr s nonce : in_process s0 → ak_ran s0 tr s → s0.(ak_challs) !! nonce = None →
  (∀ ev, ev ∈ tr → ¬ reissues nonce ev) → s.(ak_challs) !! nonce = None.
Proof.
  intros Hp. induction 1 as [|tr s op res s' Hran IH Happ]; [done|]. intros Hn Hre.
  assert (Hs : s.(ak_challs) !! nonce = None) by (apply IH; [done|]; intros ev Hev; apply Hre, elem_of_app; by left).
  pose proof (ak_apply_effect _ _ _ _ (ak_ran_process _ _ _ Hran Hp) Happ) as Heff.
  destruct Heff as [res _|e binder ttl ch -> _ _|e inp res -> _|e inp ch key -> _ _ _ _ _ _ _ _ _|t id subj key _ _ _];
    cbn; try done.
  - rewrite lookup_insert_ne; [done|]. intros Heq. eapply (Hre (_, _)); [apply elem_of_app; right; by constructor|].
    by exists e, binder, ttl.
  - rewrite lookup_delete_None. by right.
  - rewrite lookup_delete_None. by right.
Qed.

Lemma register_without_challenge e s inp : in_process s → s.(ak_challs) !! inp.(Reg_Nonce) = None →
  is_Some (register e s inp).2.2.
Proof.
  intros [_ Hr] Hn. unfold Register, ConsumeChallenge. rewrite Hr, Hn.
  destruct (_ || _); [by eexists|]. destruct (checkAlgorithm _ _ _); [by eexists|].
  destruct (_ =s ""); by eexists.
Qed.

(** ** A registered key only gets revoked *)

Definition key_kept (key key' : AgentKey) : Prop :=
  key'.(Key_KeyID) = key.(Key_KeyID) ∧ key'.(Key_SubjectKey) = key.(Key_SubjectKey) ∧ key'.(Key_TokenID) = key.(Key_TokenID)
  ∧ key'.(Key_Algorithm) = key.(Key_Algorithm) ∧ key'.(Key_PublicKey) = key.(Key_PublicKey)
  ∧ (is_Some key.(Key_RevokedAt) → is_Some key'.(Key_RevokedAt)).

#[local] Instance key_kept_preorder : PreOrder key_kept.
Proof.
  split; [by intros key|]. intros k1 k2 k3 (? & ? & ? & ? & ? & ?) (? & ? & ? & ? & ? & ?).
  split_and!; try congruence. auto.
Qed.

(** The event draws the identifier for a new key. *)
Definition redraws (id : string) (ev : ak_op * ak_result) : Prop :=
  ∃ e inp, ev.1 = OpRegister e inp ∧ "k_" +:+ uuid e 0 = id.

Lemma key_kept_run s0 tr s id key : in_process s0 → ak_ran s0 tr s → s0.(ak_mem) !! id = Some key →
  (∀ ev, ev ∈ tr → ¬ redraws id ev) → ∃ key', s.(ak_mem) !! id = Some key' ∧ key_kept key key'.
Proof.
  intros Hp. induction 1 as [|tr s op res s' Hran IH Happ]; intros Hk Hre; [by exists key; split|].
  destruct IH as (key' & Hs & Hkept); [done|intros ev Hev; apply Hre, elem_of_app; by left|].
  pose proof (ak_apply_effect _ _ _ _ (ak_ran_process _ _ _ Hran Hp) Happ) as Heff.
  destruct Heff as [res _|e binder ttl ch -> _ _|e inp res -> _|e inp ch key0 -> _ _ _ _ Hid _ _ _ _|t id' subj key0 _ Hk0 _];
    cbn; try by eauto.
  - rewrite lookup_insert_ne; [by eauto|]. intros Heq.
    eapply (Hre (_, _)); [apply elem_of_app; right; by constructor|]. exists e, inp. by rewrite <-Hid.
  - destruct (decide (id' = id)) as [->|Hne]; [|rewrite lookup_insert_ne by exact Hne; exists key'; by split].
    rewrite lookup_insert_eq. eexists; split; [done|]. rewrite Hs in Hk0. injection Hk0 as ->.
    etrans; [exact Hkept|]. by split_and!.
Qed.

(** C30. A key is registered only by who holds it, and stays what it was. In
    every run of the key store in memory, a key in it was registered with a
    signature, under that very key, of the nonce of a challenge that had been
    handed out before to the same binder and had not expired; once a
    challenge has served for a registration, every later registration with
    its nonce fails, whatever happens in between, unless the same nonce is
    handed out again; and a key that is there keeps its owner, token,
    algorithm and public key, and its revocation, through every further run
    that does not draw its identifier again. *)
Theorem key_registration_sound prefix tr s :
  ak_ran (NewKeyStore None None prefix) tr s →
  (∀ id key, s.(ak_mem) !! id = Some key → key.(Key_KeyID) = id ∧
     ∃ ev1 ev2 ch, [ev1; ev2] `sublist_of` tr ∧ challenged ev1 ch ∧ registered_with ev2 ch key)
  ∧ (∀ e inp s1 key tr2 s2 e2 inp2, register e s inp = (s1, ok key) → ak_ran s1 tr2 s2 →
       (∀ ev, ev ∈ tr2 → ¬ reissues inp.(Reg_Nonce) ev) → inp2.(Reg_Nonce) = inp.(Reg_Nonce) →
       is_Some (register e2 s2 inp2).2.2)
  ∧ (∀ tr2 s2 id key, ak_ran s tr2 s2 → s.(ak_mem) !! id = Some key →
       (∀ ev, ev ∈ tr2 → ¬ redraws id ev) → ∃ key', GetKey s2 id = ok (Some key') ∧ key_kept key key').
Proof.
  intros Hinv%ak_ran_inv. pose proof (ai_process _ _ Hinv) as Hp. split_and!.
  - apply (ai_keys _ _ Hinv).
  - intros e inp s1 key tr2 s2 e2 inp2 Hreg Hran Hre Hn.
    assert (Hs1 : in_process s1 ∧ s1.(ak_challs) !! inp.(Reg_Nonce) = None).
    { pose proof (ak_register_effect e s inp s1 _ Hp Hreg) as Heff. split; [by eapply ak_effect_process|].
      inversion Heff as [? Hno| |? ? ? Heq Hno|? ? ? ? Heq|]; try done; subst.
      - by destruct (Hno key).
      - by destruct (Hno key).
      - injection Heq as <- <-. cbn. by rewrite lookup_delete_eq. }
    destruct Hs1 as [Hp1 Hn1]. apply register_without_challenge; [by eapply ak_ran_process|].
    rewrite Hn. by eapply nonce_gone.
  - intros tr2 s2 id key Hran Hk Hre. destruct (key_kept_run s tr2 s2 id key) as (key' & Hk' & Hkept); try done.
    exists key'. split; [|done]. unfold GetKey. destruct (ak_ran_process _ _ _ Hran Hp) as [-> _]. by rewrite Hk'.
Qed.
End Runs.

(** ** Witness *)

Section Witness.
#[local] Existing Instance canonical_range.
#[local] Instance wk_db : AgentDB := {|
  AD := unit; ad_insert := λ _ d, (d, None); ad_get := λ _ _, ok None; ad_list := λ _ _, ok [];
  ad_revoke := λ _ _ _ d, (d, ok 0%Z)
|}.
#[local] Instance wk_redis : AgentRedis := {|
  AR := unit; ar_set := λ _ _ _ r, (r, None); ar_getdel := λ _ r, (r, ok None)
|}.
(** A scheme in which the public key is the signature. *)
#[local] Instance wk_sigs : Signatures := {|
  ed25519_verify := λ pub _ sig, sig =s pub; p256_unmarshal := λ _, false;
  ecdsa_verify_asn1 := λ _ _ _, false; ecdsa_verify := λ _ _ _ _, false
|}.

Definition wk_json (_ : Any) : option string := Some "{}".
Definition wk_pub : string := "0123456789abcdef0123456789abcdef".
Definition wk_env : Env := mkEnv (λ _, 100%Z) (λ _, "u1") (λ _, Some "x").
Definition wk_inp : RegisterInput := mkRegisterInput "user:u" "" "" wk_pub "u1" wk_pub "sess".
Definition wk_challenge : ak_op := OpChallenge wk_env "sess" 0.
Definition wk_s0 : KeyStore := NewKeyStore None None "p".
Definition wk_apply : ak_op → KeyStore → KeyStore * ak_result := ak_apply wk_json (λ _, "") (λ s, s).
Definition wk_s1 : KeyStore := (wk_apply wk_challenge wk_s0).1.
Definition wk_s2 : KeyStore := (wk_apply (OpRegister wk_env wk_inp) wk_s1).1.
Definition wk_key : AgentKey := mkAgentKey "k_u1" "user:u" "" "ed25519" wk_pub (b64_encode wk_pub) 100 None.

Lemma wk_ran : ak_ran wk_json (λ _, "") (λ s, s) wk_s0 [(wk_challenge, (wk_apply wk_challenge wk_s0).2)] wk_s1.
Proof. apply (ak_ran_snoc _ _ _ wk_s0 [] wk_s0); [constructor|vm_compute; reflexivity]. Qed.
Lemma wk_registers : Register wk_json (λ s, s) wk_env wk_s1 wk_inp = (wk_s2, ok wk_key).
Proof. vm_compute. reflexivity. Qed.

(** The challenge registers the key, and registers nothing a second time. *)
Lemma key_registration_sound_witness :
  Register wk_json (λ s, s) wk_env wk_s1 wk_inp = (wk_s2, ok wk_key)
  ∧ is_Some (Register wk_json (λ s, s) wk_env wk_s2 wk_inp).2.2.
Proof.
  split; [exact wk_registers|].
  destruct (key_registration_sound wk_json (λ _, "") (λ s, s) "p" _ _ wk_ran) as (_ & Hreuse & _).
  apply (Hreuse wk_env wk_inp wk_s2 wk_key [] wk_s2 wk_env wk_inp).
  - exact wk_registers.
  - constructor.
  - intros ev Hev. destruct (not_elem_of_nil _ Hev).
  - reflexivity.
Defined.
End Witness.
