(* ===== verification/Documents.v ===== *)
(** Where documents are kept: the catalogue ([internal/storage/meta],
    [internal/storage/meta/postgres]), the vectors ([internal/storage/vector],
    [internal/storage/vector/pgvector]) and the blobs
    ([internal/storage/blob]). Each has an in-memory and an external branch;
    the external services are the classes [CatalogDB], [VectorDB] and [S3]. *)
From S2P Require Import Prelude GoStrings Models.
From Stdlib Require Import Ascii Floats.SpecFloat.

(** ** The catalogue *)

(** The interface [meta.Catalog]. [c_List] can panic. *)
Class Catalog (C : Type) := {
  c_Save : Env → C → DocumentRecord → C * option error;
  c_Get : C → string → ret (option DocumentRecord);
  c_GetMany : C → list string → ret (gmap string DocumentRecord);
  c_Delete : C → string → C * option error;
  c_List : C → PageRequest → option (ret PaginatedKnowledgeList);
  c_All : C → ret (list DocumentRecord)
}.

(** The conjuncts of the WHERE clause [listDB] builds. *)
Inductive doc_cond :=
| CondSource (source : string)
| CondURLLike (pattern : string)
| CondURL (url : string)
| CondStorage (id : string)
| CondStorages (ids : list string)
| CondVisible (owners groups : list string).

Class CatalogDB := {
  CD : Type;
  cd_save : DocumentRecord → CD → CD * option error;
  cd_get : string → CD → ret (option DocumentRecord);
  cd_get_many : list string → CD → ret (list DocumentRecord);
  cd_delete : string → CD → CD * option error;
  cd_count : list doc_cond → CD → ret Z;
  cd_page : list doc_cond → Z → Z → CD → ret (list DocumentRecord);
  cd_all : CD → ret (list DocumentRecord)
}.

Record DocStore `{CatalogDB} := mkDocStore {
  ds_docs : gmap string DocumentRecord;
  ds_db : CD;
  ds_useDB : bool
}.
#[export] Instance settable_DocStore `{CatalogDB} : Settable DocStore := λ s,
  mkDocStore _ s.(ds_docs) s.(ds_db) s.(ds_useDB).

Fixpoint indexOf (h n : string) : Z :=
  if HasPrefix h n then 0%Z
  else match h with
  | "" => (-1)%Z
  | String _ h' => let r := indexOf h' n in if (r <? 0)%Z then (-1)%Z else (r + 1)%Z
  end.

Definition contains (haystack needle : string) : bool :=
  (needle =s "") || ((slen needle <=? slen haystack)%Z
    && ((haystack =s needle) || ((slen needle <? slen haystack)%Z && (0 <=? indexOf haystack needle)%Z))).

Definition defaultStorageID (id : string) : string := if id =s "" then "legacy" else id.

Definition containsStr (l : list string) (v : string) : bool := existsb (λ item, item =s v) l.
Definition overlaps (a b : list string) : bool :=
  existsb (λ v, bool_decide (v ∈ (list_to_set a : gset string))) b.

Definition visibleInMemory (d : DocumentRecord) (owners groups : list string) : bool :=
  if d.(DocumentRecord_Visibility) =s VisibilityPublic then true
  else if d.(DocumentRecord_Visibility) =s VisibilityPersonal then containsStr owners d.(DocumentRecord_OwnerID)
  else if d.(DocumentRecord_Visibility) =s VisibilityGroup then
    containsStr owners d.(DocumentRecord_OwnerID) || overlaps d.(DocumentRecord_GroupIDs) groups
  else true.

(** The filter of a listing, in the order of its tests. *)
Definition listed (page : PageRequest) (d : DocumentRecord) : bool :=
  if (page.(PageRequest_StorageID) <>s "") && (d.(DocumentRecord_StorageID) <>s page.(PageRequest_StorageID)) then false
  else if negb (bool_decide (page.(PageRequest_AllowedStorageIDs) = []))
          && negb (bool_decide (d.(DocumentRecord_StorageID) ∈ (list_to_set page.(PageRequest_AllowedStorageIDs) : gset string)))
  then false
  else if (page.(PageRequest_Source) <>s "") && (d.(DocumentRecord_Source) <>s page.(PageRequest_Source)) then false
  else if (page.(PageRequest_SourceURL) <>s "")
          && (if page.(PageRequest_SourceURLMode) =s "partial"
              then negb (contains d.(DocumentRecord_SourceURL) page.(PageRequest_SourceURL))
              else d.(DocumentRecord_SourceURL) <>s page.(PageRequest_SourceURL))
  then false
  else if page.(PageRequest_ApplyVisibility)
          && negb (visibleInMemory d page.(PageRequest_VisibilityOwnerIDs) page.(PageRequest_VisibilityGroups))
  then false
  else true.

Definition pageSizeOf (page : PageRequest) : Z :=
  if (page.(PageRequest_PageSize) <=? 0)%Z then 20%Z else page.(PageRequest_PageSize).
Definition pageOf (page : PageRequest) : Z :=
  if (page.(PageRequest_Page) <=? 0)%Z then 1%Z else page.(PageRequest_Page).

(** The page of a sorted listing; [int] arithmetic wraps. *)
Definition paginate (items : list DocumentRecord) (page : PageRequest) : option PaginatedKnowledgeList :=
  let ps := pageSizeOf page in
  let p := pageOf page in
  let len := Z.of_nat (length items) in
  let start := wrap64 ((p - 1) * ps) in
  let start := if (len <? start)%Z then len else start in
  let stop := wrap64 (start + ps) in
  let stop := if (len <? stop)%Z then len else stop in
  (λ out, mkPaginatedKnowledgeList out p ps len (stop <? len)%Z) <$> slice items start stop.

(** The WHERE clause of [listDB]. *)
Definition whereOf (page : PageRequest) : list doc_cond :=
  (if page.(PageRequest_Source) <>s "" then [CondSource page.(PageRequest_Source)] else [])
  ++ (if page.(PageRequest_SourceURL) <>s "" then
        if page.(PageRequest_SourceURLMode) =s "partial" then [CondURLLike ("%" +:+ page.(PageRequest_SourceURL) +:+ "%")]
        else [CondURL page.(PageRequest_SourceURL)]
      else [])
  ++ (if page.(PageRequest_StorageID) <>s "" then [CondStorage page.(PageRequest_StorageID)] else [])
  ++ (if bool_decide (page.(PageRequest_AllowedStorageIDs) = []) then []
      else [CondStorages page.(PageRequest_AllowedStorageIDs)])
  ++ (if page.(PageRequest_ApplyVisibility)
      then [CondVisible page.(PageRequest_VisibilityOwnerIDs) page.(PageRequest_VisibilityGroups)] else []).

Section DocStoreOps.
Context `{CatalogDB, GoRange}.
Implicit Types (s : DocStore) (e : Env).

Definition NewInMemoryDocs (d : CD) : DocStore := mkDocStore _ ∅ d false.

Definition saveDB e s (doc : DocumentRecord) : DocStore * option error :=
  let doc := if IsZero doc.(DocumentRecord_CreatedAt) then doc <| DocumentRecord_CreatedAt := now e 0 |> else doc in
  let doc := if IsZero doc.(DocumentRecord_UpdatedAt) then doc <| DocumentRecord_UpdatedAt := now e 1 |> else doc in
  let '(d, err) := cd_save (doc <| DocumentRecord_StorageID := defaultStorageID doc.(DocumentRecord_StorageID) |>) s.(ds_db) in
  (s <| ds_db := d |>, err).

Definition SaveDoc e s (doc : DocumentRecord) : DocStore * option error :=
  let doc := doc <| DocumentRecord_StorageID := defaultStorageID doc.(DocumentRecord_StorageID) |> in
  if s.(ds_useDB) then saveDB e s doc
  else (s <| ds_docs := <[doc.(DocumentRecord_DocID) := doc]> s.(ds_docs) |>, None).

Definition GetDoc s (docID : string) : ret (option DocumentRecord) :=
  if s.(ds_useDB) then cd_get docID s.(ds_db) else ok (s.(ds_docs) !! docID).

Definition getManyDB s (docIDs : list string) : ret (gmap string DocumentRecord) :=
  match cd_get_many docIDs s.(ds_db) with
  | (_, Some err) => fails zeroval err
  | (rows, None) => ok (foldl (λ m doc, <[doc.(DocumentRecord_DocID) := doc]> m) ∅ rows)
  end.

Definition GetManyDocs s (docIDs : list string) : ret (gmap string DocumentRecord) :=
  if bool_decide (docIDs = []) then ok ∅
  else if s.(ds_useDB) then getManyDB s docIDs
  else ok (foldl (λ out id, match s.(ds_docs) !! id with Some doc => <[id := doc]> out | None => out end) ∅ docIDs).

Definition DeleteDoc s (docID : string) : DocStore * option error :=
  if s.(ds_useDB) then let '(d, err) := cd_delete docID s.(ds_db) in (s <| ds_db := d |>, err)
  else (s <| ds_docs := delete docID s.(ds_docs) |>, None).

Definition listDB s (page : PageRequest) : ret PaginatedKnowledgeList :=
  let ps := pageSizeOf page in
  let p := pageOf page in
  let offset := wrap64 ((p - 1) * ps) in
  let cond := whereOf page in
  match cd_count cond s.(ds_db) with
  | (_, Some err) => fails zeroval err
  | (total, None) =>
      match cd_page cond ps offset s.(ds_db) with
      | (_, Some err) => fails zeroval err
      | (out, None) =>
          ok (mkPaginatedKnowledgeList out p ps total (wrap64 (offset + Z.of_nat (length out)) <? total)%Z)
      end
  end.

(** What a listing selects, newest first. *)
Definition selected s (page : PageRequest) : list DocumentRecord :=
  sort_by (λ a b, After a.(DocumentRecord_UpdatedAt) b.(DocumentRecord_UpdatedAt))
    (List.filter (listed page) (range_vals s.(ds_docs))).

Definition ListDocs s (page : PageRequest) : option (ret PaginatedKnowledgeList) :=
  if s.(ds_useDB) then Some (listDB s page) else ok <$> paginate (selected s page) page.

Definition AllDocs s : ret (list DocumentRecord) :=
  if s.(ds_useDB) then cd_all s.(ds_db) else ok (range_vals s.(ds_docs)).

#[export] Instance DocStore_Catalog : Catalog DocStore := {|
  c_Save := SaveDoc; c_Get := GetDoc; c_GetMany := GetManyDocs; c_Delete := DeleteDoc;
  c_List := ListDocs; c_All := AllDocs
|}.
End DocStoreOps.

(** ** Vectors *)

Record VectorRecord := mkVectorRecord {
  Vec_Vector : list spec_float;
  Vec_Payload : VectorPayload;
  Vec_Text : string;
  Vec_Score : spec_float
}.
#[export] Instance settable_VectorRecord : Settable VectorRecord := λ r,
  mkVectorRecord r.(Vec_Vector) r.(Vec_Payload) r.(Vec_Text) r.(Vec_Score).

(** The interface [vector.Store]. *)
Class VectorStore (V : Type) := {
  v_Upsert : V → VectorRecord → V * option error;
  v_Search : V → list spec_float → Z → PageRequest → ret (list VectorRecord);
  v_DeleteByDocID : V → string → V * option error
}.

(** [vd_rows] gives the first [limit] rows of the condition, decoded. *)
Class VectorDB := {
  VD : Type;
  vd_upsert : VectorRecord → VD → VD * option error;
  vd_rows : list doc_cond → Z → VD → ret (list VectorRecord);
  vd_delete : string → VD → VD * option error
}.

Record VecStore `{VectorDB} := mkVecStore { vs_records : list VectorRecord; vs_db : VD; vs_useDB : bool }.
#[export] Instance settable_VecStore `{VectorDB} : Settable VecStore := λ s,
  mkVecStore _ s.(vs_records) s.(vs_db) s.(vs_useDB).

Definition maxVectorScan : Z := 50000.

Definition fzero : spec_float := S754_zero false.

(** The three sums of [cosine], in [float64]. *)
Fixpoint cosineLoop (a b : list spec_float) (dot na nb : spec_float) : spec_float * spec_float * spec_float :=
  match a, b with
  | av :: a', bv :: b' =>
      cosineLoop a' b' (SFadd 53 1024 dot (SFmul 53 1024 av bv)) (SFadd 53 1024 na (SFmul 53 1024 av av))
        (SFadd 53 1024 nb (SFmul 53 1024 bv bv))
  | _, _ => (dot, na, nb)
  end.

Definition cosine (a b : list spec_float) : spec_float :=
  match a, b with
  | [], _ | _, [] => fzero
  | _, _ =>
      let '(dot, na, nb) := cosineLoop a b fzero fzero fzero in
      if SFeqb na fzero || SFeqb nb fzero then fzero
      else SFdiv 53 1024 dot (SFmul 53 1024 (SFsqrt 53 1024 na) (SFsqrt 53 1024 nb))
  end.

(** Scores, best first; [topK] caps them. *)
Definition rankRecords (query : list spec_float) (topK : Z) (out : list VectorRecord) : list VectorRecord :=
  let scored := sort_by (λ a b, SFltb b.2 a.2) (map (λ r, (r, cosine query r.(Vec_Vector))) out) in
  let topK := if (topK <=? 0)%Z || (Z.of_nat (length scored) <? topK)%Z then Z.of_nat (length scored) else topK in
  map (λ rs, rs.1 <| Vec_Score := rs.2 |>) (take (Z.to_nat topK) scored).

Definition vectorMatches (filter_ : PageRequest) (r : VectorRecord) : bool :=
  let pl := r.(Vec_Payload) in
  if (filter_.(PageRequest_StorageID) <>s "") && (pl.(VectorPayload_StorageID) <>s filter_.(PageRequest_StorageID)) then false
  else if (filter_.(PageRequest_Source) <>s "") && (pl.(VectorPayload_Source) <>s filter_.(PageRequest_Source)) then false
  else if (filter_.(PageRequest_SourceURL) <>s "")
          && (if filter_.(PageRequest_SourceURLMode) =s "partial"
              then negb ((filter_.(PageRequest_SourceURL) =s "")
                         || (0 <=? indexOf pl.(VectorPayload_SourceURL) filter_.(PageRequest_SourceURL))%Z)
              else pl.(VectorPayload_SourceURL) <>s filter_.(PageRequest_SourceURL))
  then false
  else true.

Definition vectorWhere (filter_ : PageRequest) : list doc_cond :=
  (if filter_.(PageRequest_Source) <>s "" then [CondSource filter_.(PageRequest_Source)] else [])
  ++ (if filter_.(PageRequest_StorageID) <>s "" then [CondStorage filter_.(PageRequest_StorageID)] else [])
  ++ (if filter_.(PageRequest_SourceURL) <>s "" then
        if filter_.(PageRequest_SourceURLMode) =s "partial"
        then [CondURLLike ("%" +:+ filter_.(PageRequest_SourceURL) +:+ "%")]
        else [CondURL filter_.(PageRequest_SourceURL)]
      else []).

Section VecStoreOps.
Context `{VectorDB}.
Implicit Types (s : VecStore).

Definition NewInMemoryVecs (d : VD) : VecStore := mkVecStore _ [] d false.

Definition Upsert s (rec : VectorRecord) : VecStore * option error :=
  if s.(vs_useDB) then let '(d, err) := vd_upsert rec s.(vs_db) in (s <| vs_db := d |>, err)
  else (s <| vs_records := s.(vs_records) ++ [rec] |>, None).

Definition searchDB s (query : list spec_float) (topK : Z) (filter_ : PageRequest) : ret (list VectorRecord) :=
  match vd_rows (vectorWhere filter_) maxVectorScan s.(vs_db) with
  | (_, Some err) => fails [] err
  | (rows, None) => ok (rankRecords query topK rows)
  end.

Definition SearchVectors s (query : list spec_float) (topK : Z) (filter_ : PageRequest) : ret (list VectorRecord) :=
  if s.(vs_useDB) then searchDB s query topK filter_
  else ok (rankRecords query topK (List.filter (vectorMatches filter_) s.(vs_records))).

Definition DeleteByDocID s (docID : string) : VecStore * option error :=
  if s.(vs_useDB) then let '(d, err) := vd_delete docID s.(vs_db) in (s <| vs_db := d |>, err)
  else (s <| vs_records := List.filter (λ r, r.(Vec_Payload).(VectorPayload_DocID) <>s docID) s.(vs_records) |>, None).

#[export] Instance VecStore_VectorStore : VectorStore VecStore := {|
  v_Upsert := Upsert; v_Search := SearchVectors; v_DeleteByDocID := DeleteByDocID
|}.
End VecStoreOps.

(** ** Blobs *)

(** [s3_get] without an error: the object is there. *)
Class S3 := {
  S3State : Type;
  s3_put : string → string → string → S3State → S3State * option error;
  s3_get : string → string → S3State → ret string
}.

Record BlobStore `{S3} := mkBlobStore {
  b_blobs : gmap string string;
  b_s3 : option S3State;
  b_bucket : string;
  b_prefix : string
}.
#[export] Instance settable_BlobStore `{S3} : Settable BlobStore := λ s,
  mkBlobStore _ s.(b_blobs) s.(b_s3) s.(b_bucket) s.(b_prefix).

Definition normalizeKeyPrefix (prefix : string) : string :=
  let prefix := TrimSpace prefix in
  if prefix =s "" then "" else trim_right_byte "/"%char prefix +:+ "/".

Section Blobs.
Context `{S3}.
Implicit Types (s : BlobStore).

Definition objectKey s (key : string) : string :=
  let key := trim_left_byte "/"%char key in
  if s.(b_prefix) =s "" then key else s.(b_prefix) +:+ key.

Definition PutBlob s (key payload : string) : BlobStore * option error :=
  let key := objectKey s key in
  match s.(b_s3) with
  | Some c => let '(c, err) := s3_put s.(b_bucket) key payload c in (s <| b_s3 := Some c |>, err)
  | None => (s <| b_blobs := <[key := payload]> s.(b_blobs) |>, None)
  end.

Definition GetBlob s (key : string) : ret (option string) :=
  let key := objectKey s key in
  match s.(b_s3) with
  | Some c => match s3_get s.(b_bucket) key c with (_, Some err) => fails None err | (data, None) => ok (Some data) end
  | None => ok (s.(b_blobs) !! key)
  end.
End Blobs.
