(* ===== verification/Ingest.v ===== *)
(** [internal/knowledge/ingest]: the queue of indexing jobs ([jobstore.go]),
    the pipeline that stores and indexes documents ([pipeline.go]) and the
    worker that runs the jobs ([worker.go]).

    Parameters: the job table ([JobDB]), the language model ([LLM]),
    [url.ParseRequestURI], [%q] and the lower-case table. *)
From S2P Require Import Prelude GoStrings Models Documents.
From Stdlib Require Import Ascii Floats.SpecFloat.

(** ** Jobs (jobstore.go) *)

Abbreviation JobKind := string (only parsing).
Definition JobKindIngest : JobKind := "ingest".
Definition JobKindDeleteVectors : JobKind := "delete_vectors".
Abbreviation JobStatus := string (only parsing).
Definition JobStatusPending : JobStatus := "pending".
Definition JobStatusRunning : JobStatus := "running".
Definition JobStatusCompleted : JobStatus := "completed".
Definition JobStatusFailed : JobStatus := "failed".

Record Job := mkJob {
  Job_ID : string;
  Job_DocID : string;
  Job_Kind : JobKind;
  Job_Status : JobStatus;
  Job_Attempts : Z;
  Job_MaxAttempts : Z;
  Job_LastError : string;
  Job_CreatedAt : Time;
  Job_UpdatedAt : Time;
  Job_StartedAt : option Time;
  Job_CompletedAt : option Time
}.
#[export] Instance settable_Job : Settable Job := λ j,
  mkJob j.(Job_ID) j.(Job_DocID) j.(Job_Kind) j.(Job_Status) j.(Job_Attempts) j.(Job_MaxAttempts) j.(Job_LastError)
    j.(Job_CreatedAt) j.(Job_UpdatedAt) j.(Job_StartedAt) j.(Job_CompletedAt).
#[export] Instance zero_Job : Zero Job := mkJob "" "" "" "" 0 0 "" 0 0 None None.

(** The interface [JobStore]. *)
Class JobStore (J : Type) := {
  j_Enqueue : Env → J → string → JobKind → Z → J * ret Job;
  j_Claim : Env → J → J * ret (option Job);
  j_MarkCompleted : Env → J → string → J * option error;
  j_MarkFailed : Env → J → Job → error → J * ret bool;
  j_RecoverStale : Env → J → Duration → J * option error;
  j_HasPending : J → ret bool
}.

(** [wake] is whether the channel of capacity one holds a token. *)
Record InMemoryJobStore := mkJobs { im_jobs : gmap string Job; im_wake : bool; im_seq : Z }.
#[export] Instance settable_jobs : Settable InMemoryJobStore := λ s, mkJobs s.(im_jobs) s.(im_wake) s.(im_seq).

Definition NewInMemoryJobStore : InMemoryJobStore := mkJobs ∅ false 0.

Definition notify (s : InMemoryJobStore) : InMemoryJobStore := s <| im_wake := true |>.

(** The job is waiting or being worked on. *)
Definition active (j : Job) : bool :=
  (j.(Job_Status) =s JobStatusPending) || (j.(Job_Status) =s JobStatusRunning).
Definition claimable (j : Job) : bool :=
  (j.(Job_Status) =s JobStatusPending) && (j.(Job_Attempts) <? j.(Job_MaxAttempts))%Z.

Section JobOps.
Context `{GoRange}.
Context (quote : string → string).
Implicit Types (s : InMemoryJobStore) (e : Env).

Definition jobs_Enqueue e s (docID : string) (kind : JobKind) (maxAttempts : Z) : InMemoryJobStore * ret Job :=
  let maxAttempts := if (maxAttempts <=? 0)%Z then 3%Z else maxAttempts in
  match List.find (λ j, (j.(Job_DocID) =s docID) && (j.(Job_Kind) =s kind) && active j) (range_vals s.(im_jobs)) with
  | Some j => (s, ok j)
  | None =>
      let seq := (s.(im_seq) + 1)%Z in
      let job := mkJob ("job-" +:+ pretty seq) docID kind JobStatusPending 0 maxAttempts "" (now e 0) (now e 0) None None in
      (notify (s <| im_seq := seq |> <| im_jobs := <[job.(Job_ID) := job]> s.(im_jobs) |>), ok job)
  end.

Definition jobs_Claim e s : InMemoryJobStore * ret (option Job) :=
  match sort_by (λ a b, Before a.(Job_CreatedAt) b.(Job_CreatedAt)) (List.filter claimable (range_vals s.(im_jobs))) with
  | [] => (s, ok None)
  | job :: _ =>
      let job := job <| Job_Status := JobStatusRunning |> <| Job_Attempts := (job.(Job_Attempts) + 1)%Z |>
                     <| Job_UpdatedAt := now e 0 |> <| Job_StartedAt := Some (now e 0) |> in
      (s <| im_jobs := <[job.(Job_ID) := job]> s.(im_jobs) |>, ok (Some job))
  end.

Definition errJobNotFound (id : string) : error := NewError ("job " +:+ quote id +:+ " not found").

Definition jobs_MarkCompleted e s (jobID : string) : InMemoryJobStore * option error :=
  match s.(im_jobs) !! jobID with
  | None => (s, Some (errJobNotFound jobID))
  | Some job =>
      let job := job <| Job_Status := JobStatusCompleted |> <| Job_UpdatedAt := now e 0 |>
                     <| Job_CompletedAt := Some (now e 0) |> in
      (s <| im_jobs := <[jobID := job]> s.(im_jobs) |>, None)
  end.

Definition jobs_MarkFailed e s (job : Job) (lastErr : error) : InMemoryJobStore * ret bool :=
  match s.(im_jobs) !! job.(Job_ID) with
  | None => (s, fails false (errJobNotFound job.(Job_ID)))
  | Some cur =>
      let cur := cur <| Job_LastError := Error_text lastErr |> <| Job_UpdatedAt := now e 0 |> in
      if (cur.(Job_MaxAttempts) <=? cur.(Job_Attempts))%Z then
        (s <| im_jobs := <[job.(Job_ID) := cur <| Job_Status := JobStatusFailed |>]> s.(im_jobs) |>, ok false)
      else
        (notify (s <| im_jobs := <[job.(Job_ID) := cur <| Job_Status := JobStatusPending |>]> s.(im_jobs) |>), ok true)
  end.

Definition recoverJob (t : Time) (j : Job) : Job :=
  if j.(Job_Status) =s JobStatusRunning then j <| Job_Status := JobStatusPending |> <| Job_UpdatedAt := t |> else j.

Definition jobs_RecoverStale e s (_ : Duration) : InMemoryJobStore * option error :=
  (s <| im_jobs := recoverJob (now e 0) <$> s.(im_jobs) |>, None).

Definition jobs_HasPending s : ret bool := ok (existsb claimable (range_vals s.(im_jobs))).

#[export] Instance InMemory_JobStore : JobStore InMemoryJobStore := {|
  j_Enqueue := jobs_Enqueue; j_Claim := jobs_Claim; j_MarkCompleted := jobs_MarkCompleted;
  j_MarkFailed := jobs_MarkFailed; j_RecoverStale := jobs_RecoverStale; j_HasPending := jobs_HasPending
|}.
End JobOps.

(** The statements of [postgresJobStore]; [jd_insert] gives no row on a
    conflict, [jd_claim] none when there is no job. *)
Class JobDB := {
  JD : Type;
  jd_insert : Job → JD → JD * ret (option Job);
  jd_active : string → JobKind → JD → ret (option Job);
  jd_claim : JD → JD * ret (option Job);
  jd_complete : string → JD → JD * option error;
  jd_set : string → JobStatus → string → JD → JD * option error;
  jd_recover : Time → JD → JD * option error;
  jd_count : JD → ret Z
}.

Section PostgresJobs.
Context `{JobDB}.
Context (quote : string → string).

Definition pg_Enqueue (e : Env) (d : JD) (docID : string) (kind : JobKind) (maxAttempts : Z) : JD * ret Job :=
  let maxAttempts := if (maxAttempts <=? 0)%Z then 3%Z else maxAttempts in
  match jd_insert (mkJob (uuid e 0) docID kind JobStatusPending 0 maxAttempts "" (now e 0) (now e 0) None None) d with
  | (d, (_, Some err)) => (d, fails zeroval err)
  | (d, (Some job, None)) => (d, ok job)
  | (d, (None, None)) =>
      match jd_active docID kind d with
      | (_, Some err) => (d, fails zeroval err)
      | (None, None) => (d, fails zeroval (NewError ("enqueue conflict for doc " +:+ quote docID)))
      | (Some job, None) => (d, ok job)
      end
  end.

Definition pg_Claim (_ : Env) (d : JD) : JD * ret (option Job) := jd_claim d.
Definition pg_MarkCompleted (_ : Env) (d : JD) (jobID : string) : JD * option error := jd_complete jobID d.

Definition pg_MarkFailed (_ : Env) (d : JD) (job : Job) (lastErr : error) : JD * ret bool :=
  if (job.(Job_MaxAttempts) <=? job.(Job_Attempts))%Z then
    let '(d, err) := jd_set job.(Job_ID) JobStatusFailed (Error_text lastErr) d in (d, (false, err))
  else
    let '(d, err) := jd_set job.(Job_ID) JobStatusPending (Error_text lastErr) d in (d, (true, err)).

Definition pg_RecoverStale (e : Env) (d : JD) (staleAfter : Duration) : JD * option error :=
  let staleAfter := if (staleAfter <=? 0)%Z then (5 * Minute)%Z else staleAfter in
  jd_recover (now e 0 - staleAfter)%Z d.

Definition pg_HasPending (d : JD) : ret bool := let '(n, err) := jd_count d in ((0 <? n)%Z, err).

#[export] Instance Postgres_JobStore : JobStore JD := {|
  j_Enqueue := pg_Enqueue; j_Claim := pg_Claim; j_MarkCompleted := pg_MarkCompleted;
  j_MarkFailed := pg_MarkFailed; j_RecoverStale := pg_RecoverStale; j_HasPending := pg_HasPending
|}.
End PostgresJobs.

(** ** Text *)

Definition normalizeSource (source channel : string) : string :=
  if source <>s "" then source
  else if channel =s "mcp" then "mcp"
  else if channel =s "api" then "api"
  else if channel =s "admin" then "admin"
  else "unknown".

(** The loop of [splitText] over the tokens that are left; [fuel] bounds it
    by their number. *)
Fixpoint splitLoop (fuel : nat) (tokens : list string) (chunkSize step : nat) : list string :=
  match fuel, tokens with
  | 0, _ | _, [] => []
  | S fuel, _ =>
      Join (take chunkSize tokens) " " ::
        (if (length tokens <=? chunkSize)%nat then [] else splitLoop fuel (drop step tokens) chunkSize step)
  end.

Definition splitText (text : string) (chunkSize overlap : Z) : list string :=
  let chunkSize := if (chunkSize <=? 0)%Z then 500%Z else chunkSize in
  let overlap := if (overlap <? 0)%Z then 0%Z else overlap in
  let tokens := Fields text in
  let step := (chunkSize - overlap)%Z in
  let step := if (step <=? 0)%Z then chunkSize else step in
  splitLoop (length tokens) tokens (Z.to_nat chunkSize) (Z.to_nat step).

(** [strings.Map] with an [f] that can drop runes. *)
Definition MapDrop (f : Z → option Z) (s : string) : string := of_bytes (concat (encode_rune <$> omap f (runes s))).

Definition extractTextBestEffort (unicode_lower : Z → Z) (payload mime : string) : string :=
  if payload =s "" then ""
  else
    let m := ToLower unicode_lower (TrimSpace mime) in
    if HasPrefix m "text/" || (m =s "application/json") || (m =s "application/xml") || (m =s "application/xhtml+xml")
    then payload
    else
      let s := MapDrop (λ r, if ((r =? 10) || (r =? 13) || (r =? 9))%Z then Some r
                             else if (r <? 32)%Z then None else Some r) payload in
      if TrimSpace s =s "" then "" else s.

Definition sanitizeS3Name (name : string) : string :=
  let name := ReplaceAll name "\"%char "/" in
  let name := last_part "/"%char name in
  let name := TrimSpace name in
  if name =s "" then "file.bin"
  else
    let name := Map (λ r,
      if is_lower r then r else if is_upper r then r else if is_digit r then r
      else if ((r =? 46) || (r =? 45) || (r =? 95) || (r =? 32))%Z then r else 45%Z) name in
    ReplaceAll name " "%char "-".

(** ** The pipeline (pipeline.go) *)

(** The language model during one operation: [llm_embed k] is the k-th call. *)
Record LLM := mkLLM {
  llm_summarize : string → ret (string * string);
  llm_embed : nat → string → ret (list spec_float * string)
}.

(** [internal/llm/summarizer.go]: the first words of a text, and a vector of
    two [float32] made of its lengths. *)
Definition SimpleSummarize (maxOutputTokens : Z) (model text : string) : ret (string * string) :=
  let max := if (maxOutputTokens <=? 0)%Z then 400%Z else maxOutputTokens in
  ok (Join (take (Z.to_nat max) (Fields text)) " ", model).

Definition float32_of (z : Z) : spec_float := binary_normalize 24 128 z 0 false.
Definition SimpleEmbed (model text : string) : ret (list spec_float * string) :=
  let part n := SFdiv 24 128 (float32_of (n mod 101)) (float32_of 100) in
  ok ([part (slen text); part (Z.of_nat (length (Fields text)))], model).

Record PipelineConfig := mkPipelineConfig { pc_ChunkSize : Z; pc_Overlap : Z; pc_LargeDocBytes : Z }.

Definition defaultMaxAttempts : Z := 3.

Record SaveRequest := mkSaveRequest {
  Save_Principal : Principal;
  Save_StorageID : string;
  Save_S3Prefix : string;
  Save_RawS3Key : string;
  Save_Title : string;
  Save_Body : string;
  Save_MimeType : string;
  Save_Visibility : Visibility;
  Save_GroupIDs : list string;
  Save_Source : string;
  Save_SourceURL : string;
  Save_Channel : string
}.

Record BinarySaveRequest := mkBinarySaveRequest {
  Bin_Principal : Principal;
  Bin_StorageID : string;
  Bin_S3Prefix : string;
  Bin_Title : string;
  Bin_Filename : string;
  Bin_Payload : string;
  Bin_MimeType : string;
  Bin_Visibility : Visibility;
  Bin_GroupIDs : list string;
  Bin_Source : string;
  Bin_SourceURL : string;
  Bin_Channel : string
}.

(** What the pipeline writes to. *)
Record PState (C V J : Type) `{S3} := mkPState {
  p_catalog : C;
  p_vectors : V;
  p_blobs : BlobStore;
  p_jobs : J
}.
Arguments mkPState {_ _ _ _}.
Arguments p_catalog {_ _ _ _}.
Arguments p_vectors {_ _ _ _}.
Arguments p_blobs {_ _ _ _}.
Arguments p_jobs {_ _ _ _}.
#[export] Instance settable_PState C V J `{S3} : Settable (PState C V J) := λ s,
  mkPState s.(p_catalog) s.(p_vectors) s.(p_blobs) s.(p_jobs).

Section Pipeline.
Context `{S3} {C V J : Type} `{!Catalog C, !VectorStore V, !JobStore J}.
Context (quote : string → string) (unicode_lower : Z → Z) (parse_request_uri : string → option error).
Context (cfg : PipelineConfig).
Implicit Types (st : PState C V J) (e : Env).

Definition prepareDocument e st (req : SaveRequest) : PState C V J * ret DocumentRecord :=
  let source := normalizeSource req.(Save_Source) req.(Save_Channel) in
  let visibility := if req.(Save_Visibility) =s "" then VisibilityPersonal else req.(Save_Visibility) in
  match (if req.(Save_SourceURL) <>s "" then parse_request_uri req.(Save_SourceURL) else None) with
  | Some err => (st, fails zeroval (Wrapped "invalid sourceUrl" err))
  | None =>
      let doc := mkDocumentRecord (uuid e 0) (defaultStorageID req.(Save_StorageID)) req.(Save_Principal).(Principal_UserID)
                   visibility req.(Save_GroupIDs) req.(Save_Title) req.(Save_MimeType) source req.(Save_SourceURL) "" "" ""
                   DocumentStatusProcessing req.(Save_Body) (now e 0) (now e 1) in
      let doc := if req.(Save_RawS3Key) <>s "" then doc <| DocumentRecord_S3Key := req.(Save_RawS3Key) |> else doc in
      if ((cfg.(pc_LargeDocBytes) <? slen req.(Save_Body)) && (0 <? cfg.(pc_LargeDocBytes)))%Z then
        let prefix := if req.(Save_S3Prefix) =s "" then "storages/" +:+ doc.(DocumentRecord_StorageID) +:+ "/"
                      else req.(Save_S3Prefix) in
        let doc := doc <| DocumentRecord_S3Key :=
          trim_right_byte "/"%char prefix +:+ "/documents/" +:+ doc.(DocumentRecord_DocID) +:+ "/source.txt" |> in
        match PutBlob st.(p_blobs) doc.(DocumentRecord_S3Key) req.(Save_Body) with
        | (b, Some err) => (st <| p_blobs := b |>, fails zeroval err)
        | (b, None) => (st <| p_blobs := b |>, ok doc)
        end
      else (st, ok doc)
  end.

Definition PipelineSave e st (req : SaveRequest) : PState C V J * ret DocumentRecord :=
  match prepareDocument e st req with
  | (st, (_, Some err)) => (st, fails zeroval err)
  | (st, (doc, None)) =>
      match c_Save (later 2 e) st.(p_catalog) doc with
      | (c, Some err) => (st <| p_catalog := c |>, fails zeroval err)
      | (c, None) =>
          let st := st <| p_catalog := c |> in
          match j_Enqueue (later 4 e) st.(p_jobs) doc.(DocumentRecord_DocID) JobKindIngest defaultMaxAttempts with
          | (j, (_, Some err)) => (st <| p_jobs := j |>, fails zeroval err)
          | (j, (_, None)) => (st <| p_jobs := j |>, ok doc)
          end
      end
  end.

Definition SaveBinary e st (req : BinarySaveRequest) : PState C V J * ret DocumentRecord :=
  let visibility := if req.(Bin_Visibility) =s "" then VisibilityPersonal else req.(Bin_Visibility) in
  let storageID := defaultStorageID req.(Bin_StorageID) in
  let prefix := if req.(Bin_S3Prefix) =s "" then "storages/" +:+ storageID +:+ "/" else req.(Bin_S3Prefix) in
  let fileName := TrimSpace req.(Bin_Filename) in
  let fileName := if fileName =s "" then "upload.bin" else fileName in
  let rawKey := trim_right_byte "/"%char prefix +:+ "/items/" +:+ uuid e 0 +:+ "/" +:+ sanitizeS3Name fileName in
  match PutBlob st.(p_blobs) rawKey req.(Bin_Payload) with
  | (b, Some err) => (st <| p_blobs := b |>, fails zeroval err)
  | (b, None) =>
      let st := st <| p_blobs := b |> in
      let text := extractTextBestEffort unicode_lower req.(Bin_Payload) req.(Bin_MimeType) in
      let title := if TrimSpace req.(Bin_Title) =s "" then fileName else req.(Bin_Title) in
      let mime := if req.(Bin_MimeType) =s "" then "application/octet-stream" else req.(Bin_MimeType) in
      PipelineSave (later 1 e) st
        (mkSaveRequest req.(Bin_Principal) storageID prefix rawKey title text mime visibility req.(Bin_GroupIDs)
           req.(Bin_Source) req.(Bin_SourceURL) req.(Bin_Channel))
  end.

Definition documentBody st (doc : DocumentRecord) : ret string :=
  if doc.(DocumentRecord_Body) <>s "" then ok doc.(DocumentRecord_Body)
  else if doc.(DocumentRecord_S3Key) =s "" then ok ""
  else match GetBlob st.(p_blobs) doc.(DocumentRecord_S3Key) with
  | (_, Some err) => fails "" err
  | (None, None) =>
      fails "" (NewError ("blob " +:+ quote doc.(DocumentRecord_S3Key) +:+ " not found for doc " +:+ quote doc.(DocumentRecord_DocID)))
  | (Some data, None) => ok data
  end.

Definition payloadOf (doc : DocumentRecord) (chunkID : string) (isSummary : bool) : VectorPayload :=
  mkVectorPayload doc.(DocumentRecord_DocID) doc.(DocumentRecord_StorageID) chunkID doc.(DocumentRecord_Visibility)
    doc.(DocumentRecord_OwnerID) doc.(DocumentRecord_GroupIDs) isSummary doc.(DocumentRecord_Source)
    doc.(DocumentRecord_SourceURL) doc.(DocumentRecord_S3Key) "".

(** The loop over the chunks, from chunk number [i]. *)
Fixpoint indexChunks (llm : LLM) (doc : DocumentRecord) (i : nat) (chunks : list string) (v : V) : V * option error :=
  match chunks with
  | [] => (v, None)
  | chunk :: chunks' =>
      match llm.(llm_embed) (S i) chunk with
      | (_, Some err) => (v, Some err)
      | ((vec, _), None) =>
          match v_Upsert v (mkVectorRecord vec (payloadOf doc (doc.(DocumentRecord_DocID) +:+ "-" +:+ pretty i) false) chunk fzero) with
          | (v, Some err) => (v, Some err)
          | (v, None) => indexChunks llm doc (S i) chunks' v
          end
      end
  end.

(** [ProcessIngest] after it has read the document. *)
Definition indexDocument e (llm : LLM) st (doc : DocumentRecord) : PState C V J * option error :=
  match documentBody st doc with
  | (_, Some err) => (st, Some err)
  | (body, None) =>
      match llm.(llm_summarize) body with
      | (_, Some err) => (st, Some err)
      | ((summaryText, summaryModel), None) =>
          let chunks := splitText body cfg.(pc_ChunkSize) cfg.(pc_Overlap) in
          let chunks := if bool_decide (chunks = []) then [body] else chunks in
          match llm.(llm_embed) 0 summaryText with
          | (_, Some err) => (st, Some err)
          | ((vec, embeddingModel), None) =>
              match v_Upsert st.(p_vectors) (mkVectorRecord vec (payloadOf doc (uuid e 0) true) summaryText fzero) with
              | (v, Some err) => (st <| p_vectors := v |>, Some err)
              | (v, None) =>
                  match indexChunks llm doc 0 chunks v with
                  | (v, Some err) => (st <| p_vectors := v |>, Some err)
                  | (v, None) =>
                      let st := st <| p_vectors := v |> in
                      let doc := doc <| DocumentRecord_Status := DocumentStatusReady |>
                                     <| DocumentRecord_SummaryChunkID := uuid e 0 |>
                                     <| DocumentRecord_SourceHash := summaryModel +:+ ":" +:+ embeddingModel |>
                                     <| DocumentRecord_UpdatedAt := now e 0 |> in
                      let '(c, err) := c_Save (later 1 e) st.(p_catalog) doc in
                      (st <| p_catalog := c |>, err)
                  end
              end
          end
      end
  end.

Definition ProcessIngest e (llm : LLM) st (docID : string) : PState C V J * option error :=
  match c_Get st.(p_catalog) docID with
  | (_, Some err) => (st, Some err)
  | (None, None) => (st, Some (NewError ("document " +:+ quote docID +:+ " not found")))
  | (Some doc, None) =>
      if doc.(DocumentRecord_Status) =s DocumentStatusReady then (st, None)
      else if doc.(DocumentRecord_Status) =s DocumentStatusDeleting then (st, None)
      else indexDocument e llm st doc
  end.

Definition ProcessDeleteVectors st (docID : string) : PState C V J * option error :=
  let '(v, err) := v_DeleteByDocID st.(p_vectors) docID in (st <| p_vectors := v |>, err).

Definition onJobTerminalFailure e st (job : Job) (cause : error) : PState C V J :=
  if job.(Job_Kind) <>s JobKindIngest then st
  else match c_Get st.(p_catalog) job.(Job_DocID) with
  | (_, Some _) | (None, None) => st
  | (Some doc, None) =>
      let doc := doc <| DocumentRecord_Status := DocumentStatusFailed |> <| DocumentRecord_UpdatedAt := now e 0 |> in
      let doc := if doc.(DocumentRecord_SourceHash) =s ""
                 then doc <| DocumentRecord_SourceHash := Error_text cause |> else doc in
      st <| p_catalog := (c_Save (later 1 e) st.(p_catalog) doc).1 |>
  end.

(** ** The worker (worker.go) *)

Definition EnqueueDelete e (maxAttempts : Z) st (docID : string) : PState C V J * option error :=
  let maxAttempts := if (maxAttempts <=? 0)%Z then defaultMaxAttempts else maxAttempts in
  let '(j, (_, err)) := j_Enqueue e st.(p_jobs) docID JobKindDeleteVectors maxAttempts in
  (st <| p_jobs := j |>, err).

(** The job itself, before its outcome is recorded. *)
Definition runJob e (llm : LLM) st (job : Job) : PState C V J * option error :=
  if job.(Job_Kind) =s JobKindIngest then ProcessIngest e llm st job.(Job_DocID)
  else if job.(Job_Kind) =s JobKindDeleteVectors then ProcessDeleteVectors st job.(Job_DocID)
  else (st, Some (NewError ("unknown ingest job kind: " +:+ job.(Job_Kind)))).

Definition handleJob e (llm : LLM) st (job : Job) : PState C V J :=
  match runJob e llm st job with
  | (st, None) =>
      let '(j, _) := j_MarkCompleted (later 4 e) st.(p_jobs) job.(Job_ID) in st <| p_jobs := j |>
  | (st, Some err) =>
      match j_MarkFailed (later 4 e) st.(p_jobs) job err with
      | (j, (_, Some _)) => st <| p_jobs := j |>
      | (j, (retry, None)) =>
          let st := st <| p_jobs := j |> in
          if retry then st else onJobTerminalFailure (later 5 e) st job err
      end
  end.

(** One turn of the worker's loops: [None] when there was nothing to do. *)
Definition workOnce e (llm : LLM) st : PState C V J * ret bool :=
  match j_Claim e st.(p_jobs) with
  | (j, (_, Some err)) => (st <| p_jobs := j |>, fails false err)
  | (j, (None, None)) => (st <| p_jobs := j |>, ok false)
  | (j, (Some job, None)) => (handleJob (later 1 e) llm (st <| p_jobs := j |>) job, ok true)
  end.

(** What one turn of [ProcessUntilIdle] meets: its clock and random source,
    the model, and the error of a context that is done. *)
Record Turn := mkTurn { turn_env : Env; turn_llm : LLM; turn_ctx : option error }.

(** [None]: the fuel did not suffice. *)
Fixpoint ProcessUntilIdle (fuel : nat) (turns : nat → Turn) st : option (PState C V J * option error) :=
  match fuel with
  | 0 => None
  | S fuel' =>
      match (turns 0).(turn_ctx) with
      | Some err => Some (st, Some err)
      | None =>
          match workOnce (turns 0).(turn_env) (turns 0).(turn_llm) st with
          | (st, (_, Some err)) => Some (st, Some err)
          | (st, (true, None)) => ProcessUntilIdle fuel' (λ i, turns (S i)) st
          | (st, (false, None)) =>
              match j_HasPending st.(p_jobs) with
              | (_, Some err) => Some (st, Some err)
              | (true, None) => ProcessUntilIdle fuel' (λ i, turns (S i)) st
              | (false, None) => Some (st, None)
              end
          end
      end
  end.

(** The configuration of the worker, with its defaults. *)
Record WorkerConfig := mkWorkerConfig { wk_PollInterval : Duration; wk_MaxAttempts : Z; wk_StaleAfter : Duration }.
Definition workerMaxAttempts (c : WorkerConfig) : Z := if (c.(wk_MaxAttempts) <=? 0)%Z then defaultMaxAttempts else c.(wk_MaxAttempts).
Definition pollInterval (c : WorkerConfig) : Duration := if (c.(wk_PollInterval) <=? 0)%Z then (Second / 2)%Z else c.(wk_PollInterval).
Definition staleAfter (c : WorkerConfig) : Duration := if (c.(wk_StaleAfter) <=? 0)%Z then (5 * Minute)%Z else c.(wk_StaleAfter).

(** The endless loop, for as many turns as it gets; a turn without a job waits
    and changes nothing. *)
Fixpoint loopTurns (turns : list Turn) st : PState C V J :=
  match turns with
  | [] => st
  | turn :: turns =>
      match turn.(turn_ctx) with
      | Some _ => st
      | None => loopTurns turns (workOnce turn.(turn_env) turn.(turn_llm) st).1
      end
  end.
Definition loop e (c : WorkerConfig) (turns : list Turn) st : PState C V J :=
  let '(j, _) := j_RecoverStale e st.(p_jobs) (staleAfter c) in loopTurns turns (st <| p_jobs := j |>).
End Pipeline.
