(* ===== verification/IngestProps.v ===== *)
(** What the ingest queue, pipeline and worker of [Ingest] guarantee, with
    the catalogue, the vectors and the jobs in memory: the worker gets
    through its jobs, and then the catalogue and the index agree. *)
From S2P Require Import Prelude GoStrings Models Documents Ingest.
From Stdlib Require Import Ascii Floats.SpecFloat.

(** ** Single operations *)

Lemma c_Save_memory `{CatalogDB, GoRange} e (s : DocStore) d : s.(ds_useDB) = false →
  c_Save e s d = (s <| ds_docs := <[d.(DocumentRecord_DocID) := d <| DocumentRecord_StorageID :=
                     defaultStorageID d.(DocumentRecord_StorageID) |>]> s.(ds_docs) |>, None).
Proof. intros Hm. cbn. unfold SaveDoc. by rewrite Hm. Qed.

Lemma c_Get_memory `{CatalogDB, GoRange} (s : DocStore) id : s.(ds_useDB) = false →
  c_Get s id = ok (s.(ds_docs) !! id).
Proof. intros Hm. cbn. unfold GetDoc. by rewrite Hm. Qed.

Lemma c_Delete_memory `{CatalogDB, GoRange} (s : DocStore) id : s.(ds_useDB) = false →
  c_Delete s id = (s <| ds_docs := delete id s.(ds_docs) |>, None).
Proof. intros Hm. cbn. unfold DeleteDoc. by rewrite Hm. Qed.

Lemma v_Upsert_memory `{VectorDB} (s : VecStore) r : s.(vs_useDB) = false →
  v_Upsert s r = (s <| vs_records := s.(vs_records) ++ [r] |>, None).
Proof. intros Hm. cbn. unfold Upsert. by rewrite Hm. Qed.

Lemma v_Delete_memory `{VectorDB} (s : VecStore) id : s.(vs_useDB) = false →
  v_DeleteByDocID s id = (s <| vs_records :=
    List.filter (λ r, r.(Vec_Payload).(VectorPayload_DocID) <>s id) s.(vs_records) |>, None).
Proof. intros Hm. cbn. unfold DeleteByDocID. by rewrite Hm. Qed.

Lemma defaultStorageID_ne id : defaultStorageID id ≠ "".
Proof. unfold defaultStorageID. by destruct (String.eqb_spec id ""). Qed.

(** ** The queue *)

Section Queue.
Context `{GoRange} (quote : string → string).
Implicit Types (s : InMemoryJobStore).

Definition keyed_jobs s : Prop := ∀ id j, s.(im_jobs) !! id = Some j → j.(Job_ID) = id.

(** No worker has a job, and what waits can be claimed. *)
Record jobs_ok s : Prop := {
  jo_keyed : keyed_jobs s;
  jo_ids : ∀ id j, s.(im_jobs) !! id = Some j → ∃ k, id = "job-" +:+ pretty k ∧ (k ≤ s.(im_seq))%Z;
  jo_waiting : ∀ id j, s.(im_jobs) !! id = Some j → active j = true → claimable j = true
}.

Definition waiting s (docID : string) (kind : JobKind) : Prop :=
  ∃ id j, s.(im_jobs) !! id = Some j ∧ j.(Job_DocID) = docID ∧ j.(Job_Kind) = kind ∧ claimable j = true.

Lemma claimable_active j : claimable j = true → active j = true.
Proof. unfold claimable, active. by intros [-> _]%andb_true_iff. Qed.

Lemma enqueue_spec e s docID kind n s' r : jobs_ok s → jobs_Enqueue e s docID kind n = (s', r) →
  jobs_ok s' ∧ waiting s' docID kind
  ∧ (s'.(im_jobs) = s.(im_jobs) ∨ ∃ id job, s.(im_jobs) !! id = None ∧ s'.(im_jobs) = <[id := job]> s.(im_jobs)
       ∧ job.(Job_DocID) = docID ∧ job.(Job_Kind) = kind)
  ∧ r.2 = None.
Proof.
  intros [Hk Hi Hw]. unfold jobs_Enqueue. set (m := if _ : bool then _ else _).
  destruct (List.find _ _) as [j|] eqn:Hf.
  - intros [= <- <-]. apply find_elem_of in Hf as [[id Hid]%elem_of_range_vals Hj]. go_bool.
    split; [done|]. split; [|by eauto]. exists id, j. split_and!; [done..|]. by eapply Hw.
  - intros [= <- <-]. set (id := "job-" +:+ _). set (job := mkJob _ _ _ _ _ _ _ _ _ _ _).
    assert (Hm : (0 < m)%Z) by (subst m; destruct (Z.leb_spec n 0); lia).
    assert (Hjob : claimable job = true) by (unfold claimable; cbn; by apply Z.ltb_lt).
    assert (Hnew : s.(im_jobs) !! id = None).
    { destruct (s.(im_jobs) !! id) as [j|] eqn:Hj; [|done].
      apply Hi in Hj as (k & Heq & Hle). apply (inj (String.append "job-")) in Heq. apply (inj pretty) in Heq. lia. }
    split_and!; [|exists id, job; cbn; by rewrite lookup_insert_eq|right; exists id, job; by split_and!|done].
    split.
    + intros i j. cbn. rewrite lookup_insert_Some. intros [[<- <-]|[_ Hj]]; [done|by apply Hk].
    + intros i j. cbn. rewrite lookup_insert_Some. intros [[<- <-]|[_ Hj]]; [by exists (im_seq s + 1)%Z|].
      apply Hi in Hj as (k & ? & ?). exists k. split; [done|lia].
    + intros i j. cbn. rewrite lookup_insert_Some. intros [[<- <-]|[_ Hj]]; [done|by eapply Hw].
Qed.

(** The job as [Claim] hands it out. *)
Definition claimed (t : Time) (j : Job) : Job :=
  j <| Job_Status := JobStatusRunning |> <| Job_Attempts := (j.(Job_Attempts) + 1)%Z |>
    <| Job_UpdatedAt := t |> <| Job_StartedAt := Some t |>.

Lemma claim_spec e s : keyed_jobs s →
  match jobs_Claim e s with
  | (s', (Some job, err)) => err = None ∧ ∃ j, s.(im_jobs) !! j.(Job_ID) = Some j ∧ claimable j = true
      ∧ job = claimed (now e 0) j ∧ s' = s <| im_jobs := <[j.(Job_ID) := job]> s.(im_jobs) |>
  | (s', (None, err)) => err = None ∧ s' = s ∧ ∀ id j, s.(im_jobs) !! id = Some j → claimable j = false
  end.
Proof.
  intros Hk. unfold jobs_Claim. destruct (sort_by _ _) as [|j l] eqn:Hs.
  - split_and!; [done..|]. intros id j Hj. apply not_true_iff_false. intros Hc.
    assert (Hin : j ∈ ([] : list Job)); [|by apply elem_of_nil in Hin].
    rewrite <- Hs. apply elem_of_sort_by, elem_of_filter_bool. split; [|done]. apply elem_of_range_vals. eauto.
  - assert (Hin : j ∈ List.filter claimable (range_vals s.(im_jobs))).
    { apply (elem_of_sort_by (λ a b, Before a.(Job_CreatedAt) b.(Job_CreatedAt))). rewrite Hs. by constructor. }
    apply elem_of_filter_bool in Hin as [[id Hid]%elem_of_range_vals Hc].
    split; [done|]. exists j. rewrite (Hk _ _ Hid). split_and!; [done..|]. by rewrite <- (Hk _ _ Hid).
Qed.

(** A job after an attempt. *)
Record attempted (j j' : Job) : Prop := {
  at_id : j'.(Job_ID) = j.(Job_ID);
  at_doc : j'.(Job_DocID) = j.(Job_DocID);
  at_kind : j'.(Job_Kind) = j.(Job_Kind);
  at_max : j'.(Job_MaxAttempts) = j.(Job_MaxAttempts);
  at_count : j'.(Job_Attempts) = (j.(Job_Attempts) + 1)%Z;
  at_waits : active j' = true → claimable j' = true
}.

(** How often the jobs can still be claimed. *)
Definition remaining_of (j : Job) : nat :=
  if claimable j then Z.to_nat (j.(Job_MaxAttempts) - j.(Job_Attempts)) else 0.
Definition remaining (m : gmap string Job) : nat := map_fold (λ _ j n, remaining_of j + n) 0 m.

Lemma remaining_insert m id j j' : m !! id = Some j →
  remaining (<[id := j']> m) + remaining_of j = remaining m + remaining_of j'.
Proof.
  intros Hj. unfold remaining. rewrite <- (insert_delete_id m id j) at 2 by done. rewrite <- insert_delete_eq.
  rewrite !map_fold_insert_L by first [apply lookup_delete_eq|intros; lia]. lia.
Qed.

Lemma attempted_remaining m id j j' : m !! id = Some j → claimable j = true → attempted j j' →
  (remaining (<[id := j']> m) < remaining m)%nat.
Proof.
  intros Hj Hc [_ _ _ Hmax Hcount _]. pose proof (remaining_insert m id j j' Hj) as Heq.
  assert (remaining_of j' < remaining_of j)%nat; [|lia]. unfold remaining_of at 2. rewrite Hc.
  unfold claimable in Hc. go_bool. unfold remaining_of. destruct (claimable j'); lia.
Qed.

Lemma attempted_jobs_ok s id j j' : jobs_ok s → s.(im_jobs) !! id = Some j → attempted j j' → ∀ w,
  jobs_ok (mkJobs (<[id := j']> s.(im_jobs)) w s.(im_seq)).
Proof.
  intros [Hk Hi Hw] Hj Ha w. split.
  - intros i x. cbn. rewrite lookup_insert_Some. intros [[<- <-]|[_ Hx]]; [rewrite (at_id _ _ Ha)|]; by apply Hk.
  - intros i x. cbn. rewrite lookup_insert_Some. intros [[<- <-]|[_ Hx]]; by eapply Hi.
  - intros i x. cbn. rewrite lookup_insert_Some. intros [[<- <-]|[_ Hx]]; [apply Ha|by eapply Hw].
Qed.
End Queue.

(** ** One turn of the worker *)

Section Worker.
Context `{CatalogDB, VectorDB, S3, GoRange}.
Context (quote : string → string) (parse_request_uri : string → option error).
Context (cfg : PipelineConfig).
#[local] Instance queue : JobStore InMemoryJobStore := InMemory_JobStore quote.
Abbreviation St := (PState DocStore VecStore InMemoryJobStore).
Implicit Types (st : St) (e : Env) (llm : LLM).

Abbreviation docs st := st.(p_catalog).(ds_docs).
Abbreviation recs st := st.(p_vectors).(vs_records).
Abbreviation jobs st := st.(p_jobs).(im_jobs).
Abbreviation rec_doc r := r.(Vec_Payload).(VectorPayload_DocID).

Definition in_mem st : Prop := st.(p_catalog).(ds_useDB) = false ∧ st.(p_vectors).(vs_useDB) = false.
Definition keyed_docs st : Prop := ∀ id d, docs st !! id = Some d → d.(DocumentRecord_DocID) = id.

(** The index has the summary the document names. *)
Definition indexed (rs : list VectorRecord) (id : string) (d : DocumentRecord) : Prop :=
  ∃ r, r ∈ rs ∧ rec_doc r = id ∧ r.(Vec_Payload).(VectorPayload_ChunkID) = d.(DocumentRecord_SummaryChunkID)
    ∧ r.(Vec_Payload).(VectorPayload_IsSummary) = true.

(** The document is under its identifier and in some storage. *)
Definition placed (id : string) (d : DocumentRecord) : Prop :=
  d.(DocumentRecord_DocID) = id ∧ d.(DocumentRecord_StorageID) ≠ "".

(** The document the job has settled. *)
Definition settled (rs : list VectorRecord) (id : string) (d : DocumentRecord) : Prop :=
  placed id d
  ∧ (d.(DocumentRecord_Status) = DocumentStatusFailed
     ∨ d.(DocumentRecord_Status) = DocumentStatusReady ∧ indexed rs id d).

(** What running a job does to the documents and the vectors. *)
Record ran_job st (job : Job) (err : option error) st' : Prop := {
  rj_jobs : st'.(p_jobs) = st.(p_jobs);
  rj_mem : in_mem st';
  rj_docs : docs st' = docs st ∨ job.(Job_Kind) = JobKindIngest ∧ err = None ∧ is_Some (docs st !! job.(Job_DocID))
              ∧ ∃ d, docs st' = <[job.(Job_DocID) := d]> (docs st) ∧ settled (recs st') job.(Job_DocID) d;
  rj_new : ∀ r, r ∈ recs st' → r ∈ recs st ∨ is_Some (docs st !! job.(Job_DocID)) ∧ rec_doc r = job.(Job_DocID);
  rj_kept : ∀ r, r ∈ recs st → job.(Job_Kind) ≠ JobKindDeleteVectors ∨ rec_doc r ≠ job.(Job_DocID) → r ∈ recs st';
  rj_ingested : job.(Job_Kind) = JobKindIngest → err = None → ∀ d, docs st' !! job.(Job_DocID) = Some d →
    d.(DocumentRecord_Status) ≠ DocumentStatusProcessing;
  rj_deleted : job.(Job_Kind) = JobKindDeleteVectors →
    err = None ∧ ∀ r, r ∈ recs st' → rec_doc r ≠ job.(Job_DocID)
}.

Lemma ran_job_same st job err : in_mem st → job.(Job_Kind) ≠ JobKindDeleteVectors →
  (job.(Job_Kind) = JobKindIngest → err = None → ∀ d, docs st !! job.(Job_DocID) = Some d →
     d.(DocumentRecord_Status) ≠ DocumentStatusProcessing) →
  ran_job st job err st.
Proof. intros Hm Hk Hd. split; auto. done. Qed.

Lemma indexChunks_spec llm d i chunks v v' err : v.(vs_useDB) = false → indexChunks llm d i chunks v = (v', err) →
  v'.(vs_useDB) = false ∧ ∃ new, v'.(vs_records) = v.(vs_records) ++ new
    ∧ ∀ r, r ∈ new → rec_doc r = d.(DocumentRecord_DocID).
Proof.
  revert i v. induction chunks as [|chunk chunks IH]; intros i v Hm; cbn [indexChunks].
  - intros [= <- <-]. split; [done|]. exists []. rewrite app_nil_r. split; [done|]. by intros r ?%elem_of_nil.
  - destruct (llm_embed _ _ _) as [[vec ?] [?|]].
    { intros [= <- <-]. split; [done|]. exists []. rewrite app_nil_r. split; [done|]. by intros r ?%elem_of_nil. }
    rewrite v_Upsert_memory by done. intros Hi. apply IH in Hi as (Hm' & new & Hnew & Hall); [|done].
    split; [done|]. eexists (_ :: new). rewrite Hnew. cbn. rewrite <- app_assoc. split; [done|].
    intros r [->|Hr]%elem_of_cons; [done|by apply Hall].
Qed.

(** The parts of [ran_job] for an indexing that has stopped. *)
Lemma stopped_job st st' job d new err : in_mem st → job.(Job_Kind) = JobKindIngest →
  docs st !! job.(Job_DocID) = Some d → d.(DocumentRecord_DocID) = job.(Job_DocID) →
  st'.(p_jobs) = st.(p_jobs) → in_mem st' → docs st' = docs st → recs st' = recs st ++ new →
  (∀ r, r ∈ new → rec_doc r = d.(DocumentRecord_DocID)) → ran_job st job (Some err) st'.
Proof.
  intros Hm Hk Hd Hid Hj Hm' Hdocs Hrecs Hnew. split; try done; [by left| | |].
  - intros r. rewrite Hrecs. intros [?|Hr%Hnew]%elem_of_app; [by left|]. right. by rewrite Hr, Hd.
  - intros r Hr _. rewrite Hrecs. apply elem_of_app. by left.
  - intros Hdel. by rewrite Hk in Hdel.
Qed.

Lemma indexDocument_spec e llm st job d st' err : in_mem st → job.(Job_Kind) = JobKindIngest →
  docs st !! job.(Job_DocID) = Some d → d.(DocumentRecord_DocID) = job.(Job_DocID) →
  indexDocument quote cfg e llm st d = (st', err) → ran_job st job err st'.
Proof.
  intros Hm Hk Hd Hid. pose proof Hm as [Hmc Hmv]. unfold indexDocument.
  destruct (documentBody _ _ _) as [body [?|]].
  { intros [= <- <-]. eapply (stopped_job _ _ _ d []); try done; [by rewrite app_nil_r|by intros r ?%elem_of_nil]. }
  destruct (llm_summarize _ _) as [[text model] [?|]].
  { intros [= <- <-]. eapply (stopped_job _ _ _ d []); try done; [by rewrite app_nil_r|by intros r ?%elem_of_nil]. }
  set (chunks := if _ : bool then _ else _).
  destruct (llm_embed _ _ _) as [[vec emodel] [?|]].
  { intros [= <- <-]. eapply (stopped_job _ _ _ d []); try done; [by rewrite app_nil_r|by intros r ?%elem_of_nil]. }
  rewrite v_Upsert_memory by done. set (summary := mkVectorRecord _ _ _ _). set (v1 := _ <| vs_records := _ |>).
  destruct (indexChunks llm d 0 chunks v1) as [v2 ierr] eqn:Hi.
  apply indexChunks_spec in Hi as (Hm2 & new & Hv2 & Hnew); [|done].
  assert (Hrecs : v2.(vs_records) = recs st ++ summary :: new) by (rewrite Hv2; cbn; by rewrite <- app_assoc).
  assert (Hall : ∀ r, r ∈ summary :: new → rec_doc r = d.(DocumentRecord_DocID))
    by (intros r [->|Hr]%elem_of_cons; [done|by apply Hnew]).
  destruct ierr as [ierr|].
  { intros [= <- <-]. by eapply (stopped_job _ _ _ d (summary :: new)). }
  rewrite c_Save_memory by done. intros [= <- <-]. set (d' := _ <| DocumentRecord_UpdatedAt := _ |>).
  change (d'.(DocumentRecord_DocID)) with d.(DocumentRecord_DocID). rewrite Hid. split; cbn; try done.
  - right. split_and!; [done..|by rewrite Hd|]. eexists. split; [done|]. split; [split; [done|apply defaultStorageID_ne]|]. right. split; [done|].
    exists summary. rewrite Hrecs. split_and!; [apply elem_of_app; right; by constructor|done..].
  - intros r. rewrite Hrecs. intros [?|Hr%Hall]%elem_of_app; [by left|]. right. by rewrite Hr, Hd.
  - intros r Hr _. rewrite Hrecs. apply elem_of_app. by left.
  - intros _ _ x. rewrite lookup_insert_eq. by intros [= <-].
  - intros Hdel. by rewrite Hk in Hdel.
Qed.

Lemma runJob_spec e llm st job st' err : in_mem st → keyed_docs st →
  runJob quote cfg e llm st job = (st', err) → ran_job st job err st'.
Proof.
  intros Hm Hkd. pose proof Hm as [Hmc Hmv]. unfold runJob.
  destruct (String.eqb_spec job.(Job_Kind) JobKindIngest) as [Hk|Hk].
  - unfold ProcessIngest. rewrite c_Get_memory by done.
    destruct (docs st !! job.(Job_DocID)) as [d|] eqn:Hd; cbn [ok].
    2: { intros [= <- <-]. apply ran_job_same; [done|by rewrite Hk|done]. }
    destruct (String.eqb_spec d.(DocumentRecord_Status) DocumentStatusReady) as [Hs|_].
    { intros [= <- <-]. apply ran_job_same; [done|by rewrite Hk|]. intros _ _ x. rewrite Hd. intros [= <-]. by rewrite Hs. }
    destruct (String.eqb_spec d.(DocumentRecord_Status) DocumentStatusDeleting) as [Hs|_].
    { intros [= <- <-]. apply ran_job_same; [done|by rewrite Hk|]. intros _ _ x. rewrite Hd. intros [= <-]. by rewrite Hs. }
    intros Hi. apply (indexDocument_spec e llm st job d st' err Hm Hk Hd (Hkd _ _ Hd) Hi).
  - destruct (String.eqb_spec job.(Job_Kind) JobKindDeleteVectors) as [Hdel|Hdel].
    2: { intros [= <- <-]. by apply ran_job_same. }
    unfold ProcessDeleteVectors. rewrite v_Delete_memory by done. intros [= <- <-]. split; cbn; try done.
    + by left.
    + intros r [Hr _]%elem_of_filter_bool. by left.
    + intros r Hr [?|Hne]; [done|]. apply elem_of_filter_bool. by rewrite (seqb_neq_false _ _ Hne).
    + split; [done|]. intros r [_ Hr]%elem_of_filter_bool. by go_bool.
Qed.

(** What a turn of the worker does. *)
Record worked st (id : string) (j j' : Job) st' : Prop := {
  wk_job : jobs st !! id = Some j;
  wk_claimable : claimable j = true;
  wk_jobs : jobs st' = <[id := j']> (jobs st);
  wk_seq : st'.(p_jobs).(im_seq) = st.(p_jobs).(im_seq);
  wk_attempted : attempted j j';
  wk_mem : in_mem st';
  wk_docs : docs st' = docs st ∨ j.(Job_Kind) = JobKindIngest ∧ is_Some (docs st !! j.(Job_DocID))
              ∧ ∃ d, docs st' = <[j.(Job_DocID) := d]> (docs st) ∧ settled (recs st') j.(Job_DocID) d;
  wk_new : ∀ r, r ∈ recs st' → r ∈ recs st ∨ is_Some (docs st !! j.(Job_DocID)) ∧ rec_doc r = j.(Job_DocID);
  wk_kept : ∀ r, r ∈ recs st → j.(Job_Kind) ≠ JobKindDeleteVectors ∨ rec_doc r ≠ j.(Job_DocID) → r ∈ recs st';
  wk_ingested : j.(Job_Kind) = JobKindIngest → claimable j' = false → ∀ d, docs st' !! j.(Job_DocID) = Some d →
    d.(DocumentRecord_Status) ≠ DocumentStatusProcessing;
  wk_deleted : j.(Job_Kind) = JobKindDeleteVectors → ∀ r, r ∈ recs st' → rec_doc r ≠ j.(Job_DocID)
}.

(** A job that ran, and its new record in the queue. *)
Lemma ran_worked st j t st1 err st' j' w : claimable j = true → jobs st !! j.(Job_ID) = Some j →
  ran_job (st <| p_jobs := st.(p_jobs) <| im_jobs := <[j.(Job_ID) := claimed t j]> (jobs st) |> |>) (claimed t j) err st1 →
  attempted j j' →
  st'.(p_jobs) = mkJobs (<[j.(Job_ID) := j']> (jobs st1)) w st1.(p_jobs).(im_seq) →
  st'.(p_vectors) = st1.(p_vectors) → in_mem st' →
  (docs st' = docs st1 ∧ (err = None ∨ claimable j' = true)
   ∨ j.(Job_Kind) = JobKindIngest ∧ is_Some err ∧ docs st1 !! j.(Job_DocID) = None ∧ docs st' = docs st1
   ∨ j.(Job_Kind) ≠ JobKindIngest ∧ docs st' = docs st1
   ∨ j.(Job_Kind) = JobKindIngest ∧ is_Some err ∧ ∃ d d', docs st1 !! j.(Job_DocID) = Some d
       ∧ docs st' = <[j.(Job_DocID) := d']> (docs st1) ∧ settled (recs st1) j.(Job_DocID) d'
       ∧ d'.(DocumentRecord_Status) = DocumentStatusFailed) →
  worked st j.(Job_ID) j j' st'.
Proof.
  intros Hc Hj [Hjobs Hm1 Hdocs Hnew Hkept Hing Hdel] Ha Hj' Hv Hm' Hout. cbn in *.
  assert (Herr : is_Some err → docs st1 = docs st) by (intros []; naive_solver).
  split; try done.
  - rewrite Hj'. cbn. rewrite Hjobs. cbn. by rewrite insert_insert_eq.
  - rewrite Hj'. cbn. by rewrite Hjobs.
  - rewrite Hv. destruct Hout as [[Heq _]|[(_ & _ & _ & Heq)|[[_ Heq]|(Hk & He & d & d' & Hd & Heq & Hs & _)]]].
    1-3: rewrite Heq; naive_solver.
    right. rewrite (Herr He) in Hd, Heq. split_and!; [done|by rewrite Hd|]. by exists d'.
  - by rewrite Hv.
  - by rewrite Hv.
  - intros Hk Hnc d Hd. destruct Hout as [[Heq [He|He]]|[(_ & _ & Hn & Heq)|[[? _]|(_ & _ & d0 & d' & _ & Heq & _ & Hst)]]].
    + rewrite Heq in Hd. by eapply Hing.
    + by rewrite He in Hnc.
    + rewrite Heq, Hn in Hd. done.
    + done.
    + rewrite Heq, lookup_insert_eq in Hd. injection Hd as <-. by rewrite Hst.
  - intros Hk. rewrite Hv. by apply Hdel.
Qed.

Lemma terminal_spec e st job err : in_mem st → keyed_docs st →
  let st' := onJobTerminalFailure e st job err in
  st'.(p_jobs) = st.(p_jobs) ∧ st'.(p_vectors) = st.(p_vectors) ∧ in_mem st'
  ∧ (job.(Job_Kind) ≠ JobKindIngest ∧ docs st' = docs st
     ∨ job.(Job_Kind) = JobKindIngest ∧ docs st !! job.(Job_DocID) = None ∧ docs st' = docs st
     ∨ job.(Job_Kind) = JobKindIngest ∧ ∃ d d', docs st !! job.(Job_DocID) = Some d
         ∧ docs st' = <[job.(Job_DocID) := d']> (docs st) ∧ settled (recs st) job.(Job_DocID) d'
         ∧ d'.(DocumentRecord_Status) = DocumentStatusFailed).
Proof.
  intros Hm Hkd. pose proof Hm as [Hmc _]. unfold onJobTerminalFailure.
  destruct (String.eqb_spec job.(Job_Kind) JobKindIngest) as [Hk|Hk]; cbn [negb]; [|by eauto 6].
  rewrite c_Get_memory by done. destruct (docs st !! job.(Job_DocID)) as [d|] eqn:Hd; cbn [ok]; [|by eauto 8].
  rewrite c_Save_memory by done. cbn zeta. set (d' := if _ : bool then _ else _).
  assert (Hd' : d'.(DocumentRecord_DocID) = job.(Job_DocID) ∧ d'.(DocumentRecord_Status) = DocumentStatusFailed).
  { rewrite <- (Hkd _ _ Hd). subst d'. by destruct (_ =s ""). }
  destruct Hd' as [Hid Hst]. rewrite Hid. split_and!; [done..|]. right. right. split; [done|].
  exists d. eexists. split_and!; [done|reflexivity| |done].
  split; [split; [done|apply defaultStorageID_ne]|by left].
Qed.

Lemma handle_spec e llm st t j : in_mem st → keyed_docs st → claimable j = true → jobs st !! j.(Job_ID) = Some j →
  let st0 := st <| p_jobs := st.(p_jobs) <| im_jobs := <[j.(Job_ID) := claimed t j]> (jobs st) |> |> in
  ∃ j', worked st j.(Job_ID) j j' (handleJob quote cfg e llm st0 (claimed t j)).
Proof.
  intros Hm Hkd Hc Hj st0. unfold handleJob.
  destruct (runJob quote cfg e llm st0 (claimed t j)) as [st1 err] eqn:Hrun.
  pose proof (runJob_spec e llm st0 (claimed t j) st1 err Hm Hkd Hrun) as Hran.
  assert (Hl : jobs st1 !! j.(Job_ID) = Some (claimed t j)) by (rewrite (rj_jobs _ _ _ _ Hran); cbn; by rewrite lookup_insert_eq).
  pose proof (rj_mem _ _ _ _ Hran) as Hm1. destruct err as [err|].
  - cbn. unfold jobs_MarkFailed. cbn. rewrite Hl. cbn.
    assert (Hkd1 : keyed_docs st1).
    { destruct (rj_docs _ _ _ _ Hran) as [Heq|(_ & ? & _)]; [|done]. intros id d. rewrite Heq. apply Hkd. }
    destruct (Z.leb_spec (Job_MaxAttempts j) (Job_Attempts j + 1)) as [Hle|Hlt]; cbn [ok].
    + set (st2 := st1 <| p_jobs := _ |>).
      destruct (terminal_spec (later 5 e) st2 (claimed t j) err Hm1 Hkd1) as (Hj2 & Hv2 & Hm2 & Hout). cbn in Hout.
      eexists. eapply (ran_worked st j t st1 (Some err) _ _ _ Hc Hj Hran); [|by rewrite Hj2|by rewrite Hv2|done|].
      * by split.
      * right. naive_solver.
    + eexists. eapply (ran_worked st j t st1 (Some err) _ _ _ Hc Hj Hran); [|done|done|done|].
      * split; try done. intros _. unfold claimable. cbn. apply Z.ltb_lt. lia.
      * left. split; [done|]. right. unfold claimable. cbn. apply Z.ltb_lt. lia.
  - cbn. unfold jobs_MarkCompleted. cbn. rewrite Hl.
    eexists. eapply (ran_worked st j t st1 None _ _ _ Hc Hj Hran); [|done|done|done|by left; split; [done|left]].
    by split.
Qed.

Lemma work_spec e llm st : in_mem st → keyed_docs st → keyed_jobs st.(p_jobs) →
  match workOnce quote cfg e llm st with
  | (st', (busy, err)) => err = None ∧
      if busy : bool then ∃ id j j', worked st id j j' st'
      else st' = st ∧ ∀ id j, jobs st !! id = Some j → claimable j = false
  end.
Proof.
  intros Hm Hkd Hkj. unfold workOnce. cbn [j_Claim InMemory_JobStore queue].
  pose proof (claim_spec e st.(p_jobs) Hkj) as Hclaim.
  destruct (jobs_Claim e st.(p_jobs)) as [s' [[job|] cerr]].
  - destruct Hclaim as (-> & j & Hj & Hc & -> & ->). split; [done|].
    destruct (handle_spec (later 1 e) llm st (now e 0) j Hm Hkd Hc Hj) as [j' Hw]. by eauto.
  - destruct Hclaim as (-> & -> & Hno). split; [done|]. split; [by destruct st|done].
Qed.
(** ** The index between turns *)

(** Between turns of the worker: a document is settled, or a job to index it
    waits; a vector belongs to a document, or a job to delete it waits; a
    document that was deleted does not come back. *)
Record index_ok st : Prop := {
  ix_mem : in_mem st;
  ix_jobs : jobs_ok st.(p_jobs);
  ix_docs : ∀ id d, docs st !! id = Some d →
    placed id d ∧ d.(DocumentRecord_Status) = DocumentStatusProcessing ∧ waiting st.(p_jobs) id JobKindIngest
    ∨ settled (recs st) id d;
  ix_vectors : ∀ r, r ∈ recs st → is_Some (docs st !! rec_doc r) ∨ waiting st.(p_jobs) (rec_doc r) JobKindDeleteVectors;
  ix_deleted : ∀ id j, jobs st !! id = Some j → j.(Job_Kind) = JobKindDeleteVectors → docs st !! j.(Job_DocID) = None
}.

Lemma ix_keyed st : index_ok st → keyed_docs st.
Proof. intros Hix id d Hd. destruct (ix_docs _ Hix id d Hd) as [([? _] & _)|[[? _] _]]; done. Qed.

(** A waiting job other than the one that was worked on still waits. *)
Lemma worked_waiting st id j j' st' doc kind : worked st id j j' st' → waiting st.(p_jobs) doc kind →
  waiting st'.(p_jobs) doc kind ∨ j.(Job_DocID) = doc ∧ j.(Job_Kind) = kind ∧ claimable j' = false.
Proof.
  intros Hw (i & x & Hx & Hd & Hk & Hc). destruct (decide (id = i)) as [<-|Hne].
  - rewrite (wk_job _ _ _ _ _ Hw) in Hx. injection Hx as <-. destruct (claimable j') eqn:Hc'; [|by right].
    left. exists id, j'. rewrite (wk_jobs _ _ _ _ _ Hw), lookup_insert_eq.
    destruct (wk_attempted _ _ _ _ _ Hw) as [_ Hd' Hk' _ _ _]. by rewrite Hd', Hk'.
  - left. exists i, x. by rewrite (wk_jobs _ _ _ _ _ Hw), lookup_insert_ne.
Qed.

Lemma worked_docs st id j j' st' i : worked st id j j' st' → is_Some (docs st !! i) → is_Some (docs st' !! i).
Proof.
  intros Hw Hi. destruct (wk_docs _ _ _ _ _ Hw) as [->|(_ & _ & d & -> & _)]; [done|]. apply lookup_insert_is_Some'. by right.
Qed.

Lemma indexed_kept (rs rs' : list VectorRecord) id d :
  (∀ r, r ∈ rs → rec_doc r = id → r ∈ rs') → settled rs id d → settled rs' id d.
Proof.
  intros Hr [Hid [Hf|[Hrd (r & Hin & Hdoc & Hrest)]]]; (split; [done|]); [by left|]. right. split; [done|].
  exists r. split; [by apply Hr|done].
Qed.

Lemma worked_index_docs st id j j' st' : index_ok st → worked st id j j' st' → ∀ i d, docs st' !! i = Some d →
  placed i d ∧ d.(DocumentRecord_Status) = DocumentStatusProcessing ∧ waiting st'.(p_jobs) i JobKindIngest
  ∨ settled (recs st') i d.
Proof.
  intros Hix Hw i d Hd.
  assert (Hold : docs st !! i = Some d ∨ settled (recs st') i d).
  { destruct (wk_docs _ _ _ _ _ Hw) as [Heq|(_ & _ & d' & Heq & Hs)]; rewrite Heq in Hd; [by left|].
    apply lookup_insert_Some in Hd as [[<- <-]|[_ Hd]]; [by right|by left]. }
  destruct Hold as [Hold|]; [|by right]. destruct (ix_docs _ Hix _ _ Hold) as [(Hid & Hp & Hwait)|Hs].
  - left. split_and!; [done..|]. destruct (worked_waiting _ _ _ _ _ _ _ Hw Hwait) as [|(Hdoc & Hk & Hc)]; [done|].
    destruct (wk_ingested _ _ _ _ _ Hw Hk Hc d); [|done]. by rewrite Hdoc.
  - right. eapply indexed_kept; [|exact Hs]. intros r Hr Hdoc. apply (wk_kept _ _ _ _ _ Hw r Hr).
    destruct (decide (j.(Job_Kind) = JobKindDeleteVectors)) as [Hk|]; [|by left]. right. intros Heq.
    rewrite <- Hdoc, Heq in Hold. by rewrite (ix_deleted _ Hix _ _ (wk_job _ _ _ _ _ Hw) Hk) in Hold.
Qed.

Lemma worked_index st id j j' st' : index_ok st → worked st id j j' st' → index_ok st'.
Proof.
  intros Hix Hw. split.
  - apply (wk_mem _ _ _ _ _ Hw).
  - pose proof (attempted_jobs_ok _ _ _ _ (ix_jobs _ Hix) (wk_job _ _ _ _ _ Hw) (wk_attempted _ _ _ _ _ Hw)
      st'.(p_jobs).(im_wake)) as Hok.
    rewrite <- (wk_jobs _ _ _ _ _ Hw), <- (wk_seq _ _ _ _ _ Hw) in Hok. by destruct (p_jobs st').
  - by eapply worked_index_docs.
  - intros r Hr. destruct (wk_new _ _ _ _ _ Hw r Hr) as [Hold|[Hs Hdoc]].
    + destruct (ix_vectors _ Hix r Hold) as [Hs|Hwait]; [left; by eapply worked_docs|].
      destruct (worked_waiting _ _ _ _ _ _ _ Hw Hwait) as [|(Hdoc & Hk & _)]; [by right|].
      by destruct (wk_deleted _ _ _ _ _ Hw Hk r Hr).
    + left. rewrite Hdoc. by eapply worked_docs.
  - intros i x. rewrite (wk_jobs _ _ _ _ _ Hw). rewrite lookup_insert_Some.
    assert (Hno : ∀ doc, docs st !! doc = None → docs st' !! doc = None).
    { intros doc Hn. destruct (wk_docs _ _ _ _ _ Hw) as [->|(_ & Hs & d & -> & _)]; [done|].
      rewrite lookup_insert_ne; [done|]. intros Heq. rewrite Heq, Hn in Hs. by destruct Hs. }
    intros [[<- <-]|[_ Hx]] Hk; apply Hno.
    + destruct (wk_attempted _ _ _ _ _ Hw) as [_ -> Hk' _ _ _]. rewrite Hk' in Hk. by eapply ix_deleted, Hk; [|apply Hw].
    + by eapply ix_deleted.
Qed.

(** ** The worker gets through *)

Lemma process_until_idle fuel turns st : index_ok st → (∀ i, (turns i).(turn_ctx) = None) →
  (remaining (jobs st) < fuel)%nat →
  ∃ st', ProcessUntilIdle quote cfg fuel turns st = Some (st', None) ∧ index_ok st'
    ∧ ∀ id j, jobs st' !! id = Some j → active j = false.
Proof.
  revert turns st. induction fuel as [|fuel IH]; intros turns st Hix Hctx Hfuel; [lia|]. cbn [ProcessUntilIdle].
  rewrite Hctx. pose proof (work_spec (turns 0).(turn_env) (turns 0).(turn_llm) st (ix_mem _ Hix) (ix_keyed _ Hix)
    (jo_keyed _ (ix_jobs _ Hix))) as Hwork.
  destruct (workOnce _ _ _ _ st) as [st1 [[|] err]]; destruct Hwork as [-> Hwork].
  - destruct Hwork as (id & j & j' & Hw). apply IH; [by eapply worked_index|by intros i|].
    rewrite (wk_jobs _ _ _ _ _ Hw).
    pose proof (attempted_remaining _ _ _ _ (wk_job _ _ _ _ _ Hw) (wk_claimable _ _ _ _ _ Hw) (wk_attempted _ _ _ _ _ Hw)). lia.
  - destruct Hwork as [-> Hno].
    assert (Hidle : j_HasPending st.(p_jobs) = ok false).
    { cbn. unfold jobs_HasPending. f_equal. apply existsb_false. intros j [id Hj]%elem_of_range_vals. by eapply Hno. }
    rewrite Hidle. exists st. split_and!; [done..|]. intros id j Hj. apply not_true_iff_false. intros Ha.
    apply (jo_waiting _ (ix_jobs _ Hix) id j Hj) in Ha. by rewrite (Hno id j Hj) in Ha.
Qed.
(** ** Saving and deleting *)

Lemma waiting_grow s s' doc kind :
  (∀ id j, s.(im_jobs) !! id = Some j → s'.(im_jobs) !! id = Some j) → waiting s doc kind → waiting s' doc kind.
Proof. intros Hs (id & j & Hj & Hrest). exists id, j. split; [by apply Hs|done]. Qed.

Lemma enqueue_grows e s docID kind n s' r : jobs_ok s → jobs_Enqueue e s docID kind n = (s', r) →
  ∀ id j, s.(im_jobs) !! id = Some j → s'.(im_jobs) !! id = Some j.
Proof.
  intros Hs He id j Hj. destruct (enqueue_spec e s docID kind n s' r Hs He) as (_ & _ & [->|(i & job & Hn & -> & _)] & _); [done|].
  rewrite lookup_insert_ne; [done|]. by intros ->; rewrite Hn in Hj.
Qed.

(** A job is new or was there. *)
Lemma enqueue_origin e s docID kind n s' r id j : jobs_ok s → jobs_Enqueue e s docID kind n = (s', r) →
  s'.(im_jobs) !! id = Some j → s.(im_jobs) !! id = Some j ∨ j.(Job_DocID) = docID ∧ j.(Job_Kind) = kind.
Proof.
  intros Hs He Hj. destruct (enqueue_spec e s docID kind n s' r Hs He) as (_ & _ & [Heq|(i & job & Hn & Heq & Hd & Hk)] & _);
    rewrite Heq in Hj; [by left|]. apply lookup_insert_Some in Hj as [[_ <-]|[_ Hj]]; [by right|by left].
Qed.

(** The document a call stores is not one that was deleted. *)
Definition fresh_doc st (id : string) : Prop :=
  ∀ i j, jobs st !! i = Some j → j.(Job_Kind) = JobKindDeleteVectors → j.(Job_DocID) ≠ id.

Lemma stored_index e st d j r : index_ok st → d.(DocumentRecord_Status) = DocumentStatusProcessing →
  d.(DocumentRecord_StorageID) ≠ "" → fresh_doc st d.(DocumentRecord_DocID) →
  jobs_Enqueue e st.(p_jobs) d.(DocumentRecord_DocID) JobKindIngest defaultMaxAttempts = (j, r) →
  index_ok (st <| p_catalog := st.(p_catalog) <| ds_docs := <[d.(DocumentRecord_DocID) := d]> (docs st) |> |> <| p_jobs := j |>).
Proof.
  intros Hix Hst Hsid Hfresh He. destruct (enqueue_spec _ _ _ _ _ _ _ (ix_jobs _ Hix) He) as (Hj & Hwait & _ & _).
  pose proof (enqueue_grows _ _ _ _ _ _ _ (ix_jobs _ Hix) He) as Hgrow. split; cbn.
  - apply Hix.
  - done.
  - intros i x. rewrite lookup_insert_Some. intros [[<- <-]|[Hne Hx]]; [left; by split_and!|].
    destruct (ix_docs _ Hix i x Hx) as [(? & ? & Hw)|?]; [left|by right]. split_and!; [done..|]. by eapply waiting_grow.
  - intros r0 Hr. destruct (ix_vectors _ Hix r0 Hr) as [Hs|Hw]; [left|right; by eapply waiting_grow].
    apply lookup_insert_is_Some'. by right.
  - intros i x Hx Hk. destruct (enqueue_origin _ _ _ _ _ _ _ i x (ix_jobs _ Hix) He Hx) as [Hold|[_ Hk']]; [|by rewrite Hk in Hk'].
    rewrite lookup_insert_ne; [by eapply ix_deleted|]. intros Heq. by eapply (Hfresh i x).
Qed.

Lemma index_ok_blobs st b : index_ok st → index_ok (st <| p_blobs := b |>).
Proof. intros [Hm Hj Hd Hv Hdel]. by split. Qed.

Lemma prepareDocument_spec e st req st' r : prepareDocument parse_request_uri cfg e st req = (st', r) →
  (∃ b, st' = st <| p_blobs := b |>) ∧ (r.2 = None → r.1.(DocumentRecord_DocID) = uuid e 0
    ∧ r.1.(DocumentRecord_Status) = DocumentStatusProcessing
    ∧ r.1.(DocumentRecord_StorageID) = defaultStorageID req.(Save_StorageID)
    ∧ r.1.(DocumentRecord_OwnerID) = req.(Save_Principal).(Principal_UserID)
    ∧ r.1.(DocumentRecord_Visibility) = (if req.(Save_Visibility) =s "" then VisibilityPersonal else req.(Save_Visibility))
    ∧ r.1.(DocumentRecord_GroupIDs) = req.(Save_GroupIDs) ∧ r.1.(DocumentRecord_Body) = req.(Save_Body)).
Proof.
  unfold prepareDocument. destruct (if _ : bool then _ else _) as [?|].
  { intros [= <- <-]. split; [exists st.(p_blobs); by destruct st|done]. }
  destruct (_ && _).
  - destruct (PutBlob _ _ _) as [b [?|]]; intros [= <- <-]; (split; [by exists b|]); [done|].
    intros _. cbn. by destruct (Save_RawS3Key req =s "").
  - intros [= <- <-]. split; [exists st.(p_blobs); by destruct st|]. intros _. cbn. by destruct (Save_RawS3Key req =s "").
Qed.

Lemma defaultStorageID_idem id : defaultStorageID (defaultStorageID id) = defaultStorageID id.
Proof. unfold defaultStorageID. destruct (id =s "") eqn:Hid; [done|by rewrite Hid]. Qed.

(** A save stores the document it prepared, or only blobs. *)
Lemma save_spec e st req : in_mem st → jobs_ok st.(p_jobs) →
  match PipelineSave parse_request_uri cfg e st req with
  | (st', (d, err)) => ∃ b,
      match err with
      | Some _ => st' = st <| p_blobs := b |>
      | None => prepareDocument parse_request_uri cfg e st req = (st <| p_blobs := b |>, ok d) ∧
          ∃ j jr, jobs_Enqueue (later 4 e) st.(p_jobs) d.(DocumentRecord_DocID) JobKindIngest defaultMaxAttempts = (j, jr)
            ∧ st' = st <| p_blobs := b |> <| p_catalog := st.(p_catalog) <| ds_docs :=
                      <[d.(DocumentRecord_DocID) := d]> (docs st) |> |> <| p_jobs := j |>
      end
  end.
Proof.
  intros [Hm _] Hj. unfold PipelineSave. destruct (prepareDocument parse_request_uri cfg e st req) as [st1 [d perr]] eqn:Hp.
  destruct (prepareDocument_spec e st req st1 _ Hp) as [[b ->] Hd].
  destruct perr as [perr|]; [by exists b|]. rewrite c_Save_memory by done. cbn.
  destruct (Hd eq_refl) as (_ & _ & Hsid & _). cbn in Hsid.
  assert (Heq : d <| DocumentRecord_StorageID := defaultStorageID d.(DocumentRecord_StorageID) |> = d).
  { rewrite Hsid, defaultStorageID_idem, <- Hsid. by destruct d. }
  rewrite Heq. destruct (jobs_Enqueue (later 4 e) st.(p_jobs) d.(DocumentRecord_DocID) JobKindIngest defaultMaxAttempts)
    as [j [jr jerr]] eqn:He.
  destruct (enqueue_spec _ _ _ _ _ _ _ Hj He) as (_ & _ & _ & Hjerr). cbn in Hjerr. subst. exists b. by eauto.
Qed.

Lemma save_index e st req : index_ok st → fresh_doc st (uuid e 0) →
  index_ok (PipelineSave parse_request_uri cfg e st req).1.
Proof.
  intros Hix Hfresh. pose proof (save_spec e st req (ix_mem _ Hix) (ix_jobs _ Hix)) as Hs.
  destruct (PipelineSave _ _ e st req) as [st' [d [err|]]]; destruct Hs as [b Hs].
  - subst. by apply index_ok_blobs.
  - destruct Hs as (Hp & j & jr & He & ->). destruct (prepareDocument_spec _ _ _ _ _ Hp) as (_ & Hd).
    destruct (Hd eq_refl) as (Hid & Hst & Hsid & _). cbn in Hid, Hst, Hsid.
    refine (stored_index (later 4 e) (st <| p_blobs := b |>) d j jr (index_ok_blobs st b Hix) Hst _ _ He);
      [rewrite Hsid; apply defaultStorageID_ne|by rewrite Hid].
Qed.

Lemma binary_index unicode_lower e st req : index_ok st → fresh_doc st (uuid e 1) →
  index_ok (SaveBinary unicode_lower parse_request_uri cfg e st req).1.
Proof.
  intros Hix Hfresh. unfold SaveBinary. destruct (PutBlob _ _ _) as [b [?|]]; [by apply index_ok_blobs|].
  apply save_index; [by apply index_ok_blobs|done].
Qed.

(** The catalogue without the document, and the vectors on their way out. *)
Lemma removed_index e st id n : index_ok st →
  let st1 := st <| p_catalog := st.(p_catalog) <| ds_docs := delete id (docs st) |> |> in
  index_ok (EnqueueDelete e n st1 id).1 ∧ (EnqueueDelete e n st1 id).2 = None.
Proof.
  intros Hix st1. unfold EnqueueDelete. set (m := if _ : bool then _ else _). cbn [j_Enqueue InMemory_JobStore queue].
  destruct (jobs_Enqueue e st1.(p_jobs) id JobKindDeleteVectors m) as [j [jr jerr]] eqn:He.
  destruct (enqueue_spec _ _ _ _ _ _ _ (ix_jobs _ Hix) He) as (Hj & Hwait & _ & Hjerr).
  pose proof (enqueue_grows _ _ _ _ _ _ _ (ix_jobs _ Hix) He) as Hgrow. split; [|done]. split; cbn.
  - apply Hix.
  - done.
  - intros i x. rewrite lookup_delete_Some. intros [_ Hx].
    destruct (ix_docs _ Hix i x Hx) as [(? & ? & Hw)|?]; [left|by right]. split_and!; [done..|]. by eapply waiting_grow.
  - intros r Hr. destruct (decide (id = rec_doc r)) as [<-|Hne]; [by right|]. rewrite lookup_delete_ne by done.
    destruct (ix_vectors _ Hix r Hr) as [?|Hw]; [by left|right; by eapply waiting_grow].
  - intros i x Hx Hk. destruct (enqueue_origin _ _ _ _ _ _ _ i x (ix_jobs _ Hix) He Hx) as [Hold|[-> _]].
    + apply lookup_delete_None. right. by eapply ix_deleted.
    + by rewrite lookup_delete_eq.
Qed.

Lemma purged_index st id : index_ok st →
  let st1 := st <| p_catalog := st.(p_catalog) <| ds_docs := delete id (docs st) |> |> in
  index_ok (ProcessDeleteVectors st1 id).1 ∧ (ProcessDeleteVectors st1 id).2 = None.
Proof.
  intros Hix st1. unfold ProcessDeleteVectors. rewrite v_Delete_memory by apply Hix. split; [|done]. split; cbn.
  - apply Hix.
  - apply Hix.
  - intros i x. rewrite lookup_delete_Some. intros [Hne Hx].
    destruct (ix_docs _ Hix i x Hx) as [?|Hs]; [by left|right]. eapply indexed_kept; [|exact Hs].
    intros r Hr Hd. apply elem_of_filter_bool. split; [done|]. by rewrite seqb_neq_false by congruence.
  - intros r [Hr Hne]%elem_of_filter_bool. go_bool. rewrite lookup_delete_ne by done. by apply Hix.
  - intros i x Hx Hk. apply lookup_delete_None. right. by eapply (ix_deleted _ Hix).
Qed.

(** ** Where the queue and the pipeline fall short *)

(** A document that is deleted while its indexing runs comes back: the
    indexing saves the record it read before, whether it is still there. *)
Lemma indexing_restores_deleted e llm st d st' : in_mem st →
  indexDocument quote cfg e llm st d = (st', None) → is_Some (docs st' !! d.(DocumentRecord_DocID)).
Proof.
  intros [Hmc Hmv]. unfold indexDocument. destruct (documentBody _ _ _) as [body [?|]]; [done|].
  destruct (llm_summarize _ _) as [[text model] [?|]]; [done|]. destruct (llm_embed _ _ _) as [[vec emodel] [?|]]; [done|].
  rewrite v_Upsert_memory by done. destruct (indexChunks _ _ _ _ _) as [v2 [?|]]; [done|].
  rewrite c_Save_memory by done. intros [= <-]. cbn. by rewrite lookup_insert_eq.
Qed.

(** A job whose last attempt was interrupted waits for ever: recovery makes
    it pending again, no claim takes it, and a new job for the same document
    is not made because this one counts as active. *)
Lemma interrupted_job_stuck e e' e'' n (s : InMemoryJobStore) id j : keyed_jobs s → s.(im_jobs) !! id = Some j →
  j.(Job_Status) = JobStatusRunning → (j.(Job_MaxAttempts) <= j.(Job_Attempts))%Z →
  let s' := (jobs_RecoverStale e s 0).1 in
  (∀ x, (jobs_Claim e' s').2 = ok (Some x) → x.(Job_ID) ≠ id)
  ∧ (jobs_Enqueue e'' s' j.(Job_DocID) j.(Job_Kind) n).1 = s'.
Proof.
  intros Hk Hj Hst Hmax s'. set (j' := recoverJob (now e 0) j).
  assert (Hj' : s'.(im_jobs) !! id = Some j') by (cbn; by rewrite lookup_fmap, Hj).
  assert (Hrec : j' = j <| Job_Status := JobStatusPending |> <| Job_UpdatedAt := now e 0 |>)
    by (subst j'; unfold recoverJob; by rewrite Hst).
  assert (Hk' : keyed_jobs s').
  { intros i x. cbn. rewrite lookup_fmap_Some. intros (y & <- & Hy). unfold recoverJob. destruct (_ =s _); cbn; by eapply Hk. }
  split.
  - intros x Hx Hid. pose proof (claim_spec e' s' Hk') as Hc. destruct (jobs_Claim e' s') as [s1 [[y|] err]]; [|done].
    cbn in Hx. injection Hx as -> ->. destruct Hc as (_ & j1 & Hj1 & Hclaim & -> & _). cbn in Hid. rewrite Hid, Hj' in Hj1.
    injection Hj1 as <-. rewrite Hrec in Hclaim. unfold claimable in Hclaim. cbn in Hclaim. apply Z.ltb_lt in Hclaim. lia.
  - unfold jobs_Enqueue. destruct (List.find _ _) eqn:Hf; [done|]. exfalso.
    assert (Hin : In j' (range_vals s'.(im_jobs))) by (apply list_elem_of_In, elem_of_range_vals; by exists id).
    pose proof (List.find_none _ _ Hf _ Hin) as Hno. rewrite Hrec in Hno. cbn in Hno. by rewrite !String.eqb_refl in Hno.
Qed.
End Worker.

(** A page number whose product with the page size does not fit overflows
    into a slice out of range. *)
Example huge_page_panics :
  paginate [zeroval] ((zeroval : PageRequest) <| PageRequest_Page := 2%Z |> <| PageRequest_PageSize := (2 ^ 63 - 1)%Z |>) = None.
Proof. vm_compute. reflexivity. Qed.
