(* ===== verification/Knowledge.v ===== *)
(** [internal/knowledge/service.go]: saving, reading, listing, searching and
    deleting documents, on top of the access service, the catalogue, the
    vectors and the ingest pipeline. *)
From S2P Require Import Prelude GoStrings Models DataObj AccessState AccessObjects AccessService Documents Ingest.
From Stdlib Require Import Ascii Floats.SpecFloat.

Record SaveInput := mkSaveInput {
  In_StorageID : string;
  In_Title : string;
  In_Text : string;
  In_MimeType : string;
  In_Visibility : Visibility;
  In_GroupIDs : list string;
  In_Source : string;
  In_SourceURL : string;
  In_Channel : string
}.

Record BinaryInput := mkBinaryInput {
  BI_StorageID : string;
  BI_Title : string;
  BI_Filename : string;
  BI_Payload : string;
  BI_MimeType : string;
  BI_Visibility : Visibility;
  BI_GroupIDs : list string;
  BI_Source : string;
  BI_SourceURL : string;
  BI_Channel : string
}.

Definition emptyPage (page : PageRequest) : PaginatedKnowledgeList :=
  mkPaginatedKnowledgeList [] (pageOf page) (pageSizeOf page) 0 false.

Definition ownerIdentifiers (p : Principal) : list string :=
  foldl (λ out id, if (id =s "") || sContains out id then out else out ++ [id]) []
    [p.(Principal_UserID); SubjectKeyForPrincipal p].

Definition ownsDocumentKnowledge (p : Principal) (d : DocumentRecord) : bool :=
  if d.(DocumentRecord_OwnerID) =s "" then false
  else (d.(DocumentRecord_OwnerID) =s p.(Principal_UserID)) || (d.(DocumentRecord_OwnerID) =s SubjectKeyForPrincipal p).

Definition canSeeVisibility (p : Principal) (d : DocumentRecord) : bool :=
  if d.(DocumentRecord_Visibility) =s VisibilityPublic then true
  else if d.(DocumentRecord_Visibility) =s VisibilityPersonal then ownsDocumentKnowledge p d
  else if d.(DocumentRecord_Visibility) =s VisibilityGroup then
    ownsDocumentKnowledge p d || Intersects d.(DocumentRecord_GroupIDs) p.(Principal_Groups)
  else true.

Definition canReadDocCached (p : Principal) (d : DocumentRecord) (readable : gset string) : bool :=
  bool_decide (d.(DocumentRecord_StorageID) ∈ readable) && canSeeVisibility p d.

(** The first position of the query in the text, rune by rune. *)
Fixpoint matchAt (lower qLower : list Z) : bool :=
  match qLower, lower with
  | [], _ => true
  | q :: qLower', r :: lower' => (r =? q)%Z && matchAt lower' qLower'
  | _ :: _, [] => false
  end.
Fixpoint matchIndex (lower qLower : list Z) : option nat :=
  if matchAt lower qLower then Some 0
  else match lower with [] => None | _ :: lower' => S <$> matchIndex lower' qLower end.

(** [string(runes)] *)
Definition of_runes (l : list Z) : string := of_bytes (concat (encode_rune <$> l)).

(** [None]: a slice out of range. *)
Definition extractSnippet (unicode_lower : Z → Z) (text query : string) : option string :=
  if query =s "" then Some text
  else
    let rs := runes text in
    let qRunes := runes query in
    let lower := runes (ToLower unicode_lower text) in
    let qLower := runes (ToLower unicode_lower query) in
    match matchIndex lower qLower with
    | None => if (180 <? Z.of_nat (length rs))%Z then of_runes <$> slice rs 0 180 else Some text
    | Some idx =>
        let start := (Z.of_nat idx - 50)%Z in
        let start := if (start <? 0)%Z then 0%Z else start in
        let stop := (Z.of_nat idx + Z.of_nat (length qRunes) + 100)%Z in
        let stop := if (Z.of_nat (length rs) <? stop)%Z then Z.of_nat (length rs) else stop in
        of_runes <$> slice rs start stop
    end.

Section Service.
Context `{Postgres, GoRange, S3} {C V J : Type} `{!Catalog C, !VectorStore V, !JobStore J}.
Context (quote : string → string) (unicode_lower : Z → Z) (parse_request_uri : string → option error).
Context (cfg : PipelineConfig) (s3Bucket : string).
(** The worker's [MaxAttempts]; [None] without a worker. *)
Context (worker : option Z).

(** The stores the service works on. *)
Record KState := mkKState { k_access : Store; k_docs : PState C V J }.
#[export] Instance settable_KState : Settable KState := λ s, mkKState s.(k_access) s.(k_docs).
Implicit Types (s : KState) (e : Env) (ac : APIAccessContext).

(** The storage a document goes to, with its key prefix: the caller's own
    when the input names none. *)
Definition targetStorage (env : nat → Env) s (p : Principal) (storageID : string) : KState * ret (string * string) :=
  if storageID =s "" then
    match EnsurePrincipal env s.(k_access) p s3Bucket with
    | (a, (_, Some err)) => (s <| k_access := a |>, fails ("", "") err)
    | (a, ((_, st), None)) => (s <| k_access := a |>, ok (st.(Storage_ID), st.(Storage_S3Prefix)))
    end
  else match GetStorage s.(k_access) storageID with
  | (_, Some err) => (s, fails ("", "") err)
  | (None, None) => (s, fails ("", "") ErrNotFound)
  | (Some st, None) => (s, ok (storageID, st.(Storage_S3Prefix)))
  end.

(** The permission on the storage and the visibility of the new document. *)
Definition mayCreate s (p : Principal) ac (storageID : string) (visibility : Visibility) (groups : list string)
    : option error :=
  match CanAccessStorage s.(k_access) p ac.(APIAccessContext_AccessToken) ac.(APIAccessContext_AllowedStorage) storageID
          PermissionDocumentCreate with
  | (_, Some err) => Some err
  | ((_, false), None) => Some ErrForbidden
  | ((_, true), None) => if CanWriteVisibility p visibility groups then None else Some ErrForbidden
  end.

Definition KSave (env : nat → Env) e s (p : Principal) ac (inp : SaveInput) : KState * ret DocumentRecord :=
  let visibility := if inp.(In_Visibility) =s "" then VisibilityPersonal else inp.(In_Visibility) in
  match targetStorage env s p inp.(In_StorageID) with
  | (s, (_, Some err)) => (s, fails zeroval err)
  | (s, ((storageID, s3Prefix), None)) =>
      match mayCreate s p ac storageID visibility inp.(In_GroupIDs) with
      | Some err => (s, fails zeroval err)
      | None =>
          let '(d, r) := PipelineSave parse_request_uri cfg e s.(k_docs)
            (mkSaveRequest p storageID s3Prefix "" inp.(In_Title) inp.(In_Text) inp.(In_MimeType) visibility
               inp.(In_GroupIDs) inp.(In_Source) inp.(In_SourceURL) inp.(In_Channel)) in
          (s <| k_docs := d |>, r)
      end
  end.

Definition IngestBinary (env : nat → Env) e s (p : Principal) ac (inp : BinaryInput) : KState * ret DocumentRecord :=
  let visibility := if inp.(BI_Visibility) =s "" then VisibilityPersonal else inp.(BI_Visibility) in
  match targetStorage env s p inp.(BI_StorageID) with
  | (s, (_, Some err)) => (s, fails zeroval err)
  | (s, ((storageID, s3Prefix), None)) =>
      match mayCreate s p ac storageID visibility inp.(BI_GroupIDs) with
      | Some err => (s, fails zeroval err)
      | None =>
          let '(d, r) := SaveBinary unicode_lower parse_request_uri cfg e s.(k_docs)
            (mkBinarySaveRequest p storageID s3Prefix inp.(BI_Title) inp.(BI_Filename) inp.(BI_Payload) inp.(BI_MimeType)
               visibility inp.(BI_GroupIDs) inp.(BI_Source) inp.(BI_SourceURL) inp.(BI_Channel)) in
          (s <| k_docs := d |>, r)
      end
  end.

Definition canReadDoc s (p : Principal) ac (d : DocumentRecord) : bool :=
  match CanAccessStorage s.(k_access) p ac.(APIAccessContext_AccessToken) ac.(APIAccessContext_AllowedStorage)
          d.(DocumentRecord_StorageID) PermissionDocumentRead with
  | (_, Some _) | ((_, false), None) => false
  | ((_, true), None) => canSeeVisibility p d
  end.

Definition KGet s (p : Principal) ac (id : string) : ret DocumentRecord :=
  match c_Get s.(k_docs).(p_catalog) id with
  | (_, Some err) => fails zeroval err
  | (None, None) => fails zeroval ErrNotFound
  | (Some doc, None) => if canReadDoc s p ac doc then ok doc else fails zeroval ErrForbidden
  end.

(** The page request the catalogue gets. *)
Definition visiblePage (p : Principal) (page : PageRequest) (ids : list string) : PageRequest :=
  page <| PageRequest_AllowedStorageIDs := ids |> <| PageRequest_ApplyVisibility := true |>
       <| PageRequest_VisibilityOwnerIDs := ownerIdentifiers p |>
       <| PageRequest_VisibilityGroups := p.(Principal_Groups) |>.

Definition KList e s (p : Principal) ac (page : PageRequest) : option (ret PaginatedKnowledgeList) :=
  match ReadableStorageIDs e s.(k_access) p ac.(APIAccessContext_AccessToken) ac.(APIAccessContext_AllowedStorage) with
  | (_, Some err) => Some (fails zeroval err)
  | (readable, None) =>
      if page.(PageRequest_StorageID) <>s "" then
        if bool_decide (page.(PageRequest_StorageID) ∈ readable)
        then c_List s.(k_docs).(p_catalog) (visiblePage p page [page.(PageRequest_StorageID)])
        else Some (fails zeroval ErrForbidden)
      else if bool_decide (readable = ∅) then Some (ok (emptyPage page))
      else c_List s.(k_docs).(p_catalog) (visiblePage p page (range_set readable))
  end.

Definition KDelete e s (p : Principal) ac (id : string) : KState * option error :=
  match c_Get s.(k_docs).(p_catalog) id with
  | (_, Some err) => (s, Some err)
  | (None, None) => (s, Some ErrNotFound)
  | (Some doc, None) =>
      match CanAccessStorage s.(k_access) p ac.(APIAccessContext_AccessToken) ac.(APIAccessContext_AllowedStorage)
              doc.(DocumentRecord_StorageID) PermissionDocumentDelete with
      | (_, Some err) => (s, Some err)
      | ((_, false), None) => (s, Some ErrForbidden)
      | ((_, true), None) =>
          if negb (CanDeleteDocument p doc) then (s, Some ErrForbidden)
          else
            match c_Save e s.(k_docs).(p_catalog) (doc <| DocumentRecord_Status := DocumentStatusDeleting |>) with
            | (c, Some err) => (s <| k_docs := s.(k_docs) <| p_catalog := c |> |>, Some err)
            | (c, None) =>
                match c_Delete c id with
                | (c, Some err) => (s <| k_docs := s.(k_docs) <| p_catalog := c |> |>, Some err)
                | (c, None) =>
                    let d := s.(k_docs) <| p_catalog := c |> in
                    let '(d, err) := match worker with
                                     | Some maxAttempts => EnqueueDelete (later 2 e) maxAttempts d id
                                     | None => ProcessDeleteVectors d id
                                     end in
                    (s <| k_docs := d |>, err)
                end
            end
      end
  end.

(** The identifiers of the records found, in order, once each. *)
Definition docIDsOf (recs : list VectorRecord) : list string :=
  foldl (λ out r, let id := r.(Vec_Payload).(VectorPayload_DocID) in
    if (id =s "") || sContains out id then out else out ++ [id]) [] recs.

(** The hit of a record; the outer [option] is a panic, the inner one a
    record that is left out. *)
Definition hitOf (p : Principal) (query : string) (docs : gmap string DocumentRecord) (readable : gset string)
    (r : VectorRecord) : option (option SearchHit) :=
  match docs !! r.(Vec_Payload).(VectorPayload_DocID) with
  | None => Some None
  | Some doc =>
      if (doc.(DocumentRecord_Status) <>s "") && (doc.(DocumentRecord_Status) <>s DocumentStatusReady) then Some None
      else if negb (canReadDocCached p doc readable) then Some None
      else
        (λ snippet, Some (mkSearchHit doc.(DocumentRecord_DocID) doc.(DocumentRecord_Title) snippet r.(Vec_Score)
          doc.(DocumentRecord_Visibility) doc.(DocumentRecord_Source) doc.(DocumentRecord_SourceURL))) <$>
        (if query <>s "" then extractSnippet unicode_lower r.(Vec_Text) query else Some r.(Vec_Text))
  end.

(** The loop over the records. *)
Fixpoint hitsOf (p : Principal) (query : string) (docs : gmap string DocumentRecord) (readable : gset string)
    (recs : list VectorRecord) : option (list SearchHit) :=
  match recs with
  | [] => Some []
  | r :: recs' =>
      match hitOf p query docs readable r with
      | None => None
      | Some h => app (option_list h) <$> hitsOf p query docs readable recs'
      end
  end.

Definition KSearch e (llm : LLM) s (p : Principal) ac (req : SearchRequest) (allowPartial : bool)
    : option (ret (list SearchHit)) :=
  let page := req.(SearchRequest_Filters) in
  match ReadableStorageIDs e s.(k_access) p ac.(APIAccessContext_AccessToken) ac.(APIAccessContext_AllowedStorage) with
  | (_, Some err) => Some (fails [] err)
  | (readable, None) =>
      if (page.(PageRequest_StorageID) <>s "") && negb (bool_decide (page.(PageRequest_StorageID) ∈ readable))
      then Some (fails [] ErrForbidden)
      else
        let mode := if page.(PageRequest_SourceURLMode) =s "" then "exact" else page.(PageRequest_SourceURLMode) in
        let mode := if (mode =s "partial") && negb allowPartial then "exact" else mode in
        let page := page <| PageRequest_SourceURLMode := mode |> in
        match llm.(llm_embed) 0 req.(SearchRequest_Query) with
        | (_, Some err) => Some (fails [] err)
        | ((queryVec, _), None) =>
            match v_Search s.(k_docs).(p_vectors) queryVec req.(SearchRequest_TopK) page with
            | (_, Some err) => Some (fails [] err)
            | (recs, None) =>
                match c_GetMany s.(k_docs).(p_catalog) (docIDsOf recs) with
                | (_, Some err) => Some (fails [] err)
                | (docs, None) => ok <$> hitsOf p req.(SearchRequest_Query) docs readable recs
                end
            end
        end
  end.
End Service.
Arguments KState {_ _} _ _ _.
