(* ===== verification/KnowledgeProps.v ===== *)
(** What the document service of [Knowledge] guarantees: a document comes
    back to its author as it was saved, listings and searches show exactly
    what may be read, and the background worker brings catalogue and index
    into agreement. *)
From S2P Require Import Prelude GoStrings Models DataObj AccessState AccessObjects AccessService AccessProps Documents Ingest IngestProps Knowledge.
From Stdlib Require Import Ascii Floats.SpecFloat.

Section Knowledge.
Context `{Postgres, GoRange, S3, CatalogDB, VectorDB}.
Context (quote : string → string) (unicode_lower : Z → Z) (parse_request_uri : string → option error).
Context (cfg : PipelineConfig) (s3Bucket : string) (worker : option Z).
#[local] Instance k_queue : JobStore InMemoryJobStore := InMemory_JobStore quote.
Abbreviation KS := (KState DocStore VecStore InMemoryJobStore).
Implicit Types (s : KS) (p : Principal) (ac : APIAccessContext) (d : DocumentRecord).

Abbreviation save := (KSave parse_request_uri cfg s3Bucket).
Abbreviation binary := (IngestBinary unicode_lower parse_request_uri cfg s3Bucket).
Abbreviation remove := (KDelete worker).

(** ** Runs *)

Inductive k_op :=
| OpSave (env : nat → Env) (e : Env) (p : Principal) (ac : APIAccessContext) (inp : SaveInput)
| OpBinary (env : nat → Env) (e : Env) (p : Principal) (ac : APIAccessContext) (inp : BinaryInput)
| OpDelete (e : Env) (p : Principal) (ac : APIAccessContext) (id : string)
| OpWork (e : Env) (llm : LLM).

Definition k_apply (op : k_op) s : KS :=
  match op with
  | OpSave env e p ac inp => (save env e s p ac inp).1
  | OpBinary env e p ac inp => (binary env e s p ac inp).1
  | OpDelete e p ac id => (remove e s p ac id).1
  | OpWork e llm => s <| k_docs := (workOnce quote cfg e llm s.(k_docs)).1 |>
  end.

(** The random identifier of a new document is not that of a deleted one. *)
Definition k_fresh (op : k_op) s : Prop :=
  match op with
  | OpSave _ e _ _ _ => fresh_doc s.(k_docs) (uuid e 0)
  | OpBinary _ e _ _ _ => fresh_doc s.(k_docs) (uuid e 1)
  | _ => True
  end.

Inductive k_run (s0 : KS) : KS → Prop :=
| k_run_nil : k_run s0 s0
| k_run_step s op : k_run s0 s → k_fresh op s → k_run s0 (k_apply op s).

Lemma targetStorage_docs env s p id : (targetStorage s3Bucket env s p id).1.(k_docs) = s.(k_docs).
Proof.
  unfold targetStorage. destruct (id =s "").
  - destruct (EnsurePrincipal _ _ _ _) as [a [[? st] [?|]]]; done.
  - destruct (GetStorage _ _) as [[?|] [?|]]; done.
Qed.

Lemma remove_cases e s p ac id : index_ok s.(k_docs) →
  let s' := (remove e s p ac id).1 in
  s' = s ∨ ∃ st1, st1 = s.(k_docs) <| p_catalog := s.(k_docs).(p_catalog) <| ds_docs :=
             delete id s.(k_docs).(p_catalog).(ds_docs) |> |>
    ∧ s' = s <| k_docs := match worker with
                          | Some n => (EnqueueDelete (later 2 e) n st1 id).1
                          | None => (ProcessDeleteVectors st1 id).1
                          end |>.
Proof.
  intros Hix. unfold KDelete. rewrite c_Get_memory by apply Hix. cbn [ok].
  destruct (_ !! id) as [d|] eqn:Hd; [|by left].
  destruct (CanAccessStorage _ _ _ _ _ _) as [[? [|]] [?|]]; [by left| |by left..].
  destruct (CanDeleteDocument p d); cbn [negb]; [|by left].
  rewrite c_Save_memory, c_Delete_memory by apply Hix. right. eexists. split; [done|].
  cbn. rewrite (ix_keyed _ Hix _ _ Hd), delete_insert_eq by done.
  destruct worker as [n|]; [by destruct (EnqueueDelete _ _ _ _)|by destruct (ProcessDeleteVectors _ _)].
Qed.

Lemma k_apply_index op s : index_ok s.(k_docs) → k_fresh op s → index_ok (k_apply op s).(k_docs).
Proof.
  intros Hix. destruct op as [env e p ac inp|env e p ac inp|e p ac id|e llm]; cbn [k_apply k_fresh]; intros Hfresh.
  - unfold KSave. destruct (targetStorage _ env s p _) as [s1 [[sid prefix] terr]] eqn:Ht.
    pose proof (targetStorage_docs env s p inp.(In_StorageID)) as Hd. rewrite Ht in Hd. cbn in Hd.
    destruct terr; [cbn; by rewrite Hd|]. destruct (mayCreate _ _ _ _ _ _); [cbn; by rewrite Hd|].
    rewrite Hd. set (req := mkSaveRequest _ _ _ _ _ _ _ _ _ _ _ _).
    pose proof (save_index quote parse_request_uri cfg e s.(k_docs) req Hix Hfresh) as Hs.
    by destruct (PipelineSave _ _ e _ req).
  - unfold IngestBinary. destruct (targetStorage _ env s p _) as [s1 [[sid prefix] terr]] eqn:Ht.
    pose proof (targetStorage_docs env s p inp.(BI_StorageID)) as Hd. rewrite Ht in Hd. cbn in Hd.
    destruct terr; [cbn; by rewrite Hd|]. destruct (mayCreate _ _ _ _ _ _); [cbn; by rewrite Hd|].
    rewrite Hd. set (req := mkBinarySaveRequest _ _ _ _ _ _ _ _ _ _ _ _).
    pose proof (binary_index quote parse_request_uri cfg unicode_lower e s.(k_docs) req Hix Hfresh) as Hs.
    by destruct (SaveBinary _ _ _ e _ req).
  - destruct (remove_cases e s p ac id Hix) as [->|(st1 & -> & ->)]; [done|]. cbn.
    destruct worker as [n|]; [by apply removed_index|by apply purged_index].
  - cbn. pose proof (work_spec quote cfg e llm s.(k_docs) (ix_mem _ Hix) (ix_keyed _ Hix) (jo_keyed _ (ix_jobs _ Hix))) as Hw.
    destruct (workOnce _ _ _ _ _) as [st' [[|] err]]; destruct Hw as [_ Hw].
    + destruct Hw as (? & ? & ? & Hw). by eapply worked_index.
    + destruct Hw as [-> _]. done.
Qed.

(** Nothing stored yet. *)
Definition k_empty (a : Store) (b : BlobStore) (cd : CD) (vd : VD) : KS :=
  mkKState a (mkPState (NewInMemoryDocs cd) (NewInMemoryVecs vd) b NewInMemoryJobStore).

Lemma k_empty_index a b cd vd : index_ok (k_empty a b cd vd).(k_docs).
Proof.
  split; cbn; try done. by intros r ?%elem_of_nil.
Qed.

Lemma k_run_index a b cd vd s : k_run (k_empty a b cd vd) s → index_ok s.(k_docs).
Proof. induction 1 as [|s op _ IH Hf]; [apply k_empty_index|by apply k_apply_index]. Qed.

(** ** What a caller may read *)

Definition token_of ac := ac.(APIAccessContext_AccessToken).
Definition scopes_of ac := ac.(APIAccessContext_AllowedStorage).

(** The set used for many documents decides as the check for one. *)
Lemma readable_can_access e (a : Store) p token scopes sid readable :
  ReadableStorageIDs e a p token scopes = ok readable → sid ∈ readable → sid ≠ "" →
  ∃ acc, CanAccessStorage a p token scopes sid PermissionDocumentRead = ok (acc, true).
Proof.
  unfold ReadableStorageIDs, storageCandidates. intros Hr Hin Hsid.
  destruct (ListAccessibleStorages _ _ _) as [cands [?|]]; [done|].
  destruct (ACLForSubject a _) as [acl [?|]] eqn:Hacl; [done|]. injection Hr as <-.
  apply elem_of_list_to_set, list_elem_of_fmap in Hin as (st & -> & [Hst Hev]%elem_of_filter_bool).
  unfold CanAccessStorage. rewrite seqb_neq_false, Hacl by done.
  exists (evaluateStorageAccess p token scopes acl st.(Storage_ID) PermissionDocumentRead).1.
  rewrite (surjective_pairing (evaluateStorageAccess p token scopes acl _ _)). by f_equal; f_equal.
Qed.

Lemma ix_placed s id d : index_ok s.(k_docs) → s.(k_docs).(p_catalog).(ds_docs) !! id = Some d → placed id d.
Proof. intros Hix Hd. destruct (ix_docs _ Hix id d Hd) as [(? & _)|[? _]]; done. Qed.

Lemma KGet_memory s p ac id d : index_ok s.(k_docs) → s.(k_docs).(p_catalog).(ds_docs) !! id = Some d →
  KGet s p ac id = if canReadDoc s p ac d then ok d else fails zeroval ErrForbidden.
Proof. intros Hix Hd. unfold KGet. rewrite c_Get_memory by apply Hix. by rewrite Hd. Qed.

Lemma GetMany_sound (c : DocStore) ids m id d : c.(ds_useDB) = false → c_GetMany c ids = ok m → m !! id = Some d →
  c.(ds_docs) !! id = Some d.
Proof.
  intros Hm. cbn. unfold GetManyDocs. case_bool_decide; [by intros [= <-]|]. rewrite Hm. intros Heq. injection Heq as <-.
  assert (Hall : ∀ m0 : gmap string DocumentRecord, (∀ i x, m0 !! i = Some x → c.(ds_docs) !! i = Some x) →
    ∀ i x, foldl (λ out id, match c.(ds_docs) !! id with Some doc => <[id := doc]> out | None => out end) m0 ids !! i = Some x →
      c.(ds_docs) !! i = Some x); [|apply Hall; by intros i x ?%lookup_empty_Some].
  clear. induction ids as [|y ids IH]; intros m0 Hm0; cbn; [done|]. apply IH. intros i x.
  destruct (c.(ds_docs) !! y) as [doc|] eqn:Hy; [|by apply Hm0].
  rewrite lookup_insert_Some. intros [[<- <-]|[_ ?]]; [done|by apply Hm0].
Qed.

Lemma hitsOf_elem p query docs readable recs hits h : hitsOf unicode_lower p query docs readable recs = Some hits →
  h ∈ hits → ∃ r, r ∈ recs ∧ hitOf unicode_lower p query docs readable r = Some (Some h).
Proof.
  revert hits. induction recs as [|r recs IH]; intros hits; cbn; [intros [= <-] ?%elem_of_nil; done|].
  destruct (hitOf _ _ _ _ _ r) as [x|] eqn:Hx; [|done]. destruct (hitsOf _ _ _ _ _ recs) as [hs|]; [|done].
  cbn. intros [= <-] [Hh|Hh]%elem_of_app.
  - destruct x as [x|]; cbn in Hh; [|by apply elem_of_nil in Hh]. apply list_elem_of_singleton in Hh as ->.
    exists r. split; [by constructor|done].
  - destruct (IH hs eq_refl Hh) as (r' & ? & ?). exists r'. split; [by constructor|done].
Qed.

(** ** Listings *)

Definition newer (x y : DocumentRecord) : Prop := (y.(DocumentRecord_UpdatedAt) <= x.(DocumentRecord_UpdatedAt))%Z.

(** The filters of the request itself, with the URL of the source in full. *)
Definition asked (page : PageRequest) d : bool :=
  ((page.(PageRequest_StorageID) =s "") || (d.(DocumentRecord_StorageID) =s page.(PageRequest_StorageID)))
  && ((page.(PageRequest_Source) =s "") || (d.(DocumentRecord_Source) =s page.(PageRequest_Source)))
  && ((page.(PageRequest_SourceURL) =s "") || (d.(DocumentRecord_SourceURL) =s page.(PageRequest_SourceURL))).

Lemma containsStr_elem l v : containsStr l v = true ↔ v ∈ l.
Proof. unfold containsStr. rewrite existsb_elem_of. setoid_rewrite String.eqb_eq. naive_solver. Qed.

Lemma elem_of_ownerIdentifiers p x :
  x ∈ ownerIdentifiers p ↔ x ≠ "" ∧ (x = p.(Principal_UserID) ∨ x = SubjectKeyForPrincipal p).
Proof.
  unfold ownerIdentifiers. cbn [foldl]. generalize (SubjectKeyForPrincipal p) as k. generalize (Principal_UserID p) as u.
  intros u k. assert (Hpush : ∀ l y, x ∈ (if (y =s "") || sContains l y then l else l ++ [y]) ↔ x ∈ l ∨ x = y ∧ x ≠ "").
  { intros l y. destruct (String.eqb_spec y "") as [->|Hy]; cbn; [naive_solver|].
    destruct (sContains l y) eqn:Hl; rewrite ?elem_of_app, ?list_elem_of_singleton.
    - apply sContains_spec in Hl. naive_solver.
    - naive_solver. }
  rewrite !Hpush, elem_of_nil. naive_solver.
Qed.

Lemma containsStr_owner p d : containsStr (ownerIdentifiers p) d.(DocumentRecord_OwnerID) = ownsDocumentKnowledge p d.
Proof.
  apply eq_true_iff_eq. rewrite containsStr_elem, elem_of_ownerIdentifiers. unfold ownsDocumentKnowledge.
  destruct (String.eqb_spec d.(DocumentRecord_OwnerID) "") as [->|Ho]; [naive_solver|].
  rewrite orb_true_iff, !String.eqb_eq. naive_solver.
Qed.

Lemma visible_agrees p d : visibleInMemory d (ownerIdentifiers p) p.(Principal_Groups) = canSeeVisibility p d.
Proof. unfold visibleInMemory, canSeeVisibility. by rewrite containsStr_owner. Qed.

Lemma listed_visible p page ids d : page.(PageRequest_SourceURLMode) ≠ "partial" → ids ≠ [] →
  listed (visiblePage p page ids) d
  = asked page d && (bool_decide (d.(DocumentRecord_StorageID) ∈ ids) && canSeeVisibility p d).
Proof.
  intros Hmode%String.eqb_neq Hids. unfold asked, listed. cbn -[ownerIdentifiers visibleInMemory]. rewrite Hmode, visible_agrees.
  rewrite (bool_decide_false _ Hids), (bool_decide_ext (_ ∈ list_to_set ids) _ (elem_of_list_to_set _ _)).
  destruct (page.(PageRequest_StorageID) =s ""), (_ =s page.(PageRequest_StorageID)), (bool_decide (_ ∈ ids)),
    (page.(PageRequest_Source) =s ""), (_ =s page.(PageRequest_Source)), (page.(PageRequest_SourceURL) =s ""),
    (_ =s page.(PageRequest_SourceURL)), (canSeeVisibility p d); reflexivity.
Qed.

Lemma paginate_spec items page : (1 <= page.(PageRequest_Page))%Z → (1 <= page.(PageRequest_PageSize))%Z →
  (page.(PageRequest_Page) * page.(PageRequest_PageSize) < 2 ^ 63)%Z →
  paginate items page = Some (mkPaginatedKnowledgeList
    (take (Z.to_nat page.(PageRequest_PageSize))
       (drop (Z.to_nat ((page.(PageRequest_Page) - 1) * page.(PageRequest_PageSize))) items))
    page.(PageRequest_Page) page.(PageRequest_PageSize) (Z.of_nat (length items))
    (page.(PageRequest_Page) * page.(PageRequest_PageSize) <? Z.of_nat (length items))%Z).
Proof.
  intros Hn Hsize Hmax. unfold paginate, pageOf, pageSizeOf. set (n := PageRequest_Page page) in *.
  set (size := PageRequest_PageSize page) in *.
  rewrite (proj2 (Z.leb_gt n 0)), (proj2 (Z.leb_gt size 0)) by lia. set (len := Z.of_nat (length items)).
  rewrite (wrap64_small ((n - 1) * size)) by nia. unfold slice. fold len.
  destruct (Z.ltb_spec len ((n - 1) * size)) as [Hpast|Hin].
  - rewrite (wrap64_small (len + size)) by nia. rewrite (proj2 (Z.ltb_lt len (len + size))) by lia.
    rewrite (proj2 (Z.leb_le 0 len)), Z.leb_refl, Z.ltb_irrefl, (proj2 (Z.ltb_ge (n * size) len)) by nia. cbn.
    rewrite Z.sub_diag, (drop_ge items (Z.to_nat ((n - 1) * size))) by lia. by rewrite take_nil.
  - rewrite (wrap64_small ((n - 1) * size + size)) by nia. rewrite (proj2 (Z.leb_le 0 ((n - 1) * size))) by nia.
    replace (n * size)%Z with ((n - 1) * size + size)%Z by lia. set (start := ((n - 1) * size)%Z) in *.
    destruct (Z.ltb_spec len (start + size)) as [Hlast|Hmore].
    + rewrite (proj2 (Z.leb_le start len)), Z.leb_refl, Z.ltb_irrefl, (proj2 (Z.ltb_ge (start + size) len)) by lia. cbn.
      do 2 f_equal. rewrite !take_ge; [done| |]; rewrite length_drop; lia.
    + rewrite (proj2 (Z.leb_le start (start + size))), (proj2 (Z.leb_le (start + size) len)) by lia. cbn.
      by replace (start + size - start)%Z with size by lia.
Qed.

Lemma NoDup_filter_fmap {A B} (f : A → B) (g : A → bool) l : NoDup (f <$> l) → NoDup (f <$> List.filter g l).
Proof.
  induction l as [|x l IH]; cbn; [done|]. intros [Hx Hl]%NoDup_cons. destruct (g x); [|by apply IH].
  cbn. apply NoDup_cons. split; [|by apply IH]. intros (y & Heq & [Hy _]%elem_of_filter_bool)%list_elem_of_fmap.
  apply Hx. apply list_elem_of_fmap. eauto.
Qed.

Lemma selected_NoDup s page : index_ok s.(k_docs) → NoDup (DocumentRecord_DocID <$> selected s.(k_docs).(p_catalog) page).
Proof.
  intros Hix. unfold selected. rewrite sort_by_perm. apply NoDup_filter_fmap. unfold range_vals.
  rewrite <- list_fmap_compose. erewrite list_fmap_ext.
  - rewrite range_map_perm. apply NoDup_fst_map_to_list.
  - intros i [k d] Hi%list_elem_of_lookup_2%elem_of_range_map. cbn. by apply (ix_keyed _ Hix).
Qed.

Lemma elem_of_selected s page d : index_ok s.(k_docs) → d ∈ selected s.(k_docs).(p_catalog) page ↔
  s.(k_docs).(p_catalog).(ds_docs) !! d.(DocumentRecord_DocID) = Some d ∧ listed page d = true.
Proof.
  intros Hix. unfold selected. rewrite elem_of_sort_by, elem_of_filter_bool, elem_of_range_vals. split.
  - intros [[k Hk] Hl]. by rewrite (ix_keyed _ Hix _ _ Hk).
  - intros [Hd Hl]. by split; [exists d.(DocumentRecord_DocID)|].
Qed.

Lemma KGet_ok s p ac d : index_ok s.(k_docs) → KGet s p ac d.(DocumentRecord_DocID) = ok d ↔
  s.(k_docs).(p_catalog).(ds_docs) !! d.(DocumentRecord_DocID) = Some d ∧ canReadDoc s p ac d = true.
Proof.
  intros Hix. unfold KGet. rewrite c_Get_memory by apply Hix. cbn [ok].
  destruct (_ !! _) as [d'|] eqn:Hd; [|by split; [|intros [? _]]]. split.
  - destruct (canReadDoc s p ac d') eqn:Hr; [|done]. by intros [= ->].
  - intros [[= ->] ->]. done.
Qed.

(** What a caller may read, as a set and one by one. *)
(** The storage exists and the caller may read it. *)
Definition storage_readable s p ac (sid : string) : Prop :=
  is_Some (s.(k_access).(s_storages) !! sid)
  ∧ (CanAccessStorage s.(k_access) p ac.(APIAccessContext_AccessToken) ac.(APIAccessContext_AllowedStorage) sid PermissionDocumentRead).1.2
    = true.

Lemma readable_spec e s p ac : s.(k_access).(s_useDB) = false → storages_keyed s.(k_access) →
  (∀ bd, bd ∈ acl_of s.(k_access) (SubjectKeys p) → binding_live (now e 0) bd) →
  ∃ readable, ReadableStorageIDs e s.(k_access) p ac.(APIAccessContext_AccessToken) ac.(APIAccessContext_AllowedStorage) = ok readable
    ∧ (∀ sid, sid ≠ "" → sid ∈ readable ↔ storage_readable s p ac sid)
    ∧ ∀ d, placed d.(DocumentRecord_DocID) d → d.(DocumentRecord_StorageID) ∈ readable ∧ canSeeVisibility p d = true ↔
        canReadDoc s p ac d = true ∧ is_Some (s.(k_access).(s_storages) !! d.(DocumentRecord_StorageID)).
Proof.
  intros Hdb Hkeyed Hlive. set (token := APIAccessContext_AccessToken ac). set (scopes := APIAccessContext_AllowedStorage ac).
  destruct (ReadableStorageIDs e s.(k_access) p token scopes) as [readable rerr] eqn:Hr. exists readable.
  assert (Hrerr : rerr = None).
  { destruct (storageCandidates_memory e s.(k_access) p token scopes Hdb) as (cands & Hc & _).
    unfold ReadableStorageIDs in Hr. rewrite Hc in Hr. by injection Hr. }
  subst. split; [done|]. split.
  { intros sid Hne. unfold storage_readable. fold token scopes. rewrite <- (readable_ids_spec e) by done. by rewrite Hr. }
  intros d [_ Hne]. unfold canReadDoc. fold token scopes. rewrite CanAccessStorage_memory by done.
  pose proof (readable_ids_spec e s.(k_access) p token scopes d.(DocumentRecord_StorageID) Hdb Hkeyed Hlive Hne) as Hspec.
  rewrite Hr, CanAccessStorage_memory in Hspec by done. cbn [fst ok] in Hspec. cbn [ok].
  destruct (evaluateStorageAccess _ _ _ _ _ _) as [acc [|]]; cbn in *; naive_solver.
Qed.

Lemma Sorted_mono {A} (R S : relation A) l : (∀ x y, R x y → S x y) → Sorted R l → Sorted S l.
Proof. intros HRS. induction 1 as [|x l _ IH Hhd]; constructor; [done|]. inversion Hhd; constructor; auto. Qed.

Lemma selected_newest s page : Sorted newer (selected s.(k_docs).(p_catalog) page).
Proof.
  unfold selected. eapply Sorted_mono; [|apply sort_by_sorted]; unfold After, newer; cbn.
  - by intros x y ?%Z.ltb_ge.
  - intros x y ?%Z.ltb_lt. apply Z.ltb_ge. lia.
Qed.

(** ** Who may create may read *)

Lemma role_create_reads role : PermissionDocumentCreate ∈ RolePermissions role → PermissionDocumentRead ∈ RolePermissions role.
Proof.
  unfold RolePermissions. destruct (_ || _); [intros _; apply sContains_spec; reflexivity|].
  destruct (_ =s _); [intros _; apply sContains_spec; reflexivity|].
  destruct (_ =s _); [intros _; apply sContains_spec; reflexivity|by intros ?%elem_of_nil].
Qed.

Lemma mode_create_reads mode : PermissionDocumentCreate ∈ ModePermissions mode → PermissionDocumentRead ∈ ModePermissions mode.
Proof.
  unfold ModePermissions. destruct (_ =s _); [apply role_create_reads|]. destruct (_ =s _); [apply role_create_reads|].
  by intros ?%elem_of_nil.
Qed.

(** The permission list of the caller's token, if there is one, has read. *)
Definition token_reads ac : Prop :=
  match ac.(APIAccessContext_AccessToken) with
  | Some t => t.(AccessToken_AllowedPermissions) = [] ∨ PermissionDocumentRead ∈ t.(AccessToken_AllowedPermissions)
  | None => True
  end.

Lemma create_reads (a : Store) p ac sid acc : token_reads ac →
  CanAccessStorage a p ac.(APIAccessContext_AccessToken) ac.(APIAccessContext_AllowedStorage) sid PermissionDocumentCreate
    = ok (acc, true) →
  ∃ acc', CanAccessStorage a p ac.(APIAccessContext_AccessToken) ac.(APIAccessContext_AllowedStorage) sid PermissionDocumentRead
    = ok (acc', true).
Proof.
  unfold token_reads. set (token := APIAccessContext_AccessToken ac). set (scopes := APIAccessContext_AllowedStorage ac).
  intros Ht. unfold CanAccessStorage. destruct (sid =s ""); [done|]. destruct (ACLForSubject a _) as [acl [?|]]; [done|].
  intros Hc. assert (Hrule : (evaluateStorageAccess p token scopes acl sid PermissionDocumentCreate).2 = true)
    by exact (f_equal (λ r : ret (EffectiveAccess * bool), r.1.2) Hc).
  apply evaluateStorageAccess_rule in Hrule. clear Hc.
  assert (Hread : (evaluateStorageAccess p token scopes acl sid PermissionDocumentRead).2 = true).
  { apply evaluateStorageAccess_rule. unfold storage_rule, role_grants, token_passes in *. destruct token as [t|].
    - destruct Hrule as [(b & ? & ? & ?%role_create_reads) (sc & ? & ?%mode_create_reads & _)]. split; [by eauto|]. eauto 6.
    - destruct Hrule as [(b & ? & ? & ?%role_create_reads)|?]; [left; by eauto|by right]. }
  destruct (evaluateStorageAccess p token scopes acl sid PermissionDocumentRead) as [acc' r]. cbn in Hread. subst. by eauto.
Qed.

(** ** Theorems *)

(** C8. The background worker gets through, and then catalogue and index
    agree. After any run of saves, uploads, deletions and turns of the
    worker, whatever the language model and the blob store answer,
    [ProcessUntilIdle] returns without an error within as many turns as the
    waiting jobs have attempts left; every document is then ready with its
    summary in the index, or marked as failed; every vector belongs to a
    document; and no job waits or runs. *)
Theorem index_settles a b cd vd s turns :
  k_run (k_empty a b cd vd) s → (∀ i, (turns i).(turn_ctx) = None) →
  ∃ st', ProcessUntilIdle quote cfg (S (remaining s.(k_docs).(p_jobs).(im_jobs))) turns s.(k_docs) = Some (st', None)
    ∧ (∀ id d, st'.(p_catalog).(ds_docs) !! id = Some d → settled st'.(p_vectors).(vs_records) id d)
    ∧ (∀ r, r ∈ st'.(p_vectors).(vs_records) → is_Some (st'.(p_catalog).(ds_docs) !! r.(Vec_Payload).(VectorPayload_DocID)))
    ∧ ∀ id j, st'.(p_jobs).(im_jobs) !! id = Some j → active j = false.
Proof.
  intros Hrun%k_run_index Hctx.
  destruct (process_until_idle quote cfg (S (remaining s.(k_docs).(p_jobs).(im_jobs))) turns s.(k_docs) Hrun Hctx) as (st' & Hp & Hix & Hidle);
    [lia|]. exists st'.
  assert (Hno : ∀ doc kind, ¬ waiting st'.(p_jobs) doc kind).
  { intros doc kind (id & j & Hj & _ & _ & Hc%claimable_active). by rewrite (Hidle id j Hj) in Hc. }
  split_and!; [done| | |done].
  - intros id d Hd. destruct (ix_docs _ Hix id d Hd) as [(_ & _ & []%Hno)|]; done.
  - intros r Hr. destruct (ix_vectors _ Hix r Hr) as [|[]%Hno]; done.
Qed.

(** What a search shows is ready and can be read. *)
Lemma search_hit_ok s e llm p ac req allowPartial hits h : index_ok s.(k_docs) →
  KSearch unicode_lower e llm s p ac req allowPartial = Some (ok hits) → h ∈ hits →
  ∃ d, KGet s p ac h.(SearchHit_DocID) = ok d ∧ d.(DocumentRecord_Status) = DocumentStatusReady
    ∧ h.(SearchHit_Title) = d.(DocumentRecord_Title) ∧ h.(SearchHit_Visibility) = d.(DocumentRecord_Visibility).
Proof.
  intros Hix. unfold KSearch.
  destruct (ReadableStorageIDs _ _ _ _ _) as [readable [?|]] eqn:Hr; [done|]. destruct (_ && negb _); [done|].
  destruct (llm_embed _ _ _) as [[vec ?] [?|]]; [done|]. destruct (v_Search _ _ _ _) as [recs [?|]]; [done|].
  destruct (c_GetMany _ _) as [docs [?|]] eqn:Hm; [done|].
  destruct (hitsOf _ _ _ _ _ _) as [hs|] eqn:Hh; [|done]. cbn. intros [= ->] Hin.
  destruct (hitsOf_elem _ _ _ _ _ _ _ Hh Hin) as (r & _ & Hhit). unfold hitOf in Hhit.
  destruct (docs !! _) as [d|] eqn:Hd; [|done].
  apply (GetMany_sound _ _ _ _ _ (proj1 (ix_mem _ Hix)) Hm) in Hd. pose proof (ix_placed _ _ _ Hix Hd) as [Hid Hsid].
  destruct (_ && _) eqn:Hst; [done|]. destruct (canReadDocCached p d readable) eqn:Hread; cbn [negb] in Hhit; [|done].
  apply andb_true_iff in Hread as [Hin'%bool_decide_eq_true_1 Hsee].
  destruct (readable_can_access _ _ _ _ _ _ _ Hr Hin' Hsid) as [acc Hacc].
  destruct (if _ : bool then _ else _) as [sn|]; [|done]. cbn in Hhit. injection Hhit as <-. cbn. exists d.
  rewrite Hid. split_and!; [|..|done|done].
  - rewrite (KGet_memory _ _ _ _ _ Hix Hd). unfold canReadDoc. by rewrite Hacc, Hsee.
  - destruct (ix_docs _ Hix _ _ Hd) as [(_ & Hp & _)|[_ [Hp|[Hp _]]]]; [..|done]; by rewrite Hp in Hst.
Qed.

(** C15. A search shows only what the caller may read: every hit is a
    document of the catalogue that is ready and that reading it by its
    identifier gives to the same caller, with the same token. *)
Theorem search_hits_readable a b cd vd s e llm p ac req allowPartial hits h :
  k_run (k_empty a b cd vd) s →
  KSearch unicode_lower e llm s p ac req allowPartial = Some (ok hits) → h ∈ hits →
  ∃ d, KGet s p ac h.(SearchHit_DocID) = ok d ∧ d.(DocumentRecord_Status) = DocumentStatusReady
    ∧ h.(SearchHit_Title) = d.(DocumentRecord_Title) ∧ h.(SearchHit_Visibility) = d.(DocumentRecord_Visibility).
Proof. intros Hix%k_run_index. by apply search_hit_ok. Qed.

(** The pages of a list of documents. *)
Definition pages_of e s p ac page (all : list DocumentRecord) : Prop :=
  ∀ n size, (1 <= n)%Z → (1 <= size)%Z → (n * size < 2 ^ 63)%Z →
    KList e s p ac (page <| PageRequest_Page := n |> <| PageRequest_PageSize := size |>)
    = Some (ok (mkPaginatedKnowledgeList (take (Z.to_nat size) (drop (Z.to_nat ((n - 1) * size)) all)) n size
        (Z.of_nat (length all)) (n * size <? Z.of_nat (length all))%Z)).

(** The documents a caller may read one by one, among those asked for. *)
Definition lists_readable s p ac page (all : list DocumentRecord) : Prop :=
  NoDup (DocumentRecord_DocID <$> all) ∧ Sorted newer all
  ∧ ∀ d, d ∈ all ↔ KGet s p ac d.(DocumentRecord_DocID) = ok d
      ∧ is_Some (s.(k_access).(s_storages) !! d.(DocumentRecord_StorageID)) ∧ asked page d = true.

(** The catalogue, asked for the storages that matter. *)
Lemma selected_readable s p ac page ids (readable : gset string) : index_ok s.(k_docs) → page.(PageRequest_SourceURLMode) ≠ "partial" → ids ≠ [] →
  (∀ d, asked page d = true → d.(DocumentRecord_StorageID) ∈ ids ↔ d.(DocumentRecord_StorageID) ∈ readable) →
  (∀ d, placed d.(DocumentRecord_DocID) d → d.(DocumentRecord_StorageID) ∈ readable ∧ canSeeVisibility p d = true ↔
     canReadDoc s p ac d = true ∧ is_Some (s.(k_access).(s_storages) !! d.(DocumentRecord_StorageID))) →
  lists_readable s p ac page (selected s.(k_docs).(p_catalog) (visiblePage p page ids)).
Proof.
  intros Hix Hmode Hids Hsame Hread. split_and!; [by apply selected_NoDup|by apply selected_newest|].
  intros d. rewrite elem_of_selected, listed_visible by done. rewrite !andb_true_iff, bool_decide_eq_true. split.
  - intros (Hd & Hask & Hin%Hsame & Hsee); [|done]. destruct (proj1 (Hread d (ix_placed _ _ _ Hix Hd)) (conj Hin Hsee)) as [Hcan Hst].
    by rewrite KGet_ok.
  - intros (Hd & Hst & Hask). apply KGet_ok in Hd as [Hd Hcan]; [|done].
    destruct (proj2 (Hread d (ix_placed _ _ _ Hix Hd)) (conj Hcan Hst)) as [Hin%Hsame Hsee]; [|done]. by split_and!.
Qed.

Lemma empty_pages e s p ac page (readable : gset string) : page.(PageRequest_StorageID) = "" → readable = ∅ →
  ReadableStorageIDs e s.(k_access) p ac.(APIAccessContext_AccessToken) ac.(APIAccessContext_AllowedStorage) = ok readable →
  pages_of e s p ac page [].
Proof.
  intros Hsid -> Hr n size Hn Hsize _. unfold KList. rewrite Hr. cbn [ok]. change (Z.of_nat (length [])) with 0%Z.
  rewrite (proj2 (Z.ltb_ge (n * size) 0)), drop_nil, take_nil by nia.
  set (page' := _ <| PageRequest_PageSize := _ |>). change (PageRequest_StorageID page') with (PageRequest_StorageID page).
  rewrite Hsid, (bool_decide_true (∅ = ∅)) by done. change ("" <>s "") with false. cbv iota. unfold emptyPage, pageOf, pageSizeOf.
  assert (Hp1 : (PageRequest_Page page' <=? 0)%Z = false) by (apply Z.leb_gt; cbn; lia).
  assert (Hp2 : (PageRequest_PageSize page' <=? 0)%Z = false) by (apply Z.leb_gt; cbn; lia). by rewrite Hp1, Hp2.
Qed.


(** What is saved comes back to its author. When a save succeeds, the
    document is in the catalogue with the text, title, visibility and groups
    that were given and the caller as its owner, a job to index it waits, and
    reading it with the same credentials returns it, as long as the
    permission list of the caller's token does not leave out reading. *)
Theorem saved_document_readable a b cd vd s env e p ac inp s' d :
  k_run (k_empty a b cd vd) s → p.(Principal_UserID) ≠ "" → token_reads ac →
  fresh_doc s.(k_docs) (uuid e 0) → save env e s p ac inp = (s', ok d) →
  KGet s' p ac d.(DocumentRecord_DocID) = ok d
  ∧ d.(DocumentRecord_Body) = inp.(In_Text) ∧ d.(DocumentRecord_OwnerID) = p.(Principal_UserID)
  ∧ d.(DocumentRecord_Visibility) = (if inp.(In_Visibility) =s "" then VisibilityPersonal else inp.(In_Visibility))
  ∧ d.(DocumentRecord_GroupIDs) = inp.(In_GroupIDs) ∧ waiting s'.(k_docs).(p_jobs) d.(DocumentRecord_DocID) JobKindIngest.
Proof.
  intros Hrun Huser Htok Hfresh Hsave. pose proof (k_run_index _ _ _ _ _ Hrun) as Hix.
  pose proof (k_apply_index (OpSave env e p ac inp) s Hix Hfresh) as Hix'. cbn in Hix'. rewrite Hsave in Hix'. cbn in Hix'.
  unfold KSave in Hsave. set (vis := if _ =s "" then _ else _) in *.
  destruct (targetStorage _ env s p _) as [s1 [[sid prefix] [?|]]] eqn:Ht; [done|].
  pose proof (targetStorage_docs env s p inp.(In_StorageID)) as Hd1. rewrite Ht in Hd1. cbn in Hd1.
  destruct (mayCreate _ _ _ _ _ _) eqn:Hmay; [done|]. unfold mayCreate in Hmay.
  destruct (CanAccessStorage _ _ _ _ _ _) as [[acc [|]] [?|]] eqn:Hacc; try done.
  rewrite Hd1 in Hsave. set (req := mkSaveRequest _ _ _ _ _ _ _ _ _ _ _ _) in Hsave.
  pose proof (save_spec quote parse_request_uri cfg e s.(k_docs) req (ix_mem _ Hix) (ix_jobs _ Hix)) as Hs.
  destruct (PipelineSave _ _ e _ req) as [st' [d' err]]. injection Hsave as <- -> ->.
  destruct Hs as (bl & Hp & j & jr & He & ->). destruct (prepareDocument_spec _ _ _ _ _ _ _ Hp) as [_ Hd].
  destruct (Hd eq_refl) as (Hid & Hst & Hsid & Hown & Hvis & Hgr & Hbody). cbn in Hid, Hst, Hsid, Hown, Hvis, Hgr, Hbody.
  assert (Hsid' : d.(DocumentRecord_StorageID) = sid).
  { rewrite Hsid. unfold defaultStorageID. unfold CanAccessStorage in Hacc. by destruct (sid =s ""). }
  assert (Hvis' : d.(DocumentRecord_Visibility) = vis).
  { rewrite Hvis. subst vis. destruct (In_Visibility inp =s "") eqn:Hv; [done|by rewrite Hv]. }
  destruct (create_reads _ _ _ _ _ Htok Hacc) as [acc' Hread].
  split_and!; try done; [|by eapply enqueue_spec, He; apply Hix].
  apply KGet_ok; [done|]. cbn. rewrite lookup_insert_eq. split; [done|].
  unfold canReadDoc. cbn. rewrite Hsid', Hread. cbn. unfold canSeeVisibility, ownsDocumentKnowledge. rewrite Hown, String.eqb_refl.
  rewrite (seqb_neq_false _ _ Huser). cbn. by repeat destruct (_ =s _).
Qed.
End Knowledge.

(** ** Witnesses *)

Section Witnesses.
#[local] Existing Instance canonical_range.
#[local] Existing Instance no_postgres.
#[local] Instance wd_s3 : S3 := {| S3State := unit; s3_put := λ _ _ _ c, (c, None); s3_get := λ _ _ _, ok "" |}.
#[local] Instance wd_catalog : CatalogDB := {|
  CD := unit; cd_save := λ _ d, (d, None); cd_get := λ _ _, ok None; cd_get_many := λ _ _, ok [];
  cd_delete := λ _ d, (d, None); cd_count := λ _ _, ok 0%Z; cd_page := λ _ _ _ _, ok []; cd_all := λ _, ok []
|}.
#[local] Instance wd_vectors : VectorDB := {|
  VD := unit; vd_upsert := λ _ d, (d, None); vd_rows := λ _ _ _, ok []; vd_delete := λ _ d, (d, None)
|}.

Definition wd_cfg : PipelineConfig := mkPipelineConfig 2 1 0.
Definition wd_llm : LLM := mkLLM (SimpleSummarize 3 "m") (λ _, SimpleEmbed "m").
Definition wd_ac : APIAccessContext := zeroval.
Definition wd_input : SaveInput := mkSaveInput "st" "T" "one two three" "" "" [] "" "" "api".
Definition wd_s0 : KState DocStore VecStore InMemoryJobStore :=
  k_empty (w_store None) (mkBlobStore _ ∅ None "" "") (tt : @CD wd_catalog) (tt : @VD wd_vectors).
Definition wd_save (s : KState DocStore VecStore InMemoryJobStore) :=
  let _ := InMemory_JobStore (λ s, s) in
  KSave (λ _, None) wd_cfg "" (λ _, w_env) w_env s w_principal wd_ac wd_input.
Definition wd_apply := k_apply (λ s, s) (λ r, r) (λ _, None) wd_cfg "" None.
Definition wd_saved := wd_apply (OpSave (λ _, w_env) w_env w_principal wd_ac wd_input) wd_s0.
Definition wd_indexed := wd_apply (OpWork w_env wd_llm) wd_saved.
Definition wd_run := k_run (λ s, s) (λ r, r) (λ _, None) wd_cfg "" None wd_s0.

Lemma wd_fresh : fresh_doc wd_s0.(k_docs) (uuid w_env 0).
Proof. intros i j Hj. exfalso. exact (lookup_empty_Some i j Hj). Qed.
Lemma wd_run_saved : wd_run wd_saved.
Proof.
  apply (k_run_step _ _ _ _ _ _ _ wd_s0 (OpSave (λ _, w_env) w_env w_principal wd_ac wd_input)); [constructor|exact wd_fresh].
Qed.
Lemma wd_run_indexed : wd_run wd_indexed.
Proof. apply (k_run_step _ _ _ _ _ _ _ wd_saved (OpWork w_env wd_llm)); [exact wd_run_saved|done]. Qed.

(** One saved document is indexed. *)
Lemma index_settles_witness :
  ∃ st' : PState DocStore VecStore InMemoryJobStore,
    (let _ := InMemory_JobStore (λ s, s) in
     ProcessUntilIdle (λ s, s) wd_cfg 4 (λ _, mkTurn w_env wd_llm None) wd_saved.(k_docs)) = Some (st', None)
    ∧ ∀ id j, st'.(p_jobs).(im_jobs) !! id = Some j → active j = false.
Proof.
  destruct (index_settles (λ s, s) (λ r, r) (λ _, None) wd_cfg "" None (w_store None) (mkBlobStore _ ∅ None "" "")
    (tt : @CD wd_catalog) (tt : @VD wd_vectors) wd_saved (λ _, mkTurn w_env wd_llm None) wd_run_saved) as (st' & Hp & _ & _ & Hj).
  - reflexivity.
  - exists st'. split; [|exact Hj].
    assert (Hfuel : remaining wd_saved.(k_docs).(p_jobs).(im_jobs) = 3) by (vm_compute; reflexivity).
    rewrite Hfuel in Hp. exact Hp.
Defined.

Definition wd_search : option (ret (list SearchHit)) :=
  KSearch (λ r, r) w_env wd_llm wd_indexed w_principal wd_ac (mkSearchRequest "two" 1 zeroval) false.

(** Its author finds it. *)
Lemma search_hits_readable_witness :
  ∃ h d, wd_search = Some (ok [h]) ∧ h.(SearchHit_Snippet) = "one two"
    ∧ KGet wd_indexed w_principal wd_ac h.(SearchHit_DocID) = ok d ∧ h.(SearchHit_Title) = d.(DocumentRecord_Title).
Proof.
  assert (Hs : ∃ h, wd_search = Some (ok [h]) ∧ h.(SearchHit_Snippet) = "one two")
    by (eexists; split; vm_compute; reflexivity).
  destruct Hs as (h & Hs & Hsn).
  destruct (search_hits_readable (λ s, s) (λ r, r) (λ _, None) wd_cfg "" None (w_store None) (mkBlobStore _ ∅ None "" "")
    (tt : @CD wd_catalog) (tt : @VD wd_vectors) wd_indexed w_env wd_llm w_principal wd_ac
    (mkSearchRequest "two" 1 zeroval) false [h] h wd_run_indexed Hs) as (d & Hd & _ & Ht & _).
  - constructor.
  - exists h, d. split; [exact Hs|]. split; [exact Hsn|]. split; [exact Hd|exact Ht].
Defined.

Definition wd_page : PageRequest := zeroval.


(** The save that makes it. *)
Lemma saved_document_readable_witness :
  ∃ d, (wd_save wd_s0).2 = ok d ∧ KGet (wd_save wd_s0).1 w_principal wd_ac d.(DocumentRecord_DocID) = ok d
    ∧ d.(DocumentRecord_Body) = "one two three".
Proof.
  assert (Hs : ∃ d, wd_save wd_s0 = ((wd_save wd_s0).1, ok d)) by (eexists; vm_compute; reflexivity).
  destruct Hs as [d Hs]. exists d. split; [exact (f_equal snd Hs)|].
  destruct (saved_document_readable (λ s, s) (λ r, r) (λ _, None) wd_cfg "" None (w_store None) (mkBlobStore _ ∅ None "" "")
    (tt : @CD wd_catalog) (tt : @VD wd_vectors) wd_s0 (λ _, w_env) w_env w_principal wd_ac wd_input (wd_save wd_s0).1 d)
    as (Hget & Hbody & _).
  - constructor.
  - discriminate.
  - exact I.
  - exact wd_fresh.
  - exact Hs.
  - split; [exact Hget|exact Hbody].
Defined.
End Witnesses.
