(* ===== verification/ProxyStore.v ===== *)
(** [internal/mcpproxy/store.go] and [internal/secrets/cipher.go]: the
    upstream MCP servers, who may use them, their encrypted credentials, what
    was discovered on them and the server scopes of access tokens.

    Parameters: Postgres ([ProxyDB]), AES-GCM ([AEAD]), the decoders of
    [encoding/base64] and [encoding/hex], JSON decoding of the extra headers. *)
From S2P Require Import Prelude GoStrings Models DataObj AccessState Proxy.
From Stdlib Require Import Ascii.

(** ** secrets/cipher.go *)

(** [seal key nonce plaintext] and [open key nonce ciphertext]. *)
Class AEAD := { gcm_seal : string → string → string → string; gcm_open : string → string → string → option string }.

Definition ErrInvalidKey : error := Sentinel "secrets" "secrets key must be 32 bytes".
Definition ErrCipherNotSet : error := Sentinel "secrets" "secrets cipher is not configured".

Section Cipher.
Context `{AEAD}.
(** A cipher is its key; [None] is the nil pointer. *)
Abbreviation Cipher := (option string).

Definition decodeKey (b64std b64rawstd hex : string → option string) (material : string) : string + error :=
  let material := TrimSpace material in
  if material =s "" then inr ErrCipherNotSet
  else
    let is_key o := match o with Some raw => (slen raw =? 32)%Z | None => false end in
    if is_key (b64std material) then inl (default "" (b64std material))
    else if is_key (b64rawstd material) then inl (default "" (b64rawstd material))
    else if is_key (hex material) then inl (default "" (hex material))
    else if (slen material =? 32)%Z then inl material
    else inr ErrInvalidKey.

Definition NewCipher (b64std b64rawstd hex : string → option string) (material : string) : ret Cipher :=
  match decodeKey b64std b64rawstd hex material with
  | inr err => fails None err
  | inl key => ok (Some key)
  end.

(** [nonce]: what the random source gives. *)
Definition Encrypt (c : Cipher) (nonce : option string) (plaintext : string) : ret (string * string) :=
  match c with
  | None => fails ("", "") ErrCipherNotSet
  | Some key =>
      if plaintext =s "" then ok ("", "")
      else match nonce with
      | None => fails ("", "") (Wrapped "nonce" (NewError "read"))
      | Some nonce => ok (gcm_seal key nonce plaintext, nonce)
      end
  end.

Definition Decrypt (c : Cipher) (ciphertext nonce : string) : ret string :=
  match c with
  | None => fails "" ErrCipherNotSet
  | Some key =>
      if ciphertext =s "" then ok ""
      else match gcm_open key nonce ciphertext with
      | None => fails "" (Wrapped "decrypt" (NewError "message authentication failed"))
      | Some raw => ok raw
      end
  end.
End Cipher.

(** ** Data *)

Record secretRow := mkSecretRow { sec_encrypted : string; sec_nonce : string }.
#[export] Instance zero_secretRow : Zero secretRow := mkSecretRow "" "".

Record CreateServerInput := mkCreateServerInput {
  CS_Slug : string;
  CS_Name : string;
  CS_OwnerSubjectKey : string;
  CS_Transport : MCPTransportKind;
  CS_URL : string;
  CS_HeadersJSON : string;
  CS_AuthType : MCPAuthType;
  CS_AuthHeaderName : string;
  CS_AuthSecret : string
}.

Record UpdateServerInput := mkUpdateServerInput {
  US_Name : option string;
  US_Transport : option MCPTransportKind;
  US_URL : option string;
  US_HeadersJSON : option string;
  US_AuthType : option MCPAuthType;
  US_AuthHeaderName : option string;
  US_AuthSecret : option string;
  US_ClearAuthSecret : bool
}.

(** The statements the store sends. *)
Inductive proxy_stmt :=
| InsertServer (srv : MCPServer) (sec : secretRow)
| InsertOwner (b : MCPServerACLBinding)
| UpdateServerRow (id : string) (srv : MCPServer) (sec : secretRow)
| ClearSecretRow (id : string) (t : Time)
| DeleteServerRows (id : string)
| SetStatusRow (id : string) (status : MCPServerStatus) (lastErr : string) (connectedAt : option Time) (t : Time)
| UpsertBinding (b : MCPServerACLBinding)
| DeleteTools (serverID : string)
| DeleteResources (serverID : string)
| DeletePrompts (serverID : string)
| InsertTool (t : MCPServerTool)
| InsertResource (r : MCPServerResource)
| InsertPrompt (p : MCPServerPrompt)
| DisableTools (serverID : string)
| EnableTools (serverID : string) (names : list string)
| DisableResources (serverID : string)
| EnableResources (serverID : string) (uris : list string)
| DisablePrompts (serverID : string)
| EnablePrompts (serverID : string) (names : list string)
| DeleteTokenScopes (tokenID : string)
| InsertTokenScope (scope : AccessTokenMCPServer).

Class ProxyDB := {
  PD : Type;
  pd_exec : proxy_stmt → PD → PD * option error;
  pd_begin : PD → option error;
  pd_commit : PD → option error;
  pd_servers : PD → ret (list MCPServer);
  pd_server : string → PD → ret MCPServer;
  pd_server_by_slug : string → PD → ret MCPServer;
  pd_acl_server : string → PD → ret (list MCPServerACLBinding);
  pd_acl_subjects : list string → PD → ret (list MCPServerACLBinding);
  pd_tools : string → PD → ret (list MCPServerTool);
  pd_resources : string → PD → ret (list MCPServerResource);
  pd_prompts : string → PD → ret (list MCPServerPrompt);
  pd_token_scopes : string → PD → ret (list AccessTokenMCPServer);
  pd_secret : string → PD → ret secretRow
}.

Record ProxyStore `{ProxyDB} := mkProxyStore {
  px_servers : gmap string MCPServer;
  px_acl : gmap string MCPServerACLBinding;
  px_tools : list MCPServerTool;
  px_resources : list MCPServerResource;
  px_prompts : list MCPServerPrompt;
  px_secrets : gmap string secretRow;
  px_tokenScopes : list AccessTokenMCPServer;
  px_db : PD;
  px_useDB : bool;
  px_cipher : option string
}.
#[export] Instance settable_ProxyStore `{ProxyDB} : Settable ProxyStore := λ s,
  mkProxyStore _ s.(px_servers) s.(px_acl) s.(px_tools) s.(px_resources) s.(px_prompts) s.(px_secrets) s.(px_tokenScopes)
    s.(px_db) s.(px_useDB) s.(px_cipher).

Definition errServerNotFound : error := NewError "mcp server not found".

Definition defaultAuthHeader (auth : MCPAuthType) : string :=
  if auth =s MCPAuthTypeAPIKey then "X-API-Key" else "Authorization".

(** Discovered capabilities keep the flag of the known ones of the same name. *)
Definition keepEnabled {A} (key : A → string) (enabled : A → bool) (set_enabled : bool → A → A)
    (existing new : list A) : list A :=
  let flags : gmap string bool := foldl (λ m x, <[key x := enabled x]> m) ∅ existing in
  map (λ x, match flags !! key x with Some v => set_enabled v x | None => x end) new.

(** The flag of each capability of the server says whether it is listed. *)
Definition setEnabled {A} (server key : A → string) (set_enabled : bool → A → A) (serverID : string) (names : list string)
    (l : list A) : list A :=
  let listed_ : gset string := list_to_set names in
  map (λ x, if server x =s serverID then set_enabled (bool_decide (key x ∈ listed_)) x else x) l.

Definition tool_flag (v : bool) (t : MCPServerTool) : MCPServerTool := t <| MCPServerTool_Enabled := v |>.
Definition resource_flag (v : bool) (r : MCPServerResource) : MCPServerResource := r <| MCPServerResource_Enabled := v |>.
Definition prompt_flag (v : bool) (p : MCPServerPrompt) : MCPServerPrompt := p <| MCPServerPrompt_Enabled := v |>.

Section Store.
Context `{ProxyDB, AEAD, GoRange}.
Context (unicode_lower : Z → Z) (headers_decode : string → option (gmap string string)).
Implicit Types (s : ProxyStore) (e : Env).

Definition NewProxyStore (cipher : option string) (d : PD) : ProxyStore :=
  mkProxyStore _ ∅ ∅ [] [] [] ∅ [] d false cipher.
Definition NewProxyStoreWithPool (cipher : option string) (d : PD) : ProxyStore :=
  (NewProxyStore cipher d) <| px_useDB := true |>.

Definition px_exec s (q : proxy_stmt) : ProxyStore * option error :=
  let '(d, err) := pd_exec q s.(px_db) in (s <| px_db := d |>, err).

(** Statements in order, up to the first error. *)
Fixpoint px_execs s (qs : list proxy_stmt) : ProxyStore * option error :=
  match qs with
  | [] => (s, None)
  | q :: qs' => match px_exec s q with (s, Some err) => (s, Some err) | (s, None) => px_execs s qs' end
  end.

(** The same in a transaction. *)
Definition px_tx s (qs : list proxy_stmt) : ProxyStore * option error :=
  match pd_begin s.(px_db) with
  | Some err => (s, Some err)
  | None =>
      match px_execs s qs with
      | (_, Some err) => (s, Some err)
      | (s', None) => match pd_commit s'.(px_db) with Some err => (s, Some err) | None => (s', None) end
      end
  end.

Definition hasSecret s (id : string) : bool :=
  match s.(px_secrets) !! id with Some row => (0 <? slen row.(sec_encrypted))%Z | None => false end.

Definition withSecretFlag s (id : string) (srv : MCPServer) : MCPServer :=
  if hasSecret s id then srv <| MCPServer_HasAuthSecret := true |> else srv.

Definition ListServers s : ret (list MCPServer) :=
  if s.(px_useDB) then pd_servers s.(px_db)
  else ok (map (λ srv, withSecretFlag s srv.(MCPServer_ID) srv) (range_vals s.(px_servers))).

Definition GetServer s (id : string) : ret MCPServer :=
  if s.(px_useDB) then pd_server id s.(px_db)
  else match s.(px_servers) !! id with
  | None => fails zeroval errServerNotFound
  | Some srv => ok (withSecretFlag s id srv)
  end.

Definition GetServerBySlug s (slug : string) : ret MCPServer :=
  if s.(px_useDB) then pd_server_by_slug slug s.(px_db)
  else match List.find (λ srv, srv.(MCPServer_Slug) =s slug) (range_vals s.(px_servers)) with
  | Some srv => ok srv
  | None => fails zeroval errServerNotFound
  end.

(** The loop over candidates, [n] more of them. *)
Fixpoint slugCandidate e s (base candidate : string) (n : nat) : string :=
  match n with
  | 0 => base +:+ "-" +:+ take_bytes 8 (uuid e 0)
  | S n' =>
      match GetServerBySlug s candidate with
      | (_, Some _) => candidate
      | (_, None) => slugCandidate (later 1 e) s base (base +:+ "-" +:+ take_bytes 6 (uuid e 0)) n'
      end
  end.

Definition deriveServerSlug e s (name : string) : string :=
  let base := Slugify unicode_lower name in
  let base := if base =s "" then "mcp" else base in
  slugCandidate e s base base 50.

Definition encryptSecret e s (plain : string) : ret secretRow :=
  if (plain =s "") || bool_decide (s.(px_cipher) = None) then ok zeroval
  else let '((enc, nonce), err) := Encrypt s.(px_cipher) (rnd e 0) plain in (mkSecretRow enc nonce, err).

Definition loadSecretRow s (serverID : string) : ret secretRow :=
  if s.(px_useDB) then pd_secret serverID s.(px_db) else ok (get0 s.(px_secrets) serverID).

(** The server an input describes, under its identifier and slug. *)
Definition newServer (t : Time) (id slug : string) (inp : CreateServerInput) : MCPServer :=
  let auth := if inp.(CS_AuthType) =s "" then MCPAuthTypeBearer else inp.(CS_AuthType) in
  mkMCPServer id slug (if inp.(CS_Name) =s "" then slug else inp.(CS_Name)) inp.(CS_OwnerSubjectKey)
    (if inp.(CS_Transport) =s "" then MCPTransportAuto else inp.(CS_Transport)) inp.(CS_URL)
    (if inp.(CS_HeadersJSON) =s "" then "{}" else inp.(CS_HeadersJSON)) auth
    (if inp.(CS_AuthHeaderName) =s "" then defaultAuthHeader auth else inp.(CS_AuthHeaderName))
    false MCPServerStatusActive None "" t t.

(** The identifiers come after the 51 the slug may draw. *)
Definition CreateServer e s (inp : CreateServerInput) : ProxyStore * ret MCPServer :=
  if inp.(CS_URL) =s "" then (s, fails zeroval (NewError "url is required"))
  else
    let slug := if inp.(CS_Slug) =s "" then deriveServerSlug e s inp.(CS_Name) else inp.(CS_Slug) in
    let srv := newServer (now e 0) (uuid e 51) slug inp in
    match encryptSecret e s inp.(CS_AuthSecret) with
    | (_, Some err) => (s, fails zeroval err)
    | (sec, None) =>
        let srv := srv <| MCPServer_HasAuthSecret := (0 <? slen sec.(sec_encrypted))%Z |> in
        let owner := mkMCPServerACLBinding (uuid e 52) srv.(MCPServer_ID) srv.(MCPServer_OwnerSubjectKey) RoleMCPServerOwner
                       srv.(MCPServer_OwnerSubjectKey) None (now e 0) in
        if s.(px_useDB) then
          match px_exec s (InsertServer srv sec) with
          | (s, Some err) => (s, fails zeroval err)
          | (s, None) => let '(s, err) := px_exec s (InsertOwner owner) in (s, (srv, err))
          end
        else
          let s := s <| px_servers := <[srv.(MCPServer_ID) := srv]> s.(px_servers) |> in
          let s := if (0 <? slen sec.(sec_encrypted))%Z
                   then s <| px_secrets := <[srv.(MCPServer_ID) := sec]> s.(px_secrets) |> else s in
          (s <| px_acl := <[owner.(MCPServerACLBinding_ID) := owner]> s.(px_acl) |>, ok srv)
    end.

Definition secretForUpdate e s (id : string) (inp : UpdateServerInput) : ret (secretRow * bool) :=
  if inp.(US_ClearAuthSecret) then ok (zeroval, false)
  else match inp.(US_AuthSecret) with
  | Some secret =>
      if secret <>s "" then
        let '(sec, err) := encryptSecret e s secret in ((sec, (0 <? slen sec.(sec_encrypted))%Z), err)
      else
        match loadSecretRow s id with
        | (_, Some err) => fails (zeroval, false) err
        | (row, None) => ok (row, (0 <? slen row.(sec_encrypted))%Z)
        end
  | None =>
      match loadSecretRow s id with
      | (_, Some err) => fails (zeroval, false) err
      | (row, None) => ok (row, (0 <? slen row.(sec_encrypted))%Z)
      end
  end.

(** The fields the input sets. *)
Definition updatedServer (t : Time) (srv : MCPServer) (inp : UpdateServerInput) : MCPServer :=
  srv <| MCPServer_Name := default srv.(MCPServer_Name) inp.(US_Name) |>
      <| MCPServer_Transport := default srv.(MCPServer_Transport) inp.(US_Transport) |>
      <| MCPServer_URL := default srv.(MCPServer_URL) inp.(US_URL) |>
      <| MCPServer_HeadersJSON := default srv.(MCPServer_HeadersJSON) inp.(US_HeadersJSON) |>
      <| MCPServer_AuthType := default srv.(MCPServer_AuthType) inp.(US_AuthType) |>
      <| MCPServer_AuthHeaderName := default srv.(MCPServer_AuthHeaderName) inp.(US_AuthHeaderName) |>
      <| MCPServer_UpdatedAt := t |>.

Definition UpdateServer e s (id : string) (inp : UpdateServerInput) : ProxyStore * ret MCPServer :=
  match GetServer s id with
  | (_, Some err) => (s, fails zeroval err)
  | (srv, None) =>
      let srv := updatedServer (now e 0) srv inp in
      match secretForUpdate e s id inp with
      | (_, Some err) => (s, fails zeroval err)
      | ((sec, has), None) =>
          let srv := srv <| MCPServer_HasAuthSecret := has |> in
          if s.(px_useDB) then let '(s, err) := px_exec s (UpdateServerRow id srv sec) in (s, (srv, err))
          else
            let s := s <| px_servers := <[id := srv]> s.(px_servers) |> in
            let s := if inp.(US_ClearAuthSecret) then s <| px_secrets := delete id s.(px_secrets) |>
                     else if match inp.(US_AuthSecret) with Some v => v <>s "" | None => false end
                     then s <| px_secrets := <[id := sec]> s.(px_secrets) |> else s in
            (s, ok srv)
      end
  end.

Definition ClearAuthSecret e s (id : string) : ProxyStore * option error :=
  if s.(px_useDB) then px_exec s (ClearSecretRow id (now e 0))
  else
    let s := s <| px_secrets := delete id s.(px_secrets) |> in
    match s.(px_servers) !! id with
    | Some srv => (s <| px_servers := <[id := srv <| MCPServer_HasAuthSecret := false |>]> s.(px_servers) |>, None)
    | None => (s, None)
    end.

(** [filterToolsByServerID] and the like. *)
Definition notOfServer {A} (server : A → string) (serverID : string) (l : list A) : list A :=
  List.filter (λ v, server v <>s serverID) l.

Definition DeleteServer s (id : string) : ProxyStore * option error :=
  if s.(px_useDB) then px_exec s (DeleteServerRows id)
  else
    (s <| px_servers := delete id s.(px_servers) |> <| px_secrets := delete id s.(px_secrets) |>
       <| px_acl := delete_if (λ b, b.(MCPServerACLBinding_ServerID) =s id) s.(px_acl) |>
       <| px_tools := notOfServer MCPServerTool_ServerID id s.(px_tools) |>
       <| px_resources := notOfServer MCPServerResource_ServerID id s.(px_resources) |>
       <| px_prompts := notOfServer MCPServerPrompt_ServerID id s.(px_prompts) |>, None).

Definition SetServerStatus e s (id : string) (status : MCPServerStatus) (lastErr : string) (connected : bool)
    : ProxyStore * option error :=
  let connectedAt := if connected then Some (now e 0) else None in
  if s.(px_useDB) then px_exec s (SetStatusRow id status lastErr connectedAt (now e 0))
  else match s.(px_servers) !! id with
  | None => (s, Some errServerNotFound)
  | Some srv =>
      (s <| px_servers := <[id := srv <| MCPServer_Status := status |> <| MCPServer_LastError := lastErr |>
                                      <| MCPServer_LastConnectedAt := connectedAt |> <| MCPServer_UpdatedAt := now e 0 |>]>
                          s.(px_servers) |>, None)
  end.

Definition UpsertServerACL e s (b : MCPServerACLBinding) : ProxyStore * ret MCPServerACLBinding :=
  let b := if b.(MCPServerACLBinding_ID) =s "" then b <| MCPServerACLBinding_ID := uuid e 0 |> else b in
  let b := if IsZero b.(MCPServerACLBinding_CreatedAt) then b <| MCPServerACLBinding_CreatedAt := now e 0 |> else b in
  if s.(px_useDB) then let '(s, err) := px_exec s (UpsertBinding b) in (s, (b, err))
  else (s <| px_acl := <[b.(MCPServerACLBinding_ID) := b]> s.(px_acl) |>, ok b).

Definition ACLForServer s (serverID : string) : ret (list MCPServerACLBinding) :=
  if s.(px_useDB) then pd_acl_server serverID s.(px_db)
  else ok (List.filter (λ b, b.(MCPServerACLBinding_ServerID) =s serverID) (range_vals s.(px_acl))).

Definition ServerACLForSubject s (subjectKeys : list string) : ret (list MCPServerACLBinding) :=
  if bool_decide (subjectKeys = []) then ok []
  else if s.(px_useDB) then pd_acl_subjects subjectKeys s.(px_db)
  else
    let keys : gset string := list_to_set subjectKeys in
    ok (List.filter (λ b, bool_decide (b.(MCPServerACLBinding_SubjectKey) ∈ keys)) (range_vals s.(px_acl))).

Definition ListTools s (serverID : string) : ret (list MCPServerTool) :=
  if s.(px_useDB) then pd_tools serverID s.(px_db)
  else ok (List.filter (λ t, t.(MCPServerTool_ServerID) =s serverID) s.(px_tools)).
Definition ListResources s (serverID : string) : ret (list MCPServerResource) :=
  if s.(px_useDB) then pd_resources serverID s.(px_db)
  else ok (List.filter (λ r, r.(MCPServerResource_ServerID) =s serverID) s.(px_resources)).
Definition ListPrompts s (serverID : string) : ret (list MCPServerPrompt) :=
  if s.(px_useDB) then pd_prompts serverID s.(px_db)
  else ok (List.filter (λ p, p.(MCPServerPrompt_ServerID) =s serverID) s.(px_prompts)).

Definition UpsertDiscovery s (serverID : string) (tools : list MCPServerTool) (resources : list MCPServerResource)
    (prompts : list MCPServerPrompt) : ProxyStore * option error :=
  let tools := keepEnabled MCPServerTool_ToolName MCPServerTool_Enabled tool_flag (ListTools s serverID).1 tools in
  let resources := keepEnabled MCPServerResource_URI MCPServerResource_Enabled resource_flag (ListResources s serverID).1 resources in
  let prompts := keepEnabled MCPServerPrompt_PromptName MCPServerPrompt_Enabled prompt_flag (ListPrompts s serverID).1 prompts in
  if s.(px_useDB) then
    px_tx s ([DeleteTools serverID; DeleteResources serverID; DeletePrompts serverID]
             ++ map InsertTool tools ++ map InsertResource resources ++ map InsertPrompt prompts)
  else
    (s <| px_tools := notOfServer MCPServerTool_ServerID serverID s.(px_tools) ++ tools |>
       <| px_resources := notOfServer MCPServerResource_ServerID serverID s.(px_resources) ++ resources |>
       <| px_prompts := notOfServer MCPServerPrompt_ServerID serverID s.(px_prompts) ++ prompts |>, None).

Definition SetEnabledCapabilities s (serverID : string) (tools resources prompts : list string) : ProxyStore * option error :=
  if s.(px_useDB) then
    px_execs s ([DisableTools serverID] ++ (if bool_decide (tools = []) then [] else [EnableTools serverID tools])
      ++ [DisableResources serverID] ++ (if bool_decide (resources = []) then [] else [EnableResources serverID resources])
      ++ [DisablePrompts serverID] ++ (if bool_decide (prompts = []) then [] else [EnablePrompts serverID prompts]))
  else
    (s <| px_tools := setEnabled MCPServerTool_ServerID MCPServerTool_ToolName tool_flag serverID tools s.(px_tools) |>
       <| px_resources := setEnabled MCPServerResource_ServerID MCPServerResource_URI resource_flag serverID resources s.(px_resources) |>
       <| px_prompts := setEnabled MCPServerPrompt_ServerID MCPServerPrompt_PromptName prompt_flag serverID prompts s.(px_prompts) |>, None).

Definition GetCapabilities s (serverID : string) : ret MCPServerCapabilities :=
  match GetServer s serverID with
  | (_, Some err) => fails zeroval err
  | (srv, None) =>
      match ListTools s serverID, ListResources s serverID, ListPrompts s serverID with
      | (_, Some err), _, _ => fails zeroval err
      | (_, None), (_, Some err), _ => fails zeroval err
      | (_, None), (_, None), (_, Some err) => fails zeroval err
      | (tools, None), (resources, None), (prompts, None) => ok (mkMCPServerCapabilities srv tools resources prompts)
      end
  end.

Definition TokenMCPServers s (tokenID : string) : ret (list AccessTokenMCPServer) :=
  if s.(px_useDB) then pd_token_scopes tokenID s.(px_db)
  else ok (List.filter (λ sc, sc.(AccessTokenMCPServer_TokenID) =s tokenID) s.(px_tokenScopes)).

Definition completeMCPScope (t : Time) (tokenID : string) (sc : AccessTokenMCPServer) : AccessTokenMCPServer :=
  let sc := sc <| AccessTokenMCPServer_TokenID := tokenID |> in
  if IsZero sc.(AccessTokenMCPServer_CreatedAt) then sc <| AccessTokenMCPServer_CreatedAt := t |> else sc.

Definition ReplaceTokenMCPServers e s (tokenID : string) (scopes : list AccessTokenMCPServer) : ProxyStore * option error :=
  let scopes := map (completeMCPScope (now e 0) tokenID) scopes in
  if s.(px_useDB) then px_tx s (DeleteTokenScopes tokenID :: map InsertTokenScope scopes)
  else (s <| px_tokenScopes :=
    List.filter (λ sc, sc.(AccessTokenMCPServer_TokenID) <>s tokenID) s.(px_tokenScopes) ++ scopes |>, None).

Definition AuthHeaders s (srv : MCPServer) : ret (gmap string string) :=
  let headers : gmap string string :=
    if srv.(MCPServer_HeadersJSON) <>s "" then default ∅ (headers_decode srv.(MCPServer_HeadersJSON)) else ∅ in
  match loadSecretRow s srv.(MCPServer_ID) with
  | (_, Some err) => fails headers err
  | (row, None) =>
      match Decrypt s.(px_cipher) row.(sec_encrypted) row.(sec_nonce) with
      | (_, Some err) => fails headers err
      | (secret, None) =>
          if secret =s "" then ok headers
          else if (srv.(MCPServer_AuthType) =s MCPAuthTypeAPIKey) || (srv.(MCPServer_AuthType) =s MCPAuthTypeCustomHeader)
          then ok (<[srv.(MCPServer_AuthHeaderName) := secret]> headers)
          else if HasPrefix (ToLower unicode_lower secret) "bearer "
          then ok (<[srv.(MCPServer_AuthHeaderName) := secret]> headers)
          else ok (<[srv.(MCPServer_AuthHeaderName) := "Bearer " +:+ secret]> headers)
      end
  end.

(** The store behind the access rules of [Proxy]. *)
#[export] Instance ProxyStore_MCPServerStore : MCPServerStore ProxyStore := {|
  ms_ACLForSubject := ServerACLForSubject; ms_ListServers := ListServers
|}.
End Store.
