(* ===== verification/ProxyManager.v ===== *)
(** [internal/mcpproxy/client.go] and [internal/mcpproxy/manager.go]: calls to
    upstream MCP servers, their sessions, and what of them a caller sees and
    may call.

    Also [internal/mcpdesc]: the descriptor of a tool.

    Parameters: the network ([Upstream]), JSON encoding and decoding. *)
From S2P Require Import Prelude GoStrings Models DataObj AccessState Proxy ProxyStore.
From Stdlib Require Import Ascii.

(** ** client.go *)

Record HTTPRequest := mkHTTPRequest {
  rq_url : string;
  rq_headers : list (string * string);
  rq_body : string;
  rq_timeout : Duration;             (* of the client *)
  rq_deadline : option Duration      (* of the context *)
}.

Record HTTPResponse := mkHTTPResponse { rs_status : Z; rs_session : string; rs_body : string }.

(** An exchange, up to and including the reading of the body. *)
Class Upstream := { UW : Type; http_do : HTTPRequest → UW → UW * ret HTTPResponse }.

Record RPCResponse := mkRPCResponse { rpc_error : option string; rpc_result : string }.

Record Client := mkClient {
  cl_url : string;
  cl_headers : gmap string string;
  cl_timeout : Duration;
  cl_sessionID : string;
  cl_reqID : Z;
  cl_createdAt : Time
}.
#[export] Instance settable_Client : Settable Client := λ c,
  mkClient c.(cl_url) c.(cl_headers) c.(cl_timeout) c.(cl_sessionID) c.(cl_reqID) c.(cl_createdAt).

Definition newUpstreamClient (t : Time) (url : string) (headers : gmap string string) (timeout : Duration) : Client :=
  mkClient url headers timeout "" 0 t.

Definition setSessionID (c : Client) (id : string) : Client :=
  if id =s "" then c else c <| cl_sessionID := id |>.

(** A member of an object, [ANil] when it is missing; type assertions. *)
Definition member (k : string) (o : list (string * Any)) : Any :=
  match List.find (λ kv, kv.1 =s k) o with Some kv => kv.2 | None => ANil end.
Definition has_member (k : string) (o : list (string * Any)) : bool := existsb (λ kv, kv.1 =s k) o.
Definition as_array (v : Any) : list Any := match v with AArray l => l | _ => [] end.
Definition as_object (v : Any) : option (list (string * Any)) := match v with AObject o => Some o | _ => None end.

Section Client.
Context `{Upstream, GoRange}.
Context (json_marshal : Any → option string) (request_ok : string → bool).
Context (rpc_decode : string → RPCResponse + error) (object_decode : string → list (string * Any) + error).
Implicit Types (c : Client) (w : UW).

Definition errMarshal : error := NewError "json: unsupported value".
Definition errRequest : error := NewError "net/http: invalid request".

(** [id = 0] and absent parameters are left out of the request. *)
Definition rpcBody (id : Z) (method : string) (params : option Any) : Any :=
  AObject ([("jsonrpc", AString "2.0")] ++ (if (id =? 0)%Z then [] else [("id", AInt id)])
    ++ [("method", AString method)] ++ match params with Some p => [("params", p)] | None => [] end).

(** [post]; [want] is whether a result is decoded. *)
Definition post (deadline : option Duration) c w (body : Any) (want : bool) : Client * UW * ret (list (string * Any)) :=
  match json_marshal body with
  | None => (c, w, fails [] errMarshal)
  | Some raw =>
      if negb (request_ok c.(cl_url)) then (c, w, fails [] errRequest)
      else
        let headers := [("Content-Type", "application/json"); ("Accept", "application/json, text/event-stream")]
          ++ range_map c.(cl_headers)
          ++ (if c.(cl_sessionID) =s "" then [] else [("Mcp-Session-Id", c.(cl_sessionID))]) in
        match http_do (mkHTTPRequest c.(cl_url) headers raw c.(cl_timeout) deadline) w with
        | (w, (_, Some err)) => (c, w, fails [] err)
        | (w, (resp, None)) =>
            if (400 <=? resp.(rs_status))%Z
            then (c, w, fails [] (NewError ("upstream http " +:+ pretty resp.(rs_status) +:+ ": " +:+ resp.(rs_body))))
            else
              let c := setSessionID c resp.(rs_session) in
              if negb want || (resp.(rs_body) =s "") then (c, w, ok [])
              else match rpc_decode resp.(rs_body) with
              | inr err => (c, w, fails [] (Wrapped "decode upstream response" err))
              | inl r =>
                  match r.(rpc_error) with
                  | Some msg => (c, w, fails [] (NewError (if msg =s "" then "upstream error" else msg)))
                  | None =>
                      if r.(rpc_result) =s "" then (c, w, ok [])
                      else match object_decode r.(rpc_result) with
                      | inr err => (c, w, fails [] (Wrapped "decode upstream result" err))
                      | inl o => (c, w, ok o)
                      end
                  end
              end
        end
  end.

Definition call (deadline : option Duration) c w (method : string) (params : option Any) : Client * UW * ret (list (string * Any)) :=
  let c := c <| cl_reqID := (c.(cl_reqID) + 1)%Z |> in
  post deadline c w (rpcBody c.(cl_reqID) method params) true.

Definition initialize c w : Client * UW * option error :=
  match call None c w "initialize" (Some (AObject
    [("protocolVersion", AString "2024-11-05"); ("capabilities", AObject []);
     ("clientInfo", AObject [("name", AString "syna-mcp-proxy"); ("version", AString "0.1.0")])])) with
  | (c, w, (_, Some err)) => (c, w, Some err)
  | (c, w, (result, None)) =>
      let c := setSessionID c (AsString (member "sessionId" result)) in
      let '(c, w, _) := post None c w (rpcBody 0 "notifications/initialized" None) false in
      (c, w, None)
  end.

Definition json_or_empty (o : list (string * Any)) (k : string) : string :=
  if has_member k o then default "" (json_marshal (member k o)) else "".

Definition toolOf (serverID : string) (t : Time) (item : Any) : option MCPServerTool :=
  m ← as_object item;
  let name := AsString (member "name" m) in
  if name =s "" then None
  else Some (mkMCPServerTool serverID name (AsString (member "description" m)) (json_or_empty m "inputSchema") false t).

Definition resourceOf (serverID : string) (t : Time) (item : Any) : option MCPServerResource :=
  m ← as_object item;
  let uri := AsString (member "uri" m) in
  if uri =s "" then None
  else Some (mkMCPServerResource serverID uri (AsString (member "name" m)) (AsString (member "mimeType" m))
               (AsString (member "description" m)) false t).

Definition promptOf (serverID : string) (t : Time) (item : Any) : option MCPServerPrompt :=
  m ← as_object item;
  let name := AsString (member "name" m) in
  if name =s "" then None
  else Some (mkMCPServerPrompt serverID name (AsString (member "description" m)) (json_or_empty m "arguments") false t).

(** [listTools], [listResources] and [listPrompts]. *)
Definition listOf {A} (method key : string) (of_item : Any → option A) c w : Client * UW * ret (list A) :=
  match call None c w method None with
  | (c, w, (_, Some err)) => (c, w, fails [] err)
  | (c, w, (result, None)) => (c, w, ok (omap of_item (as_array (member key result))))
  end.

(** Of a listing that fails nothing is taken. *)
Definition discover c w (serverID : string) (t : Time)
    : Client * UW * ret (list MCPServerTool * list MCPServerResource * list MCPServerPrompt) :=
  match initialize c w with
  | (c, w, Some err) => (c, w, fails ([], [], []) err)
  | (c, w, None) =>
      let kept {A} (r : ret (list A)) := match r with (l, None) => l | (_, Some _) => [] end in
      let '(c, w, tools) := listOf "tools/list" "tools" (toolOf serverID t) c w in
      let '(c, w, resources) := listOf "resources/list" "resources" (resourceOf serverID t) c w in
      let '(c, w, prompts) := listOf "prompts/list" "prompts" (promptOf serverID t) c w in
      (c, w, ok (kept tools, kept resources, kept prompts))
  end.
End Client.

(** ** manager.go *)

Record MCPProxyConfig := mkMCPProxyConfig {
  mp_Enabled : bool;
  mp_SecretsEncryptionKeyEnvRef : string;
  mp_SessionIdleTimeoutSeconds : Z;
  mp_ConnectTimeoutSeconds : Z;
  mp_CallTimeoutSeconds : Z
}.

Definition allow (allowlist : list string) (name : string) : bool :=
  if bool_decide (allowlist = []) then true else existsb (λ v, v =s name) allowlist.

Definition findServerBySlug (slug : string) (servers : list AccessibleServer) : ret MCPServer :=
  match List.find (λ item, item.(AccessibleServer_Server).(MCPServer_Slug) =s slug) servers with
  | Some item => ok item.(AccessibleServer_Server)
  | None => fails zeroval ErrForbidden
  end.

Definition findScope (servers : list AccessibleServer) (serverID : string) : option AccessTokenMCPServer :=
  AccessibleServer_Scope <$> List.find (λ item, item.(AccessibleServer_Server).(MCPServer_ID) =s serverID) servers.

(** What a namespaced name stands for, and whether the caller may use it:
    the common start of [CallTool], [ReadResource] and [GetPrompt]. *)
Definition target (parsed : string * string * bool) (allowlist : AccessTokenMCPServer → list string) (namespaced : string)
    (servers : list AccessibleServer) : (string * string) + error :=
  let '(slug, upstream, found) := parsed in
  if negb found then inr ErrUnknownProxyTarget
  else match findServerBySlug slug servers with
  | (_, Some err) => inr err
  | (srv, None) =>
      match findScope servers srv.(MCPServer_ID) with
      | None => inr ErrForbidden
      | Some scope =>
          if allow (allowlist scope) namespaced then inl (srv.(MCPServer_ID), upstream) else inr ErrForbidden
      end
  end.

Definition toolTarget (name : string) := target (ParseNamespacedTool name) AccessTokenMCPServer_ToolAllowlist name.
Definition promptTarget (name : string) := target (ParseNamespacedPrompt name) AccessTokenMCPServer_PromptAllowlist name.
Definition resourceTarget (uri : string) := target (ParseNamespacedResourceURI uri) AccessTokenMCPServer_ResourceAllowlist uri.

Record Exposed := mkExposed {
  ex_Tools : list (string * MCPServerTool);
  ex_Resources : list (string * MCPServerResource);
  ex_Prompts : list (string * MCPServerPrompt)
}.

Record Manager `{ProxyDB, Upstream} := mkManager {
  mg_store : ProxyStore;
  mg_sessions : gmap string Client;
  mg_world : UW
}.
#[export] Instance settable_Manager `{ProxyDB, Upstream} : Settable Manager := λ m,
  mkManager _ _ m.(mg_store) m.(mg_sessions) m.(mg_world).

Section Manager.
Context `{ProxyDB, Upstream, AEAD, GoRange}.
Context (unicode_lower : Z → Z) (headers_decode : string → option (gmap string string)).
Context (json_marshal : Any → option string) (request_ok : string → bool).
Context (rpc_decode : string → RPCResponse + error) (object_decode : string → list (string * Any) + error).
Context (cfg : MCPProxyConfig).
Implicit Types (m : Manager) (e : Env) (servers : list AccessibleServer).

Definition seconds (n : Z) (otherwise : Z) : Duration :=
  let d := wrap64 (n * Second) in if (d <=? 0)%Z then (otherwise * Second)%Z else d.

Definition newClient (t : Time) m (srv : MCPServer) : ret (option Client) :=
  match AuthHeaders unicode_lower headers_decode m.(mg_store) srv with
  | (_, Some err) => fails None err
  | (headers, None) => ok (Some (newUpstreamClient t srv.(MCPServer_URL) headers (seconds cfg.(mp_ConnectTimeoutSeconds) 30)))
  end.

Definition set_status e m (id : string) (status : MCPServerStatus) (lastErr : string) (connected : bool) : Manager :=
  m <| mg_store := (SetServerStatus e m.(mg_store) id status lastErr connected).1 |>.

Definition ConnectTest e m (serverID : string) : Manager * ret MCPServerCapabilities :=
  match GetServer m.(mg_store) serverID with
  | (_, Some err) => (m, fails zeroval err)
  | (srv, None) =>
      match newClient (now e 0) m srv with
      | (Some client, None) =>
          match discover json_marshal request_ok rpc_decode object_decode client m.(mg_world) serverID (now e 1) with
          | (client, w, (_, Some err)) =>
              (set_status (later 2 e) (m <| mg_world := w |>) serverID MCPServerStatusError (Error_text err) false, fails zeroval err)
          | (client, w, ((tools, resources, prompts), None)) =>
              let m := m <| mg_world := w |> in
              match UpsertDiscovery m.(mg_store) serverID tools resources prompts with
              | (s, Some err) => (m <| mg_store := s |>, fails zeroval err)
              | (s, None) =>
                  let m := set_status (later 2 e) (m <| mg_store := s |>) serverID MCPServerStatusActive "" true in
                  let m := m <| mg_sessions := <[serverID := client]> m.(mg_sessions) |> in
                  (m, GetCapabilities m.(mg_store) serverID)
              end
          end
      | (_, err) =>
          let err := default (NewError "") err in
          (set_status (later 2 e) m serverID MCPServerStatusError (Error_text err) false, fails zeroval err)
      end
  end.

(** The cached session, while it is not stale. *)
Definition cachedSession (t : Time) m (serverID : string) : option Client :=
  match m.(mg_sessions) !! serverID with
  | None => None
  | Some c =>
      let idle := wrap64 (cfg.(mp_SessionIdleTimeoutSeconds) * Second) in
      if (idle <=? 0)%Z || (t - c.(cl_createdAt) <? idle)%Z then Some c else None
  end.

(** The session of the server is in the map when a client is returned. *)
Definition getClient e m (serverID : string) : Manager * ret (option Client) :=
  match cachedSession (now e 0) m serverID with
  | Some c => (m, ok (Some c))
  | None =>
      let m := m <| mg_sessions := delete serverID m.(mg_sessions) |> in
      match GetServer m.(mg_store) serverID with
      | (_, Some err) => (m, fails None err)
      | (srv, None) =>
          match newClient (now e 1) m srv with
          | (Some client, None) =>
              match initialize json_marshal request_ok rpc_decode object_decode client m.(mg_world) with
              | (_, w, Some err) => (m <| mg_world := w |>, fails None err)
              | (client, w, None) =>
                  (m <| mg_world := w |> <| mg_sessions := <[serverID := client]> m.(mg_sessions) |>, ok (Some client))
              end
          | (_, err) => (m, (None, err))
          end
      end
  end.

(** The call itself; the client is shared with the map of sessions. *)
Definition forward e m (serverID method : string) (deadline : option Duration) (params : Any)
    : Manager * ret (list (string * Any)) :=
  match getClient e m serverID with
  | (m, (Some c, None)) =>
      let '(c, w, r) := call json_marshal request_ok rpc_decode object_decode deadline c m.(mg_world) method (Some params) in
      (m <| mg_world := w |> <| mg_sessions := <[serverID := c]> m.(mg_sessions) |>, r)
  | (m, (_, err)) => (m, ([], err))
  end.

Definition CallTool e m (namespaced : string) (arguments : Any) servers : Manager * ret (list (string * Any)) :=
  match toolTarget namespaced servers with
  | inr err => (m, fails [] err)
  | inl (serverID, tool) =>
      forward e m serverID "tools/call" (Some (seconds cfg.(mp_CallTimeoutSeconds) 120))
        (AObject [("name", AString tool); ("arguments", arguments)])
  end.

Definition ReadResource e m (uri : string) servers : Manager * ret (list (string * Any)) :=
  match resourceTarget uri servers with
  | inr err => (m, fails [] err)
  | inl (serverID, upstream) => forward e m serverID "resources/read" None (AObject [("uri", AString upstream)])
  end.

Definition GetPrompt e m (namespaced : string) (arguments : option Any) servers : Manager * ret (list (string * Any)) :=
  match promptTarget namespaced servers with
  | inr err => (m, fails [] err)
  | inl (serverID, prompt) =>
      forward e m serverID "prompts/get" None
        (AObject ([("name", AString prompt)] ++ match arguments with Some a => [("arguments", a)] | None => [] end))
  end.

(** The enabled capabilities of one server that its scope lets through,
    under their namespaced names. *)
Definition exposedOf (s : ProxyStore) (item : AccessibleServer) : Exposed :=
  match GetCapabilities s item.(AccessibleServer_Server).(MCPServer_ID) with
  | (_, Some _) => mkExposed [] [] []
  | (caps, None) =>
      let slug := item.(AccessibleServer_Server).(MCPServer_Slug) in
      let scope := item.(AccessibleServer_Scope) in
      let shown {A} (enabled : A → bool) (name : A → string) (allowlist : list string) (l : list A) :=
        omap (λ x, if enabled x && allow allowlist (name x) then Some (name x, x) else None) l in
      mkExposed
        (shown MCPServerTool_Enabled (λ t, NamespacedTool slug t.(MCPServerTool_ToolName))
           scope.(AccessTokenMCPServer_ToolAllowlist) caps.(MCPServerCapabilities_Tools))
        (shown MCPServerResource_Enabled (λ r, NamespacedResourceURI slug r.(MCPServerResource_URI))
           scope.(AccessTokenMCPServer_ResourceAllowlist) caps.(MCPServerCapabilities_Resources))
        (shown MCPServerPrompt_Enabled (λ p, NamespacedPrompt slug p.(MCPServerPrompt_PromptName))
           scope.(AccessTokenMCPServer_PromptAllowlist) caps.(MCPServerCapabilities_Prompts))
  end.

Definition ExposedForAccess m servers : Exposed :=
  let per := map (exposedOf m.(mg_store)) servers in
  mkExposed (concat (map ex_Tools per)) (concat (map ex_Resources per)) (concat (map ex_Prompts per)).

Definition HasProxiedTool (name : string) : bool := (ParseNamespacedTool name).2.
Definition HasProxiedPrompt (name : string) : bool := (ParseNamespacedPrompt name).2.
Definition HasProxiedResource (uri : string) : bool := HasPrefix uri resourcePrefix.

(** The first name without the prefix. *)
Definition badName (prefix : string) (names : list string) : option string :=
  List.find (λ name, negb (HasPrefix name prefix)) names.

Definition ValidateScopeNames (quote : string → string) m (serverID : string) (tools resources prompts : list string) : option error :=
  match GetCapabilities m.(mg_store) serverID with
  | (_, Some err) => Some err
  | (caps, None) =>
      let slug := caps.(MCPServerCapabilities_Server).(MCPServer_Slug) in
      let invalid kind name := Some (NewError ("invalid " +:+ kind +:+ " " +:+ quote name +:+ " for server " +:+ slug)) in
      match badName (slug +:+ "__") tools, badName (resourcePrefix +:+ slug +:+ "/") resources, badName (slug +:+ "__") prompts with
      | Some name, _, _ => invalid "tool" name
      | None, Some uri, _ => invalid "resource" uri
      | None, None, Some name => invalid "prompt" name
      | None, None, None => None
      end
  end.

(** ** Descriptors *)

Section Descriptors.
Context (json_parse : string → option Any).

(** [mcpdesc.Tool]; [None] for a nil schema. *)
Definition objectSchema : list (string * Any) := [("type", AString "object"); ("properties", AObject [])].
Definition mcpdesc_Tool (name description : string) (inputSchema : option (list (string * Any))) : Any :=
  AObject [("name", AString name); ("description", AString description); ("inputSchema", AObject (default objectSchema inputSchema))].

(** [json.Unmarshal] into a map: an object adds its members to those that are
    there, [null] makes the map nil, all else is an error and changes nothing. *)
Definition unmarshalInto (raw : string) (base : list (string * Any)) : option (list (string * Any)) :=
  match json_parse raw with
  | Some (AObject o) => Some (List.filter (λ kv, negb (existsb (λ kv', kv'.1 =s kv.1) o)) base ++ o)
  | Some ANil => None
  | _ => Some base
  end.

Definition proxyToolDescriptor (name : string) (t : MCPServerTool) : Any :=
  mcpdesc_Tool name t.(MCPServerTool_Description)
    (if t.(MCPServerTool_InputSchemaJSON) <>s "" then unmarshalInto t.(MCPServerTool_InputSchemaJSON) objectSchema else Some objectSchema).

Definition resourceDescriptor (uri : string) (r : MCPServerResource) : Any :=
  AObject [("uri", AString uri); ("name", AString r.(MCPServerResource_Name)); ("description", AString r.(MCPServerResource_Description));
           ("mimeType", AString r.(MCPServerResource_MimeType))].

Definition promptDescriptor (name : string) (p : MCPServerPrompt) : Any :=
  AObject ([("name", AString name); ("description", AString p.(MCPServerPrompt_Description))]
    ++ if p.(MCPServerPrompt_ArgumentsSchemaJSON) <>s "" then [("arguments", default ANil (json_parse p.(MCPServerPrompt_ArgumentsSchemaJSON)))] else []).

(** What a client is shown of the exposed capabilities. *)
Definition ExposedCapabilities (x : Exposed) : list Any * list Any * list Any :=
  ((λ t, proxyToolDescriptor t.1 t.2) <$> x.(ex_Tools), (λ r, resourceDescriptor r.1 r.2) <$> x.(ex_Resources),
   (λ p, promptDescriptor p.1 p.2) <$> x.(ex_Prompts)).

Definition CapabilityFlags (x : Exposed) : list (string * Any) :=
  match x.(ex_Tools) with [] => [] | _ => [("tools", AObject [])] end
  ++ match x.(ex_Resources) with [] => [] | _ => [("resources", AObject [])] end
  ++ match x.(ex_Prompts) with [] => [] | _ => [("prompts", AObject [])] end.
End Descriptors.
End Manager.
