(* ===== verification/ProxyProps.v ===== *)
(** What the MCP proxy of [ProxyStore] and [ProxyManager] guarantees: callers
    see only what an administrator approved and their token lets through,
    what they see they can call, and credentials reach the upstream server
    as they were stored. *)
From S2P Require Import Prelude GoStrings Models DataObj AccessState AccessProps Proxy ProxyStore ProxyManager.
From Stdlib Require Import Ascii.

(** ** Capabilities *)

(** Tools, resources and prompts have a server, a name and a flag. *)
Class Capability (A : Type) := {
  cap_server : A → string;
  cap_key : A → string;
  cap_enabled : A → bool;
  cap_set : bool → A → A;
  cap_server_set : ∀ v x, cap_server (cap_set v x) = cap_server x;
  cap_key_set : ∀ v x, cap_key (cap_set v x) = cap_key x;
  cap_enabled_set : ∀ v x, cap_enabled (cap_set v x) = v
}.
#[export] Instance cap_tool : Capability MCPServerTool := {|
  cap_server := MCPServerTool_ServerID; cap_key := MCPServerTool_ToolName; cap_enabled := MCPServerTool_Enabled;
  cap_set := tool_flag; cap_server_set := λ _ _, eq_refl; cap_key_set := λ _ _, eq_refl; cap_enabled_set := λ _ _, eq_refl
|}.
#[export] Instance cap_resource : Capability MCPServerResource := {|
  cap_server := MCPServerResource_ServerID; cap_key := MCPServerResource_URI; cap_enabled := MCPServerResource_Enabled;
  cap_set := resource_flag; cap_server_set := λ _ _, eq_refl; cap_key_set := λ _ _, eq_refl; cap_enabled_set := λ _ _, eq_refl
|}.
#[export] Instance cap_prompt : Capability MCPServerPrompt := {|
  cap_server := MCPServerPrompt_ServerID; cap_key := MCPServerPrompt_PromptName; cap_enabled := MCPServerPrompt_Enabled;
  cap_set := prompt_flag; cap_server_set := λ _ _, eq_refl; cap_key_set := λ _ _, eq_refl; cap_enabled_set := λ _ _, eq_refl
|}.

(** What is enabled was approved; [appr] gives the approved names of a server. *)
Definition approved_in {A} `{Capability A} (appr : string → list string) (l : list A) : Prop :=
  ∀ x, x ∈ l → cap_enabled x = true → cap_key x ∈ appr (cap_server x).

Section Capabilities.
Context {A : Type} `{Capability A}.
Implicit Types (l : list A) (appr : string → list string).

Lemma approved_sub appr l l' : (∀ x, x ∈ l' → x ∈ l) → approved_in appr l → approved_in appr l'.
Proof. intros Hsub Hl x Hx. by apply Hl, Hsub. Qed.

Lemma approved_app appr l l' : approved_in appr l → approved_in appr l' → approved_in appr (l ++ l').
Proof. intros Hl Hl' x [Hx|Hx]%elem_of_app; [by apply Hl|by apply Hl']. Qed.

(** The flags gathered from the known capabilities. *)
Lemma flags_known (ex : list A) (m : gmap string bool) k v :
  foldl (λ m x, <[cap_key x := cap_enabled x]> m) m ex !! k = Some v →
  m !! k = Some v ∨ ∃ x, x ∈ ex ∧ cap_key x = k ∧ cap_enabled x = v.
Proof.
  revert m. induction ex as [|y ex IH]; intros m; cbn; [by left|]. intros [Hl|(x & ? & ? & ?)]%IH.
  - apply lookup_insert_Some in Hl as [[<- <-]|[_ Hl]]; [right|by left]. exists y. by split; [constructor|].
  - right. exists x. by split; [constructor|].
Qed.

Lemma keepEnabled_ok appr sid (ex new : list A) : approved_in appr ex →
  (∀ x, x ∈ ex → cap_server x = sid) → (∀ x, x ∈ new → cap_server x = sid ∧ cap_enabled x = false) →
  approved_in appr (keepEnabled cap_key cap_enabled cap_set ex new)
  ∧ ∀ x, x ∈ keepEnabled cap_key cap_enabled cap_set ex new → cap_server x = sid.
Proof.
  intros Hex Hsid Hnew. unfold keepEnabled. set (flags := foldl _ _ _).
  assert (Hall : ∀ x, x ∈ map (λ x, match flags !! cap_key x with Some v => cap_set v x | None => x end) new →
    cap_server x = sid ∧ (cap_enabled x = true → cap_key x ∈ appr (cap_server x))).
  { intros x. rewrite list_elem_of_In, in_map_iff. setoid_rewrite <- list_elem_of_In. intros (y & <- & Hy).
    destruct (Hnew y Hy) as [Hs He]. destruct (flags !! cap_key y) as [v|] eqn:Hf; [|by rewrite He].
    rewrite cap_server_set, cap_key_set, cap_enabled_set. split; [done|]. intros ->.
    apply flags_known in Hf as [?%lookup_empty_Some|(z & Hz & Hk & Hz')]; [done|].
    rewrite Hs, <- Hk, <- (Hsid z Hz). by apply Hex. }
  split; [intros x Hx|intros x Hx]; by apply Hall.
Qed.

Lemma setEnabled_ok appr sid names l : approved_in appr l →
  approved_in (λ k, if decide (k = sid) then names else appr k) (setEnabled cap_server cap_key cap_set sid names l).
Proof.
  intros Hl x. unfold setEnabled. rewrite list_elem_of_In, in_map_iff. setoid_rewrite <- list_elem_of_In.
  intros (y & <- & Hy). destruct (String.eqb_spec (cap_server y) sid) as [Hs|Hs].
  - rewrite cap_server_set, cap_key_set, cap_enabled_set. intros Hin%bool_decide_eq_true_1. rewrite decide_True by done.
    by apply elem_of_list_to_set in Hin.
  - intros He. rewrite decide_False by done. by apply Hl.
Qed.

Lemma elem_of_notOfServer sid l x : x ∈ notOfServer cap_server sid l ↔ x ∈ l ∧ cap_server x ≠ sid.
Proof. unfold notOfServer. rewrite elem_of_filter_bool, negb_true_iff. by rewrite String.eqb_neq. Qed.

(** Nothing of a server that was removed needs an approval. *)
Lemma removed_ok appr sid l : approved_in appr l →
  approved_in (λ k, if decide (k = sid) then [] else appr k) (notOfServer cap_server sid l).
Proof.
  intros Hl x [Hx Hs]%elem_of_notOfServer He. rewrite decide_False by done. by apply Hl.
Qed.
End Capabilities.

Lemma allow_spec l name : allow l name = true ↔ l = [] ∨ name ∈ l.
Proof.
  unfold allow. case_bool_decide; [naive_solver|]. rewrite existsb_elem_of. setoid_rewrite String.eqb_eq. naive_solver.
Qed.

(** ** Discovery finds disabled capabilities of its server *)

Section Discovery.
Context `{Upstream, GoRange}.
Context (json_marshal : Any → option string) (request_ok : string → bool).
Context (rpc_decode : string → RPCResponse + error) (object_decode : string → list (string * Any) + error).

Definition found_on {A} `{Capability A} (sid : string) (l : list A) : Prop :=
  ∀ x, x ∈ l → cap_server x = sid ∧ cap_enabled x = false.

Lemma found_nil {A} `{Capability A} sid : found_on sid (@nil A).
Proof. intros x Hx. by apply not_elem_of_nil in Hx. Qed.

Lemma listOf_found {A} `{Capability A} sid method key (f : Any → option A) c w :
  (∀ i x, f i = Some x → cap_server x = sid ∧ cap_enabled x = false) →
  found_on sid (listOf json_marshal request_ok rpc_decode object_decode method key f c w).2.1.
Proof.
  intros Hf x. unfold listOf. destruct (call _ _ _ _ _ c w method None) as [[c' w'] [r [err|]]]; cbn; [set_solver|].
  intros (i & _ & Hx)%list_elem_of_omap. by apply (Hf i).
Qed.

Lemma toolOf_found sid t i x : toolOf json_marshal sid t i = Some x → cap_server x = sid ∧ cap_enabled x = false.
Proof. unfold toolOf. destruct (as_object i); cbn [mbind option_bind]; [|done]. case_match; naive_solver. Qed.
Lemma resourceOf_found sid t i x : resourceOf sid t i = Some x → cap_server x = sid ∧ cap_enabled x = false.
Proof. unfold resourceOf. destruct (as_object i); cbn [mbind option_bind]; [|done]. case_match; naive_solver. Qed.
Lemma promptOf_found sid t i x : promptOf json_marshal sid t i = Some x → cap_server x = sid ∧ cap_enabled x = false.
Proof. unfold promptOf. destruct (as_object i); cbn [mbind option_bind]; [|done]. case_match; naive_solver. Qed.

Lemma discover_found c w sid t c' w' tools resources prompts err :
  discover json_marshal request_ok rpc_decode object_decode c w sid t = (c', w', ((tools, resources, prompts), err)) →
  found_on sid tools ∧ found_on sid resources ∧ found_on sid prompts.
Proof.
  unfold discover. destruct (initialize _ _ _ _ c w) as [[c1 w1] [e1|]].
  { intros [= <- <- <- <- <- <-]. split_and!; apply found_nil. }
  pose proof (listOf_found sid "tools/list" "tools" (toolOf json_marshal sid t) c1 w1 (toolOf_found sid t)) as Ht.
  destruct (listOf _ _ _ _ "tools/list" _ _ c1 w1) as [[c2 w2] [lt et]].
  pose proof (listOf_found sid "resources/list" "resources" (resourceOf sid t) c2 w2 (resourceOf_found sid t)) as Hr.
  destruct (listOf _ _ _ _ "resources/list" _ _ c2 w2) as [[c3 w3] [lr er]].
  pose proof (listOf_found sid "prompts/list" "prompts" (promptOf json_marshal sid t) c3 w3 (promptOf_found sid t)) as Hp.
  destruct (listOf _ _ _ _ "prompts/list" _ _ c3 w3) as [[c4 w4] [lp ep]].
  intros [= <- <- <- <- <- <-]. cbn in *. split_and!; case_match; first [done|apply found_nil].
Qed.
End Discovery.

(** ** Runs of the manager *)

(** What administrators approved: the last lists set for each server since
    it was created. *)
Record Approvals := mkApprovals {
  ap_tools : string → list string;
  ap_resources : string → list string;
  ap_prompts : string → list string
}.

Definition approve (sid : string) (tools resources prompts : list string) (a : Approvals) : Approvals :=
  let set l f k := if decide (k = sid) then l else f k in
  mkApprovals (set tools a.(ap_tools)) (set resources a.(ap_resources)) (set prompts a.(ap_prompts)).

Inductive px_op :=
| PCreate (e : Env) (inp : CreateServerInput)
| PUpdate (e : Env) (id : string) (inp : UpdateServerInput)
| PClear (e : Env) (id : string)
| PDelete (id : string)
| PShare (e : Env) (b : MCPServerACLBinding)
| PScopes (e : Env) (tokenID : string) (scopes : list AccessTokenMCPServer)
| PApprove (id : string) (tools resources prompts : list string)
| PConnect (e : Env) (id : string)
| PCallTool (e : Env) (name : string) (arguments : Any) (servers : list AccessibleServer)
| PRead (e : Env) (uri : string) (servers : list AccessibleServer)
| PPrompt (e : Env) (name : string) (arguments : option Any) (servers : list AccessibleServer).

Section Runs.
Context `{ProxyDB, Upstream, AEAD, GoRange}.
Context (unicode_lower : Z → Z) (headers_decode : string → option (gmap string string)).
Context (json_marshal : Any → option string) (request_ok : string → bool).
Context (rpc_decode : string → RPCResponse + error) (object_decode : string → list (string * Any) + error).
Context (cfg : MCPProxyConfig).
Implicit Types (m : Manager) (s : ProxyStore) (e : Env) (servers : list AccessibleServer).

Definition on_store m (s : ProxyStore) : Manager := m <| mg_store := s |>.

Definition px_step m (op : px_op) : Manager :=
  match op with
  | PCreate e inp => on_store m (CreateServer unicode_lower e m.(mg_store) inp).1
  | PUpdate e id inp => on_store m (UpdateServer e m.(mg_store) id inp).1
  | PClear e id => on_store m (ClearAuthSecret e m.(mg_store) id).1
  | PDelete id => on_store m (DeleteServer m.(mg_store) id).1
  | PShare e b => on_store m (UpsertServerACL e m.(mg_store) b).1
  | PScopes e tokenID scopes => on_store m (ReplaceTokenMCPServers e m.(mg_store) tokenID scopes).1
  | PApprove id tools resources prompts => on_store m (SetEnabledCapabilities m.(mg_store) id tools resources prompts).1
  | PConnect e id =>
      (ConnectTest unicode_lower headers_decode json_marshal request_ok rpc_decode object_decode cfg e m id).1
  | PCallTool e name args servers =>
      (CallTool unicode_lower headers_decode json_marshal request_ok rpc_decode object_decode cfg e m name args servers).1
  | PRead e uri servers =>
      (ReadResource unicode_lower headers_decode json_marshal request_ok rpc_decode object_decode cfg e m uri servers).1
  | PPrompt e name args servers =>
      (GetPrompt unicode_lower headers_decode json_marshal request_ok rpc_decode object_decode cfg e m name args servers).1
  end.

Definition approvals_step (a : Approvals) (op : px_op) : Approvals :=
  match op with
  | PApprove id tools resources prompts => approve id tools resources prompts a
  | PDelete id => approve id [] [] [] a
  | _ => a
  end.

Definition px_run m (ops : list px_op) : Manager := foldl px_step m ops.
Definition approvals_of (ops : list px_op) : Approvals :=
  foldl approvals_step (mkApprovals (λ _, []) (λ _, []) (λ _, [])) ops.

(** The store as a call leaves it. *)
Lemma newClient_url t m srv c : newClient unicode_lower headers_decode cfg t m srv = ok (Some c) → c.(cl_url) = srv.(MCPServer_URL).
Proof. unfold newClient. destruct (AuthHeaders _ _ _ _) as [h [err|]]; [done|]. by intros [= <-]. Qed.

Lemma forward_store e m sid method d params :
  (forward unicode_lower headers_decode json_marshal request_ok rpc_decode object_decode cfg e m sid method d params).1.(mg_store)
  = m.(mg_store).
Proof.
  unfold forward, getClient. destruct (cachedSession _ _ _ _) as [c|].
  { cbn -[call]. destruct (call _ _ _ _ _ c _ _ _) as [[c' w'] r]. done. }
  destruct (GetServer _ _) as [srv [err|]]; [done|].
  destruct (newClient _ _ _ _ _ srv) as [[c|] [err|]]; try done.
  cbn -[initialize call]. destruct (initialize _ _ _ _ c _) as [[c' w'] [err|]]; [done|]. cbn -[call].
  destruct (call _ _ _ _ _ c' _ _ _) as [[c2 w2] r]. done.
Qed.

(** What [ConnectTest] leaves of the store: a status, and perhaps a discovery. *)
Lemma ConnectTest_store e m sid :
  let r := ConnectTest unicode_lower headers_decode json_marshal request_ok rpc_decode object_decode cfg e m sid in
  r.1.(mg_store) = m.(mg_store)
  ∨ (∃ st err c, r.1.(mg_store) = (SetServerStatus (later 2 e) m.(mg_store) sid st err c).1)
  ∨ ∃ tools resources prompts, found_on sid tools ∧ found_on sid resources ∧ found_on sid prompts
     ∧ let s := (UpsertDiscovery m.(mg_store) sid tools resources prompts).1 in
       r.1.(mg_store) = s ∨ ∃ st err c, r.1.(mg_store) = (SetServerStatus (later 2 e) s sid st err c).1.
Proof.
  intros r. unfold r, ConnectTest. destruct (GetServer _ _) as [srv [err|]]; [by left|].
  destruct (newClient _ _ _ _ _ srv) as [[c|] [err|]]; try (right; left; by eexists _, _, _).
  destruct (discover _ _ _ _ c _ sid _) as [[c' w'] [[[tools resources] prompts] [err|]]] eqn:Hd;
    [right; left; by eexists _, _, _|].
  apply discover_found in Hd. right; right. exists tools, resources, prompts. destruct_and! Hd. split_and!; [done..|]. cbn.
  destruct (UpsertDiscovery _ _ _ _ _) as [s' [err|]]; [by left|right]. by eexists _, _, _.
Qed.

(** ** What is exposed was approved *)

Record px_inv (a : Approvals) (s : ProxyStore) : Prop := mkPxInv {
  pi_memory : s.(px_useDB) = false;
  pi_tools : approved_in a.(ap_tools) s.(px_tools);
  pi_resources : approved_in a.(ap_resources) s.(px_resources);
  pi_prompts : approved_in a.(ap_prompts) s.(px_prompts)
}.

(** The parts of the store the invariant speaks of. *)
Definition same_caps s s' : Prop :=
  s'.(px_useDB) = s.(px_useDB) ∧ s'.(px_tools) = s.(px_tools) ∧ s'.(px_resources) = s.(px_resources) ∧ s'.(px_prompts) = s.(px_prompts).

Lemma px_inv_same a s s' : same_caps s s' → px_inv a s → px_inv a s'.
Proof. intros (Hu & Ht & Hr & Hp) [Hm Ht' Hr' Hp']. by split; rewrite ?Hu, ?Ht, ?Hr, ?Hp. Qed.

Lemma SetServerStatus_inv a e s sid st err c : px_inv a s → px_inv a (SetServerStatus e s sid st err c).1.
Proof.
  intros Hi. eapply px_inv_same, Hi. unfold SetServerStatus. rewrite (pi_memory _ _ Hi). by case_match.
Qed.

Lemma listed_of_server {A} `{Capability A} appr (l : list A) sid : approved_in appr l →
  let l' := List.filter (λ x, cap_server x =s sid) l in
  approved_in appr l' ∧ ∀ x, x ∈ l' → cap_server x = sid.
Proof.
  intros Hl l'. assert (Hl' : ∀ x, x ∈ l' → x ∈ l ∧ cap_server x = sid).
  { intros x. unfold l'. rewrite elem_of_filter_bool, String.eqb_eq. done. }
  split; [|intros x Hx; by apply Hl'..]. eapply approved_sub, Hl. intros x Hx. by apply Hl'.
Qed.

Lemma discovered_ok {A} `{Capability A} appr (l new : list A) sid : approved_in appr l → found_on sid new →
  approved_in appr (notOfServer cap_server sid l
    ++ keepEnabled cap_key cap_enabled cap_set (List.filter (λ x, cap_server x =s sid) l) new).
Proof.
  intros Hl Hnew. destruct (listed_of_server appr l sid Hl) as [Hex Hsid].
  apply approved_app; [|by apply (keepEnabled_ok appr sid)].
  eapply approved_sub, Hl. intros x [Hx _]%elem_of_notOfServer. done.
Qed.

Lemma UpsertDiscovery_inv a s sid tools resources prompts : px_inv a s →
  found_on sid tools → found_on sid resources → found_on sid prompts →
  px_inv a (UpsertDiscovery s sid tools resources prompts).1.
Proof.
  intros [Hm Ht Hr Hp] Hft Hfr Hfp. unfold UpsertDiscovery, ListTools, ListResources, ListPrompts. rewrite Hm.
  split; cbn [px_useDB px_tools px_resources px_prompts fst]; [done| | |].
  - exact (discovered_ok a.(ap_tools) s.(px_tools) tools sid Ht Hft).
  - exact (discovered_ok a.(ap_resources) s.(px_resources) resources sid Hr Hfr).
  - exact (discovered_ok a.(ap_prompts) s.(px_prompts) prompts sid Hp Hfp).
Qed.

Lemma ConnectTest_inv a e m sid : px_inv a m.(mg_store) →
  px_inv a (ConnectTest unicode_lower headers_decode json_marshal request_ok rpc_decode object_decode cfg e m sid).1.(mg_store).
Proof.
  intros Hi. destruct (ConnectTest_store e m sid) as [->|[(st & err & c & ->)|(lt & lr & lp & Ht & Hr & Hp & Hs)]];
    [done|by apply SetServerStatus_inv|].
  assert (Hi' := UpsertDiscovery_inv a _ sid lt lr lp Hi Ht Hr Hp). cbn in Hs.
  destruct Hs as [->|(st & err & c & ->)]; [done|by apply SetServerStatus_inv].
Qed.

Lemma CreateServer_caps e s inp : s.(px_useDB) = false → same_caps s (CreateServer unicode_lower e s inp).1.
Proof.
  intros Hm. unfold CreateServer. rewrite Hm. case_match; [done|].
  destruct (encryptSecret _ _ _) as [sec [err|]]; [done|]. cbn -[slen Z.ltb]. by destruct (0 <? slen sec.(sec_encrypted))%Z.
Qed.

Lemma UpdateServer_caps e s id inp : s.(px_useDB) = false → same_caps s (UpdateServer e s id inp).1.
Proof.
  intros Hm. unfold UpdateServer. destruct (GetServer _ _) as [srv [err|]]; [done|].
  destruct (secretForUpdate _ _ _ _) as [[sec has] [err|]]; [done|]. rewrite Hm. repeat case_match; done.
Qed.

Lemma px_step_inv a m op : px_inv a m.(mg_store) → px_inv (approvals_step a op) (px_step m op).(mg_store).
Proof.
  intros Hi. assert (Hm := pi_memory _ _ Hi). destruct op; cbn [px_step approvals_step on_store].
  - by eapply px_inv_same, Hi; apply CreateServer_caps.
  - by eapply px_inv_same, Hi; apply UpdateServer_caps.
  - eapply px_inv_same, Hi. cbn. unfold ClearAuthSecret. rewrite Hm. by case_match.
  - destruct Hi as [_ Ht Hr Hp]. cbn. unfold DeleteServer. rewrite Hm.
    split; [done|exact (removed_ok _ _ _ Ht)|exact (removed_ok _ _ _ Hr)|exact (removed_ok _ _ _ Hp)].
  - eapply px_inv_same, Hi. cbn. unfold UpsertServerACL. by rewrite Hm.
  - eapply px_inv_same, Hi. cbn. unfold ReplaceTokenMCPServers. by rewrite Hm.
  - destruct Hi as [_ Ht Hr Hp]. cbn. unfold SetEnabledCapabilities. rewrite Hm.
    split; [done|exact (setEnabled_ok _ _ _ _ Ht)|exact (setEnabled_ok _ _ _ _ Hr)|exact (setEnabled_ok _ _ _ _ Hp)].
  - by apply ConnectTest_inv.
  - unfold CallTool. destruct (toolTarget _ _) as [[sid up]|err]; [by rewrite forward_store|done].
  - unfold ReadResource. destruct (resourceTarget _ _) as [[sid up]|err]; [by rewrite forward_store|done].
  - unfold GetPrompt. destruct (promptTarget _ _) as [[sid up]|err]; [by rewrite forward_store|done].
Qed.

Lemma px_run_inv m ops : m.(mg_store) = NewProxyStore m.(mg_store).(px_cipher) m.(mg_store).(px_db) →
  px_inv (approvals_of ops) (px_run m ops).(mg_store).
Proof.
  intros Hm. assert (H0' : px_inv (mkApprovals (λ _, []) (λ _, []) (λ _, [])) m.(mg_store)).
  { rewrite Hm. split; [done|intros x Hx; by apply not_elem_of_nil in Hx..]. }
  unfold px_run, approvals_of. revert H0'. generalize (mkApprovals (λ _, []) (λ _, []) (λ _, [])). clear Hm.
  revert m. induction ops as [|op ops IH]; intros m a Hi; cbn; [done|]. by apply IH, px_step_inv.
Qed.

(** What an exposed capability is: of the server, under its namespaced name,
    let through by the scope, approved. *)
Definition exposed_ok {A} `{Capability A} (appr : string → list string) (ns : string → string → string)
    (allowlist : AccessTokenMCPServer → list string) (item : AccessibleServer) (nx : string * A) : Prop :=
  let srv := item.(AccessibleServer_Server) in
  nx.1 = ns srv.(MCPServer_Slug) (cap_key nx.2)
  ∧ cap_server nx.2 = srv.(MCPServer_ID)
  ∧ (allowlist item.(AccessibleServer_Scope) = [] ∨ nx.1 ∈ allowlist item.(AccessibleServer_Scope))
  ∧ cap_key nx.2 ∈ appr srv.(MCPServer_ID).

(** The part [exposedOf] gives for one kind. *)
Definition shownOf {A} `{Capability A} (ns : string → string → string) (slug : string) (allowlist : list string)
    (l : list A) : list (string * A) :=
  omap (λ x, if cap_enabled x && allow allowlist (ns slug (cap_key x)) then Some (ns slug (cap_key x), x) else None) l.

Lemma elem_of_shownOf {A} `{Capability A} ns slug allowlist (l : list A) nx :
  nx ∈ shownOf ns slug allowlist l ↔
  nx.2 ∈ l ∧ cap_enabled nx.2 = true ∧ nx.1 = ns slug (cap_key nx.2) ∧ allow allowlist nx.1 = true.
Proof.
  unfold shownOf. rewrite list_elem_of_omap. split.
  - intros (x & Hx & Hs). destruct (cap_enabled x) eqn:He; [|done]. cbn in Hs.
    destruct (allow _ _) eqn:Ha; [|done]. injection Hs as <-. done.
  - destruct nx as [n x]. cbn. intros (Hx & He & -> & Ha). exists x. by rewrite He, Ha.
Qed.

Lemma exposedOf_memory s item : s.(px_useDB) = false →
  exposedOf s item = mkExposed [] [] [] ∨
  let srv := item.(AccessibleServer_Server) in
  let scope := item.(AccessibleServer_Scope) in
  exposedOf s item = mkExposed
    (shownOf NamespacedTool srv.(MCPServer_Slug) scope.(AccessTokenMCPServer_ToolAllowlist)
      (List.filter (λ x, cap_server x =s srv.(MCPServer_ID)) s.(px_tools)))
    (shownOf NamespacedResourceURI srv.(MCPServer_Slug) scope.(AccessTokenMCPServer_ResourceAllowlist)
      (List.filter (λ x, cap_server x =s srv.(MCPServer_ID)) s.(px_resources)))
    (shownOf NamespacedPrompt srv.(MCPServer_Slug) scope.(AccessTokenMCPServer_PromptAllowlist)
      (List.filter (λ x, cap_server x =s srv.(MCPServer_ID)) s.(px_prompts))).
Proof.
  intros Hm. unfold exposedOf, GetCapabilities, ListTools, ListResources, ListPrompts. rewrite Hm.
  destruct (GetServer _ _) as [srv [err|]]; [by left|by right].
Qed.

Lemma shown_exposed {A} `{Capability A} appr ns allowlist item (l : list A) nx : approved_in appr l →
  nx ∈ shownOf ns item.(AccessibleServer_Server).(MCPServer_Slug) (allowlist item.(AccessibleServer_Scope))
         (List.filter (λ x, cap_server x =s item.(AccessibleServer_Server).(MCPServer_ID)) l) →
  exposed_ok appr ns allowlist item nx.
Proof.
  intros Hl (Hin & He & Hn & Ha)%elem_of_shownOf. apply elem_of_filter_bool in Hin as [Hin Hs%String.eqb_eq].
  split_and!; [done..|by apply allow_spec|]. rewrite <- Hs. by apply Hl.
Qed.

Lemma exposedOf_ok a s item : px_inv a s →
  (∀ nx, nx ∈ (exposedOf s item).(ex_Tools) → exposed_ok a.(ap_tools) NamespacedTool AccessTokenMCPServer_ToolAllowlist item nx)
  ∧ (∀ nx, nx ∈ (exposedOf s item).(ex_Resources) →
       exposed_ok a.(ap_resources) NamespacedResourceURI AccessTokenMCPServer_ResourceAllowlist item nx)
  ∧ (∀ nx, nx ∈ (exposedOf s item).(ex_Prompts) →
       exposed_ok a.(ap_prompts) NamespacedPrompt AccessTokenMCPServer_PromptAllowlist item nx).
Proof.
  intros [Hm Ht Hr Hp]. destruct (exposedOf_memory s item Hm) as [->| ->];
    cbn [ex_Tools ex_Resources ex_Prompts]; [set_solver|].
  split_and!; intros nx; eapply shown_exposed; done.
Qed.

Lemma elem_of_concat_map {A B} (f : A → list B) l x : x ∈ concat (map f l) ↔ ∃ y, y ∈ l ∧ x ∈ f y.
Proof.
  rewrite list_elem_of_In, in_concat. setoid_rewrite in_map_iff. setoid_rewrite <- list_elem_of_In. naive_solver.
Qed.

(** The servers the access rules give: each of them accessible, its scope
    one of the token's, or, without a token, open. *)
Lemma available_accessible s p token scopes servers :
  AvailableMCPServers (Some s) p token scopes = ok servers →
  ∀ item, item ∈ servers →
    evaluateMCPServerAccess p token scopes (ServerACLForSubject s (SubjectKeys p)).1
      item.(AccessibleServer_Server).(MCPServer_ID) PermissionMCPServerUse = true
    ∧ match token with Some _ => item.(AccessibleServer_Scope) ∈ scopes | None => True end.
Proof.
  unfold AvailableMCPServers. cbn [ms_ACLForSubject ms_ListServers ProxyStore_MCPServerStore].
  destruct (ServerACLForSubject s _) as [acl [err|]]; [done|]. cbn [fst]. destruct token as [t|].
  - destruct scopes as [|sc scopes]; [intros [= <-]; set_solver|]. set (all := sc :: scopes).
    destruct (ListServers s) as [l [err|]]; [done|]. intros Heq%(f_equal fst). cbn [fst ok] in Heq. subst servers.
    intros item (sc' & Hsc & Hi)%list_elem_of_omap.
    destruct (_ !! _) as [srv|]; [|done]. destruct (evaluateMCPServerAccess _ _ _ _ _ _) eqn:He; [|done].
    by injection Hi as <-.
  - destruct (ListServers s) as [l [err|]]; [done|]. intros Heq%(f_equal fst). cbn [fst ok] in Heq. subst servers.
    intros item (srv & Hsc & Hi)%list_elem_of_omap.
    destruct (evaluateMCPServerAccess _ _ _ _ _ _) eqn:He; [|done]. injection Hi as <-. split; [|done].
    revert He. by unfold evaluateMCPServerAccess.
Qed.


(** ** What is exposed can be called *)

Lemma find_by_key {A} (f : A → string) l x : NoDup (map f l) → x ∈ l → List.find (λ y, f y =s f x) l = Some x.
Proof.
  induction l as [|y l IH]; cbn [map List.find]; intros Hnd Hx; [by apply not_elem_of_nil in Hx|].
  apply NoDup_cons in Hnd as [Hny Hnd]. apply elem_of_cons in Hx as [<-|Hx]; [by rewrite String.eqb_refl|].
  rewrite seqb_neq_false; [by apply IH|]. intros Heq. apply Hny. rewrite Heq, list_elem_of_In.
  by apply in_map, list_elem_of_In.
Qed.

(** Servers a list of names can tell apart: as the Postgres schema keeps
    them, and under slugs as [Slugify] makes them. *)
Record distinct_servers servers : Prop := mkDistinctServers {
  ds_ids : NoDup (map (λ i, i.(AccessibleServer_Server).(MCPServer_ID)) servers);
  ds_slugs : NoDup (map (λ i, i.(AccessibleServer_Server).(MCPServer_Slug)) servers);
  ds_shape : ∀ i, i ∈ servers → let slug := i.(AccessibleServer_Server).(MCPServer_Slug) in
    slug ≠ "" ∧ Contains slug "_" = false ∧ Contains slug "/" = false
}.

Lemma target_found servers item parsed allowlist name up : distinct_servers servers → item ∈ servers →
  parsed = (item.(AccessibleServer_Server).(MCPServer_Slug), up, true) →
  allow (allowlist item.(AccessibleServer_Scope)) name = true →
  target parsed allowlist name servers = inl (item.(AccessibleServer_Server).(MCPServer_ID), up).
Proof.
  intros [Hids Hslugs _] Hin -> Ha. unfold target, findServerBySlug, findScope. cbn [negb].
  rewrite (find_by_key (λ i, i.(AccessibleServer_Server).(MCPServer_Slug)) servers item) by done. cbn [ok].
  rewrite (find_by_key (λ i, i.(AccessibleServer_Server).(MCPServer_ID)) servers item) by done.
  cbn [fmap option_fmap option_map]. by rewrite Ha.
Qed.

(** A call goes to a server of the list, past the allowlist of its scope. *)
Lemma target_accessible servers parsed allowlist name sid up :
  target parsed allowlist name servers = inl (sid, up) →
  ∃ item, item ∈ servers ∧ item.(AccessibleServer_Server).(MCPServer_ID) = sid
    ∧ (allowlist item.(AccessibleServer_Scope) = [] ∨ name ∈ allowlist item.(AccessibleServer_Scope)).
Proof.
  unfold target. destruct parsed as [[slug up'] [|]]; [cbn [negb]|done].
  destruct (findServerBySlug slug servers) as [srv [err|]]; [done|]. unfold findScope.
  destruct (List.find _ _) as [item|] eqn:Hf; cbn [fmap option_fmap option_map]; [|done].
  destruct (allow _ _) eqn:Ha; [|done]. intros [= <- <-].
  apply find_elem_of in Hf as [Hin Hid%String.eqb_eq]. exists item. split_and!; [done..|by apply allow_spec].
Qed.

Lemma exposed_target {A} `{Capability A} name servers item (l : list A) ns parse allowlist up nx :
  distinct_servers servers → item ∈ servers →
  nx ∈ shownOf ns item.(AccessibleServer_Server).(MCPServer_Slug) (allowlist item.(AccessibleServer_Scope))
         (List.filter (λ x, cap_server x =s item.(AccessibleServer_Server).(MCPServer_ID)) l) →
  parse (ns item.(AccessibleServer_Server).(MCPServer_Slug) (cap_key nx.2)) =
    (item.(AccessibleServer_Server).(MCPServer_Slug), up, true) →
  name = nx.1 → target (parse name) allowlist name servers = inl (cap_server nx.2, up).
Proof.
  intros Hd Hin (Hx & _ & Hn & Ha)%elem_of_shownOf Hp ->. apply elem_of_filter_bool in Hx as [_ ->%String.eqb_eq].
  apply target_found; [done..|by rewrite Hn|done].
Qed.

(** A resource with a leading slash is shown under the name of the one
    without it, and the name leads to that one. *)
Lemma leading_slash_lost slug uri : HasPrefix uri "/" = false →
  NamespacedResourceURI slug ("/" +:+ uri) = NamespacedResourceURI slug uri
  ∧ (slug ≠ "" → Contains slug "/" = false → uri ≠ "" →
     ParseNamespacedResourceURI (NamespacedResourceURI slug ("/" +:+ uri)) = (slug, uri, true)).
Proof.
  intros Hp. assert (Hn : NamespacedResourceURI slug ("/" +:+ uri) = NamespacedResourceURI slug uri).
  { assert (Hc : TrimPrefix ("/" +:+ uri) "/" = uri) by (by destruct uri). unfold NamespacedResourceURI. rewrite Hc.
    unfold TrimPrefix. by rewrite Hp. }
  split; [done|]. intros Hs Hsl Hu. assert (Ht : TrimPrefix uri "/" = uri) by (unfold TrimPrefix; by rewrite Hp).
  rewrite Hn, parse_resource by (done || by rewrite Ht). by rewrite Ht.
Qed.

(** C19. With servers that differ in identifier and slug, and slugs as
    [Slugify] makes them, every tool and prompt with a name and every resource
    whose URI has no leading slash that is shown to a caller can be called
    under the name it is shown with: the name is resolved to the server it
    came from and to its name there. And nothing else is reachable: a name
    that is resolved goes to a server of the caller's list and passes the
    allowlist of its scope. (Resources with a leading slash are the subject of
    [leading_slash_lost].) *)
Theorem exposed_callable m servers : m.(mg_store).(px_useDB) = false → distinct_servers servers →
  let shown := ExposedForAccess m servers in
  (∀ name x, (name, x) ∈ shown.(ex_Tools) → x.(MCPServerTool_ToolName) ≠ "" →
     toolTarget name servers = inl (x.(MCPServerTool_ServerID), x.(MCPServerTool_ToolName)))
  ∧ (∀ uri x, (uri, x) ∈ shown.(ex_Resources) → x.(MCPServerResource_URI) ≠ "" ∧ HasPrefix x.(MCPServerResource_URI) "/" = false →
     resourceTarget uri servers = inl (x.(MCPServerResource_ServerID), x.(MCPServerResource_URI)))
  ∧ (∀ name x, (name, x) ∈ shown.(ex_Prompts) → x.(MCPServerPrompt_PromptName) ≠ "" →
     promptTarget name servers = inl (x.(MCPServerPrompt_ServerID), x.(MCPServerPrompt_PromptName)))
  ∧ ∀ name sid up,
     let reaches allowlist := ∃ item, item ∈ servers ∧ item.(AccessibleServer_Server).(MCPServer_ID) = sid
       ∧ (allowlist item.(AccessibleServer_Scope) = [] ∨ name ∈ allowlist item.(AccessibleServer_Scope)) in
     (toolTarget name servers = inl (sid, up) → reaches AccessTokenMCPServer_ToolAllowlist)
     ∧ (resourceTarget name servers = inl (sid, up) → reaches AccessTokenMCPServer_ResourceAllowlist)
     ∧ (promptTarget name servers = inl (sid, up) → reaches AccessTokenMCPServer_PromptAllowlist).
Proof.
  intros Hm Hd shown. unfold shown, ExposedForAccess. cbn [ex_Tools ex_Resources ex_Prompts]. rewrite !map_map.
  split_and!; [| | |intros name sid up; split_and!; apply target_accessible];
    intros name x (item & Hitem & Hin)%elem_of_concat_map Hne; destruct (ds_shape _ Hd item Hitem) as (Hs & Hu & Hsl);
    destruct (exposedOf_memory m.(mg_store) item Hm) as [Heq|Heq]; rewrite Heq in Hin; cbn [ex_Tools ex_Resources ex_Prompts] in Hin;
    try by apply not_elem_of_nil in Hin.
  - refine (exposed_target name servers item _ NamespacedTool ParseNamespacedTool _ _ _ Hd Hitem Hin _ eq_refl). by apply parse_tool.
  - refine (exposed_target name servers item _ NamespacedResourceURI ParseNamespacedResourceURI _ _ _ Hd Hitem Hin _ eq_refl).
    destruct Hne as [Hne Hp]. assert (Ht : TrimPrefix x.(MCPServerResource_URI) "/" = x.(MCPServerResource_URI))
      by (unfold TrimPrefix; by rewrite Hp).
    change (cap_key (name, x).2) with x.(MCPServerResource_URI). rewrite <- Ht at 2. apply parse_resource; [done..|by rewrite Ht].
  - refine (exposed_target name servers item _ NamespacedPrompt ParseNamespacedPrompt _ _ _ Hd Hitem Hin _ eq_refl). by apply parse_tool.
Qed.

(** ** Stored credentials reach the upstream server *)

(** What the header carries: API keys and custom headers the secret as it is,
    all others a bearer credential. *)
Definition credential (auth : MCPAuthType) (secret : string) : string :=
  if bool_decide (auth = MCPAuthTypeAPIKey ∨ auth = MCPAuthTypeCustomHeader) then secret
  else if HasPrefix (ToLower unicode_lower secret) "bearer " then secret else "Bearer " +:+ secret.

(** Updates that leave the authentication as it is. *)
Definition keeps_auth (inp : UpdateServerInput) : Prop :=
  inp.(US_ClearAuthSecret) = false ∧ (inp.(US_AuthSecret) = None ∨ inp.(US_AuthSecret) = Some "")
  ∧ inp.(US_AuthType) = None ∧ inp.(US_AuthHeaderName) = None.

(** Operations that do not concern the credential of server [id]. *)
Definition op_spares (id : string) (op : px_op) : Prop :=
  match op with
  | PCreate e _ => uuid e 51 ≠ id
  | PUpdate _ id' inp => id' ≠ id ∨ keeps_auth inp
  | PClear _ id' | PDelete id' => id' ≠ id
  | _ => True
  end.

Record holds_secret (id : string) (auth : MCPAuthType) (header key : string) (row : secretRow) (s : ProxyStore) : Prop :=
  mkHoldsSecret {
    hs_memory : s.(px_useDB) = false;
    hs_cipher : s.(px_cipher) = Some key;
    hs_row : s.(px_secrets) !! id = Some row;
    hs_server : ∃ srv, s.(px_servers) !! id = Some srv ∧ srv.(MCPServer_ID) = id
      ∧ srv.(MCPServer_AuthType) = auth ∧ srv.(MCPServer_AuthHeaderName) = header
  }.

Section Secret.
Context (id : string) (auth : MCPAuthType) (header key : string) (row : secretRow).
#[local] Abbreviation holds := (holds_secret id auth header key row).

(** Another version of a server with the same authentication is stored. *)
Lemma holds_restore s s' k srv srv' : holds s →
  s'.(px_useDB) = s.(px_useDB) → s'.(px_cipher) = s.(px_cipher) → s'.(px_secrets) !! id = s.(px_secrets) !! id →
  s'.(px_servers) = <[k := srv']> s.(px_servers) →
  (k = id → s.(px_servers) !! k = Some srv → srv'.(MCPServer_ID) = srv.(MCPServer_ID)
     ∧ srv'.(MCPServer_AuthType) = srv.(MCPServer_AuthType) ∧ srv'.(MCPServer_AuthHeaderName) = srv.(MCPServer_AuthHeaderName)) →
  (k = id → s.(px_servers) !! k = Some srv) → holds s'.
Proof.
  intros [Hm Hc Hr (srv0 & Hs & Hid & Ha & Hh)] Hm' Hc' Hr' Hs' Hsame Hk. split; [by rewrite Hm'|by rewrite Hc'|by rewrite Hr'|].
  rewrite Hs'. destruct (decide (k = id)) as [->|Hne].
  - rewrite lookup_insert_eq. exists srv'. specialize (Hk eq_refl). destruct (Hsame eq_refl Hk) as (-> & -> & ->).
    rewrite Hs in Hk. by injection Hk as <-.
  - rewrite lookup_insert_ne by done. by exists srv0.
Qed.

Lemma holds_same s s' : holds s → s'.(px_useDB) = s.(px_useDB) → s'.(px_cipher) = s.(px_cipher) →
  s'.(px_secrets) !! id = s.(px_secrets) !! id → s'.(px_servers) !! id = s.(px_servers) !! id → holds s'.
Proof.
  intros [Hm Hc Hr Hs] Hm' Hc' Hr' Hs'. by split; [rewrite Hm'|rewrite Hc'|rewrite Hr'|rewrite Hs'].
Qed.

Lemma holds_status e s sid st err c : holds s → holds (SetServerStatus e s sid st err c).1.
Proof.
  intros Hh. unfold SetServerStatus. rewrite (hs_memory _ _ _ _ _ _ Hh).
  destruct (s.(px_servers) !! sid) as [srv|] eqn:Hs; [|done]. by eapply (holds_restore s _ sid srv).
Qed.

Lemma holds_create e s inp : holds s → uuid e 51 ≠ id → holds (CreateServer unicode_lower e s inp).1.
Proof.
  intros Hh Hne. unfold CreateServer. rewrite (hs_memory _ _ _ _ _ _ Hh). case_match; [done|].
  destruct (encryptSecret _ _ _) as [sec [err|]]; [done|].
  eapply holds_same; [exact Hh| | | |]; cbn -[slen Z.ltb newServer]; destruct (0 <? slen sec.(sec_encrypted))%Z;
    cbn -[newServer]; rewrite ?lookup_insert_ne by done; try done; symmetry; apply hs_memory in Hh; done.
Qed.

Lemma updatedServer_auth t s srv inp : keeps_auth inp →
  let srv' := updatedServer t (withSecretFlag s id srv) inp in
  srv'.(MCPServer_ID) = srv.(MCPServer_ID) ∧ srv'.(MCPServer_AuthType) = srv.(MCPServer_AuthType)
  ∧ srv'.(MCPServer_AuthHeaderName) = srv.(MCPServer_AuthHeaderName).
Proof.
  intros (_ & _ & Ha & Hn). unfold updatedServer, withSecretFlag. rewrite Ha, Hn. destruct srv. by destruct (hasSecret s id).
Qed.

Lemma holds_update e s id' inp : holds s → id' ≠ id ∨ keeps_auth inp → holds (UpdateServer e s id' inp).1.
Proof.
  intros Hh Hk. assert (Hm := hs_memory _ _ _ _ _ _ Hh). unfold UpdateServer, GetServer. rewrite Hm.
  destruct (s.(px_servers) !! id') as [srv|] eqn:Hs; [|done].
  destruct (secretForUpdate _ _ _ _) as [[sec has] [err|]]; [done|].
  assert (Hu : keeps_auth inp → id' = id → let srv' := updatedServer (now e 0) (withSecretFlag s id' srv) inp in
    srv'.(MCPServer_ID) = srv.(MCPServer_ID) ∧ srv'.(MCPServer_AuthType) = srv.(MCPServer_AuthType)
    ∧ srv'.(MCPServer_AuthHeaderName) = srv.(MCPServer_AuthHeaderName)) by (intros ? ->; by apply updatedServer_auth).
  cbn [ok]. revert Hu. generalize (updatedServer (now e 0) (withSecretFlag s id' srv) inp). intros srv' Hu.
  eapply (holds_restore s _ id' srv (srv' <| MCPServer_HasAuthSecret := has |>)); [exact Hh|..|done].
  - by destruct inp.(US_ClearAuthSecret), inp.(US_AuthSecret) as [v|]; [..|cbn -[String.eqb]; case_match|].
  - by destruct inp.(US_ClearAuthSecret), inp.(US_AuthSecret) as [v|]; [..|cbn -[String.eqb]; case_match|].
  - destruct Hk as [Hne|(-> & [-> | ->] & _)]; [|done..].
    destruct inp.(US_ClearAuthSecret), inp.(US_AuthSecret) as [v|]; cbn -[String.eqb]; [..|case_match|]; cbn;
      rewrite ?lookup_delete_ne, ?lookup_insert_ne by done; done.
  - by destruct inp.(US_ClearAuthSecret), inp.(US_AuthSecret) as [v|]; [..|cbn -[String.eqb]; case_match|].
  - intros -> _. destruct Hk as [?|Hk]; [done|]. by apply Hu.
Qed.

Lemma holds_step m op : holds m.(mg_store) → op_spares id op → holds (px_step m op).(mg_store).
Proof.
  intros Hh Hop. assert (Hm := hs_memory _ _ _ _ _ _ Hh). destruct op; cbn [px_step on_store op_spares] in *.
  - by apply holds_create.
  - by apply holds_update.
  - cbn. unfold ClearAuthSecret. rewrite Hm. case_match; eapply holds_same; try exact Hh; try done; cbn;
      by rewrite ?lookup_delete_ne, ?lookup_insert_ne.
  - cbn. unfold DeleteServer. rewrite Hm. eapply holds_same; try exact Hh; try done; cbn; by rewrite ?lookup_delete_ne.
  - cbn. unfold UpsertServerACL. rewrite Hm. by eapply holds_same.
  - cbn. unfold ReplaceTokenMCPServers. rewrite Hm. by eapply holds_same.
  - cbn. unfold SetEnabledCapabilities. rewrite Hm. by eapply holds_same.
  - destruct (ConnectTest_store e m id0) as [->|[(st & err & c & ->)|(lt & lr & lp & _ & _ & _ & Hs)]]; [done|by apply holds_status|].
    assert (Hd : holds (UpsertDiscovery m.(mg_store) id0 lt lr lp).1).
    { unfold UpsertDiscovery. rewrite Hm. by eapply holds_same. }
    cbn in Hs. destruct Hs as [->|(st & err & c & ->)]; [done|by apply holds_status].
  - unfold CallTool. destruct (toolTarget _ _) as [[sid up]|err]; [by rewrite forward_store|done].
  - unfold ReadResource. destruct (resourceTarget _ _) as [[sid up]|err]; [by rewrite forward_store|done].
  - unfold GetPrompt. destruct (promptTarget _ _) as [[sid up]|err]; [by rewrite forward_store|done].
Qed.

Lemma holds_run m ops : holds m.(mg_store) → Forall (op_spares id) ops → holds (px_run m ops).(mg_store).
Proof.
  intros Hh Hops. revert m Hh. induction Hops as [|op ops Hop Hops IH]; intros m Hh; cbn; [done|].
  by apply IH, holds_step.
Qed.
End Secret.

(** Creating a server with a secret stores the sealed secret. *)
Lemma CreateServer_holds e s inp key nonce s' srv : s.(px_useDB) = false → s.(px_cipher) = Some key → rnd e 0 = Some nonce →
  inp.(CS_AuthSecret) ≠ "" → gcm_seal key nonce inp.(CS_AuthSecret) ≠ "" →
  CreateServer unicode_lower e s inp = (s', ok srv) →
  holds_secret srv.(MCPServer_ID) srv.(MCPServer_AuthType) srv.(MCPServer_AuthHeaderName) key
    (mkSecretRow (gcm_seal key nonce inp.(CS_AuthSecret)) nonce) s'.
Proof.
  intros Hm Hc Hn Hs Hseal. unfold CreateServer. case_match; [done|].
  unfold encryptSecret. rewrite Hc, Hn, bool_decide_false by done. rewrite (seqb_neq_false inp.(CS_AuthSecret)) by done.
  cbn [orb]. unfold Encrypt. rewrite (seqb_neq_false inp.(CS_AuthSecret)) by done. cbn [ok sec_encrypted].
  assert (Hlen : (0 <? slen (gcm_seal key nonce inp.(CS_AuthSecret)))%Z = true).
  { apply Z.ltb_lt. by destruct (gcm_seal key nonce inp.(CS_AuthSecret)). }
  rewrite Hlen, Hm. generalize (newServer (now e 0) (uuid e 51)
    (if inp.(CS_Slug) =s "" then deriveServerSlug unicode_lower e s inp.(CS_Name) else inp.(CS_Slug)) inp). intros srv0 Heq.
  apply pair_equal_spec in Heq as [<- Heq%(f_equal fst)]. cbn [fst ok] in Heq. subst srv. split; [done|done|cbn..].
  - by rewrite lookup_insert_eq.
  - eexists. by rewrite lookup_insert_eq.
Qed.

Lemma holds_headers sid auth header key nonce secret s srv : secret ≠ "" →
  gcm_seal key nonce secret ≠ "" → gcm_open key nonce (gcm_seal key nonce secret) = Some secret →
  holds_secret sid auth header key (mkSecretRow (gcm_seal key nonce secret) nonce) s →
  srv.(MCPServer_ID) = sid → srv.(MCPServer_AuthType) = auth → srv.(MCPServer_AuthHeaderName) = header →
  ∃ headers, AuthHeaders unicode_lower headers_decode s srv = ok headers ∧ headers !! header = Some (credential auth secret).
Proof.
  intros Hne Hse Hopen [Hm Hc Hr _] Hid Ha Hh. unfold AuthHeaders, loadSecretRow, get0. rewrite Hm, Hid, Hr, Hc. cbn [ok default id].
  unfold Decrypt. cbn [sec_encrypted sec_nonce]. rewrite (seqb_neq_false (gcm_seal _ _ _)) by done. rewrite Hopen. cbn [ok].
  rewrite (seqb_neq_false secret), Ha, Hh by done. unfold credential.
  destruct (String.eqb_spec auth MCPAuthTypeAPIKey); [|destruct (String.eqb_spec auth MCPAuthTypeCustomHeader)]; cbn [orb].
  - rewrite bool_decide_true by auto. eexists. by rewrite lookup_insert_eq.
  - rewrite bool_decide_true by auto. eexists. by rewrite lookup_insert_eq.
  - rewrite bool_decide_false by by intros [?|?].
    case_match; eexists; by rewrite lookup_insert_eq.
Qed.

(** C20. The secret an administrator gives with a server comes out of its
    encrypted form unchanged and goes to that server's address in its
    authentication header, after any run of operations that does not replace
    its authentication: other servers being created, changed or deleted,
    connection tests that succeed or fail, calls, and updates of the server
    itself that leave the secret field empty. *)
Theorem secret_delivered e m inp key nonce s srv ops t :
  m.(mg_store).(px_useDB) = false → m.(mg_store).(px_cipher) = Some key → rnd e 0 = Some nonce →
  inp.(CS_AuthSecret) ≠ "" → gcm_seal key nonce inp.(CS_AuthSecret) ≠ "" →
  gcm_open key nonce (gcm_seal key nonce inp.(CS_AuthSecret)) = Some inp.(CS_AuthSecret) →
  CreateServer unicode_lower e m.(mg_store) inp = (s, ok srv) →
  Forall (op_spares srv.(MCPServer_ID)) ops →
  let m' := px_run (on_store m s) ops in
  ∃ srv' client, GetServer m'.(mg_store) srv.(MCPServer_ID) = ok srv'
    ∧ newClient unicode_lower headers_decode cfg t m' srv' = ok (Some client)
    ∧ client.(cl_url) = srv'.(MCPServer_URL)
    ∧ client.(cl_headers) !! srv.(MCPServer_AuthHeaderName) = Some (credential srv.(MCPServer_AuthType) inp.(CS_AuthSecret)).
Proof.
  intros Hm Hc Hn Hne Hse Hopen Hcr Hops m'.
  pose proof (holds_run _ _ _ _ _ (on_store m s) ops (CreateServer_holds _ _ _ _ _ _ _ Hm Hc Hn Hne Hse Hcr) Hops) as Hh.
  fold m' in Hh. destruct (hs_server _ _ _ _ _ _ Hh) as (srv0 & Hs & Hid & Ha & Hhd).
  exists (withSecretFlag m'.(mg_store) srv.(MCPServer_ID) srv0).
  destruct (holds_headers _ _ _ _ _ _ _ (withSecretFlag m'.(mg_store) srv.(MCPServer_ID) srv0) Hne Hse Hopen Hh)
    as (headers & Hhs & Hl); [unfold withSecretFlag; by case_match..|].
  eexists. unfold GetServer. rewrite (hs_memory _ _ _ _ _ _ Hh), Hs. split; [done|].
  unfold newClient. rewrite Hhs. split; [done|]. by cbn.
Qed.
End Runs.

(** ** Witnesses *)

Section Witnesses.
#[local] Existing Instance canonical_range.
#[local] Instance wp_db : ProxyDB := {|
  PD := unit; pd_exec := λ _ d, (d, None); pd_begin := λ _, None; pd_commit := λ _, None; pd_servers := λ _, ok [];
  pd_server := λ _ _, ok zeroval; pd_server_by_slug := λ _ _, ok zeroval; pd_acl_server := λ _ _, ok [];
  pd_acl_subjects := λ _ _, ok []; pd_tools := λ _ _, ok []; pd_resources := λ _ _, ok []; pd_prompts := λ _ _, ok [];
  pd_token_scopes := λ _ _, ok []; pd_secret := λ _ _, ok zeroval
|}.
(** A cipher that puts a mark before its input. *)
#[local] Instance wp_aead : AEAD := {| gcm_seal := λ _ _ p, "s" +:+ p; gcm_open := λ _ _ c, Some (TrimPrefix c "s") |}.
(** A network whose servers offer one tool, one resource and one prompt. *)
#[local] Instance wp_net : Upstream := {| UW := unit; http_do := λ _ w, (w, ok (mkHTTPResponse 200 "sess" "{}")) |}.

Definition wp_object : list (string * Any) :=
  [("tools", AArray [AObject [("name", AString "get")]; AObject [("name", AString "drop")]]);
   ("resources", AArray [AObject [("uri", AString "file:///a")]]); ("prompts", AArray [AObject [("name", AString "ask")]])].
Definition wp_cfg : MCPProxyConfig := mkMCPProxyConfig true "" 600 30 120.
Definition wp_step (m : Manager) (op : px_op) : Manager :=
  px_step (λ r, r) (λ _, None) (λ _, Some "{}") (λ _, true) (λ _, inl (mkRPCResponse None "{}")) (λ _, inl wp_object) wp_cfg m op.
Definition wp_run (m : Manager) (ops : list px_op) : Manager := foldl wp_step m ops.
Definition wp_env : Env := mkEnv (λ _, 100%Z) (λ i, "u" +:+ pretty i) (λ _, Some "nonce").
Definition wp_input : CreateServerInput := mkCreateServerInput "" "My Server" "user:internal:u" "" "https://up" "" "" "" "key".
Definition wp_m0 : Manager := mkManager _ _ (NewProxyStore (Some "k") tt) ∅ tt.
Definition wp_ops : list px_op := [PCreate wp_env wp_input; PConnect wp_env "u51"; PApprove "u51" ["get"] ["file:///a"] ["ask"]].
Definition wp_scope : AccessTokenMCPServer :=
  (zeroval : AccessTokenMCPServer) <| AccessTokenMCPServer_TokenID := "t" |> <| AccessTokenMCPServer_ServerID := "u51" |>
    <| AccessTokenMCPServer_ToolAllowlist := ["my-server__get"] |>.
Definition wp_servers : list AccessibleServer :=
  (AvailableMCPServers (Some (wp_run wp_m0 wp_ops).(mg_store)) w_principal (Some zeroval) [wp_scope]).1.
Definition wp_shown : Exposed := ExposedForAccess (wp_run wp_m0 wp_ops) wp_servers.


Lemma wp_distinct : distinct_servers wp_servers.
Proof.
  assert (Hl : map (λ i, (i.(AccessibleServer_Server).(MCPServer_ID), i.(AccessibleServer_Server).(MCPServer_Slug))) wp_servers
    = [("u51", "my-server")]) by by vm_compute.
  destruct wp_servers as [|i [|j l]]; [done| |done]. injection Hl as Hid Hsl. split; cbn; [apply NoDup_singleton..|].
  intros i' ->%list_elem_of_singleton. by rewrite Hsl.
Qed.

(** Its name leads back to the server's tool. *)
Lemma exposed_callable_witness :
  toolTarget "my-server__get" wp_servers = inl ("u51", "get")
  ∧ toolTarget "my-server__drop" wp_servers = inr ErrForbidden.
Proof.
  split; [|by vm_compute].
  apply (proj1 (exposed_callable (wp_run wp_m0 wp_ops) wp_servers ltac:(by vm_compute) wp_distinct)
    "my-server__get" (mkMCPServerTool "u51" "get" "" "" true 100)); [|done].
  by vm_compute; left.
Defined.

(** The key given with the server reaches it after a connection test and a
    change of its name. *)
Definition wp_rename : UpdateServerInput := mkUpdateServerInput (Some "New") None None None None None (Some "") false.
Definition wp_created := CreateServer (λ r, r) wp_env wp_m0.(mg_store) wp_input.
Lemma secret_delivered_witness :
  let m' := wp_run (on_store wp_m0 wp_created.1) [PConnect wp_env "u51"; PUpdate wp_env "u51" wp_rename] in
  ∃ srv' client, GetServer m'.(mg_store) "u51" = ok srv'
    ∧ newClient (λ r, r) (λ _, None) wp_cfg 200 m' srv' = ok (Some client)
    ∧ client.(cl_url) = srv'.(MCPServer_URL)
    ∧ client.(cl_headers) !! "Authorization" = Some "Bearer key".
Proof.
  refine (secret_delivered (λ r, r) (λ _, None) (λ _, Some "{}") (λ _, true) (λ _, inl (mkRPCResponse None "{}"))
    (λ _, inl wp_object) wp_cfg wp_env wp_m0 wp_input "k" "nonce" wp_created.1 wp_created.2.1
    [PConnect wp_env "u51"; PUpdate wp_env "u51" wp_rename] 200 eq_refl eq_refl eq_refl _ _ eq_refl _ _);
    [done..|by vm_compute|].
  constructor; [done|]. constructor; [|constructor]. right. by split_and!; [| right| |].
Defined.

(** ** Limits *)

(** A tool that was not enabled is hidden, and yet a call of it is sent: the
    flag is not looked at on the way. *)
Definition wp_open : list AccessibleServer :=
  (AvailableMCPServers (Some (wp_run wp_m0 wp_ops).(mg_store)) w_principal None []).1.
Definition wp_call := CallTool (λ r, r) (λ _, None) (λ _, Some "{}") (λ _, true) (λ _, inl (mkRPCResponse None "{}"))
  (λ _, inl wp_object) wp_cfg wp_env.
Lemma disabled_tool_callable :
  ¬ "my-server__drop" ∈ (fst <$> (ExposedForAccess (wp_run wp_m0 wp_ops) wp_open).(ex_Tools))
  ∧ (wp_call (wp_run wp_m0 wp_ops) "my-server__drop" ANil wp_open).2 = ok wp_object.
Proof.
  split; [|by vm_compute]. replace (fst <$> (ExposedForAccess (wp_run wp_m0 wp_ops) wp_open).(ex_Tools)) with ["my-server__get"] by by vm_compute.
  rewrite list_elem_of_singleton. done.
Qed.

(** A session opened before the secret was removed still carries it. *)
Lemma cleared_secret_still_sent :
  let m := wp_run wp_m0 (wp_ops ++ [PClear wp_env "u51"]) in
  m.(mg_store).(px_secrets) !! "u51" = None
  ∧ ∃ c, getClient (λ r, r) (λ _, None) (λ _, Some "{}") (λ _, true) (λ _, inl (mkRPCResponse None "{}")) (λ _, inl wp_object)
           wp_cfg wp_env m "u51" = (m, ok (Some c)) ∧ c.(cl_headers) !! "Authorization" = Some "Bearer key".
Proof. split; [by vm_compute|]. eexists. split; by vm_compute. Qed.
End Witnesses.
