(* ===== verification/GoNet.v ===== *)
(** What the source uses of Go's package [net]: splitting an address and the
    classes of IP addresses. *)
From S2P Require Import Prelude GoStrings.
From Stdlib Require Import Ascii.

(** ** [net.SplitHostPort] *)

Definition errAddr (why addr : string) : error :=
  NewError (if addr =s "" then why else "address " +:+ addr +:+ ": " +:+ why).

(** The text before and after the last colon. *)
Fixpoint lastColon (s : string) : option (string * string) :=
  match s with
  | "" => None
  | String c rest =>
      match lastColon rest with
      | Some (before, after) => Some (String c before, after)
      | None => if Ascii.eqb c ":"%char then Some ("", rest) else None
      end
  end.

Definition SplitHostPort (hostport : string) : ret (string * string) :=
  let failed why := fails ("", "") (errAddr why hostport) in
  match lastColon hostport with
  | None => failed "missing port in address"
  | Some (before, port) =>
      if HasPrefix hostport "[" then
        match Cut (drop_bytes 1 hostport) "]" with
        | (_, _, false) => failed "missing ']' in address"
        | (host, rest, true) =>
            if (rest =s "") || negb (slen rest =? 1 + slen port)%Z then
              failed (if HasPrefix rest ":" then "too many colons in address" else "missing port in address")
            else if Contains (drop_bytes 1 hostport) "[" then failed "unexpected '[' in address"
            else if Contains rest "]" then failed "unexpected ']' in address"
            else ok (host, port)
        end
      else if Contains before ":" then failed "too many colons in address"
      else if Contains hostport "[" then failed "unexpected '[' in address"
      else if Contains hostport "]" then failed "unexpected ']' in address"
      else ok (before, port)
  end.

(** ** [net.IP] *)

(** The bytes of an address, four or sixteen. *)
Definition IP : Type := list Z.

Definition v4InV6Prefix : list Z := [0; 0; 0; 0; 0; 0; 0; 0; 0; 0; 255; 255]%Z.

Definition To4 (ip : IP) : option (list Z) :=
  if (length ip =? 4)%nat then Some ip
  else if (length ip =? 16)%nat && bool_decide (take 12 ip = v4InV6Prefix) then Some (drop 12 ip)
  else None.

Definition octet (ip : list Z) (i : nat) : Z := nth i ip 0%Z.

Definition IPv6loopback : IP := [0; 0; 0; 0; 0; 0; 0; 0; 0; 0; 0; 0; 0; 0; 0; 1]%Z.
Definition IPv6unspecified : IP := replicate 16 0%Z.

Definition IsLoopback (ip : IP) : bool :=
  match To4 ip with
  | Some ip4 => (octet ip4 0 =? 127)%Z
  | None => bool_decide (ip = IPv6loopback)
  end.

Definition IsLinkLocalUnicast (ip : IP) : bool :=
  match To4 ip with
  | Some ip4 => ((octet ip4 0 =? 169) && (octet ip4 1 =? 254))%Z
  | None => (length ip =? 16)%nat && (octet ip 0 =? 254)%Z && (Z.land (octet ip 1) 192 =? 128)%Z
  end.

Definition IsLinkLocalMulticast (ip : IP) : bool :=
  match To4 ip with
  | Some ip4 => ((octet ip4 0 =? 224) && (octet ip4 1 =? 0) && (octet ip4 2 =? 0))%Z
  | None => (length ip =? 16)%nat && (octet ip 0 =? 255)%Z && (Z.land (octet ip 1) 15 =? 2)%Z
  end.

Definition IsMulticast (ip : IP) : bool :=
  match To4 ip with
  | Some ip4 => (Z.land (octet ip4 0) 240 =? 224)%Z
  | None => (length ip =? 16)%nat && (octet ip 0 =? 255)%Z
  end.

Definition IsUnspecified (ip : IP) : bool :=
  match To4 ip with
  | Some ip4 => bool_decide (ip4 = [0; 0; 0; 0]%Z)
  | None => bool_decide (ip = IPv6unspecified)
  end.

Definition IsPrivate (ip : IP) : bool :=
  match To4 ip with
  | Some ip4 => ((octet ip4 0 =? 10) || (octet ip4 0 =? 172) && (Z.land (octet ip4 1) 240 =? 16)
                 || (octet ip4 0 =? 192) && (octet ip4 1 =? 168))%Z
  | None => (length ip =? 16)%nat && (Z.land (octet ip 0) 254 =? 252)%Z
  end.
