(* ===== verification/Config.v ===== *)
(** [internal/config/config.go]: the configuration, what the environment puts
    over it, its defaults and its validation.

    The environment of the process is a map. YAML and the file system are
    parameters, as are [strconv.Atoi] and [net.ParseIP]. *)
From S2P Require Import Prelude GoStrings GoNet Models DataObj Auth ProxyManager.
From Stdlib Require Import Ascii.

(** ** The sections *)

#[export] Instance zero_TeleportConfig : Zero TeleportConfig := mkTeleportConfig false "" "".
#[export] Instance zero_MCPProxyConfig : Zero MCPProxyConfig := mkMCPProxyConfig false "" 0 0 0.

Record ServerConfig := mkServerConfig {
  ServerConfig_ListenAddr : string;
  ServerConfig_PublicBaseURL : string;
  ServerConfig_DevMode : bool
}.
#[export] Instance settable_ServerConfig : Settable ServerConfig := λ r, mkServerConfig r.(ServerConfig_ListenAddr)
    r.(ServerConfig_PublicBaseURL) r.(ServerConfig_DevMode).
#[export] Instance zero_ServerConfig : Zero ServerConfig := mkServerConfig zeroval zeroval zeroval.

Record TransportConfig := mkTransportConfig {
  TransportConfig_StreamableHTTP : bool;
  TransportConfig_LegacySSE : bool
}.
#[export] Instance settable_TransportConfig : Settable TransportConfig := λ r, mkTransportConfig
    r.(TransportConfig_StreamableHTTP) r.(TransportConfig_LegacySSE).
#[export] Instance zero_TransportConfig : Zero TransportConfig := mkTransportConfig zeroval zeroval.

Record UserUIConfig := mkUserUIConfig {
  UserUIConfig_Enabled : bool
}.
#[export] Instance settable_UserUIConfig : Settable UserUIConfig := λ r, mkUserUIConfig r.(UserUIConfig_Enabled).
#[export] Instance zero_UserUIConfig : Zero UserUIConfig := mkUserUIConfig zeroval.

Record DefaultAdminConfig := mkDefaultAdminConfig {
  DefaultAdminConfig_Enabled : bool;
  DefaultAdminConfig_Username : string;
  DefaultAdminConfig_PasswordEnvRef : string;
  DefaultAdminConfig_SessionTTLHours : Z
}.
#[export] Instance settable_DefaultAdminConfig : Settable DefaultAdminConfig := λ r, mkDefaultAdminConfig
    r.(DefaultAdminConfig_Enabled) r.(DefaultAdminConfig_Username) r.(DefaultAdminConfig_PasswordEnvRef)
    r.(DefaultAdminConfig_SessionTTLHours).
#[export] Instance zero_DefaultAdminConfig : Zero DefaultAdminConfig := mkDefaultAdminConfig zeroval zeroval zeroval
    zeroval.

Record WebConfig := mkWebConfig {
  WebConfig_EnableUI : bool;
  WebConfig_UserUI : UserUIConfig;
  WebConfig_Admin : DefaultAdminConfig
}.
#[export] Instance settable_WebConfig : Settable WebConfig := λ r, mkWebConfig r.(WebConfig_EnableUI)
    r.(WebConfig_UserUI) r.(WebConfig_Admin).
#[export] Instance zero_WebConfig : Zero WebConfig := mkWebConfig zeroval zeroval zeroval.

Record OAuthConfig := mkOAuthConfig {
  OAuthConfig_Providers : list ProviderConfig;
  OAuthConfig_GoogleDomains : list string
}.
#[export] Instance settable_OAuthConfig : Settable OAuthConfig := λ r, mkOAuthConfig r.(OAuthConfig_Providers)
    r.(OAuthConfig_GoogleDomains).
#[export] Instance zero_OAuthConfig : Zero OAuthConfig := mkOAuthConfig zeroval zeroval.

Record OAuthASConfig := mkOAuthASConfig {
  OAuthASConfig_Enabled : bool;
  OAuthASConfig_PublicBaseURL : string;
  OAuthASConfig_AuthorizationCodeTTLSeconds : Z;
  OAuthASConfig_AccessTokenTTLHours : Z;
  OAuthASConfig_RefreshTokenTTLHours : Z;
  OAuthASConfig_DefaultTokenMode : string;
  OAuthASConfig_AllowedRedirectURIPatterns : list string
}.
#[export] Instance settable_OAuthASConfig : Settable OAuthASConfig := λ r, mkOAuthASConfig r.(OAuthASConfig_Enabled)
    r.(OAuthASConfig_PublicBaseURL) r.(OAuthASConfig_AuthorizationCodeTTLSeconds) r.(OAuthASConfig_AccessTokenTTLHours)
    r.(OAuthASConfig_RefreshTokenTTLHours) r.(OAuthASConfig_DefaultTokenMode)
    r.(OAuthASConfig_AllowedRedirectURIPatterns).
#[export] Instance zero_OAuthASConfig : Zero OAuthASConfig := mkOAuthASConfig zeroval zeroval zeroval zeroval zeroval
    zeroval zeroval.

Record RedisConfig := mkRedisConfig {
  RedisConfig_Addr : string;
  RedisConfig_Password : string;
  RedisConfig_DB : Z;
  RedisConfig_KeyPrefix : string;
  RedisConfig_TTLHours : Z
}.
#[export] Instance settable_RedisConfig : Settable RedisConfig := λ r, mkRedisConfig r.(RedisConfig_Addr)
    r.(RedisConfig_Password) r.(RedisConfig_DB) r.(RedisConfig_KeyPrefix) r.(RedisConfig_TTLHours).
#[export] Instance zero_RedisConfig : Zero RedisConfig := mkRedisConfig zeroval zeroval zeroval zeroval zeroval.

Record S3Config := mkS3Config {
  S3Config_Endpoint : string;
  S3Config_Bucket : string;
  S3Config_KeyPrefix : string;
  S3Config_LargeDocBytes : Z;
  S3Config_AccessKeyEnvRef : string;
  S3Config_SecretKeyEnvRef : string;
  S3Config_UseSSL : bool
}.
#[export] Instance settable_S3Config : Settable S3Config := λ r, mkS3Config r.(S3Config_Endpoint) r.(S3Config_Bucket)
    r.(S3Config_KeyPrefix) r.(S3Config_LargeDocBytes) r.(S3Config_AccessKeyEnvRef) r.(S3Config_SecretKeyEnvRef)
    r.(S3Config_UseSSL).
#[export] Instance zero_S3Config : Zero S3Config := mkS3Config zeroval zeroval zeroval zeroval zeroval zeroval zeroval.

Record ModelConfig := mkModelConfig {
  ModelConfig_Provider : string;
  ModelConfig_Model : string;
  ModelConfig_API : string;
  ModelConfig_APIKeyEnvRef : string;
  ModelConfig_MaxInputTokens : Z;
  ModelConfig_MaxOutputTokens : Z
}.
#[export] Instance settable_ModelConfig : Settable ModelConfig := λ r, mkModelConfig r.(ModelConfig_Provider)
    r.(ModelConfig_Model) r.(ModelConfig_API) r.(ModelConfig_APIKeyEnvRef) r.(ModelConfig_MaxInputTokens)
    r.(ModelConfig_MaxOutputTokens).
#[export] Instance zero_ModelConfig : Zero ModelConfig := mkModelConfig zeroval zeroval zeroval zeroval zeroval zeroval.

Record VectorBackendConfig := mkVectorBackendConfig {
  VectorBackendConfig_Active : string;
  VectorBackendConfig_QdrantURL : string;
  VectorBackendConfig_QdrantCollection : string
}.
#[export] Instance settable_VectorBackendConfig : Settable VectorBackendConfig := λ r, mkVectorBackendConfig
    r.(VectorBackendConfig_Active) r.(VectorBackendConfig_QdrantURL) r.(VectorBackendConfig_QdrantCollection).
#[export] Instance zero_VectorBackendConfig : Zero VectorBackendConfig := mkVectorBackendConfig zeroval zeroval zeroval.

Record MetadataConfig := mkMetadataConfig {
  MetadataConfig_Driver : string;
  MetadataConfig_DSN : string;
  MetadataConfig_PoolMaxConns : Z;
  MetadataConfig_PoolMinConns : Z
}.
#[export] Instance settable_MetadataConfig : Settable MetadataConfig := λ r, mkMetadataConfig r.(MetadataConfig_Driver)
    r.(MetadataConfig_DSN) r.(MetadataConfig_PoolMaxConns) r.(MetadataConfig_PoolMinConns).
#[export] Instance zero_MetadataConfig : Zero MetadataConfig := mkMetadataConfig zeroval zeroval zeroval zeroval.

Record ChunkingConfig := mkChunkingConfig {
  ChunkingConfig_ChunkSize : Z;
  ChunkingConfig_Overlap : Z
}.
#[export] Instance settable_ChunkingConfig : Settable ChunkingConfig := λ r, mkChunkingConfig
    r.(ChunkingConfig_ChunkSize) r.(ChunkingConfig_Overlap).
#[export] Instance zero_ChunkingConfig : Zero ChunkingConfig := mkChunkingConfig zeroval zeroval.

Record LimitsConfig := mkLimitsConfig {
  LimitsConfig_MaxUploadBytes : Z
}.
#[export] Instance settable_LimitsConfig : Settable LimitsConfig := λ r, mkLimitsConfig r.(LimitsConfig_MaxUploadBytes).
#[export] Instance zero_LimitsConfig : Zero LimitsConfig := mkLimitsConfig zeroval.

Record APIConfig := mkAPIConfig {
  APIConfig_Scopes : list string;
  APIConfig_AllowedOrigins : list string;
  APIConfig_TrustedProxyCIDR : list string
}.
#[export] Instance settable_APIConfig : Settable APIConfig := λ r, mkAPIConfig r.(APIConfig_Scopes)
    r.(APIConfig_AllowedOrigins) r.(APIConfig_TrustedProxyCIDR).
#[export] Instance zero_APIConfig : Zero APIConfig := mkAPIConfig zeroval zeroval zeroval.

Record SourceURLFilterConfig := mkSourceURLFilterConfig {
  SourceURLFilterConfig_AllowPartialMatch : bool
}.
#[export] Instance settable_SourceURLFilterConfig : Settable SourceURLFilterConfig := λ r, mkSourceURLFilterConfig
    r.(SourceURLFilterConfig_AllowPartialMatch).
#[export] Instance zero_SourceURLFilterConfig : Zero SourceURLFilterConfig := mkSourceURLFilterConfig zeroval.

Record SearchFilterConfig := mkSearchFilterConfig {
  SearchFilterConfig_SourceURL : SourceURLFilterConfig
}.
#[export] Instance settable_SearchFilterConfig : Settable SearchFilterConfig := λ r, mkSearchFilterConfig
    r.(SearchFilterConfig_SourceURL).
#[export] Instance zero_SearchFilterConfig : Zero SearchFilterConfig := mkSearchFilterConfig zeroval.

Record SearchConfig := mkSearchConfig {
  SearchConfig_Filters : SearchFilterConfig
}.
#[export] Instance settable_SearchConfig : Settable SearchConfig := λ r, mkSearchConfig r.(SearchConfig_Filters).
#[export] Instance zero_SearchConfig : Zero SearchConfig := mkSearchConfig zeroval.

Record RateLimitConfig := mkRateLimitConfig {
  RateLimitConfig_RequestsPerMinute : Z;
  RateLimitConfig_RequestsPerHour : Z;
  RateLimitConfig_RequestsPerDay : Z;
  RateLimitConfig_Burst : Z
}.
#[export] Instance settable_RateLimitConfig : Settable RateLimitConfig := λ r, mkRateLimitConfig
    r.(RateLimitConfig_RequestsPerMinute) r.(RateLimitConfig_RequestsPerHour) r.(RateLimitConfig_RequestsPerDay)
    r.(RateLimitConfig_Burst).
#[export] Instance zero_RateLimitConfig : Zero RateLimitConfig := mkRateLimitConfig zeroval zeroval zeroval zeroval.

Record PrometheusExporterConfig := mkPrometheusExporterConfig {
  PrometheusExporterConfig_Enabled : bool
}.
#[export] Instance settable_PrometheusExporterConfig : Settable PrometheusExporterConfig := λ r,
    mkPrometheusExporterConfig r.(PrometheusExporterConfig_Enabled).
#[export] Instance zero_PrometheusExporterConfig : Zero PrometheusExporterConfig := mkPrometheusExporterConfig zeroval.

Record VictoriaMetricsExporterConfig := mkVictoriaMetricsExporterConfig {
  VictoriaMetricsExporterConfig_Enabled : bool;
  VictoriaMetricsExporterConfig_RemoteWriteURL : string;
  VictoriaMetricsExporterConfig_IntervalSeconds : Z
}.
#[export] Instance settable_VictoriaMetricsExporterConfig : Settable VictoriaMetricsExporterConfig := λ r,
    mkVictoriaMetricsExporterConfig r.(VictoriaMetricsExporterConfig_Enabled)
    r.(VictoriaMetricsExporterConfig_RemoteWriteURL) r.(VictoriaMetricsExporterConfig_IntervalSeconds).
#[export] Instance zero_VictoriaMetricsExporterConfig : Zero VictoriaMetricsExporterConfig :=
    mkVictoriaMetricsExporterConfig zeroval zeroval zeroval.

Record UsageExportersConfig := mkUsageExportersConfig {
  UsageExportersConfig_Prometheus : PrometheusExporterConfig;
  UsageExportersConfig_VictoriaMetrics : VictoriaMetricsExporterConfig
}.
#[export] Instance settable_UsageExportersConfig : Settable UsageExportersConfig := λ r, mkUsageExportersConfig
    r.(UsageExportersConfig_Prometheus) r.(UsageExportersConfig_VictoriaMetrics).
#[export] Instance zero_UsageExportersConfig : Zero UsageExportersConfig := mkUsageExportersConfig zeroval zeroval.

Record UsageConfig := mkUsageConfig {
  UsageConfig_Enabled : bool;
  UsageConfig_RedisTimeSeries : bool;
  UsageConfig_RetentionHours : Z;
  UsageConfig_DefaultRateLimit : RateLimitConfig;
  UsageConfig_Exporters : UsageExportersConfig
}.
#[export] Instance settable_UsageConfig : Settable UsageConfig := λ r, mkUsageConfig r.(UsageConfig_Enabled)
    r.(UsageConfig_RedisTimeSeries) r.(UsageConfig_RetentionHours) r.(UsageConfig_DefaultRateLimit)
    r.(UsageConfig_Exporters).
#[export] Instance zero_UsageConfig : Zero UsageConfig := mkUsageConfig zeroval zeroval zeroval zeroval zeroval.

Record AgentConfig := mkAgentConfig {
  AgentConfig_Enabled : bool;
  AgentConfig_Provider : string;
  AgentConfig_Model : string;
  AgentConfig_API : string;
  AgentConfig_APIKeyEnvRef : string;
  AgentConfig_SystemPrompt : string;
  AgentConfig_MaxConversationMessages : Z;
  AgentConfig_MaxContextDocuments : Z;
  AgentConfig_MaxContextChars : Z;
  AgentConfig_MaxResponseTokens : Z;
  AgentConfig_AllowedTools : list string;
  AgentConfig_ConversationTTLHours : Z
}.
#[export] Instance settable_AgentConfig : Settable AgentConfig := λ r, mkAgentConfig r.(AgentConfig_Enabled)
    r.(AgentConfig_Provider) r.(AgentConfig_Model) r.(AgentConfig_API) r.(AgentConfig_APIKeyEnvRef)
    r.(AgentConfig_SystemPrompt) r.(AgentConfig_MaxConversationMessages) r.(AgentConfig_MaxContextDocuments)
    r.(AgentConfig_MaxContextChars) r.(AgentConfig_MaxResponseTokens) r.(AgentConfig_AllowedTools)
    r.(AgentConfig_ConversationTTLHours).
#[export] Instance zero_AgentConfig : Zero AgentConfig := mkAgentConfig zeroval zeroval zeroval zeroval zeroval zeroval
    zeroval zeroval zeroval zeroval zeroval zeroval.

Record RabbitMQConfig := mkRabbitMQConfig {
  RabbitMQConfig_URL : string
}.
#[export] Instance settable_RabbitMQConfig : Settable RabbitMQConfig := λ r, mkRabbitMQConfig r.(RabbitMQConfig_URL).
#[export] Instance zero_RabbitMQConfig : Zero RabbitMQConfig := mkRabbitMQConfig zeroval.

Record QueueConfig := mkQueueConfig {
  QueueConfig_RabbitMQ : RabbitMQConfig
}.
#[export] Instance settable_QueueConfig : Settable QueueConfig := λ r, mkQueueConfig r.(QueueConfig_RabbitMQ).
#[export] Instance zero_QueueConfig : Zero QueueConfig := mkQueueConfig zeroval.

Record KafkaConfig := mkKafkaConfig {
  KafkaConfig_Brokers : list string
}.
#[export] Instance settable_KafkaConfig : Settable KafkaConfig := λ r, mkKafkaConfig r.(KafkaConfig_Brokers).
#[export] Instance zero_KafkaConfig : Zero KafkaConfig := mkKafkaConfig zeroval.

Record BusConfig := mkBusConfig {
  BusConfig_Kafka : KafkaConfig
}.
#[export] Instance settable_BusConfig : Settable BusConfig := λ r, mkBusConfig r.(BusConfig_Kafka).
#[export] Instance zero_BusConfig : Zero BusConfig := mkBusConfig zeroval.

Record SecureBusConfig := mkSecureBusConfig {
  SecureBusConfig_PolicySigningKeyEnvRef : string;
  SecureBusConfig_PolicyGraceSeconds : Z
}.
#[export] Instance settable_SecureBusConfig : Settable SecureBusConfig := λ r, mkSecureBusConfig
    r.(SecureBusConfig_PolicySigningKeyEnvRef) r.(SecureBusConfig_PolicyGraceSeconds).
#[export] Instance zero_SecureBusConfig : Zero SecureBusConfig := mkSecureBusConfig zeroval zeroval.

Record Config := mkConfig {
  Config_Server : ServerConfig;
  Config_Transport : TransportConfig;
  Config_Web : WebConfig;
  Config_OAuth : OAuthConfig;
  Config_OAuthAS : OAuthASConfig;
  Config_Teleport : TeleportConfig;
  Config_Redis : RedisConfig;
  Config_S3 : S3Config;
  Config_Embedding : ModelConfig;
  Config_Summarization : ModelConfig;
  Config_VectorBackend : VectorBackendConfig;
  Config_Metadata : MetadataConfig;
  Config_Chunking : ChunkingConfig;
  Config_Limits : LimitsConfig;
  Config_API : APIConfig;
  Config_Search : SearchConfig;
  Config_Usage : UsageConfig;
  Config_MCPProxy : MCPProxyConfig;
  Config_Agent : AgentConfig;
  Config_Queue : QueueConfig;
  Config_Bus : BusConfig;
  Config_SecureBus : SecureBusConfig
}.
#[export] Instance settable_Config : Settable Config := λ r, mkConfig r.(Config_Server) r.(Config_Transport)
    r.(Config_Web) r.(Config_OAuth) r.(Config_OAuthAS) r.(Config_Teleport) r.(Config_Redis) r.(Config_S3)
    r.(Config_Embedding) r.(Config_Summarization) r.(Config_VectorBackend) r.(Config_Metadata) r.(Config_Chunking)
    r.(Config_Limits) r.(Config_API) r.(Config_Search) r.(Config_Usage) r.(Config_MCPProxy) r.(Config_Agent)
    r.(Config_Queue) r.(Config_Bus) r.(Config_SecureBus).
#[export] Instance zero_Config : Zero Config := mkConfig zeroval zeroval zeroval zeroval zeroval zeroval zeroval zeroval
    zeroval zeroval zeroval zeroval zeroval zeroval zeroval zeroval zeroval zeroval zeroval zeroval zeroval zeroval.

(** ** The environment *)

Abbreviation Environ := (gmap string string) (only parsing).

Definition Getenv (env : Environ) (k : string) : string := default "" (env !! k).
Definition LookupEnv (env : Environ) (k : string) : option string := env !! k.

(** [strings.TrimSpace(os.Getenv(k))] *)
Definition trimmed (env : Environ) (k : string) : string := TrimSpace (Getenv env k).

Section Config.
Context (Atoi : string → option Z) (ParseIP : string → option IP) (unicode_lower : Z → Z) (quote : string → string).
Implicit Types (env : Environ) (c : Config).

Definition parseEnvBool (v : string) : bool :=
  sContains ["1"; "true"; "yes"; "on"] (ToLower unicode_lower (TrimSpace v)).

Definition parseEnvInt (v : string) : option Z := Atoi (TrimSpace v).

(** [if v := strings.TrimSpace(os.Getenv(k)); v != "" { ... }] *)
Definition when_set {A} env (k : string) (f : string → A → A) (x : A) : A :=
  let v := trimmed env k in if v <>s "" then f v x else x.

(** A number; what is none is left out. *)
Definition when_int {A} env (k : string) (f : Z → A → A) (x : A) : A :=
  when_set env k (λ v x, match parseEnvInt v with Some n => f n x | None => x end) x.

Definition publicBaseURLFromEnv env : string :=
  let first := trimmed env "PUBLIC_BASE_URL" in
  if first <>s "" then trim_right_byte "/"%char first
  else let second := trimmed env "SYNAMCP_PUBLIC_BASE_URL" in
  if second <>s "" then trim_right_byte "/"%char second else "".

Definition applyModelEnvOverrides env (m : ModelConfig) (prefix : string) : ModelConfig :=
  let m := when_set env (prefix +:+ "_PROVIDER") (λ v m, m <| ModelConfig_Provider := v |>) m in
  let m := when_set env (prefix +:+ "_MODEL") (λ v m, m <| ModelConfig_Model := v |>) m in
  let m := when_set env (prefix +:+ "_ENDPOINT") (λ v m, m <| ModelConfig_API := v |>) m in
  let m := when_set env (prefix +:+ "_API_KEY_ENV") (λ v m, m <| ModelConfig_APIKeyEnvRef := "env:" +:+ TrimPrefix v "env:" |>) m in
  let m := when_int env (prefix +:+ "_MAX_INPUT_TOKENS") (λ n m, m <| ModelConfig_MaxInputTokens := n |>) m in
  when_int env (prefix +:+ "_MAX_OUTPUT_TOKENS") (λ n m, m <| ModelConfig_MaxOutputTokens := n |>) m.

Definition applyAgentEnvOverrides env (a : AgentConfig) : AgentConfig :=
  let a := when_set env "SYNAMCP_AGENT_PROVIDER" (λ v a, a <| AgentConfig_Provider := v |> <| AgentConfig_Enabled := true |>) a in
  let a := when_set env "SYNAMCP_AGENT_MODEL" (λ v a, a <| AgentConfig_Model := v |> <| AgentConfig_Enabled := true |>) a in
  let a := when_set env "SYNAMCP_AGENT_ENDPOINT" (λ v a, a <| AgentConfig_API := v |>) a in
  let a := when_set env "SYNAMCP_AGENT_API_KEY_ENV" (λ v a, a <| AgentConfig_APIKeyEnvRef := "env:" +:+ TrimPrefix v "env:" |>) a in
  when_int env "SYNAMCP_AGENT_MAX_OUTPUT_TOKENS" (λ n a, a <| AgentConfig_MaxResponseTokens := n |>) a.

Definition applyRedisEnvOverrides env (r : RedisConfig) : RedisConfig :=
  let r := when_set env "REDIS_ADDR" (λ v r, r <| RedisConfig_Addr := v |>) r in
  let r := match LookupEnv env "REDIS_PASSWORD" with Some v => r <| RedisConfig_Password := v |> | None => r end in
  let r := when_int env "REDIS_DB" (λ n r, r <| RedisConfig_DB := n |>) r in
  let r := when_set env "REDIS_KEY_PREFIX" (λ v r, r <| RedisConfig_KeyPrefix := v |>) r in
  when_int env "REDIS_TTL_HOURS" (λ n r, r <| RedisConfig_TTLHours := n |>) r.

Definition dsnOf env (yaml : string) : string :=
  let first := trimmed env "METADATA_CATALOG_DSN" in
  if first <>s "" then first
  else let second := trimmed env "DATABASE_URL" in
  if second <>s "" then second else resolveSecret (Getenv env) yaml.

Definition applyS3EnvOverrides env (s : S3Config) : S3Config :=
  let s := match LookupEnv env "S3_ENDPOINT" with Some v => s <| S3Config_Endpoint := TrimSpace v |> | None => s end in
  let s := when_set env "S3_BUCKET" (λ v s, s <| S3Config_Bucket := v |>) s in
  let s := match LookupEnv env "S3_KEY_PREFIX" with Some v => s <| S3Config_KeyPrefix := TrimSpace v |> | None => s end in
  let s := when_set env "S3_USE_SSL" (λ v s, s <| S3Config_UseSSL := parseEnvBool v |>) s in
  let s := when_set env "S3_ACCESS_KEY" (λ v s, s <| S3Config_AccessKeyEnvRef := "env:S3_ACCESS_KEY" |>) s in
  when_set env "S3_SECRET_KEY" (λ v s, s <| S3Config_SecretKeyEnvRef := "env:S3_SECRET_KEY" |>) s.

Definition applyEnvOverrides env c : Config :=
  let c := c <| Config_Metadata := c.(Config_Metadata) <| MetadataConfig_DSN := dsnOf env c.(Config_Metadata).(MetadataConfig_DSN) |> |> in
  let c := c <| Config_S3 := applyS3EnvOverrides env c.(Config_S3) |> in
  let c := c <| Config_Embedding := applyModelEnvOverrides env c.(Config_Embedding) "SYNAMCP_EMBEDDING" |> in
  let c := c <| Config_Summarization := applyModelEnvOverrides env c.(Config_Summarization) "SYNAMCP_SUMMARIZATION" |> in
  let c := c <| Config_Agent := applyAgentEnvOverrides env c.(Config_Agent) |> in
  let url := publicBaseURLFromEnv env in
  let c := if url <>s "" then
             c <| Config_Server := c.(Config_Server) <| ServerConfig_PublicBaseURL := url |> |>
               <| Config_OAuthAS := c.(Config_OAuthAS) <| OAuthASConfig_PublicBaseURL := url |> |>
           else c in
  c <| Config_Redis := applyRedisEnvOverrides env c.(Config_Redis) |>.

(** ** Secrets *)

Definition AccessKey env c : string := resolveSecret (Getenv env) c.(Config_S3).(S3Config_AccessKeyEnvRef).
Definition SecretKey env c : string := resolveSecret (Getenv env) c.(Config_S3).(S3Config_SecretKeyEnvRef).
Definition EmbeddingAPIKey env c : string := resolveSecret (Getenv env) c.(Config_Embedding).(ModelConfig_APIKeyEnvRef).
Definition SummarizationAPIKey env c : string := resolveSecret (Getenv env) c.(Config_Summarization).(ModelConfig_APIKeyEnvRef).
Definition DefaultAdminPassword env c : string := resolveSecret (Getenv env) c.(Config_Web).(WebConfig_Admin).(DefaultAdminConfig_PasswordEnvRef).
Definition AgentAPIKey env c : string := resolveSecret (Getenv env) c.(Config_Agent).(AgentConfig_APIKeyEnvRef).
Definition MCPProxySecretsKey env c : string := resolveSecret (Getenv env) c.(Config_MCPProxy).(mp_SecretsEncryptionKeyEnvRef).
Definition SecureBusPolicySigningKey env c : string := resolveSecret (Getenv env) c.(Config_SecureBus).(SecureBusConfig_PolicySigningKeyEnvRef).

(** ** Validation *)

Definition isLoopbackListenAddr (addr : string) : bool :=
  let host := match SplitHostPort addr with ((host, _), None) => host | (_, Some _) => TrimPrefix addr ":" end in
  sContains [""; "localhost"; "127.0.0.1"; "::1"] host
  || match ParseIP host with Some ip => IsLoopback ip | None => false end.

(** [if v <= 0 { v = d }], [if v == "" { v = d }] and [if len(v) == 0 { v = d }] *)
Definition positive (v d : Z) : Z := if (v <=? 0)%Z then d else v.
Definition nonempty (v d : string) : string := if v =s "" then d else v.
Definition some_of (v d : list string) : list string := match v with [] => d | _ => v end.

Definition redisDefaults (r : RedisConfig) : RedisConfig :=
  r <| RedisConfig_TTLHours := positive r.(RedisConfig_TTLHours) 24 |>
    <| RedisConfig_KeyPrefix := nonempty r.(RedisConfig_KeyPrefix) "syna" |>.

Definition adminDefaults (a : DefaultAdminConfig) : DefaultAdminConfig :=
  a <| DefaultAdminConfig_Username := nonempty a.(DefaultAdminConfig_Username) "admin" |>
    <| DefaultAdminConfig_SessionTTLHours := positive a.(DefaultAdminConfig_SessionTTLHours) 12 |>.

Definition limitDefaults (l : RateLimitConfig) : RateLimitConfig :=
  mkRateLimitConfig (positive l.(RateLimitConfig_RequestsPerMinute) 60) (positive l.(RateLimitConfig_RequestsPerHour) 1000)
    (positive l.(RateLimitConfig_RequestsPerDay) 10000) (positive l.(RateLimitConfig_Burst) 20).

Definition exportersDefaults (x : UsageExportersConfig) : UsageExportersConfig :=
  x <| UsageExportersConfig_VictoriaMetrics := x.(UsageExportersConfig_VictoriaMetrics)
         <| VictoriaMetricsExporterConfig_IntervalSeconds :=
              positive x.(UsageExportersConfig_VictoriaMetrics).(VictoriaMetricsExporterConfig_IntervalSeconds) 30 |> |>.

Definition usageDefaults (u : UsageConfig) : UsageConfig :=
  u <| UsageConfig_RetentionHours := positive u.(UsageConfig_RetentionHours) 720 |>
    <| UsageConfig_DefaultRateLimit := limitDefaults u.(UsageConfig_DefaultRateLimit) |>
    <| UsageConfig_Exporters := exportersDefaults u.(UsageConfig_Exporters) |>.

Definition agentDefaults (a : AgentConfig) : AgentConfig :=
  a <| AgentConfig_Provider := nonempty a.(AgentConfig_Provider) "simple" |>
    <| AgentConfig_Model := nonempty a.(AgentConfig_Model) "syna-simple-agent" |>
    <| AgentConfig_SystemPrompt := nonempty a.(AgentConfig_SystemPrompt)
         "You are a SynaMCPs assistant. Answer using the provided knowledge context and cite document IDs when relevant." |>
    <| AgentConfig_MaxConversationMessages := positive a.(AgentConfig_MaxConversationMessages) 100 |>
    <| AgentConfig_MaxContextDocuments := positive a.(AgentConfig_MaxContextDocuments) 5 |>
    <| AgentConfig_MaxContextChars := positive a.(AgentConfig_MaxContextChars) 6000 |>
    <| AgentConfig_MaxResponseTokens := positive a.(AgentConfig_MaxResponseTokens) 512 |>
    <| AgentConfig_ConversationTTLHours := positive a.(AgentConfig_ConversationTTLHours) 720 |>
    <| AgentConfig_AllowedTools := some_of a.(AgentConfig_AllowedTools) ["knowledge_search"; "knowledge_get"; "knowledge_save"] |>.

Definition oauthASDefaults (o : OAuthASConfig) : OAuthASConfig :=
  o <| OAuthASConfig_AuthorizationCodeTTLSeconds := positive o.(OAuthASConfig_AuthorizationCodeTTLSeconds) 300 |>
    <| OAuthASConfig_AccessTokenTTLHours := positive o.(OAuthASConfig_AccessTokenTTLHours) 24 |>
    <| OAuthASConfig_RefreshTokenTTLHours := positive o.(OAuthASConfig_RefreshTokenTTLHours) 720 |>
    <| OAuthASConfig_DefaultTokenMode := nonempty o.(OAuthASConfig_DefaultTokenMode) "read_write" |>.

Definition poolDefaults (m : MetadataConfig) : MetadataConfig :=
  m <| MetadataConfig_PoolMaxConns := positive m.(MetadataConfig_PoolMaxConns) 20 |>
    <| MetadataConfig_PoolMinConns := positive m.(MetadataConfig_PoolMinConns) 2 |>.

Definition redirectPatterns : list string := ["http://localhost*"; "http://127.0.0.1*"; "https://*"].

Definition badProvider c (p : ProviderConfig) : option error :=
  let named := "oauth provider " +:+ quote p.(Provider_Name) in
  if (p.(Provider_Issuer) =s "") || (p.(Provider_Audience) =s "") then Some (NewError (named +:+ " missing issuer/audience"))
  else if p.(Provider_JWKSURL) =s "insecure" then
    if negb c.(Config_Server).(ServerConfig_DevMode)
    then Some (NewError (named +:+ " uses jwks_url=insecure but server.dev_mode is false"))
    else if negb (isLoopbackListenAddr c.(Config_Server).(ServerConfig_ListenAddr))
    then Some (NewError (named +:+ " uses jwks_url=insecure but listen_addr " +:+ quote c.(Config_Server).(ServerConfig_ListenAddr)
                         +:+ " is not loopback-only"))
    else None
  else None.

Fixpoint badProviders c (l : list ProviderConfig) : option error :=
  match l with [] => None | p :: l' => match badProvider c p with Some err => Some err | None => badProviders c l' end end.

(** What [Validate] fills in between its checks. *)
Definition withDefaults c : Config :=
  c <| Config_Redis := redisDefaults c.(Config_Redis) |>
    <| Config_Web := c.(Config_Web) <| WebConfig_Admin := adminDefaults c.(Config_Web).(WebConfig_Admin) |> |>
    <| Config_Usage := usageDefaults c.(Config_Usage) |>
    <| Config_Agent := agentDefaults c.(Config_Agent) |>
    <| Config_OAuthAS := oauthASDefaults c.(Config_OAuthAS) |>.

Definition withAddress c : Config :=
  c <| Config_OAuthAS := c.(Config_OAuthAS) <| OAuthASConfig_PublicBaseURL :=
         nonempty c.(Config_OAuthAS).(OAuthASConfig_PublicBaseURL) c.(Config_Server).(ServerConfig_PublicBaseURL) |> |>.

Definition withPatterns c : Config :=
  c <| Config_OAuthAS := c.(Config_OAuthAS) <| OAuthASConfig_AllowedRedirectURIPatterns :=
         some_of c.(Config_OAuthAS).(OAuthASConfig_AllowedRedirectURIPatterns) redirectPatterns |> |>.

Definition withPool c : Config := c <| Config_Metadata := poolDefaults c.(Config_Metadata) |>.

(** [Validate]: the configuration it leaves behind and its error. *)
Definition Validate c : Config * option error :=
  let refuse c text := (c, Some (NewError text)) in
  if c.(Config_Server).(ServerConfig_ListenAddr) =s "" then refuse c "server.listen_addr is required"
  else if (c.(Config_Chunking).(ChunkingConfig_ChunkSize) <=? 0)%Z then refuse c "chunking.chunk_size must be > 0"
  else if c.(Config_Summarization).(ModelConfig_Model) =s "" then refuse c "summarization.model is required"
  else if c.(Config_Embedding).(ModelConfig_Model) =s "" then refuse c "embedding.model is required"
  else
    let c := withDefaults c in
    if negb (sContains ["read"; "read_write"] c.(Config_OAuthAS).(OAuthASConfig_DefaultTokenMode))
    then refuse c "oauth_as.default_token_mode must be read or read_write"
    else
      let c := withAddress c in
      if c.(Config_OAuthAS).(OAuthASConfig_Enabled) && (c.(Config_OAuthAS).(OAuthASConfig_PublicBaseURL) =s "")
      then refuse c "oauth_as.enabled requires oauth_as.public_base_url or server.public_base_url"
      else
        let c := withPatterns c in
        if c.(Config_Metadata).(MetadataConfig_DSN) =s "" then refuse c "metadata_catalog.dsn is required"
        else
          let c := withPool c in
          match c.(Config_API).(APIConfig_AllowedOrigins) with
          | [] => refuse c "api.allowed_origins must not be empty"
          | _ => (c, badProviders c c.(Config_OAuth).(OAuthConfig_Providers))
          end.

(** ** Files *)

(** [strings.Trim] with a double and a single quote *)
Definition is_quote (b : Z) : bool := (b =? 34)%Z || (b =? 39)%Z.
Definition TrimQuotes (s : string) : string :=
  of_bytes (rev (drop_while is_quote (rev (drop_while is_quote (bytes s))))).

(** The lines [bufio.Scanner] gives: it ends at one that fills its buffer. *)
Definition maxToken : Z := 65536.
Fixpoint scanUntil (l : list string) : list string :=
  match l with
  | [] => []
  | line :: l' => if (slen line <? maxToken)%Z then TrimSuffix line (String "013"%char "") :: scanUntil l' else []
  end.
Definition scanLines (content : string) : list string :=
  let l := Split content "010"%char in
  scanUntil (match last l with Some "" => take (length l - 1) l | _ => l end).

Definition dotEnvLine env (text : string) : Environ :=
  let line := TrimSpace text in
  if (line =s "") || HasPrefix line "#" then env
  else match Cut (TrimPrefix line "export ") "=" with
  | (_, _, false) => env
  | (key, value, true) =>
      let key := TrimSpace key in
      let value := TrimQuotes (TrimSpace value) in
      if (key =s "") || (Getenv env key <>s "") then env else <[key := value]> env
  end.

(** [None]: the file cannot be opened. *)
Definition loadDotEnv env (content : option string) : Environ :=
  match content with None => env | Some content => foldl dotEnvLine env (scanLines content) end.

Section Files.
Context (readFile : string → string + error) (yaml_unmarshal : string → Config + error).
Context (filepath_Dir : string → string) (filepath_Join : list string → string).

Definition loadDotEnvCandidates env (configPath : string) : Environ :=
  let configDir := filepath_Dir configPath in
  let candidates := ".env" :: (if configPath <>s "" then [filepath_Join [configDir; ".env"]; filepath_Join [configDir; ".."; ".env"]] else []) in
  foldl (λ env path, loadDotEnv env (match readFile path with inl content => Some content | inr _ => None end)) env candidates.

Definition Load env (path : string) : Environ * ret Config :=
  let env := loadDotEnvCandidates env path in
  match readFile path with
  | inr err => (env, fails zeroval (Wrapped "read config" err))
  | inl raw =>
      match yaml_unmarshal raw with
      | inr err => (env, fails zeroval (Wrapped "parse config" err))
      | inl cfg =>
          match Validate (applyEnvOverrides env cfg) with
          | (_, Some err) => (env, fails zeroval err)
          | (cfg, None) => (env, ok cfg)
          end
      end
  end.
End Files.
End Config.
