(* ===== verification/ConfigProps.v ===== *)
(** What a loaded configuration guarantees, and where its settings come
    from. *)
From S2P Require Import Prelude GoStrings GoNet Models DataObj Auth ProxyManager Config.
From Stdlib Require Import Ascii.

(** ** Validation *)

Section Validation.
Context (ParseIP : string → option IP) (quote : string → string).
Implicit Types (c : Config).

(** An address of the loopback interface: one of 127.0.0.0/8, as four bytes or
    in IPv6, or ::1. *)
Definition loopback_ip (ip : IP) : Prop :=
  (∃ a b d, ip = [127; a; b; d]%Z) ∨ (∃ a b d, ip = v4InV6Prefix ++ [127; a; b; d]%Z) ∨ ip = IPv6loopback.

(** The address names a host, and the host is the loopback interface. *)
Definition names_host (addr : string) : Prop := ∃ host port, SplitHostPort addr = ok (host, port) ∧ host ≠ "".
Definition loopback_only (addr : string) : Prop :=
  ∃ host port, SplitHostPort addr = ok (host, port) ∧ (host = "localhost" ∨ ∃ ip, ParseIP host = Some ip ∧ loopback_ip ip).

(** [net.ParseIP] knows the two usual addresses. *)
Definition parse_law : Prop :=
  (∃ ip, ParseIP "127.0.0.1" = Some ip ∧ loopback_ip ip) ∧ ∃ ip, ParseIP "::1" = Some ip ∧ loopback_ip ip.

Lemma IsLoopback_spec ip : IsLoopback ip = true ↔ loopback_ip ip.
Proof.
  unfold IsLoopback, To4. split.
  - destruct (length ip =? 4)%nat eqn:H4.
    { destruct ip as [|x [|a [|b [|d [|]]]]]; try done. intros Hx%Z.eqb_eq. cbn in Hx. subst. left. by eauto. }
    destruct ((length ip =? 16)%nat && _) eqn:H16.
    { apply andb_true_iff in H16 as [Hlen%Nat.eqb_eq Hpre%bool_decide_eq_true]. intros Hx%Z.eqb_eq. right. left.
      rewrite <- (take_drop 12 ip), Hpre. assert (Hd : length (drop 12 ip) = 4) by (rewrite length_drop; lia).
      destruct (drop 12 ip) as [|x [|a [|b [|d [|]]]]]; try done. cbn in Hx. subst. by eauto. }
    intros Hx%bool_decide_eq_true. by right; right.
  - intros [(a & b & d & ->)|[(a & b & d & ->)| ->]]; reflexivity.
Qed.

(** On an address that names a host the code's test is the rule. *)
Lemma loopback_agrees addr : parse_law → names_host addr → isLoopbackListenAddr ParseIP addr = true ↔ loopback_only addr.
Proof.
  intros [H4 H6] (host & port & Hs & Hne). unfold isLoopbackListenAddr, loopback_only. rewrite Hs. cbn [ok].
  rewrite orb_true_iff, sContains_spec. split.
  - intros Hl. exists host, port. split; [done|]. destruct Hl as [Hl|Hl]; [case_elem Hl; subst; auto; done|].
    right. destruct (ParseIP host) as [ip|]; [|done]. exists ip. split; [done|]. by apply IsLoopback_spec.
  - intros (host' & port' & [= <- <-] & [->|(ip & Hp & Hip)]); [left; set_solver|].
    right. rewrite Hp. by apply IsLoopback_spec.
Qed.

(** A provider the gateway can use; [loopback]: which addresses count as such. *)
Definition provider_ok (loopback : string → Prop) c (p : ProviderConfig) : Prop :=
  p.(Provider_Issuer) ≠ "" ∧ p.(Provider_Audience) ≠ ""
  ∧ (p.(Provider_JWKSURL) = "insecure" →
     c.(Config_Server).(ServerConfig_DevMode) = true ∧ loopback c.(Config_Server).(ServerConfig_ListenAddr)).

(** The rules a configuration has to follow. *)
Record acceptable (loopback : string → Prop) c : Prop := {
  ac_listen : c.(Config_Server).(ServerConfig_ListenAddr) ≠ "";
  ac_chunk : (0 < c.(Config_Chunking).(ChunkingConfig_ChunkSize))%Z;
  ac_summary : c.(Config_Summarization).(ModelConfig_Model) ≠ "";
  ac_embedding : c.(Config_Embedding).(ModelConfig_Model) ≠ "";
  ac_mode : c.(Config_OAuthAS).(OAuthASConfig_DefaultTokenMode) ∈ [""; "read"; "read_write"];
  ac_url : c.(Config_OAuthAS).(OAuthASConfig_Enabled) = true →
    c.(Config_OAuthAS).(OAuthASConfig_PublicBaseURL) ≠ "" ∨ c.(Config_Server).(ServerConfig_PublicBaseURL) ≠ "";
  ac_dsn : c.(Config_Metadata).(MetadataConfig_DSN) ≠ "";
  ac_origins : c.(Config_API).(APIConfig_AllowedOrigins) ≠ [];
  ac_providers : Forall (provider_ok loopback c) c.(Config_OAuth).(OAuthConfig_Providers)
}.

(** What the code takes for the loopback. *)
#[local] Abbreviation tested := (λ addr, isLoopbackListenAddr ParseIP addr = true).
#[local] Abbreviation passes := (acceptable tested).

Lemma acceptable_agree (l l' : string → Prop) c :
  (∀ p, p ∈ c.(Config_OAuth).(OAuthConfig_Providers) → p.(Provider_JWKSURL) = "insecure" →
     l c.(Config_Server).(ServerConfig_ListenAddr) ↔ l' c.(Config_Server).(ServerConfig_ListenAddr)) →
  acceptable l c ↔ acceptable l' c.
Proof.
  intros Hl. assert (Hp : Forall (provider_ok l c) c.(Config_OAuth).(OAuthConfig_Providers) ↔
    Forall (provider_ok l' c) c.(Config_OAuth).(OAuthConfig_Providers)).
  { rewrite !Forall_forall. split; intros Hall p Hp; destruct (Hall p Hp) as (Hi & Ha & Hk); (split_and!; [done..|]);
      intros Hj; destruct (Hk Hj) as [Hd Hx]; (split; [done|]); by apply (Hl p Hp Hj). }
  split; intros [? ? ? ? ? ? ? ? Ha]; split; try done; by apply Hp.
Qed.

Lemma badProvider_spec c p : badProvider ParseIP quote c p = None ↔ provider_ok tested c p.
Proof.
  unfold badProvider, provider_ok. destruct (String.eqb_spec p.(Provider_Issuer) ""), (String.eqb_spec p.(Provider_Audience) "");
    cbn [orb]; try naive_solver. destruct (String.eqb_spec p.(Provider_JWKSURL) "insecure"); [|naive_solver].
  destruct (ServerConfig_DevMode _), (isLoopbackListenAddr _ _); naive_solver.
Qed.

Lemma badProviders_spec c l : badProviders ParseIP quote c l = None ↔ Forall (provider_ok tested c) l.
Proof.
  induction l as [|p l IH]; cbn; [done|]. rewrite Forall_cons, <- badProvider_spec, <- IH.
  destruct (badProvider _ _ _ _); naive_solver.
Qed.

(** The provider rules read the server section only. *)
Lemma providers_server c c' l : c'.(Config_Server) = c.(Config_Server) → badProviders ParseIP quote c' l = badProviders ParseIP quote c l.
Proof. intros Hs. induction l as [|p l IH]; cbn; [done|]. unfold badProvider. by rewrite Hs, IH. Qed.

(** All defaults filled in. *)
Definition completed c : Config := withPool (withPatterns (withAddress (withDefaults c))).

(** What the checks read of the stages. *)
Lemma stage_mode c : (withDefaults c).(Config_OAuthAS).(OAuthASConfig_DefaultTokenMode)
  = nonempty c.(Config_OAuthAS).(OAuthASConfig_DefaultTokenMode) "read_write".
Proof. reflexivity. Qed.
Lemma stage_enabled c : (withAddress (withDefaults c)).(Config_OAuthAS).(OAuthASConfig_Enabled) = c.(Config_OAuthAS).(OAuthASConfig_Enabled).
Proof. reflexivity. Qed.
Lemma stage_url c : (withAddress (withDefaults c)).(Config_OAuthAS).(OAuthASConfig_PublicBaseURL)
  = nonempty c.(Config_OAuthAS).(OAuthASConfig_PublicBaseURL) c.(Config_Server).(ServerConfig_PublicBaseURL).
Proof. reflexivity. Qed.
Lemma stage_dsn c : (withPatterns (withAddress (withDefaults c))).(Config_Metadata).(MetadataConfig_DSN) = c.(Config_Metadata).(MetadataConfig_DSN).
Proof. reflexivity. Qed.
Lemma stage_origins c : (completed c).(Config_API).(APIConfig_AllowedOrigins) = c.(Config_API).(APIConfig_AllowedOrigins).
Proof. reflexivity. Qed.
Lemma stage_providers c : (completed c).(Config_OAuth).(OAuthConfig_Providers) = c.(Config_OAuth).(OAuthConfig_Providers).
Proof. reflexivity. Qed.

(** [Validate] with what its checks read of the given configuration. *)
Lemma Validate_stages c : Validate ParseIP quote c =
  let refuse c text := (c, Some (NewError text)) in
  if c.(Config_Server).(ServerConfig_ListenAddr) =s "" then refuse c "server.listen_addr is required"
  else if (c.(Config_Chunking).(ChunkingConfig_ChunkSize) <=? 0)%Z then refuse c "chunking.chunk_size must be > 0"
  else if c.(Config_Summarization).(ModelConfig_Model) =s "" then refuse c "summarization.model is required"
  else if c.(Config_Embedding).(ModelConfig_Model) =s "" then refuse c "embedding.model is required"
  else if negb (sContains ["read"; "read_write"] (nonempty c.(Config_OAuthAS).(OAuthASConfig_DefaultTokenMode) "read_write"))
  then refuse (withDefaults c) "oauth_as.default_token_mode must be read or read_write"
  else if c.(Config_OAuthAS).(OAuthASConfig_Enabled)
          && (nonempty c.(Config_OAuthAS).(OAuthASConfig_PublicBaseURL) c.(Config_Server).(ServerConfig_PublicBaseURL) =s "")
  then refuse (withAddress (withDefaults c)) "oauth_as.enabled requires oauth_as.public_base_url or server.public_base_url"
  else if c.(Config_Metadata).(MetadataConfig_DSN) =s "" then refuse (withPatterns (withAddress (withDefaults c))) "metadata_catalog.dsn is required"
  else match c.(Config_API).(APIConfig_AllowedOrigins) with
  | [] => refuse (completed c) "api.allowed_origins must not be empty"
  | _ => (completed c, badProviders ParseIP quote c c.(Config_OAuth).(OAuthConfig_Providers))
  end.
Proof.
  unfold Validate. cbv zeta. fold (completed c).
  rewrite stage_mode, stage_enabled, stage_url, stage_dsn, stage_origins, stage_providers, (providers_server c (completed c)) by done. reflexivity.
Qed.

Lemma Validate_acceptable c : passes c → Validate ParseIP quote c = (completed c, None).
Proof.
  intros [Hl Hc Hs He Hm Hu Hd Ho Hp]. rewrite Validate_stages. cbv zeta.
  rewrite (seqb_neq_false _ _ Hl), (seqb_neq_false _ _ Hs), (seqb_neq_false _ _ He), (seqb_neq_false _ _ Hd).
  destruct (Z.leb_spec c.(Config_Chunking).(ChunkingConfig_ChunkSize) 0); [lia|].
  assert (Hmode : sContains ["read"; "read_write"] (nonempty c.(Config_OAuthAS).(OAuthASConfig_DefaultTokenMode) "read_write") = true)
    by (unfold nonempty; case_elem Hm; by rewrite ?Hm).
  rewrite Hmode. cbn [negb]. assert (Hurl : c.(Config_OAuthAS).(OAuthASConfig_Enabled)
    && (nonempty c.(Config_OAuthAS).(OAuthASConfig_PublicBaseURL) c.(Config_Server).(ServerConfig_PublicBaseURL) =s "") = false).
  { destruct c.(Config_OAuthAS).(OAuthASConfig_Enabled); [|done]. cbn [andb]. unfold nonempty.
    destruct (String.eqb_spec c.(Config_OAuthAS).(OAuthASConfig_PublicBaseURL) "") as [Hz|Hz]; apply seqb_neq_false; [by destruct (Hu eq_refl)|done]. }
  rewrite Hurl. destruct c.(Config_API).(APIConfig_AllowedOrigins); [done|]. f_equal. by apply badProviders_spec.
Qed.

Lemma Validate_refuses c : (Validate ParseIP quote c).2 = None → passes c.
Proof.
  rewrite Validate_stages. cbv zeta. destruct (String.eqb_spec c.(Config_Server).(ServerConfig_ListenAddr) ""); [done|].
  destruct (Z.leb_spec c.(Config_Chunking).(ChunkingConfig_ChunkSize) 0); [done|].
  destruct (String.eqb_spec c.(Config_Summarization).(ModelConfig_Model) ""); [done|].
  destruct (String.eqb_spec c.(Config_Embedding).(ModelConfig_Model) ""); [done|].
  destruct (sContains _ _) eqn:Hm; [|done]. cbn [negb]. destruct (_ && _) eqn:Hu; [done|].
  destruct (String.eqb_spec c.(Config_Metadata).(MetadataConfig_DSN) ""); [done|].
  destruct c.(Config_API).(APIConfig_AllowedOrigins) as [|o os] eqn:Ho; [done|].
  cbn [snd]. intros Hp%badProviders_spec. split; try done.
  - apply sContains_spec in Hm. unfold nonempty in Hm. destruct (String.eqb_spec c.(Config_OAuthAS).(OAuthASConfig_DefaultTokenMode) "") as [->|];
      [by left|by right].
  - intros Hen. rewrite Hen in Hu. cbn [andb] in Hu. unfold nonempty in Hu.
    destruct (String.eqb_spec c.(Config_OAuthAS).(OAuthASConfig_PublicBaseURL) ""); [right|by left]. by apply String.eqb_neq.
  - by rewrite Ho.
Qed.

(** What the rest of the program relies on. *)
Record usable c : Prop := {
  us_redis : (0 < c.(Config_Redis).(RedisConfig_TTLHours))%Z ∧ c.(Config_Redis).(RedisConfig_KeyPrefix) ≠ "";
  us_admin : (0 < c.(Config_Web).(WebConfig_Admin).(DefaultAdminConfig_SessionTTLHours))%Z
    ∧ c.(Config_Web).(WebConfig_Admin).(DefaultAdminConfig_Username) ≠ "";
  us_usage : (0 < c.(Config_Usage).(UsageConfig_RetentionHours))%Z
    ∧ Forall (Z.lt 0) (let l := c.(Config_Usage).(UsageConfig_DefaultRateLimit) in
        [l.(RateLimitConfig_RequestsPerMinute); l.(RateLimitConfig_RequestsPerHour); l.(RateLimitConfig_RequestsPerDay); l.(RateLimitConfig_Burst)]);
  us_agent : Forall (Z.lt 0) (let a := c.(Config_Agent) in
        [a.(AgentConfig_MaxConversationMessages); a.(AgentConfig_MaxContextDocuments); a.(AgentConfig_MaxContextChars);
         a.(AgentConfig_MaxResponseTokens); a.(AgentConfig_ConversationTTLHours)])
    ∧ c.(Config_Agent).(AgentConfig_Provider) ≠ "" ∧ c.(Config_Agent).(AgentConfig_Model) ≠ "" ∧ c.(Config_Agent).(AgentConfig_AllowedTools) ≠ [];
  us_oauth : Forall (Z.lt 0) (let o := c.(Config_OAuthAS) in
        [o.(OAuthASConfig_AuthorizationCodeTTLSeconds); o.(OAuthASConfig_AccessTokenTTLHours); o.(OAuthASConfig_RefreshTokenTTLHours)])
    ∧ c.(Config_OAuthAS).(OAuthASConfig_DefaultTokenMode) ∈ ["read"; "read_write"]
    ∧ (c.(Config_OAuthAS).(OAuthASConfig_Enabled) = true → c.(Config_OAuthAS).(OAuthASConfig_PublicBaseURL) ≠ "")
    ∧ c.(Config_OAuthAS).(OAuthASConfig_AllowedRedirectURIPatterns) ≠ [];
  us_pool : (0 < c.(Config_Metadata).(MetadataConfig_PoolMaxConns))%Z ∧ (0 < c.(Config_Metadata).(MetadataConfig_PoolMinConns))%Z
}.

Lemma positive_pos v d : (0 < d)%Z → (0 < positive v d)%Z.
Proof. unfold positive. destruct (Z.leb_spec v 0); lia. Qed.
Lemma nonempty_ne v d : d ≠ "" → nonempty v d ≠ "".
Proof. unfold nonempty. by destruct (String.eqb_spec v ""). Qed.
Lemma some_of_ne v d : d ≠ [] → some_of v d ≠ [].
Proof. by destruct v. Qed.
Lemma positive_idem v d : (0 < d)%Z → positive (positive v d) d = positive v d.
Proof. intros Hd%(positive_pos v). unfold positive at 1. destruct (Z.leb_spec (positive v d) 0); [lia|done]. Qed.
Lemma nonempty_idem v d : nonempty (nonempty v d) d = nonempty v d.
Proof. unfold nonempty. destruct (String.eqb_spec v "") as [->|Hv]; [by destruct (_ =s "")|]. by apply String.eqb_neq in Hv as ->. Qed.
Lemma some_of_idem v d : some_of (some_of v d) d = some_of v d.
Proof. by destruct v, d. Qed.

Lemma completed_usable c : passes c → usable (completed c) ∧ passes (completed c).
Proof.
  intros [Hl Hc Hs He Hm Hu Hd Ho Hp].
  assert (Hmode : nonempty c.(Config_OAuthAS).(OAuthASConfig_DefaultTokenMode) "read_write" ∈ ["read"; "read_write"]).
  { unfold nonempty. case_elem Hm; rewrite ?Hm; set_solver. }
  assert (Hurl : c.(Config_OAuthAS).(OAuthASConfig_Enabled) = true →
    nonempty c.(Config_OAuthAS).(OAuthASConfig_PublicBaseURL) c.(Config_Server).(ServerConfig_PublicBaseURL) ≠ "").
  { intros Hen. unfold nonempty. destruct (String.eqb_spec c.(Config_OAuthAS).(OAuthASConfig_PublicBaseURL) ""); [|done]. by destruct (Hu Hen). }
  split; [|split; cbn; auto; by right]. split; cbn; rewrite ?Forall_cons, ?Forall_nil; split_and?;
    first [done | by apply positive_pos | by apply nonempty_ne | by apply some_of_ne].
Qed.

(** Filling in twice changes nothing more, section by section. *)
Lemma redis_idem r : redisDefaults (redisDefaults r) = redisDefaults r.
Proof. unfold redisDefaults. destruct r. cbn. by rewrite positive_idem, nonempty_idem. Qed.
Lemma admin_idem a : adminDefaults (adminDefaults a) = adminDefaults a.
Proof. unfold adminDefaults. destruct a. cbn. by rewrite positive_idem, nonempty_idem. Qed.
Lemma limit_idem l : limitDefaults (limitDefaults l) = limitDefaults l.
Proof. unfold limitDefaults. cbn. by rewrite !positive_idem. Qed.
Lemma exporters_idem x : exportersDefaults (exportersDefaults x) = exportersDefaults x.
Proof. unfold exportersDefaults. destruct x as [? []]. cbn. by rewrite positive_idem. Qed.
Lemma usage_idem u : usageDefaults (usageDefaults u) = usageDefaults u.
Proof.
  unfold usageDefaults. destruct u. cbn -[limitDefaults exportersDefaults]. by rewrite positive_idem, limit_idem, exporters_idem.
Qed.
Lemma agent_fields e p m api key prompt msgs docs chars toks tools ttl :
  agentDefaults (mkAgentConfig e p m api key prompt msgs docs chars toks tools ttl) =
  mkAgentConfig e (nonempty p "simple") (nonempty m "syna-simple-agent") api key
    (nonempty prompt "You are a SynaMCPs assistant. Answer using the provided knowledge context and cite document IDs when relevant.")
    (positive msgs 100) (positive docs 5) (positive chars 6000) (positive toks 512)
    (some_of tools ["knowledge_search"; "knowledge_get"; "knowledge_save"]) (positive ttl 720).
Proof. reflexivity. Qed.
Lemma agent_idem a : agentDefaults (agentDefaults a) = agentDefaults a.
Proof.
  destruct a. rewrite !agent_fields. f_equal; first [apply nonempty_idem|by apply positive_idem|apply some_of_idem].
Qed.
Lemma pool_idem m : poolDefaults (poolDefaults m) = poolDefaults m.
Proof. unfold poolDefaults. destruct m. cbn. by rewrite !positive_idem. Qed.

(** The defaults of the authorization server, with the address of the server. *)
Definition asDefaults (url : string) (o : OAuthASConfig) : OAuthASConfig :=
  let o := oauthASDefaults o in
  let o := o <| OAuthASConfig_PublicBaseURL := nonempty o.(OAuthASConfig_PublicBaseURL) url |> in
  o <| OAuthASConfig_AllowedRedirectURIPatterns := some_of o.(OAuthASConfig_AllowedRedirectURIPatterns) redirectPatterns |>.
Lemma as_idem url o : asDefaults url (asDefaults url o) = asDefaults url o.
Proof. unfold asDefaults, oauthASDefaults. destruct o. cbn. by rewrite !positive_idem, !nonempty_idem, some_of_idem. Qed.

Definition webDefaults (w : WebConfig) : WebConfig := w <| WebConfig_Admin := adminDefaults w.(WebConfig_Admin) |>.
Lemma web_idem w : webDefaults (webDefaults w) = webDefaults w.
Proof. destruct w as [ui user a]. exact (f_equal (mkWebConfig ui user) (admin_idem a)). Qed.

Lemma completed_fields srv tr web oauth oas tel redis s3 emb sum vec meta chk lim api srch usage mcp agent q b sb :
  completed (mkConfig srv tr web oauth oas tel redis s3 emb sum vec meta chk lim api srch usage mcp agent q b sb) =
  mkConfig srv tr (webDefaults web) oauth (asDefaults srv.(ServerConfig_PublicBaseURL) oas) tel
    (redisDefaults redis) s3 emb sum vec (poolDefaults meta) chk lim api srch (usageDefaults usage) mcp (agentDefaults agent) q b sb.
Proof. reflexivity. Qed.

Lemma completed_idem c : completed (completed c) = completed c.
Proof.
  destruct c. rewrite !completed_fields. by rewrite web_idem, as_idem, redis_idem, pool_idem, usage_idem, agent_idem.
Qed.

(** A setting that was made is kept. *)
Definition kept_Z (v v' : Z) : Prop := (0 < v)%Z → v' = v.
Definition kept_s (v v' : string) : Prop := v ≠ "" → v' = v.

Lemma positive_kept v d : kept_Z v (positive v d).
Proof. unfold kept_Z, positive. destruct (Z.leb_spec v 0); [lia|done]. Qed.
Lemma nonempty_kept v d : kept_s v (nonempty v d).
Proof. unfold kept_s, nonempty. by destruct (String.eqb_spec v ""). Qed.

End Validation.

(** ** The environment *)

(** Nothing that was set is changed. *)
Definition env_extends (env env' : gmap string string) : Prop := ∀ k v, env !! k = Some v → v ≠ "" → env' !! k = Some v.

Lemma dotEnvLine_extends env line : env_extends env (dotEnvLine env line).
Proof.
  unfold dotEnvLine. cbv zeta. destruct (_ || _); [by intros k v|]. destruct (Cut _ _) as [[key value] [|]]; [|by intros k v].
  destruct (_ || _) eqn:Hk; [by intros k v|]. intros k v Hv Hne. apply orb_false_iff in Hk as [_ Hg]. apply negb_false_iff, String.eqb_eq in Hg.
  rewrite lookup_insert_ne; [done|]. intros <-. unfold Getenv in Hg. by rewrite Hv in Hg.
Qed.

Lemma env_extends_trans env1 env2 env3 : env_extends env1 env2 → env_extends env2 env3 → env_extends env1 env3.
Proof. intros H12 H23 k v Hv Hne. by apply H23, Hne; apply H12. Qed.

Lemma foldl_extends {A} (f : gmap string string → A → gmap string string) l env : (∀ env x, env_extends env (f env x)) → env_extends env (foldl f env l).
Proof.
  intros Hf. revert env. induction l as [|x l IH]; intros env; [by intros k v|]. cbn. eapply env_extends_trans; [apply Hf|apply IH].
Qed.

Lemma loadDotEnv_extends env content : env_extends env (loadDotEnv env content).
Proof. destruct content; [|by intros k v]. apply foldl_extends, dotEnvLine_extends. Qed.

(** The first of the values that is not blank. *)
Fixpoint first_set (l : list string) (otherwise : string) : string :=
  match l with [] => otherwise | v :: l' => if v =s "" then first_set l' otherwise else v end.

Section Loading.
Context (Atoi : string → option Z) (ParseIP : string → option IP) (unicode_lower : Z → Z) (quote : string → string).
Context (readFile : string → string + error) (yaml_unmarshal : string → Config + error).
Context (filepath_Dir : string → string) (filepath_Join : list string → string).

Lemma when_set_keeps {A B} (g : A → B) env k f x : (∀ v x, g (f v x) = g x) → g (when_set env k f x) = g x.
Proof. intros Hf. unfold when_set. cbv zeta. case_match; auto. Qed.

Lemma when_int_keeps {A B} (g : A → B) env k f x : (∀ n x, g (f n x) = g x) → g (when_int Atoi env k f x) = g x.
Proof. intros Hf. apply when_set_keeps. intros v y. case_match; auto. Qed.

Lemma model_override env m prefix : (applyModelEnvOverrides Atoi env m prefix).(ModelConfig_Model)
  = first_set [trimmed env (prefix +:+ "_MODEL")] m.(ModelConfig_Model).
Proof.
  unfold applyModelEnvOverrides. cbv zeta. rewrite !when_int_keeps, !(when_set_keeps ModelConfig_Model _ (prefix +:+ "_API_KEY_ENV")),
    !(when_set_keeps ModelConfig_Model _ (prefix +:+ "_ENDPOINT")) by done.
  unfold when_set at 1. cbv zeta. cbn [first_set]. destruct (_ =s ""); [|done]. by apply when_set_keeps.
Qed.

Lemma dsn_override env yaml : dsnOf env yaml = first_set [trimmed env "METADATA_CATALOG_DSN"; trimmed env "DATABASE_URL"] (resolveSecret (Getenv env) yaml).
Proof. unfold dsnOf. cbn [first_set]. cbv zeta. by destruct (_ =s ""), (_ =s ""). Qed.

Lemma loadDotEnvCandidates_extends env path : env_extends env (loadDotEnvCandidates readFile filepath_Dir filepath_Join env path).
Proof. apply foldl_extends. intros env' p. apply loadDotEnv_extends. Qed.

(** [Load]: the files beside the configuration never change a variable of
    the process that is set. What is loaded is usable; the database is named
    by METADATA_CATALOG_DSN, else by DATABASE_URL, else by the file, where a
    reference to a variable is followed; the public address of the process
    replaces both addresses of the file; and for a model the variables win
    over the file. *)
Theorem load_precedence env path env' cfg :
  Load Atoi ParseIP unicode_lower quote readFile yaml_unmarshal filepath_Dir filepath_Join env path = (env', ok cfg) →
  env_extends env env' ∧ usable cfg
  ∧ ∃ raw yaml, readFile path = inl raw ∧ yaml_unmarshal raw = inl yaml
    ∧ cfg.(Config_Metadata).(MetadataConfig_DSN) =
        first_set [trimmed env' "METADATA_CATALOG_DSN"; trimmed env' "DATABASE_URL"] (resolveSecret (Getenv env') yaml.(Config_Metadata).(MetadataConfig_DSN))
    ∧ cfg.(Config_Server).(ServerConfig_PublicBaseURL) =
        nonempty (publicBaseURLFromEnv env') yaml.(Config_Server).(ServerConfig_PublicBaseURL)
    ∧ (publicBaseURLFromEnv env' ≠ "" → cfg.(Config_OAuthAS).(OAuthASConfig_PublicBaseURL) = publicBaseURLFromEnv env')
    ∧ cfg.(Config_Embedding).(ModelConfig_Model) = first_set [trimmed env' "SYNAMCP_EMBEDDING_MODEL"] yaml.(Config_Embedding).(ModelConfig_Model)
    ∧ cfg.(Config_Summarization).(ModelConfig_Model) =
        first_set [trimmed env' "SYNAMCP_SUMMARIZATION_MODEL"] yaml.(Config_Summarization).(ModelConfig_Model).
Proof.
  unfold Load. cbv zeta. set (env1 := loadDotEnvCandidates _ _ _ env path).
  destruct (readFile path) as [raw|err]; [|done]. destruct (yaml_unmarshal raw) as [yaml|err] eqn:Hy; [|done].
  destruct (Validate _ _ _) as [c [err|]] eqn:Hv; [done|]. intros [= <- <-]. split; [apply loadDotEnvCandidates_extends|].
  assert (Ha : acceptable (λ addr, isLoopbackListenAddr ParseIP addr = true) (applyEnvOverrides Atoi unicode_lower env1 yaml)) by (eapply Validate_refuses; by rewrite Hv).
  rewrite (Validate_acceptable ParseIP quote _ Ha) in Hv. injection Hv as <-. split; [by eapply completed_usable|].
  exists raw, yaml. split; [done|]. split; [exact Hy|]. rewrite <- dsn_override, <- !(model_override env1 _ "SYNAMCP_EMBEDDING"),
    <- !(model_override env1 _ "SYNAMCP_SUMMARIZATION"). unfold completed, applyEnvOverrides, nonempty. cbv zeta.
  destruct (String.eqb_spec (publicBaseURLFromEnv env1) "") as [He|He]; split_and!; try done.
  intros _. by apply (nonempty_kept (publicBaseURLFromEnv env1)).
Qed.
End Loading.

(** ** The loopback test *)

(** An address without a host listens on every interface; the test takes it
    for a loopback address, so a provider without keys is accepted there. *)
Theorem open_address_counts_as_loopback ParseIP quote c p : c.(Config_Server).(ServerConfig_ListenAddr) = ":8080" →
  c.(Config_Server).(ServerConfig_DevMode) = true → p.(Provider_Issuer) ≠ "" → p.(Provider_Audience) ≠ "" →
  p.(Provider_JWKSURL) = "insecure" → badProvider ParseIP quote c p = None.
Proof. intros Ha Hd Hi Hau Hj. apply badProvider_spec. split_and!; [done..|]. intros _. by rewrite Ha, Hd. Qed.

(** ** Witnesses *)

Section Witnesses.
Definition wc_config : Config :=
  (zeroval : Config) <| Config_Server := mkServerConfig ":8080" "https://a" true |> <| Config_Chunking := mkChunkingConfig 10 0 |>
    <| Config_Summarization := (zeroval : ModelConfig) <| ModelConfig_Model := "m" |> |>
    <| Config_Embedding := (zeroval : ModelConfig) <| ModelConfig_Model := "e" |> |>
    <| Config_Metadata := (zeroval : MetadataConfig) <| MetadataConfig_DSN := "$DSN" |> |>
    <| Config_API := mkAPIConfig [] ["https://a"] [] |>.
Definition wc_read (path : string) : string + error :=
  if path =s "c.yaml" then inl "" else inl ("DSN=" +:+ String "034"%char ("db" +:+ String "034"%char "")).
Notation wc_load env :=
  (Load (λ _, None) (λ _, None) (λ r, r) (λ s, s) wc_read (λ _, inl wc_config) (λ _, "") (λ l, Join l "/") env "c.yaml").

(** A development server on an address, with a provider without keys. *)
Definition wc_ip (s : string) : option IP :=
  if s =s "127.0.0.1" then Some (v4InV6Prefix ++ [127; 0; 0; 1]%Z) else if s =s "::1" then Some IPv6loopback
  else if s =s "10.0.0.1" then Some (v4InV6Prefix ++ [10; 0; 0; 1]%Z) else None.
Definition wc_insecure (addr : string) : Config :=
  wc_config <| Config_Server := mkServerConfig addr "https://a" true |>
    <| Config_OAuth := mkOAuthConfig [mkProviderConfig "p" "i" "a" "insecure" "" ""] [] |>.

Lemma wc_parse_law : parse_law wc_ip.
Proof. split; eexists; (split; [reflexivity|]); right; [left; by do 3 eexists|by right]. Qed.


(** The file [.env] names the database, unless the process does. *)
Lemma load_precedence_witness :
  (∃ cfg, (wc_load ∅).2 = ok cfg ∧ usable cfg ∧ cfg.(Config_Metadata).(MetadataConfig_DSN) = "db")
  ∧ (wc_load {[ "DATABASE_URL" := "url" ]}).2.1.(Config_Metadata).(MetadataConfig_DSN) = "url".
Proof.
  split; [|vm_compute; reflexivity].
  assert (Hok : (wc_load ∅).2.2 = None) by (vm_compute; reflexivity).
  assert (Hdb : (wc_load ∅).2.1.(Config_Metadata).(MetadataConfig_DSN) = "db") by (vm_compute; reflexivity).
  destruct (wc_load ∅) as [env' [cfg err]] eqn:Hl. cbn [fst snd] in Hok, Hdb. subst err.
  exists cfg. split; [reflexivity|]. split; [|exact Hdb]. apply load_precedence in Hl. exact (proj1 (proj2 Hl)).
Defined.

Lemma open_address_counts_as_loopback_witness :
  badProvider (λ _, None) (λ s, s) wc_config (mkProviderConfig "p" "i" "a" "insecure" "" "") = None.
Proof. by apply open_address_counts_as_loopback. Defined.
End Witnesses.
