(* ===== verification/Sessions.v ===== *)
(** [internal/session/redis_store.go]: MCP and web sessions with an expiry,
    and the events of a session's streams. What is kept in memory is kept in
    Redis too when it is configured; Redis and JSON are parameters, errors of
    Redis are dropped by the code. Where the code reads the clock twice for
    one deadline, the model reads it once.

    The abstract store at the end of the file keeps sessions until they are
    deleted and every event of a session until it is evicted: the theorem
    says what callers see of it. *)
From S2P Require Import Prelude GoStrings Models DataObj AccessState Proxy Usage.
From Stdlib Require Import Ascii.

Class SessionRedis := {
  SR : Type;
  sr_set : Time → string → string → Duration → SR → SR;
  sr_get : Time → string → SR → option string;
  sr_scan : Time → string → SR → list string;
  sr_del : string → SR → SR;
  sr_ping : SR → option error
}.

(** A value to and from JSON. *)
Class Codec (A : Type) := { to_json : A → option string; of_json : string → option A }.

Record SessionStore `{SessionRedis} := mkSessionStore {
  ss_mcp : gmap string Session;
  ss_web : gmap string WebSession;
  ss_streamState : gmap string string;
  ss_streamEvents : gmap string (list string);
  ss_redis : option SR;
  ss_prefix : string;
  ss_ttl : Duration
}.
#[export] Instance settable_SessionStore `{SessionRedis} : Settable SessionStore := λ s,
  mkSessionStore _ s.(ss_mcp) s.(ss_web) s.(ss_streamState) s.(ss_streamEvents) s.(ss_redis) s.(ss_prefix) s.(ss_ttl).

Definition filterAfter (events : list string) (afterEvent : string) : list string :=
  if afterEvent =s "" then events
  else match list_find (λ e, e = afterEvent) events with
  | Some (i, _) => drop (S i) events
  | None => events
  end.

(** The keys of a session's streams. *)
Definition streamOf (id key : string) : bool :=
  (slen id <? slen key)%Z && (take_bytes (S (String.length id)) key =s id +:+ ":").

Section Sessions.
Context `{SessionRedis, !Codec Session, !Codec WebSession, !Codec (list string)}.
Implicit Types (s : SessionStore) (e : Env) (t : Time).

(** [hours]: [cfg.TTLHours]; [redis]: the client when an address is set. *)
Definition NewSessionStore (redis : option SR) (prefix : string) (hours : Z) : SessionStore :=
  mkSessionStore _ ∅ ∅ ∅ ∅ redis prefix (wrap64 (hours * Hour)).

Definition redisKey s (key : string) : string := (if s.(ss_prefix) =s "" then "syna" else s.(ss_prefix)) +:+ ":" +:+ key.

Definition persistString t s (key value : string) (expiresAt : Time) : SessionStore :=
  match s.(ss_redis) with
  | None => s
  | Some r =>
      let ttl := (expiresAt - t)%Z in
      let ttl := if (ttl <=? 0)%Z then s.(ss_ttl) else ttl in
      s <| ss_redis := Some (sr_set t (redisKey s key) value ttl r) |>
  end.

Definition persist {A} `{!Codec A} t s (key : string) (value : A) (expiresAt : Time) : SessionStore :=
  match s.(ss_redis), to_json value with
  | Some _, Some raw => persistString t s key raw expiresAt
  | _, _ => s
  end.

Definition load {A} `{!Codec A} t s (key : string) : option A :=
  r ← s.(ss_redis); raw ← sr_get t (redisKey s key) r; of_json raw.

Definition CreateMCPSession e s (p : Principal) (ttl : Duration) : SessionStore * Session :=
  let session := mkSession (uuid e 0) p "streamable_http" [] ∅ (now e 0 + ttl)%Z in
  let s := persist (now e 1) s ("mcp:session:" +:+ session.(Session_SessionID)) session session.(Session_ExpiresAt) in
  (s <| ss_mcp := <[session.(Session_SessionID) := session]> s.(ss_mcp) |>, session).

Definition loadMCPSession t s (id : string) : option Session :=
  out ← load t s ("mcp:session:" +:+ id);
  if After t out.(Session_ExpiresAt) then None else Some out.

Definition GetMCPSession t s (id : string) : Session * bool :=
  match loadMCPSession t s id with
  | Some v => (v, true)
  | None =>
      match s.(ss_mcp) !! id with
      | Some v => (v, Before t v.(Session_ExpiresAt))
      | None => (zeroval, false)
      end
  end.

Definition DeleteMCPSession t s (id : string) : SessionStore :=
  let s := s <| ss_mcp := delete id s.(ss_mcp) |>
             <| ss_streamState := filter (λ kv, streamOf id kv.1 = false) s.(ss_streamState) |>
             <| ss_streamEvents := filter (λ kv, streamOf id kv.1 = false) s.(ss_streamEvents) |> in
  match s.(ss_redis) with
  | None => s
  | Some r => s <| ss_redis := Some (foldl (λ r k, sr_del k r) r (sr_scan t (redisKey s "mcp:" +:+ "*" +:+ id +:+ "*") r)) |>
  end.

Definition CreateWebSession e s (p : Principal) (ttl : Duration) : SessionStore * WebSession :=
  let session := mkWebSession (uuid e 0) p (uuid e 1) (now e 0 + ttl)%Z in
  let s := persist (now e 1) s ("web:session:" +:+ session.(WebSession_SessionID)) session session.(WebSession_ExpiresAt) in
  (s <| ss_web := <[session.(WebSession_SessionID) := session]> s.(ss_web) |>, session).

Definition loadWebSession t s (id : string) : option WebSession :=
  out ← load t s ("web:session:" +:+ id);
  if After t out.(WebSession_ExpiresAt) then None else Some out.

Definition GetWebSession t s (id : string) : WebSession * bool :=
  match loadWebSession t s id with
  | Some v => (v, true)
  | None =>
      match s.(ss_web) !! id with
      | Some v => (v, Before t v.(WebSession_ExpiresAt))
      | None => (zeroval, false)
      end
  end.

Definition SaveLastEvent t s (sessionID streamID eventID : string) : SessionStore :=
  let key := sessionID +:+ ":" +:+ streamID in
  persistString t (s <| ss_streamState := <[key := eventID]> s.(ss_streamState) |>)
    ("mcp:stream:" +:+ key +:+ ":last_event") eventID (t + s.(ss_ttl))%Z.

Definition LastEvent t s (sessionID streamID : string) : string :=
  let kept := get0 s.(ss_streamState) (sessionID +:+ ":" +:+ streamID) in
  match s.(ss_redis) with
  | None => kept
  | Some r => default kept (sr_get t (redisKey s ("mcp:stream:" +:+ sessionID +:+ ":" +:+ streamID +:+ ":last_event")) r)
  end.

Definition AppendEvent t s (sessionID streamID payload : string) : SessionStore :=
  let key := sessionID +:+ ":" +:+ streamID in
  let events := get0 s.(ss_streamEvents) key ++ [payload] in
  let events := if (100 <? Z.of_nat (length events))%Z then keepLast 100 events else events in
  persist t (s <| ss_streamEvents := <[key := events]> s.(ss_streamEvents) |>) ("mcp:events:" +:+ key) events (t + s.(ss_ttl))%Z.

Definition ReplayFrom t s (sessionID streamID afterEvent : string) : list string :=
  match load (A := list string) t s ("mcp:events:" +:+ sessionID +:+ ":" +:+ streamID) with
  | Some events => filterAfter events afterEvent
  | None => filterAfter (get0 s.(ss_streamEvents) (sessionID +:+ ":" +:+ streamID)) afterEvent
  end.

Definition EvictExpired t s : SessionStore :=
  s <| ss_mcp := filter (λ kv, Before t kv.2.(Session_ExpiresAt) = true) s.(ss_mcp) |>
    <| ss_web := filter (λ kv, Before t kv.2.(WebSession_ExpiresAt) = true) s.(ss_web) |>.

Definition Ping s : option error := match s.(ss_redis) with None => None | Some r => sr_ping r end.
Definition IsPersistent s : bool := match s.(ss_redis) with None => false | Some _ => true end.
End Sessions.

(** ** The abstract store *)

(** Sessions by identifier until they are deleted; of each stream of a session
    all events and the last one that was saved, until the session is deleted
    or an eviction finds it expired. *)
Record SessionSpec := mkSessionSpec {
  sp_sessions : gmap string Session;
  sp_web : gmap string WebSession;
  sp_history : gmap (string * string) (list string);
  sp_last : gmap (string * string) string
}.

Inductive ss_op :=
| SOpen (e : Env) (p : Principal) (ttl : Duration)
| SWeb (e : Env) (p : Principal) (ttl : Duration)
| SClose (t : Time) (id : string)
| SSave (t : Time) (sessionID streamID eventID : string)
| SAppend (t : Time) (sessionID streamID payload : string)
| SEvict (t : Time).

(** The session has not expired at [t]; there may be none. *)
Definition unexpired (sessions : gmap string Session) (t : Time) (id : string) : Prop :=
  match sessions !! id with Some v => (t < v.(Session_ExpiresAt))%Z | None => True end.
#[export] Instance unexpired_dec sessions t id : Decision (unexpired sessions t id).
Proof. unfold unexpired. destruct (sessions !! id); apply _. Defined.

Definition spec_step (a : SessionSpec) (op : ss_op) : SessionSpec :=
  match op with
  | SOpen e p ttl =>
      mkSessionSpec (<[uuid e 0 := mkSession (uuid e 0) p "streamable_http" [] ∅ (now e 0 + ttl)%Z]> a.(sp_sessions))
        a.(sp_web) a.(sp_history) a.(sp_last)
  | SWeb e p ttl =>
      mkSessionSpec a.(sp_sessions) (<[uuid e 0 := mkWebSession (uuid e 0) p (uuid e 1) (now e 0 + ttl)%Z]> a.(sp_web))
        a.(sp_history) a.(sp_last)
  | SClose _ id =>
      mkSessionSpec (delete id a.(sp_sessions)) a.(sp_web) (filter (λ kv, kv.1.1 ≠ id) a.(sp_history))
        (filter (λ kv, kv.1.1 ≠ id) a.(sp_last))
  | SSave _ sid stream ev => mkSessionSpec a.(sp_sessions) a.(sp_web) a.(sp_history) (<[(sid, stream) := ev]> a.(sp_last))
  | SAppend _ sid stream payload =>
      mkSessionSpec a.(sp_sessions) a.(sp_web)
        (<[(sid, stream) := default [] (a.(sp_history) !! (sid, stream)) ++ [payload]]> a.(sp_history)) a.(sp_last)
  | SEvict t =>
      mkSessionSpec a.(sp_sessions) a.(sp_web) (filter (λ kv, unexpired a.(sp_sessions) t kv.1.1) a.(sp_history))
        (filter (λ kv, unexpired a.(sp_sessions) t kv.1.1) a.(sp_last))
  end.

(** Identifiers of sessions have no colon; [T] is later than every eviction. *)
Definition op_fits (T : Time) (op : ss_op) : Prop :=
  match op with
  | SClose _ id => Contains id ":" = false
  | SAppend _ sid _ _ => Contains sid ":" = false
  | SEvict t => (t <= T)%Z
  | _ => True
  end.

(** And the identifier drawn for a session is not one that is in use. *)
Fixpoint ops_fit (T : Time) (a : SessionSpec) (ops : list ss_op) : Prop :=
  match ops with
  | [] => True
  | op :: ops =>
      op_fits T op
      ∧ match op with
        | SOpen e _ _ => a.(sp_sessions) !! uuid e 0 = None
        | SSave _ sid _ _ => Contains sid ":" = false
        | _ => True
        end
      ∧ ops_fit T (spec_step a op) ops
  end.

Lemma stream_key_inj sid sid' st st' : Contains sid ":" = false → Contains sid' ":" = false →
  sid +:+ ":" +:+ st = sid' +:+ ":" +:+ st' → sid = sid' ∧ st = st'.
Proof.
  intros H1 H2 Heq. pose proof (Cut_no_char sid ":"%char "" st H1) as Hc. rewrite Heq in Hc.
  rewrite (Cut_no_char sid' ":"%char "" st' H2) in Hc. by injection Hc as -> ->.
Qed.

Lemma take_drop_bytes n s : take_bytes n s +:+ drop_bytes n s = s.
Proof.
  revert s. induction n as [|n IH]; intros [|c s]; cbn [take_bytes drop_bytes]; rewrite ?app_nil_s, ?app_cons_s; try done.
  by rewrite IH.
Qed.

Lemma streamOf_key id sid st : Contains id ":" = false → Contains sid ":" = false →
  streamOf id (sid +:+ ":" +:+ st) = bool_decide (sid = id).
Proof.
  intros Hid Hsid. unfold streamOf. case_bool_decide as Heq.
  - subst sid. apply andb_true_iff. split.
    + apply Z.ltb_lt. unfold slen. rewrite !length_app_s. cbn. lia.
    + apply String.eqb_eq. rewrite <- (take_bytes_app (id +:+ ":") st), app_assoc_s. f_equal. by rewrite length_app_s, Nat.add_comm.
  - apply andb_false_iff. right. apply String.eqb_neq. intros Htake. apply Heq.
    assert (Hk : sid +:+ ":" +:+ st = id +:+ ":" +:+ drop_bytes (S (String.length id)) (sid +:+ ":" +:+ st)).
    { rewrite <- (take_drop_bytes (S (String.length id)) (sid +:+ ":" +:+ st)) at 1. by rewrite Htake, app_assoc_s. }
    by destruct (stream_key_inj _ _ _ _ Hsid Hid Hk).
Qed.

Lemma keepLast_snoc {A} (h : list A) x :
  (let l := keepLast 100 h ++ [x] in if (100 <? Z.of_nat (length l))%Z then keepLast 100 l else l) = keepLast 100 (h ++ [x]).
Proof.
  unfold keepLast. rewrite !length_app, !length_drop. cbn [length].
  destruct (Z.ltb_spec 100 (Z.of_nat (length h - Z.to_nat (Z.of_nat (length h) - 100) + 1))).
  - rewrite drop_app_le by (rewrite length_drop; lia). rewrite drop_drop, drop_app_le by lia.
    do 2 f_equal. lia.
  - rewrite drop_app_le by lia. do 2 f_equal. lia.
Qed.

Section Refinement.
Context `{SessionRedis, !Codec Session, !Codec WebSession, !Codec (list string)}.
Implicit Types (s : SessionStore) (a : SessionSpec) (T t : Time).

Definition ss_step s (op : ss_op) : SessionStore :=
  match op with
  | SOpen e p ttl => (CreateMCPSession e s p ttl).1
  | SWeb e p ttl => (CreateWebSession e s p ttl).1
  | SClose t id => DeleteMCPSession t s id
  | SSave t sid stream ev => SaveLastEvent t s sid stream ev
  | SAppend t sid stream payload => AppendEvent t s sid stream payload
  | SEvict t => EvictExpired t s
  end.

(** A session missing from the store has expired by [T], and the streams of
    every session that has not are those of the abstract store. *)
Record ss_rel T s a : Prop := mkSsRel {
  sl_memory : s.(ss_redis) = None;
  sl_kept : ∀ id v, s.(ss_mcp) !! id = Some v → a.(sp_sessions) !! id = Some v;
  sl_gone : ∀ id v, a.(sp_sessions) !! id = Some v → s.(ss_mcp) !! id = None → (v.(Session_ExpiresAt) <= T)%Z;
  sl_webKept : ∀ id v, s.(ss_web) !! id = Some v → a.(sp_web) !! id = Some v;
  sl_webGone : ∀ id v, a.(sp_web) !! id = Some v → s.(ss_web) !! id = None → (v.(WebSession_ExpiresAt) <= T)%Z;
  sl_events : ∀ sid st, Contains sid ":" = false → unexpired a.(sp_sessions) T sid →
    get0 s.(ss_streamEvents) (sid +:+ ":" +:+ st) = keepLast 100 (default [] (a.(sp_history) !! (sid, st)));
  sl_last : ∀ sid st, Contains sid ":" = false → unexpired a.(sp_sessions) T sid →
    get0 s.(ss_streamState) (sid +:+ ":" +:+ st) = default "" (a.(sp_last) !! (sid, st))
}.

Lemma persist_memory {A} `{!Codec A} t s key (v : A) at_ : s.(ss_redis) = None → persist t s key v at_ = s.
Proof. intros Hm. unfold persist. by rewrite Hm. Qed.

Lemma unexpired_insert_new (m : gmap string Session) T id v k : m !! id = None → unexpired (<[id := v]> m) T k → unexpired m T k.
Proof. intros Hn. unfold unexpired. rewrite lookup_insert. case_decide; [subst; by rewrite Hn|done]. Qed.

Lemma ss_rel_open T s a e p ttl : a.(sp_sessions) !! uuid e 0 = None → ss_rel T s a →
  ss_rel T (CreateMCPSession e s p ttl).1 (spec_step a (SOpen e p ttl)).
Proof.
  intros Hnew [Hm Hk Hg Hwk Hwg He Hl]. unfold CreateMCPSession. rewrite persist_memory by done. split; cbn; try done.
  - intros id v. rewrite !lookup_insert. case_decide; [done|]. apply Hk.
  - intros id v. rewrite !lookup_insert. case_decide; [done|]. apply Hg.
  - intros sid st Hsid Hu%unexpired_insert_new; [|done]. by apply He.
  - intros sid st Hsid Hu%unexpired_insert_new; [|done]. by apply Hl.
Qed.

Lemma ss_rel_web T s a e p ttl : ss_rel T s a → ss_rel T (CreateWebSession e s p ttl).1 (spec_step a (SWeb e p ttl)).
Proof.
  intros [Hm Hk Hg Hwk Hwg He Hl]. unfold CreateWebSession. rewrite persist_memory by done. split; cbn; try done.
  - intros id v. rewrite !lookup_insert. case_decide; [done|]. apply Hwk.
  - intros id v. rewrite !lookup_insert. case_decide; [done|]. apply Hwg.
Qed.

(** The streams of a deleted session are gone on both sides. *)
Lemma deleted_streams {A B} `{Zero A} (c : gmap string A) (h : gmap (string * string) B) (f : option B → A) id sid st :
  Contains id ":" = false → Contains sid ":" = false → f None = zeroval →
  (sid ≠ id → get0 c (sid +:+ ":" +:+ st) = f (h !! (sid, st))) →
  get0 (filter (λ kv, streamOf id kv.1 = false) c) (sid +:+ ":" +:+ st) = f (filter (λ kv, kv.1.1 ≠ id) h !! (sid, st)).
Proof.
  intros Hid Hsid Hf He. pose proof (streamOf_key id sid st Hid Hsid) as Hs. unfold get0 in *. rewrite !map_lookup_filter. cbn.
  case_bool_decide as Heq.
  - subst sid. replace (h !! (id, st) ≫= _) with (None : option B); [rewrite Hf|].
    + destruct (c !! _); cbn; [|done]. by rewrite option_guard_False by (by rewrite Hs).
    + destruct (h !! _); cbn; [|done]. by rewrite option_guard_False by naive_solver.
  - specialize (He Heq). destruct (c !! _), (h !! _); cbn in *; rewrite ?option_guard_True by done; exact He.
Qed.

Lemma ss_rel_close T s a t id : Contains id ":" = false → ss_rel T s a →
  ss_rel T (DeleteMCPSession t s id) (spec_step a (SClose t id)).
Proof.
  intros Hid [Hm Hk Hg Hwk Hwg He Hl]. unfold DeleteMCPSession. cbn. rewrite Hm.
  assert (Hu : ∀ sid, sid ≠ id → unexpired (delete id a.(sp_sessions)) T sid → unexpired a.(sp_sessions) T sid)
    by (intros sid Hne; unfold unexpired; by rewrite lookup_delete_ne).
  split; cbn -[keepLast]; try done.
  - intros k v. rewrite !lookup_delete. case_decide; [done|]. apply Hk.
  - intros k v. rewrite !lookup_delete. case_decide; [done|]. apply Hg.
  - intros sid st Hsid Hx. apply (deleted_streams s.(ss_streamEvents) a.(sp_history) (λ o, keepLast 100 (default [] o))); auto.
  - intros sid st Hsid Hx. apply (deleted_streams s.(ss_streamState) a.(sp_last) (default "")); auto.
Qed.

Lemma ss_rel_append T s a t sid stream payload : Contains sid ":" = false → ss_rel T s a →
  ss_rel T (AppendEvent t s sid stream payload) (spec_step a (SAppend t sid stream payload)).
Proof.
  intros Hid [Hm Hk Hg Hwk Hwg He Hl]. unfold AppendEvent. rewrite persist_memory by done. split; cbn -[keepLast]; try done.
  intros sid' st' Hid' Hu. rewrite get0_insert. case_decide as Heq.
  - apply stream_key_inj in Heq as [<- <-]; [|done..]. rewrite lookup_insert_eq, (He sid stream Hid Hu). apply keepLast_snoc.
  - rewrite lookup_insert_ne; [by apply He|]. intros [= -> ->]. done.
Qed.

Lemma ss_rel_save T s a t sid stream ev : Contains sid ":" = false → ss_rel T s a →
  ss_rel T (SaveLastEvent t s sid stream ev) (spec_step a (SSave t sid stream ev)).
Proof.
  intros Hid [Hm Hk Hg Hwk Hwg He Hl]. unfold SaveLastEvent, persistString. cbn. rewrite Hm. split; cbn; try done.
  intros sid' st' Hid' Hu. rewrite get0_insert. case_decide as Heq.
  - apply stream_key_inj in Heq as [<- <-]; [|done..]. by rewrite lookup_insert_eq.
  - rewrite lookup_insert_ne; [by apply Hl|]. intros [= -> ->]. done.
Qed.

Lemma unexpired_earlier m t T id : (t <= T)%Z → unexpired m T id → unexpired m t id.
Proof. unfold unexpired. destruct (m !! id); [lia|done]. Qed.

(** What is gone after an eviction was gone before, or has expired. *)
Lemma evicted {V} (exp : V → Time) (m spec : gmap string V) t T id v : (t <= T)%Z →
  (∀ id v, m !! id = Some v → spec !! id = Some v) → (∀ id v, spec !! id = Some v → m !! id = None → (exp v <= T)%Z) →
  spec !! id = Some v → filter (λ kv, Before t (exp kv.2) = true) m !! id = None → (exp v <= T)%Z.
Proof.
  intros HT Hk Hg Ha Hn. destruct (m !! id) as [v'|] eqn:Hv; [|by eapply Hg].
  assert (v' = v) as -> by (apply Hk in Hv; congruence).
  apply map_lookup_filter_None in Hn as [?|Hn]; [congruence|].
  specialize (Hn v Hv). apply not_true_iff_false, Z.ltb_ge in Hn. cbn in Hn. lia.
Qed.

Lemma ss_rel_evict T s a t : (t <= T)%Z → ss_rel T s a → ss_rel T (EvictExpired t s) (spec_step a (SEvict t)).
Proof.
  intros HT [Hm Hk Hg Hwk Hwg He Hl]. split; [done|..]; unfold EvictExpired; cbn -[keepLast].
  - intros id v [Hv _]%map_lookup_filter_Some. by apply Hk.
  - intros id v. by apply (evicted Session_ExpiresAt).
  - intros id v [Hv _]%map_lookup_filter_Some. by apply Hwk.
  - intros id v. by apply (evicted WebSession_ExpiresAt).
  - intros sid st Hsid Hu. rewrite (He sid st Hsid Hu), map_lookup_filter. pose proof (unexpired_earlier _ t T sid HT Hu).
    destruct (_ !! (sid, st)); cbn -[keepLast]; [by rewrite option_guard_True|done].
  - intros sid st Hsid Hu. rewrite (Hl sid st Hsid Hu), map_lookup_filter. pose proof (unexpired_earlier _ t T sid HT Hu).
    destruct (_ !! (sid, st)); cbn; [by rewrite option_guard_True|done].
Qed.

Lemma ss_rel_run T s a ops : ops_fit T a ops → ss_rel T s a → ss_rel T (foldl ss_step s ops) (foldl spec_step a ops).
Proof.
  revert s a. induction ops as [|op ops IH]; intros s a Hfit Hr; [done|].
  destruct Hfit as (Hfits & Hop & Hops). cbn. apply IH; [done|].
  destruct op; cbn [ss_step]; [by apply ss_rel_open|by apply ss_rel_web|by apply ss_rel_close|by apply ss_rel_save
    |by apply ss_rel_append|by apply ss_rel_evict].
Qed.

(** The store of a process without Redis, after a run. *)
Definition sessions_after (prefix : string) (hours : Z) (ops : list ss_op) : SessionStore :=
  foldl ss_step (NewSessionStore None prefix hours) ops.
Definition spec_empty : SessionSpec := mkSessionSpec ∅ ∅ ∅ ∅.
Definition spec_after (ops : list ss_op) : SessionSpec := foldl spec_step spec_empty ops.

Lemma sessions_rel T prefix hours ops : ops_fit T spec_empty ops → ss_rel T (sessions_after prefix hours ops) (spec_after ops).
Proof.
  intros Hops. apply ss_rel_run; [done|]. split; cbn; try done; intros sid st _ _; unfold get0; by rewrite !lookup_empty.
Qed.

(** C24. The session store in memory implements the abstract one. After any
    run that draws new identifiers for its sessions, and at any time no
    eviction is later than: an MCP session is returned exactly when it was
    opened, was not deleted since and has not expired, and it is the one that
    was opened, and likewise a web session; for the streams of a session that
    has not expired, a replay gives those after the named one among the last
    hundred events since the session was last deleted, and the last event is
    the one saved last. Of the streams of an expired session nothing is said:
    see [eviction_keeps_streams]. *)
Theorem sessions_refine T prefix hours ops : ops_fit T spec_empty ops →
  let s := sessions_after prefix hours ops in
  let a := spec_after ops in
  (∀ id, (GetMCPSession T s id).2 = true ↔ ∃ v, a.(sp_sessions) !! id = Some v ∧ (T < v.(Session_ExpiresAt))%Z)
  ∧ (∀ id v, GetMCPSession T s id = (v, true) → a.(sp_sessions) !! id = Some v)
  ∧ (∀ id, (GetWebSession T s id).2 = true ↔ ∃ v, a.(sp_web) !! id = Some v ∧ (T < v.(WebSession_ExpiresAt))%Z)
  ∧ (∀ id v, GetWebSession T s id = (v, true) → a.(sp_web) !! id = Some v)
  ∧ ∀ sid stream after, Contains sid ":" = false → unexpired a.(sp_sessions) T sid →
      ReplayFrom T s sid stream after = filterAfter (keepLast 100 (default [] (a.(sp_history) !! (sid, stream)))) after
      ∧ LastEvent T s sid stream = default "" (a.(sp_last) !! (sid, stream)).
Proof.
  intros Hops s a. destruct (sessions_rel T prefix hours ops Hops) as [Hm Hk Hg Hwk Hwg He Hl]. fold s a in Hm, Hk, Hg, Hwk, Hwg, He, Hl.
  clearbody s a. unfold GetMCPSession, loadMCPSession, GetWebSession, loadWebSession, ReplayFrom, LastEvent, load. rewrite !Hm.
  cbn -[keepLast filterAfter]. unfold Before. split_and!.
  - intros id. destruct (s.(ss_mcp) !! id) as [v|] eqn:Hv; cbn.
    + rewrite Z.ltb_lt. apply Hk in Hv. naive_solver.
    + split; [done|]. intros (v & Ha & Ht). specialize (Hg _ _ Ha Hv). lia.
  - intros id v. destruct (s.(ss_mcp) !! id) as [v'|] eqn:Hv; [|done]. intros [= <- _]. by apply Hk.
  - intros id. destruct (s.(ss_web) !! id) as [v|] eqn:Hv; cbn.
    + rewrite Z.ltb_lt. apply Hwk in Hv. naive_solver.
    + split; [done|]. intros (v & Ha & Ht). specialize (Hwg _ _ Ha Hv). lia.
  - intros id v. destruct (s.(ss_web) !! id) as [v'|] eqn:Hv; [|done]. intros [= <- _]. by apply Hwk.
  - intros sid st after Hid Hu. by rewrite (He sid st Hid Hu), (Hl sid st Hid Hu).
Qed.

(** An eviction removes expired sessions and leaves their streams: what was
    appended to the streams of a session is replayed after it is gone. *)
Lemma eviction_keeps_streams t t' s sid stream after v : s.(ss_redis) = None →
  s.(ss_mcp) !! sid = Some v → (v.(Session_ExpiresAt) <= t)%Z →
  (EvictExpired t s).(ss_mcp) !! sid = None
  ∧ ReplayFrom t' (EvictExpired t s) sid stream after = filterAfter (get0 s.(ss_streamEvents) (sid +:+ ":" +:+ stream)) after
  ∧ LastEvent t' (EvictExpired t s) sid stream = get0 s.(ss_streamState) (sid +:+ ":" +:+ stream).
Proof.
  intros Hm Hv Hexp. unfold ReplayFrom, LastEvent, load, EvictExpired. cbn. rewrite Hm. split; [|done].
  apply map_lookup_filter_None. right. intros v' Hv'. rewrite Hv in Hv'. injection Hv' as <-. cbn. unfold Before.
  apply not_true_iff_false, Z.ltb_ge. lia.
Qed.
End Refinement.

Section Witnesses.
#[local] Instance no_redis : SessionRedis := {|
  SR := unit; sr_set := λ _ _ _ _ r, r; sr_get := λ _ _ _, None; sr_scan := λ _ _ _, []; sr_del := λ _ r, r; sr_ping := λ _, None
|}.
#[local] Instance no_codec A : Codec A := {| to_json := λ _, None; of_json := λ _, None |}.

Definition wss_env : Env := mkEnv (λ _, 100%Z) (λ _, "s1") (λ _, None).
Definition wss_ops : list ss_op :=
  [SOpen wss_env zeroval 1000; SAppend 110 "s1" "default" "a"; SAppend 111 "s1" "default" "b"; SEvict 200].

(** A session is found until it expires, and its events are replayed. *)
Lemma sessions_refine_witness :
  (GetMCPSession 300 (sessions_after "" 24 wss_ops) "s1").2 = true
  ∧ ReplayFrom 300 (sessions_after "" 24 wss_ops) "s1" "default" "a" = ["b"].
Proof.
  assert (Hops : ops_fit 300 spec_empty wss_ops) by (cbn; split_and!; done || lia).
  destruct (sessions_refine 300 "" 24 wss_ops Hops) as (Hget & _ & _ & _ & Hstreams). split.
  - apply Hget. eexists. split; [by vm_compute|]. vm_compute. done.
  - rewrite (proj1 (Hstreams "s1" "default" "a" eq_refl eq_refl)). by vm_compute.
Defined.
End Witnesses.
