(* ===== verification/DataPlane.v ===== *)
(** The data services behind one front, as [internal/mcp/data_tools.go] has
    them: which operation a tool name and its arguments select, and the
    operation on the services of [Kinds], [Bus], [SecureBus] and [Tables].

    [internal/gitstore] is the class [Git] here. What is shown at the end: an
    operation on a scope without a transaction changes nothing that belongs
    to another object. *)
From S2P Require Import Prelude GoStrings Models DataObj AccessState AccessObjects PolicyScope AgentKeys Bus Kinds SecureBus Tables.
From Stdlib Require Import Floats.SpecFloat.

(** ** Arguments *)

(** [v.(map[string]any)]: nil when it is something else. *)
Definition asMap (v : Any) : option (gmap string Any) := match v with AObject o => Some (list_to_map o) | _ => None end.

(** [params[k]] *)
Definition param (params : list (string * Any)) (k : string) : Any :=
  match List.find (λ kv, kv.1 =s k) params with Some kv => kv.2 | None => ANil end.

Definition f_of_Z (z : Z) : float64 := binary_normalize 53 1024 z 0 false.

(** [int(f)] and [int64(f)] as amd64 computes them: towards zero, and the
    least integer out of range. *)
Definition f_to_int (f : float64) : Z :=
  match f with
  | S754_zero _ => 0
  | S754_finite s m e =>
      let n := (if (0 <=? e)%Z then Zpos m * 2 ^ e else Zpos m / 2 ^ (- e))%Z in
      let n := if s then (- n)%Z else n in
      if ((- 2 ^ 63 <=? n) && (n <? 2 ^ 63))%Z then n else (- 2 ^ 63)%Z
  | _ => (- 2 ^ 63)%Z
  end.

Definition asFloat (v : Any) : float64 :=
  match v with AFloat f => f | AInt z => f_of_Z z | _ => f_zero end.

Definition asFloatOr (v : Any) (def : float64) : float64 :=
  match v with
  | ANil => def
  | _ => let f := asFloat v in if f_eqb f f_zero then def else f
  end.

Definition toolKinds : list ObjectKind :=
  [ObjectKindVariable; ObjectKindCounter; ObjectKindTable; ObjectKindQueue; ObjectKindBus; ObjectKindSecureBus;
   ObjectKindSchedule; ObjectKindLog; ObjectKindGit].

Definition splitKindMethod (toolName : string) : option (ObjectKind * string) :=
  match List.find (λ kind, let prefix := kind +:+ "_" in (slen prefix <? slen toolName)%Z && HasPrefix toolName prefix) toolKinds with
  | Some kind => Some (kind, drop_bytes (String.length (kind +:+ "_")) toolName)
  | None => None
  end.

(** ** Calls *)

Inductive DataCall :=
| CallVariableSet (name prefix : string) (payload : option (gmap string Any))
| CallVariableGet (name prefix : string)
| CallCounterSet (value : float64)
| CallCounterGet
| CallCounterIncrease (delta : float64)
| CallCounterDecrease (delta : float64)
| CallLogAdd (level message : string) (fields : option (gmap string Any))
| CallLogTail (limit : Z)
| CallEnqueue (payload : option (gmap string Any))
| CallDequeue
| CallPeek
| CallSize
| CallProduce (payload : option (gmap string Any))
| CallConsume (consumer : string) (max : Z)
| CallPolicy (version : Z)
| CallPublish (inp : PublishInput)
| CallAttest (inp : AttestInput)
| CallVerify (messageID : Z)
| CallKeys
| CallSBConsume (consumer condition : string) (filter : option (gmap string Any)) (max : Z)
| CallScheduleSet (name cron task : string) (data : option (gmap string Any))
| CallScheduleGet (name : string)
| CallScheduleList
| CallQuery (sql : string)
| CallGit (method : string) (args : gmap string Any).

Section Calls.
(** [time.Parse(time.RFC3339Nano, s)], the zero time when it fails. *)
Context (parse_rfc3339 : string → Time).

Definition parseTime (s : string) : Time := if s =s "" then 0%Z else parse_rfc3339 s.

Definition secureBusCall (subject tokenID method : string) (params : list (string * Any)) : option DataCall :=
  let str k := AsString (param params k) in
  let num k := f_to_int (asFloat (param params k)) in
  if method =s "policy" then Some (CallPolicy (f_to_int (asFloatOr (param params "version") f_zero)))
  else if method =s "publish" then
    Some (CallPublish (mkPublishInput (str "keyId") subject tokenID (num "policyVersion") (str "policyHash") (str "nonce")
      (parseTime (str "createdAt")) (asMap (param params "payload")) (str "signature") (str "prevHash")))
  else if method =s "attest" then
    Some (CallAttest (mkAttestInput (str "keyId") subject tokenID (num "messageId") (num "policyVersion") (str "status")
      (str "comment") (parseTime (str "createdAt")) (str "signature")))
  else if method =s "verify" then Some (CallVerify (num "messageId"))
  else if method =s "keys" then Some CallKeys
  else if (method =s "consume") || (method =s "subscribe") then
    Some (CallSBConsume (str "consumer") (str "condition") (asMap (param params "filter"))
      (f_to_int (asFloatOr (param params "max") (f_of_Z 10))))
  else None.

(** The switch of [handleDataObjectTool]; [None] is its end, where no case
    returned. *)
Definition dataCall (subject tokenID : string) (kind : ObjectKind) (method : string) (params : list (string * Any)) : option DataCall :=
  let str k := AsString (param params k) in
  let map_ k := asMap (param params k) in
  if kind =s ObjectKindVariable then
    Some (if method =s "set" then CallVariableSet (str "name") (str "prefix") (map_ "payload")
          else CallVariableGet (str "name") (str "prefix"))
  else if kind =s ObjectKindCounter then
    if method =s "set" then Some (CallCounterSet (asFloat (param params "value")))
    else if method =s "get" then Some CallCounterGet
    else if method =s "increase" then Some (CallCounterIncrease (asFloatOr (param params "delta") f_one))
    else if method =s "decrease" then Some (CallCounterDecrease (asFloatOr (param params "delta") f_one))
    else None
  else if kind =s ObjectKindLog then
    Some (if method =s "add" then CallLogAdd (str "level") (str "message") (map_ "fields")
          else CallLogTail (f_to_int (asFloatOr (param params "limit") (f_of_Z 100))))
  else if kind =s ObjectKindQueue then
    if method =s "enqueue" then Some (CallEnqueue (map_ "payload"))
    else if method =s "dequeue" then Some CallDequeue
    else if method =s "peek" then Some CallPeek
    else if method =s "size" then Some CallSize
    else None
  else if kind =s ObjectKindBus then
    if method =s "produce" then Some (CallProduce (map_ "payload"))
    else if (method =s "consume") || (method =s "subscribe") then
      Some (CallConsume (str "consumer") (f_to_int (asFloatOr (param params "max") (f_of_Z 10))))
    else None
  else if kind =s ObjectKindSecureBus then secureBusCall subject tokenID method params
  else if kind =s ObjectKindSchedule then
    if method =s "set" then
      Some (CallScheduleSet (str "name") (if str "time" =s "" then str "cron" else str "time") (str "task") (map_ "data"))
    else if method =s "get" then Some (CallScheduleGet (str "name"))
    else if method =s "list" then Some CallScheduleList
    else None
  else if kind =s ObjectKindTable then Some (CallQuery (str "sql"))
  else if kind =s ObjectKindGit then Some (CallGit method (default (list_to_map params) (map_ "args")))
  else None.
End Calls.

(** ** The services *)

(** What [internal/gitstore] offers. *)
Class Git (G : Type) := git_Exec : Env → G → Scope → string → gmap string Any → G * ret Any.

Inductive DataResult :=
| GotVariable (e : option VarEntry)
| GotValue (v : float64)
| GotLog (e : LogEntry)
| GotLogs (l : list LogEntry)
| GotMessage (m : option Message)
| GotSize (n : Z)
| GotEvent (e : Event)
| GotEvents (l : list Event)
| GotPolicy (p : SignedPolicy)
| GotSBMessage (m : SBMessage)
| GotAttestation (a : Attestation)
| GotVerify (v : VerifyResult)
| GotKeys (l : list AgentKey)
| GotSBMessages (l : list SBMessage)
| GotEntry (e : option SchedEntry)
| GotEntries (l : list SchedEntry)
| GotRows (r : QueryResult)
| GotGit (v : Any).

Section Services.
Context `{!KindDB, !BusDB, !SecureBusDB, !Signatures, !GoRange} {K Q R L G : Type}.
Context `{!Kafka K, !AMQP Q, !TimeSeries R, !KeyLookup L, !Git G}.
Context (map_json : gmap string Any → string) (json_map : string → gmap string Any) (ParseDuration : string → ret Duration).
Context (quote : string → string) (rfc3339 : Time → string) (any_json : Any → option string).
Context (document_parse : string → Document + error) (condition_decode : gmap string Any → Condition + error).
Context (b64url_decode b64std_decode : string → option string) (graceSeconds : Z) (unicode_lower : Z → Z).

(** [dp_SecureBus]: [None] for a nil service. *)
Record DataServices := mkDataServices {
  dp_Variable : VariableService;
  dp_Counter : CounterService (R := R);
  dp_Log : LogService;
  dp_Queue : QueueService (Q := Q);
  dp_Bus : BusService (K := K);
  dp_SecureBus : option SBService;
  dp_Keys : L;
  dp_Schedule : ScheduleService;
  dp_Table : KD;
  dp_Git : G
}.
#[export] Instance settable_DataServices : Settable DataServices := λ d,
  mkDataServices d.(dp_Variable) d.(dp_Counter) d.(dp_Log) d.(dp_Queue) d.(dp_Bus) d.(dp_SecureBus) d.(dp_Keys)
    d.(dp_Schedule) d.(dp_Table) d.(dp_Git).
Implicit Types (d : DataServices) (e : Env).

Definition errNoSecureBus : error := NewError "securebus not configured".

(** The result of a service, as a result of the front. *)
Definition got {A} (f : A → DataResult) (r : ret A) : ret (option DataResult) :=
  match r with (a, None) => ok (Some (f a)) | (_, Some err) => fails None err end.

Definition runSecureBus e d (sc : Scope) (c : DataCall) (sb : SBService) : DataServices * ret (option DataResult) :=
  let scope := Some sc in
  let put sb := d <| dp_SecureBus := Some sb |> in
  match c with
  | CallPolicy version =>
      let '(sb, r) := GetPolicy quote document_parse sb scope version in (put sb, got GotPolicy r)
  | CallPublish inp =>
      let '(sb, r) := Publish quote rfc3339 any_json document_parse b64url_decode b64std_decode graceSeconds e sb d.(dp_Keys) scope inp in
      (put sb, got GotSBMessage r)
  | CallAttest inp =>
      let '(sb, r) := Attest quote rfc3339 any_json document_parse b64url_decode b64std_decode graceSeconds e sb d.(dp_Keys) scope inp in
      (put sb, got GotAttestation r)
  | CallVerify id => (d, got GotVerify (Verify rfc3339 any_json b64url_decode b64std_decode sb d.(dp_Keys) scope id))
  | CallKeys => (d, got GotKeys (Keys quote document_parse sb d.(dp_Keys) scope))
  | CallSBConsume consumer condition filter_ max =>
      let '(sb, r) := SBConsume quote document_parse condition_decode sb scope consumer condition filter_ max in
      (put sb, got GotSBMessages r)
  | _ => (d, fails None policy.ErrUnknownMethod)
  end.

Definition runData e d (sc : Scope) (c : DataCall) : DataServices * ret (option DataResult) :=
  let scope := Some sc in
  let t := now e 0 in
  match c with
  | CallVariableSet name prefix payload =>
      let '(v, r) := SetVariable map_json t d.(dp_Variable) scope name prefix payload in
      (d <| dp_Variable := v |>, got (GotVariable ∘ Some) r)
  | CallVariableGet name prefix => (d, got GotVariable (GetVariable json_map d.(dp_Variable) scope name prefix))
  | CallCounterSet value =>
      let '(s, r) := SetCounter t d.(dp_Counter) scope value in (d <| dp_Counter := s |>, got GotValue r)
  | CallCounterGet => let '(s, r) := GetCounter d.(dp_Counter) scope in (d <| dp_Counter := s |>, got GotValue r)
  | CallCounterIncrease delta =>
      let '(s, r) := Increase t d.(dp_Counter) scope delta in (d <| dp_Counter := s |>, got GotValue r)
  | CallCounterDecrease delta =>
      let '(s, r) := Decrease t d.(dp_Counter) scope delta in (d <| dp_Counter := s |>, got GotValue r)
  | CallLogAdd level message fields =>
      let '(s, r) := AddLog map_json t d.(dp_Log) scope level message fields in (d <| dp_Log := s |>, got GotLog r)
  | CallLogTail limit => (d, got GotLogs (TailLog json_map d.(dp_Log) scope limit))
  | CallEnqueue payload =>
      let '(s, r) := Enqueue map_json t d.(dp_Queue) scope payload in (d <| dp_Queue := s |>, got (GotMessage ∘ Some) r)
  | CallDequeue => let '(s, r) := Dequeue json_map e d.(dp_Queue) scope in (d <| dp_Queue := s |>, got GotMessage r)
  | CallPeek => let '(s, r) := Peek json_map d.(dp_Queue) scope in (d <| dp_Queue := s |>, got GotMessage r)
  | CallSize => let '(s, r) := Size d.(dp_Queue) scope in (d <| dp_Queue := s |>, got GotSize r)
  | CallProduce payload =>
      let '(s, r) := Produce map_json t d.(dp_Bus) scope payload in (d <| dp_Bus := s |>, got GotEvent r)
  | CallConsume consumer max =>
      let '(s, r) := Consume json_map (now e) d.(dp_Bus) scope consumer max in (d <| dp_Bus := s |>, got GotEvents r)
  | CallScheduleSet name cron task data =>
      let '(s, r) := SetSchedule map_json ParseDuration t d.(dp_Schedule) scope name cron task data in
      (d <| dp_Schedule := s |>, got (GotEntry ∘ Some) r)
  | CallScheduleGet name => (d, got GotEntry (GetSchedule json_map d.(dp_Schedule) scope name))
  | CallScheduleList => (d, got GotEntries (ListSchedule json_map d.(dp_Schedule) scope))
  | CallQuery sql => let '(s, r) := Query unicode_lower d.(dp_Table) scope sql in (d <| dp_Table := s |>, got GotRows r)
  | CallGit method args => let '(g, r) := git_Exec e d.(dp_Git) sc method args in (d <| dp_Git := g |>, got GotGit r)
  | _ =>
      match d.(dp_SecureBus) with
      | None => (d, fails None errNoSecureBus)
      | Some sb => runSecureBus e d sc c sb
      end
  end.

(** ** Other objects are left alone *)

(** The maps agree except perhaps at [id]. *)
Definition same_but {V} (id : string) (m m' : gmap string V) : Prop := ∀ o, o ≠ id → m' !! o = m !! o.

Lemma same_but_refl {V} id (m : gmap string V) : same_but id m m.
Proof. done. Qed.
Lemma same_but_insert {V} id (m m' : gmap string V) v : same_but id m m' → same_but id m (<[id := v]> m').
Proof. intros Hm o Ho. rewrite lookup_insert_ne by done. by apply Hm. Qed.
Create HintDb frame.
#[local] Hint Resolve same_but_refl same_but_insert : frame.

(** What a step on object [id] may change of the state that is kept in
    memory. The repositories are in [git_elsewhere] of [GitStore]. *)
Record elsewhere (id : string) d d' : Prop := mkElsewhere {
  el_variable : same_but id d.(dp_Variable).(v_mem) d'.(dp_Variable).(v_mem);
  el_counter : same_but id d.(dp_Counter).(c_mem) d'.(dp_Counter).(c_mem);
  el_log : same_but id d.(dp_Log).(l_mem) d'.(dp_Log).(l_mem);
  el_queue : same_but id d.(dp_Queue).(q_mem) d'.(dp_Queue).(q_mem);
  el_bus : same_but id d.(dp_Bus).(b_mem) d'.(dp_Bus).(b_mem) ∧ same_but id d.(dp_Bus).(b_offs) d'.(dp_Bus).(b_offs);
  el_securebus :
    match d.(dp_SecureBus), d'.(dp_SecureBus) with
    | Some s, Some s' =>
        s'.(sb_policies) = s.(sb_policies) ∧ same_but id s.(sb_messages) s'.(sb_messages)
        ∧ same_but id s.(sb_attests) s'.(sb_attests) ∧ same_but id s.(sb_events) s'.(sb_events)
        ∧ same_but id s.(sb_subs) s'.(sb_subs) ∧ same_but id s.(sb_delivered) s'.(sb_delivered)
    | None, None => True
    | _, _ => False
    end;
  el_schedule : same_but id d.(dp_Schedule).(sc_mem) d'.(dp_Schedule).(sc_mem) ∧ d'.(dp_Schedule).(sc_del) = d.(dp_Schedule).(sc_del);
  el_keys : d'.(dp_Keys) = d.(dp_Keys);
  el_table : d'.(dp_Table) = d.(dp_Table)
}.

Lemma elsewhere_refl id d : elsewhere id d d.
Proof. split; auto with frame. destruct d.(dp_SecureBus); auto 7 with frame. Qed.
#[local] Hint Resolve elsewhere_refl : frame.

Section Frame.
Context (sc : Scope) (Htx : sc.(Scope_tx) = None).
#[local] Abbreviation oid := (scope_id sc).

Lemma frame_memory : in_memory sc = true.
Proof. unfold in_memory. rewrite Htx. by destruct sc.(Scope_mem). Qed.

(** The scope an operation goes on with is the one it was given. *)
Lemma scope_of_kind_same kind sc' : scope_of_kind kind (Some sc) = Some sc' → sc' = sc.
Proof. unfold scope_of_kind. case_match; [by intros [= <-]|done]. Qed.
Lemma sb_scope_same sc' : sb_scope (Some sc) = Some sc' → sc' = sc.
Proof. unfold sb_scope. case_match; [by intros [= <-]|done]. Qed.

Lemma SetVariable_frame t v name prefix payload :
  same_but oid v.(v_mem) (SetVariable map_json t v (Some sc) name prefix payload).1.(v_mem).
Proof.
  unfold SetVariable. destruct (scope_of_kind _ _) eqn:Hk; [|done]. apply scope_of_kind_same in Hk as ->.
  rewrite frame_memory. case_match; cbn; auto with frame.
Qed.

Lemma writeMeta_frame t (c : CounterService (R := R)) v :
  same_but oid c.(c_mem) (writeMeta t c sc v).1.1.(c_mem) ∧ (writeMeta t c sc v).1.1.(c_redis) = c.(c_redis)
  ∧ (writeMeta t c sc v).2 = None.
Proof. unfold writeMeta. rewrite frame_memory. cbn. auto with frame. Qed.

Lemma counter_commit_frame (c : CounterService (R := R)) (d : KD) : counter_commit c sc d = (c, None).
Proof. unfold counter_commit. by rewrite Htx. Qed.

Lemma SetCounter_frame t (c : CounterService (R := R)) v : c.(c_redis) = None →
  same_but oid c.(c_mem) (SetCounter t c (Some sc) v).1.(c_mem).
Proof.
  intros Hr. unfold SetCounter. destruct (scope_of_kind _ _) eqn:Hk; [|done]. apply scope_of_kind_same in Hk as ->.
  destruct (writeMeta_frame t c v) as (Hs & Hr' & He). destruct (writeMeta t c sc v) as [[c' d'] err]. cbn [fst snd] in *.
  subst err. rewrite Hr', Hr, counter_commit_frame. cbn. auto with frame.
Qed.

Lemma GetCounter_frame (c : CounterService (R := R)) : (GetCounter c (Some sc)).1 = c.
Proof.
  unfold GetCounter. destruct (scope_of_kind _ _) eqn:Hk; [|done]. apply scope_of_kind_same in Hk as ->.
  rewrite counter_commit_frame. by repeat case_match.
Qed.

Lemma adjust_frame t (c : CounterService (R := R)) v : c.(c_redis) = None →
  same_but oid c.(c_mem) (adjust t c (Some sc) v).1.(c_mem).
Proof.
  intros Hr. unfold adjust. destruct (scope_of_kind _ _) eqn:Hk; [|done]. apply scope_of_kind_same in Hk as ->.
  match goal with |- context [writeMeta t c sc ?x] => generalize x end. intros next.
  destruct (writeMeta_frame t c next) as (Hs & Hr' & He). destruct (writeMeta t c sc next) as [[c' d'] err]. cbn [fst snd] in *.
  subst err. rewrite Hr', Hr, counter_commit_frame. cbn. auto with frame.
Qed.

Lemma AddLog_frame t l level message fields : same_but oid l.(l_mem) (AddLog map_json t l (Some sc) level message fields).1.(l_mem).
Proof.
  unfold AddLog. destruct (scope_of_kind _ _) eqn:Hk; [|done]. apply scope_of_kind_same in Hk as ->.
  rewrite frame_memory. case_match; cbn; auto with frame.
Qed.

Lemma Enqueue_frame t (q : QueueService (Q := Q)) payload : q.(q_amqp) = None →
  same_but oid q.(q_mem) (Enqueue map_json t q (Some sc) payload).1.(q_mem).
Proof.
  intros Hq. unfold Enqueue. destruct (scope_of_kind _ _) eqn:Hk; [|done]. apply scope_of_kind_same in Hk as ->.
  rewrite Hq, frame_memory. case_match; cbn; auto with frame.
Qed.

Lemma Dequeue_frame e (q : QueueService (Q := Q)) : q.(q_amqp) = None →
  same_but oid q.(q_mem) (Dequeue json_map e q (Some sc)).1.(q_mem).
Proof.
  intros Hq. unfold Dequeue. destruct (scope_of_kind _ _) eqn:Hk; [|done]. apply scope_of_kind_same in Hk as ->.
  rewrite Hq, frame_memory. repeat case_match; cbn; auto with frame.
Qed.

Lemma Peek_frame (q : QueueService (Q := Q)) : q.(q_amqp) = None → (Peek json_map q (Some sc)).1 = q.
Proof.
  intros Hq. unfold Peek. destruct (scope_of_kind _ _) eqn:Hk; [|done]. apply scope_of_kind_same in Hk as ->.
  rewrite Hq, frame_memory. by repeat case_match.
Qed.

Lemma Size_frame (q : QueueService (Q := Q)) : q.(q_amqp) = None → (Size q (Some sc)).1 = q.
Proof.
  intros Hq. unfold Size. destruct (scope_of_kind _ _) eqn:Hk; [|done]. apply scope_of_kind_same in Hk as ->.
  rewrite Hq, frame_memory. by repeat case_match.
Qed.

Lemma Produce_frame t (b : BusService (K := K)) payload : b.(b_kafka) = None →
  let b' := (Produce map_json t b (Some sc) payload).1 in
  same_but oid b.(b_mem) b'.(b_mem) ∧ same_but oid b.(b_offs) b'.(b_offs).
Proof.
  intros Hk b'. unfold b', Produce. rewrite Hk, frame_memory. repeat case_match; cbn; auto with frame.
Qed.

Lemma Consume_frame t (b : BusService (K := K)) consumer max : b.(b_kafka) = None →
  let b' := (Consume json_map t b (Some sc) consumer max).1 in
  same_but oid b.(b_mem) b'.(b_mem) ∧ same_but oid b.(b_offs) b'.(b_offs).
Proof.
  intros Hk b'. unfold b', Consume. rewrite Hk, frame_memory. case_match; [cbn; auto with frame|].
  case_match; [cbn; auto with frame|].
  match goal with |- context [last ?l] => destruct (last l) end; destruct (b.(b_offs) !! _); cbn; auto with frame.
Qed.

Lemma SetSchedule_frame t x name cron task data :
  let x' := (SetSchedule map_json ParseDuration t x (Some sc) name cron task data).1 in
  same_but oid x.(sc_mem) x'.(sc_mem) ∧ x'.(sc_del) = x.(sc_del).
Proof.
  intros x'. unfold x', SetSchedule. destruct (scope_of_kind _ _) eqn:Hk; [|done]. apply scope_of_kind_same in Hk as ->.
  rewrite frame_memory. case_match; cbn; auto with frame.
Qed.

Lemma Query_frame (d : KD) sql : (Query unicode_lower d (Some sc) sql).1 = d.
Proof.
  unfold Query. destruct (scope_of_kind _ _) eqn:Hk; [|done]. apply scope_of_kind_same in Hk as ->.
  rewrite frame_memory. by repeat case_match.
Qed.

(** What the secure bus keeps of other topics. *)
Definition sb_elsewhere (s s' : SBService) : Prop :=
  s'.(sb_policies) = s.(sb_policies) ∧ same_but oid s.(sb_messages) s'.(sb_messages)
  ∧ same_but oid s.(sb_attests) s'.(sb_attests) ∧ same_but oid s.(sb_events) s'.(sb_events)
  ∧ same_but oid s.(sb_subs) s'.(sb_subs) ∧ same_but oid s.(sb_delivered) s'.(sb_delivered).

Lemma sb_elsewhere_refl s : sb_elsewhere s s.
Proof. unfold sb_elsewhere. auto 7 with frame. Qed.
#[local] Hint Resolve sb_elsewhere_refl : frame.

Lemma GetPolicy_frame s version : (GetPolicy quote document_parse s (Some sc) version).1 = s.
Proof.
  unfold GetPolicy. destruct (sb_scope _) eqn:Hk; [|done]. apply sb_scope_same in Hk as ->. by rewrite frame_memory.
Qed.

Lemma Publish_frame e s k inp : sb_elsewhere s
  (Publish quote rfc3339 any_json document_parse b64url_decode b64std_decode graceSeconds e s k (Some sc) inp).1.
Proof.
  unfold Publish. destruct (sb_scope _) eqn:Hk; [|auto with frame]. apply sb_scope_same in Hk as ->. rewrite frame_memory.
  destruct (authorizeKey _ _ _ _ _ _ _ _ _ _ _ _ _) as [[key pol] [err|]]; [auto with frame|].
  destruct (DecodeB64 _ _ _) as [sig|]; [|auto with frame]. destruct (negb (VerifyAgentSig _ _ _ _ _)); [auto with frame|].
  destruct (chainMessage _ _ _ _ _ _ _) as [m|err]; [|auto with frame].
  unfold sb_elsewhere, appendMessage. cbn. fold (scope_id sc). auto 7 with frame.
Qed.

Lemma Attest_frame e s k inp : sb_elsewhere s
  (Attest quote rfc3339 any_json document_parse b64url_decode b64std_decode graceSeconds e s k (Some sc) inp).1.
Proof.
  unfold Attest. destruct (sb_scope _) eqn:Hk; [|auto with frame]. apply sb_scope_same in Hk as ->. rewrite frame_memory.
  destruct (authorizeKey _ _ _ _ _ _ _ _ _ _ _ _ _) as [[key pol] [err|]]; [auto with frame|].
  do 2 (case_match; [auto with frame|]). destruct (getMessage _ _ _) as [m [err|]]; [auto with frame|].
  destruct (DecodeB64 _ _ _) as [sig|]; [|auto with frame]. destruct (negb (VerifyAgentSig _ _ _ _ _)); [auto with frame|].
  unfold sb_elsewhere, appendAttestation. cbn. fold (scope_id sc). auto 7 with frame.
Qed.

Lemma SBConsume_frame s consumer condition flt max : sb_elsewhere s
  (SBConsume quote document_parse condition_decode s (Some sc) consumer condition flt max).1.
Proof.
  unfold SBConsume. destruct (sb_scope _) eqn:Hk; [|auto with frame]. apply sb_scope_same in Hk as ->. rewrite frame_memory.
  destruct (currentPolicy _ _ _ _) as [pol [err|]]; [auto with frame|].
  destruct (ResolveCondition _ _ _ _) as [cond [err|]]; [auto with frame|].
  destruct (deliverLoop _ _ _ _ _ _) as [[last_ done] out]. unfold sb_elsewhere. cbn. fold (scope_id sc). auto 7 with frame.
Qed.
End Frame.

(** The deployment without brokers: everything is in memory. *)
Record all_memory d : Prop := mkAllMemory {
  am_counter : d.(dp_Counter).(c_redis) = None;
  am_queue : d.(dp_Queue).(q_amqp) = None;
  am_bus : d.(dp_Bus).(b_kafka) = None
}.

Lemma elsewhere_securebus id d sb sb' sc : scope_id sc = id → d.(dp_SecureBus) = Some sb → sb_elsewhere sc sb sb' →
  elsewhere id d (d <| dp_SecureBus := Some sb' |>).
Proof. intros <- Hsb Hs. split; cbn; auto with frame. by rewrite Hsb. Qed.

Lemma runSecureBus_frame e d sc c sb : sc.(Scope_tx) = None → d.(dp_SecureBus) = Some sb →
  elsewhere (scope_id sc) d (runSecureBus e d sc c sb).1.
Proof.
  intros Htx Hsb. unfold runSecureBus. destruct c; try apply elsewhere_refl.
  - pose proof (GetPolicy_frame sc Htx sb version) as Hf. destruct (GetPolicy _ _ _ _ _) as [sb' r]. cbn in *. subst sb'.
    eapply elsewhere_securebus; [done|done|apply sb_elsewhere_refl].
  - pose proof (Publish_frame sc Htx e sb d.(dp_Keys) inp) as Hf. destruct (Publish _ _ _ _ _ _ _ _ _ _ _ _) as [sb' r].
    by eapply elsewhere_securebus.
  - pose proof (Attest_frame sc Htx e sb d.(dp_Keys) inp) as Hf. destruct (Attest _ _ _ _ _ _ _ _ _ _ _ _) as [sb' r].
    by eapply elsewhere_securebus.
  - pose proof (SBConsume_frame sc Htx sb consumer condition filter max) as Hf. destruct (SBConsume _ _ _ _ _ _ _ _ _) as [sb' r].
    by eapply elsewhere_securebus.
Qed.

(** An operation changes, of what is kept in memory, only what belongs to the
    object of its scope. *)
Lemma runData_frame e d sc c : sc.(Scope_tx) = None → all_memory d → elsewhere (scope_id sc) d (runData e d sc c).1.
Proof.
  intros Htx [Hc Hq Hb].
  assert (Hbus : ∀ b, same_but (scope_id sc) d.(dp_Bus).(b_mem) b.(b_mem) ∧ same_but (scope_id sc) d.(dp_Bus).(b_offs) b.(b_offs) →
    elsewhere (scope_id sc) d (d <| dp_Bus := b |>)).
  { intros b Hf. split; cbn; auto with frame. destruct d.(dp_SecureBus); auto 7 with frame. }
  assert (Hcnt : ∀ s, same_but (scope_id sc) d.(dp_Counter).(c_mem) s.(c_mem) → elsewhere (scope_id sc) d (d <| dp_Counter := s |>)).
  { intros s Hf. split; cbn; auto with frame. destruct d.(dp_SecureBus); auto 7 with frame. }
  assert (Hqu : ∀ s, same_but (scope_id sc) d.(dp_Queue).(q_mem) s.(q_mem) → elsewhere (scope_id sc) d (d <| dp_Queue := s |>)).
  { intros s Hf. split; cbn; auto with frame. destruct d.(dp_SecureBus); auto 7 with frame. }
  destruct c; cbn [runData]; try apply elsewhere_refl;
    try (destruct d.(dp_SecureBus) as [sb|] eqn:Hsb; [by apply runSecureBus_frame|apply elsewhere_refl]).
  - pose proof (SetVariable_frame sc Htx (now e 0) d.(dp_Variable) name prefix0 payload) as Hf. destruct (SetVariable _ _ _ _ _ _ _).
    split; cbn; auto with frame. destruct d.(dp_SecureBus); auto 7 with frame.
  - pose proof (SetCounter_frame sc Htx (now e 0) _ value Hc) as Hf. destruct (SetCounter _ _ _ _). by apply Hcnt.
  - pose proof (GetCounter_frame sc Htx d.(dp_Counter)) as Hf. destruct (GetCounter _ _). cbn in *. subst. apply Hcnt. done.
  - pose proof (adjust_frame sc Htx (now e 0) _ delta Hc) as Hf. unfold Increase. destruct (adjust _ _ _ _). by apply Hcnt.
  - pose proof (adjust_frame sc Htx (now e 0) _ (f_neg delta) Hc) as Hf. unfold Decrease. destruct (adjust _ _ _ _). by apply Hcnt.
  - pose proof (AddLog_frame sc Htx (now e 0) d.(dp_Log) level message fields) as Hf. destruct (AddLog _ _ _ _ _ _ _).
    split; cbn; auto with frame. destruct d.(dp_SecureBus); auto 7 with frame.
  - pose proof (Enqueue_frame sc Htx (now e 0) _ payload Hq) as Hf. destruct (Enqueue _ _ _ _ _). by apply Hqu.
  - pose proof (Dequeue_frame sc Htx e _ Hq) as Hf. destruct (Dequeue _ _ _ _). by apply Hqu.
  - pose proof (Peek_frame sc Htx _ Hq) as Hf. destruct (Peek _ _ _). cbn in *. subst. by apply Hqu.
  - pose proof (Size_frame sc Htx _ Hq) as Hf. destruct (Size _ _). cbn in *. subst. by apply Hqu.
  - pose proof (Produce_frame sc Htx (now e 0) _ payload Hb) as Hf. destruct (Produce _ _ _ _ _). by apply Hbus.
  - pose proof (Consume_frame sc Htx (now e) _ consumer max Hb) as Hf. destruct (Consume _ _ _ _ _ _). by apply Hbus.
  - pose proof (SetSchedule_frame sc Htx (now e 0) d.(dp_Schedule) name cron task data) as Hf.
    destruct (SetSchedule _ _ _ _ _ _ _ _ _). split; cbn; auto with frame. destruct d.(dp_SecureBus); auto 7 with frame.
  - pose proof (Query_frame sc Htx d.(dp_Table) sql) as Hf. destruct (Query _ _ _ _). cbn in Hf. subst.
    split; cbn; auto with frame. destruct d.(dp_SecureBus); auto 7 with frame.
  - destruct (git_Exec _ _ _ _ _). split; cbn; auto with frame. destruct d.(dp_SecureBus); auto 7 with frame.
Qed.

(** The repositories are those before the operation, or what one method of
    git leaves. *)
Lemma runSecureBus_git e d sc c sb : (runSecureBus e d sc c sb).1.(dp_Git) = d.(dp_Git).
Proof. unfold runSecureBus. by repeat case_match. Qed.

Lemma runData_git e d sc c : let g := (runData e d sc c).1.(dp_Git) in
  g = d.(dp_Git) ∨ ∃ method args, g = (git_Exec e d.(dp_Git) sc method args).1.
Proof.
  destruct c; cbn [runData]; cbv zeta;
    try (left; by repeat case_match);
    try (left; destruct d.(dp_SecureBus); [apply runSecureBus_git|done]).
  right. exists method, args. by destruct (git_Exec _ _ _ _ _).
Qed.
End Services.
