(* ===== verification/GitStore.v ===== *)
(** [internal/gitstore/service.go]: repositories as branches over commits of
    whole trees, kept in memory and as one JSON document per object in the blob
    store, and what is advertised over smart HTTP.

    The blob store is an interface of the source; decoding JSON into a state
    that exists already is [repo_decode]. *)
From S2P Require Import Prelude GoStrings GoCrypto Models DataObj AccessState PolicyScope Kinds Documents DataPlane.
From Stdlib Require Import Ascii.

(** ** Go's [path.Clean] and [path.Join] *)

(** One element of a path after those in [out], last first. *)
Definition cleanStep (rooted : bool) (out : list string) (part : string) : list string :=
  if (part =s "") || (part =s ".") then out
  else if part =s ".." then
    match out with
    | [] => if rooted then [] else [".."]
    | ".." :: _ => ".." :: out
    | _ :: rest => rest
    end
  else part :: out.

Definition Clean (path : string) : string :=
  if path =s "" then "."
  else
    let rooted := HasPrefix path "/" in
    let out := Join (reverse (foldl (cleanStep rooted) [] (Split path "/"%char))) "/" in
    if rooted then "/" +:+ out else if out =s "" then "." else out.

Definition path_Join (elems : list string) : string :=
  match List.filter (λ e, e <>s "") elems with [] => "" | l => Clean (Join l "/") end.

(** ** [pkt-line] *)

Fixpoint hexLoop (fuel : nat) (n : Z) (acc : string) : string :=
  match fuel with
  | O => acc
  | S fuel => if (n <? 16)%Z then String (hex_digit n) acc else hexLoop fuel (n / 16) (String (hex_digit (n mod 16)) acc)
  end.
(** [%x] of a number of 63 bits has at most sixteen digits. *)
Definition hex (n : Z) : string := hexLoop 16 n "".
Definition zeros (n : nat) : string := foldr (λ _ s, String "0"%char s) "" (seq 0 n).

(** [%04x%s] *)
Definition pktLine (s : string) : string :=
  let digits := hex (slen s + 4) in zeros (4 - String.length digits) +:+ digits +:+ s.

(** ** State *)

Record commit := mkCommit {
  commit_ID : string; commit_Message : string; commit_Parents : list string; commit_Tree : gmap string string; commit_At : Time
}.
#[export] Instance zero_commit : Zero commit := mkCommit "" "" [] ∅ zeroval.

Record repoState := mkRepoState {
  r_Initialized : bool;
  r_Head : string;
  r_Branches : gmap string string;
  r_Commits : gmap string commit;
  r_Index : gmap string string;
  r_Files : gmap string string;
  r_Remotes : gmap string string;
  r_Tags : gmap string string
}.
#[export] Instance settable_repoState : Settable repoState := λ r,
  mkRepoState r.(r_Initialized) r.(r_Head) r.(r_Branches) r.(r_Commits) r.(r_Index) r.(r_Files) r.(r_Remotes) r.(r_Tags).

Definition newRepo : repoState := mkRepoState false "main" ∅ ∅ ∅ ∅ ∅ ∅.

Class GitBlob (B : Type) := {
  gb_put : string → string → B → B * option error;
  gb_get : string → B → ret (option string)
}.

(** [json.Marshal] of a state, and [json.Unmarshal] into one. *)
Class RepoCodec := { repo_json : repoState → string; repo_decode : string → repoState → repoState }.

Section Git.
Context {B : Type} `{!GitBlob B, !RepoCodec, !GoRange}.
Context (rfc3339nano : Time → string) (quote : string → string).
(** [scope.Commit] ends the transaction in which the scope was opened; git
    runs no statement in it. *)
Context (scope_commit : Env → Scope → option error).

Record GitService := mkGitService { g_mem : gmap string repoState; g_blob : option B }.
#[export] Instance settable_GitService : Settable GitService := λ r, mkGitService r.(g_mem) r.(g_blob).
Implicit Types (s : GitService) (st : repoState) (sc : Scope) (e : Env).

Definition NewGitService (blob : option B) : GitService := mkGitService ∅ blob.

Definition state s (objectID : string) : repoState := default newRepo (s.(g_mem) !! objectID).

Definition git_prefix sc : string :=
  let p := if sc.(Scope_Object).(DataObject_S3Prefix) =s "" then "objects/" +:+ sc.(Scope_Object).(DataObject_ID) +:+ "/"
           else sc.(Scope_Object).(DataObject_S3Prefix) in
  path_Join [p; "git"] +:+ "/".
Definition stateKey sc : string := git_prefix sc +:+ "state.json".

(** The error of [load] is ignored by its callers. *)
Definition load s sc st : repoState :=
  match s.(g_blob) with
  | None => st
  | Some b => match gb_get (stateKey sc) b with (Some raw, None) => repo_decode raw st | _ => st end
  end.

Definition save s sc st : GitService * option error :=
  match s.(g_blob) with
  | None => (s, None)
  | Some b => let '(b, err) := gb_put (stateKey sc) (repo_json st) b in (s <| g_blob := Some b |>, err)
  end.

(** [keys] and the order in which a map is encoded. *)
Definition sorted_keys {A} (m : gmap string A) : list string := sort_by String.ltb (range_map m).*1.
Definition any_map (m : gmap string string) : Any := AObject ((λ k, (k, AString (get0 m k))) <$> sorted_keys m).
Definition any_strings (l : list string) : Any := AArray (AString <$> l).

(** ** Methods *)

Definition head_commit st : string := get0 st.(r_Branches) st.(r_Head).

Definition logEntry (c : commit) : Any :=
  AObject [("id", AString c.(commit_ID)); ("message", AString c.(commit_Message)); ("at", AString (rfc3339nano c.(commit_At)))].

(** The loop of [log] from a commit; [None] when it goes on. *)
Fixpoint logLoop (fuel : nat) (commits : gmap string commit) (cur : string) : option (list commit) :=
  if cur =s "" then Some []
  else match fuel with
  | O => None
  | S fuel =>
      let c := default zeroval (commits !! cur) in
      match c.(commit_Parents) with
      | [] => Some [c]
      | parent :: _ => cons c <$> logLoop fuel commits parent
      end
  end.

Definition commitID st : string := "c" +:+ pretty (S (size st.(r_Commits))).

Definition doCommit (t : Time) st (msg : string) : repoState :=
  let id := commitID st in
  let parents := if head_commit st <>s "" then [head_commit st] else [] in
  st <| r_Commits := <[id := mkCommit id msg parents st.(r_Index) t]> st.(r_Commits) |>
     <| r_Branches := <[st.(r_Head) := id]> st.(r_Branches) |>.

Definition doCheckout st (name : string) : repoState :=
  let st := if bool_decide (is_Some (st.(r_Branches) !! name)) then st
            else st <| r_Branches := <[name := head_commit st]> st.(r_Branches) |> in
  let st := st <| r_Head := name |> in
  match st.(r_Commits) !! get0 st.(r_Branches) name with
  | Some c => st <| r_Files := c.(commit_Tree) |> <| r_Index := c.(commit_Tree) |>
  | None => st
  end.

Definition any_commit (c : commit) : Any :=
  AObject [("id", AString c.(commit_ID)); ("message", AString c.(commit_Message)); ("parents", any_strings c.(commit_Parents));
           ("tree", any_map c.(commit_Tree)); ("at", AString (rfc3339nano c.(commit_At)))].

(** One method: the state it leaves and what it gives; [None] when it never
    returns. *)
Definition runMethod (t : Time) st (method : string) (args : gmap string Any) : repoState * option (ret Any) :=
  let str k := match args !! k with Some (AString v) => v | _ => "" end in
  let obj l := Some (ok (AObject l)) in
  let failed err := Some (fails ANil err) in
  if method =s "init" then
    let st := st <| r_Initialized := true |> in
    let st := if st.(r_Head) =s "" then st <| r_Head := "main" |> else st in
    (st, obj [("initialized", ABool true); ("head", AString st.(r_Head))])
  else if method =s "clone" then
    (st <| r_Initialized := true |> <| r_Remotes := <["origin" := str "url"]> st.(r_Remotes) |>,
     obj [("cloned", ABool true); ("remote", AString (str "url"))])
  else if method =s "add" then
    if str "path" =s "" then (st, failed (NewError "path required"))
    else (st <| r_Files := <[str "path" := str "content"]> st.(r_Files) |> <| r_Index := <[str "path" := str "content"]> st.(r_Index) |>,
          obj [("added", AString (str "path"))])
  else if method =s "commit" then
    if str "message" =s "" then (st, failed (NewError "message required"))
    else (doCommit t st (str "message"), obj [("commit", AString (commitID st)); ("message", AString (str "message"))])
  else if method =s "status" then
    (st, obj [("head", AString st.(r_Head)); ("branch", AString st.(r_Head)); ("indexed", any_strings (sorted_keys st.(r_Index)));
              ("files", any_strings (sorted_keys st.(r_Files)))])
  else if method =s "log" then
    (st, (λ l, ok (AArray (logEntry <$> l))) <$> logLoop (S (size st.(r_Commits))) st.(r_Commits) (head_commit st))
  else if method =s "diff" then (st, obj [("index", any_map st.(r_Index)); ("files", any_map st.(r_Files))])
  else if method =s "branch" then
    if str "name" =s "" then (st, Some (ok (any_strings (sorted_keys st.(r_Branches)))))
    else (st <| r_Branches := <[str "name" := head_commit st]> st.(r_Branches) |>,
          obj [("branch", AString (str "name")); ("commit", AString (head_commit st))])
  else if method =s "checkout" then
    if str "name" =s "" then (st, failed (NewError "name required"))
    else (doCheckout st (str "name"), obj [("head", AString (str "name"))])
  else if (method =s "fetch") || (method =s "pull") || (method =s "push") then
    (st, obj [("ok", ABool true); ("method", AString method)])
  else if method =s "tag" then
    if str "name" =s "" then (st, Some (ok (any_map st.(r_Tags))))
    else (st <| r_Tags := <[str "name" := head_commit st]> st.(r_Tags) |>,
          obj [("tag", AString (str "name")); ("commit", AString (head_commit st))])
  else if method =s "show" then
    let id := if str "id" =s "" then head_commit st else str "id" in
    (st, Some (ok (any_commit (default zeroval (st.(r_Commits) !! id)))))
  else if method =s "remote" then
    let st := if (str "name" <>s "") && (str "url" <>s "") then st <| r_Remotes := <[str "name" := str "url"]> st.(r_Remotes) |> else st in
    (st, Some (ok (any_map st.(r_Remotes))))
  else (st, failed policy.ErrUnknownMethod).

(** The state is shared: what a method changed stays in memory when it, or the
    saving after it, fails. *)
Definition keep s sc st : GitService := s <| g_mem := <[sc.(Scope_Object).(DataObject_ID) := st]> s.(g_mem) |>.

Definition Exec e s (scope : option Scope) (method : string) (args : gmap string Any) : GitService * option (ret Any) :=
  match scope with
  | None => (s, Some (fails ANil policy.ErrKindMismatch))
  | Some sc =>
      if sc.(Scope_Object).(DataObject_Kind) <>s ObjectKindGit then (s, Some (fails ANil policy.ErrKindMismatch))
      else
        let st := load s sc (state s sc.(Scope_Object).(DataObject_ID)) in
        match runMethod (now e 0) st method args with
        | (st, None) => (keep s sc st, None)
        | (st, Some (_, Some err)) => (keep s sc st, Some (fails ANil err))
        | (st, Some (out, None)) =>
            let '(s, err) := save (keep s sc st) sc st in
            (s, Some match err with Some err => fails ANil err | None => (out, scope_commit e sc) end)
        end
  end.

(** ** Smart HTTP *)

(** What comes back: content type and body. *)
Definition SmartHTTP s (scope : option Scope) (service : string) : GitService * ret (string * string) :=
  match scope with
  | None => (s, fails ("", "") policy.ErrKindMismatch)
  | Some sc =>
      if sc.(Scope_Object).(DataObject_Kind) <>s ObjectKindGit then (s, fails ("", "") policy.ErrKindMismatch)
      else
        let st := (load s sc (state s sc.(Scope_Object).(DataObject_ID))) <| r_Initialized := true |> in
        let s := keep s sc st in
        if service =s "git-upload-pack" then (s, ok ("application/x-git-upload-pack-result", "0000"))
        else if service =s "git-receive-pack" then ((save s sc st).1, ok ("application/x-git-receive-pack-result", "0000"))
        else (s, fails ("", "") (NewError ("unsupported git service " +:+ quote service)))
  end.

Definition lf : string := String "010"%char "".
Definition nul : string := String "000"%char "".

(** The branch that is checked out, then the others by name. *)
Definition firstRef st : string :=
  (if head_commit st =s "" then zeros 40 else head_commit st) +:+ " refs/heads/" +:+ st.(r_Head) +:+ nul
  +:+ "multi_ack thin-pack side-band side-band-64k ofs-delta agent=synamcps" +:+ lf.
Definition otherRefs st : list string :=
  (λ name, get0 st.(r_Branches) name +:+ " refs/heads/" +:+ name +:+ lf)
  <$> List.filter (λ name, name <>s st.(r_Head)) (sorted_keys st.(r_Branches)).

Definition advertisement st (service : string) : string :=
  pktLine ("# service=" +:+ service +:+ lf) +:+ "0000" +:+ pktLine (firstRef st) +:+ Join (pktLine <$> otherRefs st) "" +:+ "0000".

Definition InfoRefs s (scope : option Scope) (service : string) : GitService * ret (string * string) :=
  match scope with
  | None => (s, fails ("", "") policy.ErrKindMismatch)
  | Some sc =>
      if sc.(Scope_Object).(DataObject_Kind) <>s ObjectKindGit then (s, fails ("", "") policy.ErrKindMismatch)
      else
        let st := load s sc (state s sc.(Scope_Object).(DataObject_ID)) in
        (keep s sc st, ok ("application/x-" +:+ service +:+ "-advertisement", advertisement st service))
  end.

(** What the data plane asks of git. That a method returns in every state a
    run reaches is proved in [GitProps]. *)
#[export] Instance gitstore_Git : Git GitService := λ e s sc method args,
  match Exec e s (Some sc) method args with
  | (s, Some r) => (s, r)
  | (s, None) => (s, fails ANil (NewError ""))
  end.

(** ** Other repositories are left alone *)

(** What a method on the object of [sc] may change: the state it keeps in
    memory, and the document under its own key in the blob store. *)
Definition git_elsewhere sc s s' : Prop :=
  same_but (scope_id sc) s.(g_mem) s'.(g_mem)
  ∧ match s.(g_blob), s'.(g_blob) with
    | Some b, Some b' => ∀ key, key ≠ stateKey sc → gb_get key b' = gb_get key b
    | None, None => True
    | _, _ => False
    end.

Lemma git_elsewhere_refl sc s : git_elsewhere sc s s.
Proof. split; [done|]. by destruct s.(g_blob). Qed.

(** Writing one key of the blob store, even when it fails, changes what is
    read under no other key. *)
Definition blob_frame_law : Prop := ∀ key key' raw b, key' ≠ key → gb_get key' (gb_put key raw b).1 = gb_get key' b.

Lemma keep_elsewhere sc s st : git_elsewhere sc s (keep s sc st).
Proof. split; [by apply same_but_insert|]. cbn. by destruct s.(g_blob). Qed.

Lemma gitstore_frame e s sc method args : blob_frame_law → git_elsewhere sc s (git_Exec e s sc method args).1.
Proof.
  intros Hlaw. unfold git_Exec, gitstore_Git, Exec. cbv zeta.
  destruct (_ <>s _); [apply git_elsewhere_refl|].
  destruct (runMethod _ _ _ _) as [st [[out [err|]]|]]; [by apply keep_elsewhere| |by apply keep_elsewhere].
  unfold save. pose proof (keep_elsewhere sc s st) as [Hm Hb]. cbn [keep g_blob g_mem] in *.
  destruct (keep s sc st) as [m b] eqn:Hk. injection Hk as <- <-. cbn.
  destruct s.(g_blob) as [b|] eqn:Hs; [|by split; cbn; [|rewrite Hs]].
  pose proof (λ key Hne, Hlaw (stateKey sc) key (repo_json st) b Hne) as Hput.
  destruct (gb_put _ _ _) as [b' err]. split; cbn; [done|]. by rewrite Hs.
Qed.
End Git.
Arguments GitService _ : clear implicits.
