(* ===== verification/McpAdmin.v ===== *)
(** The administration tools of the MCP server, [internal/mcp/admin.go]: who
    may use them, what they do to the access store and the proxy, and the
    audit trail they leave. *)
From S2P Require Import Prelude GoStrings Models DataObj AccessState AccessObjects AccessService ProxyStore ProxyManager DataPlane.
From Stdlib Require Import Ascii Floats.SpecFloat.

(** ** Schemas *)

Inductive PropSchema :=
| stringProp (description : string)
| enumProp (values : list string)
| arrayProp (items : PropSchema)
| anyString                     (* [{"type": "string"}], of array items *)
| objectProp.

Record AdminTool := mkAdminTool {
  at_name : string;
  at_description : string;
  at_props : list (string * PropSchema);
  at_required : list string
}.

Definition adminTool := mkAdminTool.

Definition storageRoles : PropSchema := enumProp ["storage_owner"; "storage_admin"; "storage_writer"; "storage_reader"].

Definition tokenTools : list AdminTool := [
  adminTool "admin_token_create" "Create an access token. The raw token secret is returned once; store it immediately."
    [("name", stringProp "Token name"); ("mode", enumProp ["read"; "read_write"]); ("storageIds", arrayProp anyString);
     ("rateLimit", objectProp)] [];
  adminTool "admin_token_list" "List access tokens visible to the caller" [("storageId", stringProp "Optional storage filter")] [];
  adminTool "admin_token_get" "Get an access token with storage and MCP scopes" [("tokenId", stringProp "Token ID")] ["tokenId"];
  adminTool "admin_token_revoke" "Revoke an access token" [("tokenId", stringProp "Token ID")] ["tokenId"];
  adminTool "admin_token_update_scopes" "Replace storage and MCP scopes for an access token"
    [("tokenId", stringProp "Token ID"); ("storageIds", arrayProp anyString); ("storageScopes", arrayProp objectProp);
     ("mcpServers", arrayProp objectProp)] ["tokenId"];
  adminTool "admin_token_update_rate_limit" "Update an access token rate limit policy"
    [("tokenId", stringProp "Token ID"); ("rateLimit", objectProp)] ["tokenId"; "rateLimit"]].

Definition platformTools : list AdminTool := [
  adminTool "admin_user_list" "List users" [] [];
  adminTool "admin_user_get" "Get user by id" [("userId", stringProp "User ID")] ["userId"];
  adminTool "admin_user_disable" "Disable user by id" [("userId", stringProp "User ID")] ["userId"];
  adminTool "admin_group_list" "List groups" [] [];
  adminTool "admin_group_members" "List group members" [("groupId", stringProp "Group ID")] ["groupId"];
  adminTool "admin_group_add_member" "Add a user to a group"
    [("groupId", stringProp "Group ID"); ("userId", stringProp "User ID")] ["groupId"; "userId"];
  adminTool "admin_group_remove_member" "Remove a user from a group"
    [("groupId", stringProp "Group ID"); ("userId", stringProp "User ID")] ["groupId"; "userId"];
  adminTool "admin_storage_create" "Create a storage"
    [("slug", stringProp "Slug"); ("name", stringProp "Name"); ("s3Bucket", stringProp "S3 bucket"); ("s3Prefix", stringProp "S3 prefix")]
    ["slug"];
  adminTool "admin_mcp_server_list" "List MCP proxy servers" [] [];
  adminTool "admin_mcp_server_test" "Run MCP proxy server connection test" [("serverId", stringProp "MCP server ID")] ["serverId"];
  adminTool "admin_mcp_scope_set" "Replace MCP server scopes on a token"
    [("tokenId", stringProp "Token ID"); ("mcpServers", arrayProp objectProp)] ["tokenId"]].

Definition storageTools : list AdminTool := [
  adminTool "admin_acl_list" "List storage ACL bindings" [("storageId", stringProp "Storage ID")] ["storageId"];
  adminTool "admin_acl_grant" "Grant storage ACL role"
    [("storageId", stringProp "Storage ID"); ("subjectKey", stringProp "Subject key"); ("role", storageRoles)]
    ["storageId"; "subjectKey"; "role"];
  adminTool "admin_acl_revoke" "Revoke storage ACL role"
    [("storageId", stringProp "Storage ID"); ("subjectKey", stringProp "Subject key"); ("role", storageRoles)]
    ["storageId"; "subjectKey"; "role"];
  adminTool "admin_storage_archive" "Archive a storage" [("storageId", stringProp "Storage ID")] ["storageId"]].

(** ** Arguments *)

Definition boolFrom (v : Any) : bool := match v with ABool b => b | _ => false end.

Definition intFrom (v : Any) : Z := match v with AFloat f => f_to_int f | AInt z => z | _ => 0%Z end.

Definition valueOr (value fallback : string) : string := if value <>s "" then value else fallback.

Definition notFoundIfMissing (err : option error) (ok : bool) : option error :=
  match err with Some _ => err | None => if ok then None else Some ErrNotFound end.

Definition rateLimitFrom (v : Any) : RateLimitPolicy :=
  match v with
  | AObject m => mkRateLimitPolicy (boolFrom (param m "enabled")) (intFrom (param m "requestsPerMinute"))
      (intFrom (param m "requestsPerHour")) (intFrom (param m "requestsPerDay")) (intFrom (param m "burst"))
  | _ => zeroval
  end.

Definition storageScopesFrom (params : list (string * Any)) (defaultMode : AccessMode) : list AccessTokenStorage :=
  match param params "storageScopes" with
  | AArray raw =>
      omap (λ item, match item with
        | AObject m =>
            let mode := AsString (param m "maxMode") in
            Some (mkAccessTokenStorage "" (AsString (param m "storageId")) (if mode =s "" then defaultMode else mode)
                    (AsStringSlice (param m "toolAllowlist")) 0%Z)
        | _ => None
        end) raw
  | _ => (λ id, mkAccessTokenStorage "" id defaultMode [] 0%Z) <$> AsStringSlice (param params "storageIds")
  end.

Definition mcpScopesFrom (v : Any) : list AccessTokenMCPServer :=
  match v with
  | AArray raw =>
      omap (λ item, match item with
        | AObject m => Some (mkAccessTokenMCPServer "" (AsString (param m "serverId")) (AsStringSlice (param m "toolAllowlist"))
                               (AsStringSlice (param m "resourceAllowlist")) (AsStringSlice (param m "promptAllowlist")) 0%Z)
        | _ => None
        end) raw
  | _ => []
  end.

(** ** Rights *)

(** A nil map of storages is [None]. *)
Record adminRights := mkAdminRights {
  ar_platformAdmin : bool;
  ar_storageAdmin : bool;
  ar_tokenStorage : option (gset string);
  ar_aclStorage : option (gset string)
}.

Definition any_right (r : adminRights) : bool :=
  r.(ar_platformAdmin) || r.(ar_storageAdmin) || bool_decide (is_Some r.(ar_tokenStorage)).

Definition noRights : adminRights := mkAdminRights false false None None.

Definition has_storage (set : option (gset string)) (id : string) : bool :=
  match set with Some set => bool_decide (id ∈ set) | None => false end.

(** One permission on a storage. *)
Definition addRight (id : string) (r : adminRights) (perm : StoragePermission) : adminRights :=
  let add := fmap (M := option) (λ set : gset string, {[ id ]} ∪ set) in
  if perm =s PermissionTokenManage then mkAdminRights r.(ar_platformAdmin) true (add r.(ar_tokenStorage)) r.(ar_aclStorage)
  else if (perm =s PermissionACLManage) || (perm =s PermissionStorageDelete)
  then mkAdminRights r.(ar_platformAdmin) true r.(ar_tokenStorage) (add r.(ar_aclStorage))
  else r.

Definition requireStorageRight (rights : adminRights) (storageID : string) (permission : StoragePermission) : option error :=
  if rights.(ar_platformAdmin) then None
  else
    let set := if (permission =s PermissionACLManage) || (permission =s PermissionStorageDelete)
               then rights.(ar_aclStorage) else rights.(ar_tokenStorage) in
    if has_storage set storageID then None else Some ErrForbidden.

(** The loop over the scopes of a token. *)
Fixpoint requireScopes (rights : adminRights) (scopes : list AccessTokenStorage) : option error :=
  match scopes with
  | [] => None
  | scope :: scopes' =>
      match requireStorageRight rights scope.(AccessTokenStorage_StorageID) PermissionTokenManage with
      | Some err => if rights.(ar_platformAdmin) then requireScopes rights scopes' else Some err
      | None => requireScopes rights scopes'
      end
  end.

(** ** Results *)

Inductive AdminResult :=
| RTokenCreated (token : AccessToken) (rawToken : string)
| RTokens (l : list AccessToken)
| RTokenAccess (l : list TokenStorageAccess)
| RToken (token : AccessToken) (storageScopes : list AccessTokenStorage) (mcpServers : list AccessTokenMCPServer)
| RStatus (status : string) (fields : list (string * string))
| RUsers (l : list User)
| RUser (u : User)
| RGroups (l : list Group)
| RMembers (l : list GroupMembership)
| RACL (l : list ACLBinding)
| RBinding (b : ACLBinding)
| RStorage (st : Storage)
| RServers (l : list MCPServer)
| RCapabilities (c : MCPServerCapabilities)
| RNil.

(** What a store returned, as a result. *)
Definition result_of {X} (wrap : X → AdminResult) (r : ret X) : ret AdminResult := (wrap r.1, r.2).

Section Admin.
Context `{Postgres, ProxyDB, Upstream, AEAD, GoRange}.
Context (unicode_lower : Z → Z) (headers_decode : string → option (gmap string string)).
Context (json_marshal : Any → option string) (request_ok : string → bool).
Context (rpc_decode : string → RPCResponse + error) (object_decode : string → list (string * Any) + error).
Context (cfg : MCPProxyConfig).
Implicit Types (s : Store) (px : option Manager) (p : Principal) (ac : APIAccessContext) (rights : adminRights).
Implicit Types (params : list (string * Any)) (env : nat → Env).

(** The method of [Server]; [access] is never nil. *)
Definition rightsOf (e : Env) s p ac : ret adminRights :=
  match ac.(APIAccessContext_AccessToken) with
  | Some _ => ok noRights
  | None =>
      let rights := mkAdminRights (sContains p.(Principal_Scopes) "platform_admin" || sContains p.(Principal_Scopes) "admin")
                      false (Some ∅) (Some ∅) in
      match AvailableStorages e s p None [] with
      | (_, Some err) => fails noRights err
      | ((storages, effective), None) =>
          ok (fold_left (λ r st, fold_left (addRight st.(Storage_ID))
                (default [] (EffectiveAccess_Permissions <$> effective !! st.(Storage_ID))) r) storages rights)
      end
  end.

Definition buildAdminTools (e : Env) s p ac : ret (list AdminTool) :=
  match rightsOf e s p ac with
  | (_, Some err) => fails [] err
  | (rights, None) =>
      if negb (any_right rights) then ok []
      else ok (tokenTools ++ (if rights.(ar_platformAdmin) then platformTools else [])
                 ++ (if rights.(ar_platformAdmin) || rights.(ar_storageAdmin) then storageTools else []))
  end.

Definition audit (e : Env) s p (action resourceType resourceID storageID : string) : Store :=
  (RecordAudit e s (mkAuditEvent "" (SubjectKeyForPrincipal p) ("mcp." +:+ action) resourceType resourceID storageID 0%Z
     (Some {[ "channel" := AString "mcp" ]}))).1.

Definition requireTokenAccess s p rights (tokenID : string) : option error :=
  if rights.(ar_platformAdmin) then None
  else match GetToken s tokenID with
  | (_, Some err) => Some err
  | (None, None) => Some ErrNotFound
  | (Some token, None) =>
      if token.(AccessToken_OwnerSubjectKey) =s SubjectKeyForPrincipal p then None
      else if existsb (λ scope, has_storage rights.(ar_tokenStorage) scope.(AccessTokenStorage_StorageID)) (TokenStorages s tokenID).1
      then None
      else Some ErrForbidden
  end.

(** The scopes of a token in the proxy's store; nothing without a proxy. *)
Definition setScopes (e : Env) px (tokenID : string) (scopes : list AccessTokenMCPServer) : option Manager * option error :=
  match px with
  | None => (None, None)
  | Some m =>
      let '(st, err) := ReplaceTokenMCPServers e m.(mg_store) tokenID scopes in
      (Some (m <| mg_store := st |>), err)
  end.

(** [env 1] is for the access store, [env 2] for the proxy's, [env 3] for the
    audit event; [env 0] was for the rights. *)
Definition adminTokenCreate env s px p rights params : Store * option Manager * ret AdminResult :=
  let self := SubjectKeyForPrincipal p in
  let owner := valueOr (AsString (param params "ownerSubjectKey")) self in
  if (owner <>s self) && negb rights.(ar_platformAdmin) then (s, px, fails RNil ErrForbidden)
  else
    let mode := valueOr (AsString (param params "mode")) AccessModeRead in
    let scopes := storageScopesFrom params mode in
    match requireScopes rights scopes with
    | Some err => (s, px, fails RNil err)
    | None =>
        match CreateToken unicode_lower (env 1) s (mkCreateTokenInput owner (AsString (param params "name")) mode scopes
                (rateLimitFrom (param params "rateLimit")) None self) with
        | (s, (_, Some err)) => (s, px, fails RNil err)
        | (s, ((token, raw), None)) =>
            let px := (setScopes (env 2) px token.(AccessToken_ID) (mcpScopesFrom (param params "mcpServers"))).1 in
            (audit (env 3) s p "admin_token_create" "access_token" token.(AccessToken_ID) "", px, ok (RTokenCreated token raw))
        end
    end.

Definition adminTokenList s p rights params : ret AdminResult :=
  let storageID := AsString (param params "storageId") in
  if storageID <>s "" then
    match requireStorageRight rights storageID PermissionTokenManage with
    | Some err => fails RNil err
    | None => result_of RTokenAccess (TokenAccessByStorage s storageID)
    end
  else match ListTokens s with
  | (tokens, Some err) => (RTokens tokens, Some err)
  | (tokens, None) =>
      if rights.(ar_platformAdmin) then ok (RTokens tokens)
      else ok (RTokens (List.filter (λ token, token.(AccessToken_OwnerSubjectKey) =s SubjectKeyForPrincipal p) tokens))
  end.

Definition adminTokenGet s px p rights params : ret AdminResult :=
  let tokenID := AsString (param params "tokenId") in
  match requireTokenAccess s p rights tokenID with
  | Some err => fails RNil err
  | None =>
      match GetToken s tokenID with
      | (Some token, None) =>
          ok (RToken token (TokenStorages s tokenID).1
                (match px with Some m => (TokenMCPServers m.(mg_store) tokenID).1 | None => [] end))
      | (token, err) => (RNil, notFoundIfMissing err (bool_decide (is_Some token)))
      end
  end.

Definition adminTokenUpdateScopes env s px p rights params : Store * option Manager * ret AdminResult :=
  let tokenID := AsString (param params "tokenId") in
  match requireTokenAccess s p rights tokenID with
  | Some err => (s, px, fails RNil err)
  | None =>
      match GetToken s tokenID with
      | (Some token, None) =>
          let scopes := storageScopesFrom params token.(AccessToken_Mode) in
          match requireScopes rights scopes with
          | Some err => (s, px, fails RNil err)
          | None =>
              match ReplaceTokenStorages (env 1) s tokenID scopes with
              | (s, Some err) => (s, px, fails RNil err)
              | (s, None) =>
                  match setScopes (env 2) px tokenID (mcpScopesFrom (param params "mcpServers")) with
                  | (px, Some err) => (s, px, fails RNil err)
                  | (px, None) =>
                      (audit (env 3) s p "admin_token_update_scopes" "access_token" tokenID "", px,
                       ok (RStatus "updated" [("tokenId", tokenID)]))
                  end
              end
          end
      | (token, err) => (s, px, (RNil, notFoundIfMissing err (bool_decide (is_Some token))))
      end
  end.

Definition adminACLGrant env s p rights params : Store * ret AdminResult :=
  let storageID := AsString (param params "storageId") in
  match requireStorageRight rights storageID PermissionACLManage with
  | Some err => (s, fails RNil err)
  | None =>
      match UpsertACL (env 1) s (mkACLBinding "" storageID (AsString (param params "subjectKey")) (AsString (param params "role"))
              (SubjectKeyForPrincipal p) None 0%Z) with
      | (s, (b, Some err)) => (s, (RBinding b, Some err))
      | (s, (b, None)) => (audit (env 3) s p "admin_acl_grant" "storage_acl" b.(ACLBinding_ID) storageID, ok (RBinding b))
      end
  end.

Definition adminACLRevoke env s p rights params : Store * ret AdminResult :=
  let storageID := AsString (param params "storageId") in
  match requireStorageRight rights storageID PermissionACLManage with
  | Some err => (s, fails RNil err)
  | None =>
      let subjectKey := AsString (param params "subjectKey") in
      let role := AsString (param params "role") in
      match DeleteACL s storageID subjectKey role with
      | (s, Some err) => (s, fails RNil err)
      | (s, None) =>
          (audit (env 3) s p "admin_acl_revoke" "storage_acl" (subjectKey +:+ ":" +:+ role) storageID,
           ok (RStatus "revoked" [("storageId", storageID); ("subjectKey", subjectKey); ("role", role)]))
      end
  end.

Definition adminStorageCreate env s p params : Store * ret AdminResult :=
  let subject := SubjectKeyForPrincipal p in
  let str k := AsString (param params k) in
  match CreateStorage (env 1) s (mkStorage "" (str "slug") (str "name") (valueOr (str "ownerSubjectKey") subject)
          (valueOr (str "visibility") VisibilityPersonal) (valueOr (str "defaultAccess") AccessModeNone)
          (valueOr (str "kind") StorageKindKnowledge) (str "s3Bucket") (str "s3Prefix") "" 0%Z 0%Z None) subject with
  | (s, (st, Some err)) => (s, (RStorage st, Some err))
  | (s, (st, None)) => (audit (env 3) s p "admin_storage_create" "storage" st.(Storage_ID) st.(Storage_ID), ok (RStorage st))
  end.

Definition handleAdminTool env s px p ac (method : string) params : Store * option Manager * ret AdminResult :=
  match rightsOf (env 0) s p ac with
  | (_, Some err) => (s, px, fails RNil err)
  | (rights, None) =>
  let str k := AsString (param params k) in
  let tokenID := str "tokenId" in
  let storageID := str "storageId" in
  let forbidden := (s, px, fails RNil ErrForbidden) in
  let refused err := (s, px, fails RNil err) in
  let reads r := (s, px, r) in
  (* a change of the access store, audited when it went well *)
  let changes (r : Store * option error) resourceType resourceID out :=
    match r with
    | (s, Some err) => (s, px, fails RNil err)
    | (s, None) => (audit (env 3) s p method resourceType resourceID "", px, ok out)
    end in
  let only (r : Store * ret AdminResult) := (r.1, px, r.2) in
  if negb (any_right rights) then forbidden
  else if method =s "admin_token_create" then adminTokenCreate env s px p rights params
  else if method =s "admin_token_list" then reads (adminTokenList s p rights params)
  else if method =s "admin_token_get" then reads (adminTokenGet s px p rights params)
  else if method =s "admin_token_revoke" then
    match requireTokenAccess s p rights tokenID with
    | Some err => refused err
    | None => changes (RevokeToken (env 1) s tokenID) "access_token" tokenID (RStatus "revoked" [("tokenId", tokenID)])
    end
  else if method =s "admin_token_update_scopes" then adminTokenUpdateScopes env s px p rights params
  else if method =s "admin_token_update_rate_limit" then
    match requireTokenAccess s p rights tokenID with
    | Some err => refused err
    | None => changes (UpdateTokenRateLimit s tokenID (rateLimitFrom (param params "rateLimit"))) "access_token" tokenID
                (RStatus "updated" [("tokenId", tokenID)])
    end
  else if method =s "admin_user_list" then
    if negb rights.(ar_platformAdmin) then forbidden else reads (result_of RUsers (ListUsers s))
  else if method =s "admin_user_get" then
    if negb rights.(ar_platformAdmin) then forbidden
    else match GetUser s (str "userId") with
    | (Some user, None) => reads (ok (RUser user))
    | (user, err) => reads (RNil, notFoundIfMissing err (bool_decide (is_Some user)))
    end
  else if method =s "admin_user_disable" then
    if negb rights.(ar_platformAdmin) then forbidden
    else match UpdateUser s (str "userId") ((zeroval : User) <| User_Status := "disabled" |>) with
    | (s, (_, Some err)) => (s, px, fails RNil err)
    | (s, (user, None)) => (audit (env 3) s p method "user" (str "userId") "", px, ok (RUser user))
    end
  else if method =s "admin_group_list" then
    if negb rights.(ar_platformAdmin) then forbidden else reads (result_of RGroups (ListGroups s))
  else if method =s "admin_group_members" then
    if negb rights.(ar_platformAdmin) then forbidden else reads (result_of RMembers (ListGroupMembers s (str "groupId")))
  else if method =s "admin_group_add_member" then
    if negb rights.(ar_platformAdmin) then forbidden
    else changes (AddGroupMember (env 1) s (str "groupId") (str "userId") "mcp") "group" (str "groupId")
           (RStatus "added" [("groupId", str "groupId"); ("userId", str "userId")])
  else if method =s "admin_group_remove_member" then
    if negb rights.(ar_platformAdmin) then forbidden
    else changes (RemoveGroupMember s (str "groupId") (str "userId")) "group" (str "groupId")
           (RStatus "removed" [("groupId", str "groupId"); ("userId", str "userId")])
  else if method =s "admin_acl_list" then
    match requireStorageRight rights storageID PermissionACLManage with
    | Some err => refused err
    | None => reads (result_of RACL (ACLForStorage s storageID))
    end
  else if method =s "admin_acl_grant" then only (adminACLGrant env s p rights params)
  else if method =s "admin_acl_revoke" then only (adminACLRevoke env s p rights params)
  else if method =s "admin_storage_create" then
    if negb rights.(ar_platformAdmin) then forbidden else only (adminStorageCreate env s p params)
  else if method =s "admin_storage_archive" then
    match requireStorageRight rights storageID PermissionStorageDelete with
    | Some err => refused err
    | None =>
        match ArchiveStorage (env 1) s storageID with
        | (s, (_, Some err)) => (s, px, fails RNil err)
        | (s, (st, None)) => (audit (env 3) s p method "storage" storageID storageID, px, ok (RStorage st))
        end
    end
  else if method =s "admin_mcp_server_list" then
    match px with
    | Some m => if negb rights.(ar_platformAdmin) then forbidden else reads (result_of RServers (ListServers m.(mg_store)))
    | None => forbidden
    end
  else if method =s "admin_mcp_server_test" then
    match px with
    | Some m =>
        if negb rights.(ar_platformAdmin) then forbidden
        else match ConnectTest unicode_lower headers_decode json_marshal request_ok rpc_decode object_decode cfg (env 2) m (str "serverId") with
        | (m, (out, Some err)) => (s, Some m, (RCapabilities out, Some err))
        | (m, (out, None)) => (audit (env 3) s p method "mcp_server" (str "serverId") "", Some m, ok (RCapabilities out))
        end
    | None => forbidden
    end
  else if method =s "admin_mcp_scope_set" then
    match requireTokenAccess s p rights tokenID with
    | Some err => refused err
    | None =>
        match px with
        | None => forbidden
        | Some _ =>
            match setScopes (env 2) px tokenID (mcpScopesFrom (param params "mcpServers")) with
            | (px, Some err) => (s, px, fails RNil err)
            | (px, None) => (audit (env 3) s p method "access_token" tokenID "", px, ok (RStatus "updated" [("tokenId", tokenID)]))
            end
        end
    end
  else (s, px, fails RNil ErrUnknownMethod)
  end.
End Admin.
