(* ===== verification/McpAdminProps.v ===== *)
(** Who may administer through the tools of [McpAdmin], and that every change
    leaves a trace. *)
From S2P Require Import Prelude GoStrings Models DataObj AccessState AccessObjects AccessService AccessProps ProxyStore ProxyManager ProxyProps DataPlane McpAdmin.
From Stdlib Require Import Ascii Floats.SpecFloat.

(** ** Rights *)

Lemma administrative_role role perm : perm ∈ [PermissionACLManage; PermissionTokenManage; PermissionStorageDelete] →
  perm ∈ RolePermissions role → role = RoleStorageOwner ∨ role = RoleStorageAdmin.
Proof.
  intros Hadm. unfold RolePermissions.
  destruct (String.eqb_spec role RoleStorageOwner); [by left|].
  destruct (String.eqb_spec role RoleStorageAdmin); [by right|]. cbn [orb].
  repeat case_match; intros Hp; case_elem Hadm; case_elem Hp; done.
Qed.

Lemma lookup_foldl_insert {X V} (key : X → string) (val : X → V) l (m : gmap string V) k v :
  foldl (λ m x, <[key x := val x]> m) m l !! k = Some v → m !! k = Some v ∨ ∃ x, x ∈ l ∧ key x = k ∧ val x = v.
Proof.
  revert m. induction l as [|x l IH]; intros m; cbn; [by left|].
  intros [Hm|(y & Hy & Hk)]%IH; [|right; exists y; split; [by right|done]].
  destruct (decide (key x = k)) as [<-|Hne].
  - rewrite lookup_insert_eq in Hm. injection Hm as <-. right. exists x. split; [by left|done].
  - rewrite lookup_insert_ne in Hm by done. by left.
Qed.

(** The storages in the two sets. *)
Definition in_rights (r : adminRights) (id : string) : Prop :=
  has_storage r.(ar_tokenStorage) id = true ∨ has_storage r.(ar_aclStorage) id = true.

Lemma has_storage_add set id id' : has_storage ((λ s : gset string, {[ id ]} ∪ s) <$> set) id' = true →
  id' = id ∨ has_storage set id' = true.
Proof. destruct set as [s|]; cbn; [|done]. rewrite !bool_decide_eq_true. set_solver. Qed.

Lemma addRight_rights id r perm id' : in_rights (addRight id r perm) id' →
  in_rights r id' ∨ id' = id ∧ perm ∈ [PermissionACLManage; PermissionTokenManage; PermissionStorageDelete].
Proof.
  unfold addRight, in_rights. destruct (String.eqb_spec perm PermissionTokenManage) as [->|].
  { cbn. intros [Ht|Ha]; [apply has_storage_add in Ht as [->|]|]; [right; split; [done|set_solver]|tauto|tauto]. }
  destruct ((perm =s _) || _) eqn:Hp; [|tauto]. cbn. apply orb_true_iff in Hp.
  assert (perm ∈ [PermissionACLManage; PermissionTokenManage; PermissionStorageDelete])
    by (destruct Hp as [->%String.eqb_eq| ->%String.eqb_eq]; set_solver).
  intros [Ht|Ha]; [tauto|]. apply has_storage_add in Ha as [->|]; tauto.
Qed.

Lemma addRight_platform id r perm : (addRight id r perm).(ar_platformAdmin) = r.(ar_platformAdmin).
Proof. unfold addRight. by repeat case_match. Qed.

(** Everything in the sets came from a permission of a storage. *)
Lemma addRights_rights id perms r id' : in_rights (fold_left (addRight id) perms r) id' →
  in_rights r id' ∨ id' = id ∧ ∃ perm, perm ∈ perms ∧ perm ∈ [PermissionACLManage; PermissionTokenManage; PermissionStorageDelete].
Proof.
  revert r. induction perms as [|perm perms IH]; intros r; cbn; [tauto|].
  intros [[?|[-> ?]]%addRight_rights|(-> & q & Hq & Ha)]%IH; [tauto|right; split; [done|]; exists perm; split; [by left|done]|].
  right. split; [done|]. exists q. split; [by right|done].
Qed.

Lemma addRights_platform id perms r : (fold_left (addRight id) perms r).(ar_platformAdmin) = r.(ar_platformAdmin).
Proof. revert r. induction perms as [|perm perms IH]; intros r; cbn; [done|]. by rewrite IH, addRight_platform. Qed.

Section Admin.
Context `{Postgres, ProxyDB, Upstream, AEAD, GoRange}.
Context (unicode_lower : Z → Z) (headers_decode : string → option (gmap string string)).
Context (json_marshal : Any → option string) (request_ok : string → bool).
Context (rpc_decode : string → RPCResponse + error) (object_decode : string → list (string * Any) + error).
Context (cfg : MCPProxyConfig).
Implicit Types (s : Store) (px : option Manager) (p : Principal) (ac : APIAccessContext).

(** The caller, without a token, holds an administrative role on the storage. *)
Definition administers s p ac (id : string) : Prop :=
  ac.(APIAccessContext_AccessToken) = None
  ∧ ∃ k b, s.(s_acl) !! k = Some b ∧ b.(ACLBinding_SubjectKey) ∈ SubjectKeys p ∧ b.(ACLBinding_StorageID) = id
      ∧ (b.(ACLBinding_Role) = RoleStorageOwner ∨ b.(ACLBinding_Role) = RoleStorageAdmin).

(** The scopes that make a platform administrator. *)
Definition platform_admin p : Prop := "platform_admin" ∈ p.(Principal_Scopes) ∨ "admin" ∈ p.(Principal_Scopes).

Lemma platform_admin_scopes p : (sContains p.(Principal_Scopes) "platform_admin" || sContains p.(Principal_Scopes) "admin") = true
  ↔ platform_admin p.
Proof. unfold platform_admin. by rewrite orb_true_iff, !sContains_spec. Qed.

Lemma acl_of_subject s p b : s.(s_useDB) = false → b ∈ (ACLForSubject s (SubjectKeys p)).1 →
  ∃ k, s.(s_acl) !! k = Some b ∧ b.(ACLBinding_SubjectKey) ∈ SubjectKeys p.
Proof.
  intros Hdb. unfold ACLForSubject. rewrite Hdb. case_match; [by intros ?%elem_of_nil|]. cbn.
  intros [Hin Hk]%elem_of_filter_bool. apply elem_of_range_vals in Hin as [k Hk']. exists k. split; [done|].
  apply bool_decide_eq_true in Hk. set_unfold. naive_solver.
Qed.

(** A permission the listing gives without a token comes from a role. *)
Lemma permission_role e s p storages effective st perm : s.(s_useDB) = false → ¬ platform_admin p →
  AvailableStorages e s p None [] = ok (storages, effective) →
  perm ∈ default [] (EffectiveAccess_Permissions <$> effective !! st.(Storage_ID)) →
  role_grants (ACLForSubject s (SubjectKeys p)).1 st.(Storage_ID) perm.
Proof.
  intros Hdb Hna. unfold AvailableStorages. destruct (storageCandidates e s p None []) as [[cands acl] [err|]] eqn:Hc; [done|].
  assert (Hacl : acl = (ACLForSubject s (SubjectKeys p)).1).
  { revert Hc. unfold storageCandidates. destruct (ListAccessibleStorages _ _ _) as [? [?|]]; [done|].
    destruct (ACLForSubject _ _) as [? [?|]]; [done|]. by intros [= _ <-]. }
  rewrite <- Hacl. intros [= _ <-]. destruct (foldl _ _ _ !! _) as [eff|] eqn:Hl; [|by intros ?%elem_of_nil].
  apply lookup_foldl_insert in Hl as [Hl|(x & _ & Hx & <-)]; [by rewrite lookup_empty in Hl|]. cbn.
  rewrite elem_of_range_set, Hx. destruct (bool_decide _ && _) eqn:Hadm; [|apply elem_of_grantedPermissions].
  apply andb_true_iff in Hadm as [_ Hadm]. apply sContains_spec in Hadm. destruct Hna. by left.
Qed.

Lemma rights_administer e s p ac r id : s.(s_useDB) = false → ¬ platform_admin p → rightsOf e s p ac = ok r →
  r.(ar_platformAdmin) = false ∧ (in_rights r id → administers s p ac id).
Proof.
  intros Hdb Hna. unfold rightsOf, administers. destruct ac.(APIAccessContext_AccessToken) as [t|].
  { intros [= <-]. split; [done|]. by intros [?|?]. }
  destruct (AvailableStorages e s p None []) as [[storages effective] [err|]] eqn:Ha; [done|]. unfold ok.
  assert (Hpa : (sContains p.(Principal_Scopes) "platform_admin" || sContains p.(Principal_Scopes) "admin") = false)
    by (apply not_true_is_false; by rewrite platform_admin_scopes).
  rewrite Hpa. intros Heq. injection Heq as <-.
  set (r0 := mkAdminRights false false (Some ∅) (Some ∅)).
  assert (Hgen : ∀ r, r.(ar_platformAdmin) = false → (in_rights r id → ∃ perm,
      perm ∈ [PermissionACLManage; PermissionTokenManage; PermissionStorageDelete]
      ∧ role_grants (ACLForSubject s (SubjectKeys p)).1 id perm) →
    let r' := fold_left (λ r st, fold_left (addRight st.(Storage_ID))
      (default [] (EffectiveAccess_Permissions <$> effective !! st.(Storage_ID))) r) storages r in
    r'.(ar_platformAdmin) = false ∧ (in_rights r' id → ∃ perm,
      perm ∈ [PermissionACLManage; PermissionTokenManage; PermissionStorageDelete]
      ∧ role_grants (ACLForSubject s (SubjectKeys p)).1 id perm)).
  { pose proof (permission_role e s p storages effective) as Hpr. clear Hpa r0.
    assert (Hrole : ∀ st perm, perm ∈ default [] (EffectiveAccess_Permissions <$> effective !! st.(Storage_ID)) →
      role_grants (ACLForSubject s (SubjectKeys p)).1 st.(Storage_ID) perm) by (intros; by eapply Hpr).
    clear Hpr Ha. induction storages as [|st storages IH]; intros r Hr Hin; [done|]. cbn. apply IH.
    - by rewrite addRights_platform.
    - intros [?|(-> & perm & Hp & Had)]%addRights_rights; [auto|]. exists perm. auto. }
  destruct (Hgen r0) as [Hp Hr]; [done|by intros [?|?]|]. split; [done|]. intros Hin. split; [done|].
  destruct (Hr Hin) as (perm & Had & b & Hb & Hs & Hperm). apply acl_of_subject in Hb as (k & Hk & Hsub); [|done].
  exists k, b. split_and!; [done..|]. by eapply administrative_role.
Qed.

(** ** What a caller who is no platform administrator can change *)

(** The identifiers a call draws are new. *)
Definition fresh_ids (env : nat → Env) s : Prop :=
  ∀ i j, s.(s_acl) !! uuid (env i) j = None ∧ s.(s_tokens) !! uuid (env i) j = None.

(** The caller owns the token, or administers a storage it reaches. *)
Definition manages s p ac (tok : AccessToken) (id : string) : Prop :=
  ac.(APIAccessContext_AccessToken) = None
  ∧ (tok.(AccessToken_OwnerSubjectKey) = SubjectKeyForPrincipal p
     ∨ ∃ sc, sc ∈ s.(s_tokenScopes) ∧ sc.(AccessTokenStorage_TokenID) = id ∧ administers s p ac sc.(AccessTokenStorage_StorageID)).

(** The token whose scopes may be set: one the caller manages, or one that was
    just made for the caller. *)
Definition may_set s s' p ac (id : string) : Prop :=
  (∃ tok, s.(s_tokens) !! id = Some tok ∧ manages s p ac tok id)
  ∨ (s.(s_tokens) !! id = None ∧ ac.(APIAccessContext_AccessToken) = None
     ∧ ∃ tok, s'.(s_tokens) !! id = Some tok ∧ tok.(AccessToken_OwnerSubjectKey) = SubjectKeyForPrincipal p).

Record within p ac s s' : Prop := {
  wi_users : s'.(s_users) = s.(s_users);
  wi_groups : s'.(s_groups) = s.(s_groups);
  wi_memberships : s'.(s_memberships) = s.(s_memberships);
  wi_objects : s'.(s_objects) = s.(s_objects) ∧ s'.(s_objectACL) = s.(s_objectACL);
  wi_storages : ∀ id, s'.(s_storages) !! id = s.(s_storages) !! id ∨ administers s p ac id;
  wi_acl : ∀ k b, s.(s_acl) !! k = Some b → s'.(s_acl) !! k = Some b ∨ administers s p ac b.(ACLBinding_StorageID);
  wi_acl_new : ∀ k b, s'.(s_acl) !! k = Some b → s.(s_acl) !! k = Some b ∨ administers s p ac b.(ACLBinding_StorageID);
  wi_tokens : ∀ id tok, s.(s_tokens) !! id = Some tok → s'.(s_tokens) !! id = Some tok ∨ manages s p ac tok id;
  wi_tokens_new : ∀ id tok, s'.(s_tokens) !! id = Some tok →
    (∃ old, s.(s_tokens) !! id = Some old ∧ old.(AccessToken_OwnerSubjectKey) = tok.(AccessToken_OwnerSubjectKey))
    ∨ manages s p ac tok id;
  wi_scopes : ∀ sc, sc ∈ s.(s_tokenScopes) → sc ∈ s'.(s_tokenScopes) ∨ may_set s s' p ac sc.(AccessTokenStorage_TokenID);
  wi_scopes_new : ∀ sc, sc ∈ s'.(s_tokenScopes) → sc ∈ s.(s_tokenScopes)
    ∨ (may_set s s' p ac sc.(AccessTokenStorage_TokenID) ∧ administers s p ac sc.(AccessTokenStorage_StorageID))
}.

Lemma within_refl p ac s : within p ac s s.
Proof. split; eauto. Qed.

(** An audit event changes nothing else. *)
Lemma within_audit p ac s s' e action rt rid sid : s'.(s_useDB) = false → within p ac s s' → within p ac s (audit e s' p action rt rid sid).
Proof. intros Hdb Hw. unfold audit, RecordAudit. cbv zeta. rewrite Hdb. destruct Hw. by split. Qed.

(** The trail: the old events, and one of the caller's when the store changed. *)
Definition audited p s s' : Prop :=
  s' = s ∨ ∃ ev, s'.(s_audit) = s.(s_audit) ++ [ev] ∧ ev.(AuditEvent_ActorSubjectKey) = SubjectKeyForPrincipal p.

Lemma audited_audit p s s' e action rt rid sid : s'.(s_useDB) = false → s'.(s_audit) = s.(s_audit) →
  audited p s (audit e s' p action rt rid sid).
Proof.
  intros Hdb Ha. right. unfold audit, RecordAudit. rewrite Hdb. cbn. rewrite Ha. eexists. split; [done|]. by repeat case_match.
Qed.

Lemma requireScopes_administer rights scopes : rights.(ar_platformAdmin) = false → requireScopes rights scopes = None →
  ∀ sc, sc ∈ scopes → in_rights rights sc.(AccessTokenStorage_StorageID).
Proof.
  intros Hp. induction scopes as [|sc0 scopes IH]; [by intros _ ? ?%elem_of_nil|]. cbn. rewrite Hp.
  unfold requireStorageRight. rewrite Hp. cbn. destruct (has_storage _ _) eqn:Hs; [|done].
  intros Hr sc [->|Hin]%elem_of_cons; [by left|auto].
Qed.

Lemma requireStorageRight_in rights id perm : rights.(ar_platformAdmin) = false → requireStorageRight rights id perm = None →
  in_rights rights id.
Proof.
  intros Hp. unfold requireStorageRight, in_rights. rewrite Hp. destruct (_ || _); destruct (has_storage _ _) eqn:Hs; auto; done.
Qed.

Lemma requireTokenAccess_manages e s p ac rights id : s.(s_useDB) = false → ¬ platform_admin p → rightsOf e s p ac = ok rights →
  any_right rights = true → requireTokenAccess s p rights id = None →
  ∃ tok, s.(s_tokens) !! id = Some tok ∧ manages s p ac tok id.
Proof.
  intros Hdb Hna Hr Hany. destruct (rights_administer e s p ac rights "" Hdb Hna Hr) as [Hp _].
  unfold requireTokenAccess, GetToken, TokenStorages, manages. rewrite Hp, Hdb.
  destruct (String.eqb_spec id ""); [done|]. cbn. destruct (s.(s_tokens) !! id) as [tok|]; [|done].
  assert (Hnt : ac.(APIAccessContext_AccessToken) = None).
  { revert Hr. unfold rightsOf. destruct ac.(APIAccessContext_AccessToken); [|done]. intros [= <-]. done. }
  intros Ho. exists tok. split; [done|]. split; [done|].
  destruct (String.eqb_spec tok.(AccessToken_OwnerSubjectKey) (SubjectKeyForPrincipal p)); [by left|]. right.
  destruct (existsb _ _) eqn:Hex; [|done]. apply existsb_exists in Hex as (sc & Hin & Hsc). apply list_elem_of_In in Hin.
  apply elem_of_filter_bool in Hin as [Hin Hid]. apply String.eqb_eq in Hid. exists sc. split_and!; [done..|].
  apply (rights_administer e s p ac rights _ Hdb Hna Hr). by left.
Qed.

(** ** The proxy *)

(** Of the proxy only the scopes of such tokens change. *)
Definition proxy_within p ac s s' px px' : Prop :=
  match px, px' with
  | Some m, Some m' =>
      (∃ scopes, m' = m <| mg_store := m.(mg_store) <| px_tokenScopes := scopes |> |>)
      ∧ (∀ sc, sc ∈ m.(mg_store).(px_tokenScopes) → sc ∈ m'.(mg_store).(px_tokenScopes) ∨ may_set s s' p ac sc.(AccessTokenMCPServer_TokenID))
      ∧ (∀ sc, sc ∈ m'.(mg_store).(px_tokenScopes) → sc ∈ m.(mg_store).(px_tokenScopes) ∨ may_set s s' p ac sc.(AccessTokenMCPServer_TokenID))
  | None, None => True
  | _, _ => False
  end.

Lemma proxy_within_refl p ac s s' px : proxy_within p ac s s' px px.
Proof. destruct px as [[[] ? ?]|]; [|done]. split_and!; [by eexists|auto..]. Qed.

(** The proxy keeps its data in memory too. *)
Definition proxy_memory px : Prop := match px with Some m => m.(mg_store).(px_useDB) = false | None => True end.

Lemma proxy_within_set e p ac s s' px id scopes : proxy_memory px → may_set s s' p ac id →
  proxy_within p ac s s' px (setScopes e px id scopes).1.
Proof.
  intros Hpx Hid. destruct px as [m|]; [|done]. cbn in *. unfold ReplaceTokenMCPServers. rewrite Hpx. cbn. split_and!; [by eexists|..].
  - intros sc Hin. destruct (String.eqb_spec sc.(AccessTokenMCPServer_TokenID) id) as [->|Hne]; [by right|left].
    apply elem_of_app. left. apply elem_of_filter_bool. split; [done|]. by apply negb_true_iff, String.eqb_neq.
  - intros sc [[? _]%elem_of_filter_bool|Hin]%elem_of_app; [by left|right]. apply list_elem_of_fmap in Hin as (sc' & -> & _).
    unfold completeMCPScope. by case_match.
Qed.

Lemma may_set_audit s s' p ac id e action rt rid sid : s'.(s_useDB) = false → may_set s s' p ac id →
  may_set s (audit e s' p action rt rid sid) p ac id.
Proof. intros Hdb. unfold audit, RecordAudit, may_set. rewrite Hdb. done. Qed.

(** ** The operations *)

(** [r]: both stores after the call. *)
Definition good p ac s px (r : Store * option Manager) : Prop :=
  audited p s r.1 ∧ (¬ platform_admin p → within p ac s r.1 ∧ proxy_within p ac s r.1 px r.2).

Lemma good_refl p ac s px : good p ac s px (s, px).
Proof. split; [by left|]. intros _. split; [apply within_refl|apply proxy_within_refl]. Qed.
#[local] Hint Resolve good_refl : core.

(** A change with its audit event. *)
Lemma good_audit p ac s px s' px' e action rt rid sid : s'.(s_useDB) = false → s'.(s_audit) = s.(s_audit) →
  (¬ platform_admin p → within p ac s s') → (¬ platform_admin p → proxy_within p ac s s' px px') →
  good p ac s px (audit e s' p action rt rid sid, px').
Proof.
  intros Hdb Ha Hw Hx. split; [by apply audited_audit|]. intros Hna. split; [apply within_audit; auto|]. specialize (Hx Hna). cbn.
  unfold audit, RecordAudit. rewrite Hdb. exact Hx.
Qed.
Lemma good_audit_same p ac s px s' e action rt rid sid : s'.(s_useDB) = false → s'.(s_audit) = s.(s_audit) →
  (¬ platform_admin p → within p ac s s') → good p ac s px (audit e s' p action rt rid sid, px).
Proof. intros Hdb Ha Hw. apply good_audit; auto. intros _. apply proxy_within_refl. Qed.

Lemma within_alter_token p ac s id f : (∀ t, (f t).(AccessToken_OwnerSubjectKey) = t.(AccessToken_OwnerSubjectKey)) →
  (∃ tok, s.(s_tokens) !! id = Some tok ∧ manages s p ac tok id) → within p ac s (alter_token s id f).
Proof.
  intros Hf (tok & Ht & Hm). unfold alter_token. rewrite Ht. split; cbn; eauto.
  - intros id' tok' Ht'. destruct (decide (id' = id)) as [->|Hne]; [|left; by rewrite lookup_insert_ne].
    right. rewrite Ht in Ht'. by injection Ht' as <-.
  - intros id' tok' Ht'. destruct (decide (id' = id)) as [->|Hne].
    + rewrite lookup_insert_eq in Ht'. injection Ht' as <-. left. exists tok. by rewrite Hf.
    + rewrite lookup_insert_ne in Ht' by done. eauto.
Qed.

Lemma alter_token_same s id f : (alter_token s id f).(s_useDB) = s.(s_useDB) ∧ (alter_token s id f).(s_audit) = s.(s_audit).
Proof. unfold alter_token. by case_match. Qed.

Lemma within_scopes p ac s id new : may_set s s p ac id → (∀ sc, sc ∈ new → sc.(AccessTokenStorage_TokenID) = id ∧ administers s p ac sc.(AccessTokenStorage_StorageID)) →
  within p ac s (s <| s_tokenScopes := List.filter (λ sc, sc.(AccessTokenStorage_TokenID) <>s id) s.(s_tokenScopes) ++ new |>).
Proof.
  intros Hid Hn. split; cbn; eauto.
  - intros sc Hin. destruct (String.eqb_spec sc.(AccessTokenStorage_TokenID) id) as [->|Hne]; [by right|left].
    apply elem_of_app. left. apply elem_of_filter_bool. split; [done|]. by apply negb_true_iff, String.eqb_neq.
  - intros sc [[? _]%elem_of_filter_bool|Hin]%elem_of_app; [by left|right]. by destruct (Hn sc Hin) as [-> ?].
Qed.

Lemma within_insert_acl p ac s b : s.(s_acl) !! b.(ACLBinding_ID) = None → administers s p ac b.(ACLBinding_StorageID) →
  within p ac s (s <| s_acl := <[b.(ACLBinding_ID) := b]> s.(s_acl) |>).
Proof.
  intros Hf Ha. split; cbn; eauto.
  - intros k b' Hb'. left. rewrite lookup_insert_ne; [done|]. intros <-. congruence.
  - intros k b' [[<- <-]|[? ?]]%lookup_insert_Some; eauto.
Qed.

Lemma within_delete_acl p ac s f : (∀ b, f b = true → administers s p ac b.(ACLBinding_StorageID)) →
  within p ac s (s <| s_acl := delete_if f s.(s_acl) |>).
Proof.
  intros Hf. split; cbn; eauto.
  - intros k b Hb. destruct (f b) eqn:Hfb; [by right; apply Hf|]. left. by apply lookup_delete_if.
  - intros k b Hb%lookup_delete_if. tauto.
Qed.

Lemma within_storage p ac s id st : administers s p ac id → within p ac s (s <| s_storages := <[id := st]> s.(s_storages) |>).
Proof.
  intros Ha. split; cbn; eauto. intros id'. destruct (decide (id' = id)) as [->|]; [by right|]. left. by rewrite lookup_insert_ne.
Qed.

Section Rights.
Context (env : nat → Env) s p ac (rights : adminRights) (params : list (string * Any)).
Hypothesis Hdb : s.(s_useDB) = false.
Hypothesis Hfresh : fresh_ids env s.
Hypothesis Hrights : rightsOf (env 0) s p ac = ok rights.
Hypothesis Hany : any_right rights = true.

Lemma in_rights_administers id : ¬ platform_admin p → in_rights rights id → administers s p ac id.
Proof. intros Hna. by apply (rights_administer (env 0) s p ac rights id). Qed.

Lemma rights_no_token : ac.(APIAccessContext_AccessToken) = None.
Proof.
  revert Hrights. unfold rightsOf. destruct ac.(APIAccessContext_AccessToken); [|done]. intros [= Heq]. by rewrite <- Heq in Hany.
Qed.

Lemma plain_rights : ¬ platform_admin p → rights.(ar_platformAdmin) = false.
Proof. intros Hna. by apply (rights_administer (env 0) s p ac rights ""). Qed.

Lemma storage_right_administers id perm : requireStorageRight rights id perm = None → ¬ platform_admin p → administers s p ac id.
Proof. intros Hr Hna. apply in_rights_administers; [done|]. eapply requireStorageRight_in; [by apply plain_rights|done]. Qed.

Lemma scopes_administer scopes sc : requireScopes rights scopes = None → ¬ platform_admin p → sc ∈ scopes →
  administers s p ac sc.(AccessTokenStorage_StorageID).
Proof. intros Hr Hna Hin. apply in_rights_administers; [done|]. eapply requireScopes_administer; eauto using plain_rights. Qed.

Lemma token_access_manages id : requireTokenAccess s p rights id = None → ¬ platform_admin p →
  ∃ tok, s.(s_tokens) !! id = Some tok ∧ manages s p ac tok id.
Proof. intros. by eapply requireTokenAccess_manages. Qed.

Lemma CreateToken_good owner name mode rl s' tok raw scopes :
  requireScopes rights scopes = None → (¬ platform_admin p → owner = SubjectKeyForPrincipal p) →
  CreateToken unicode_lower (env 1) s (mkCreateTokenInput owner name mode scopes rl None (SubjectKeyForPrincipal p)) = (s', ok (tok, raw)) →
  s'.(s_useDB) = false ∧ s'.(s_audit) = s.(s_audit) ∧ (¬ platform_admin p → within p ac s s' ∧ may_set s s' p ac tok.(AccessToken_ID)).
Proof.
  intros Hsc Hown. unfold CreateToken. rewrite Hdb. destruct (_ =s ""); [done|]. destruct (newRawToken _) as [r [err|]]; [done|].
  destruct (Hfresh 1 0) as [_ Hid]. intros [= <- <- _]. cbn. split_and!; [done..|]. intros Hna.
  match goal with |- within _ _ _ ?s1 ∧ _ => assert (Hset : may_set s s1 p ac (uuid (env 1) 0)) end.
  { right. split_and!; [done|apply rights_no_token|]. eexists. split; [apply lookup_insert_eq|]. by apply Hown. }
  split; [|exact Hset]. split; cbn; eauto.
  - intros id t Ht. left. rewrite lookup_insert_ne; [done|]. intros <-. congruence.
  - intros id t [[<- <-]|[? ?]]%lookup_insert_Some; [right|eauto]. split; [apply rights_no_token|]. left. by apply Hown.
  - intros sc Hin. left. apply elem_of_app. by left.
  - intros sc [?|Hin]%elem_of_app; [by left|]. right. apply list_elem_of_fmap in Hin as (sc' & -> & Hin).
    pose proof (scopes_administer scopes sc' Hsc Hna Hin) as Ha. split; [|unfold completeScope; by repeat case_match].
    replace (AccessTokenStorage_TokenID _) with (uuid (env 1) 0) by (unfold completeScope; by repeat case_match). exact Hset.
Qed.

Lemma adminTokenCreate_good px : proxy_memory px → good p ac s px (adminTokenCreate unicode_lower env s px p rights params).1.
Proof.
  intros Hpx.  unfold adminTokenCreate. cbv zeta. set (owner := valueOr (AsString (param params "ownerSubjectKey")) _). set (mode := valueOr _ AccessModeRead).
  set (scopes := storageScopesFrom params mode). destruct (_ && _) eqn:Howner; [done|].
  destruct (requireScopes rights scopes) as [err|] eqn:Hsc; [done|].
  assert (Hown : ¬ platform_admin p → owner = SubjectKeyForPrincipal p).
  { intros Hna. rewrite (plain_rights Hna), andb_true_r in Howner. by apply negb_false_iff, String.eqb_eq in Howner. }
  destruct (CreateToken _ _ _ _) as [s' [[tok raw] [err|]]] eqn:Hc.
  - assert (s' = s) as ->; [|done]. revert Hc. unfold CreateToken. rewrite Hdb. destruct (_ =s ""); [by intros [= <- _ _ _]|].
    destruct (newRawToken _) as [r [err'|]]; [by intros [= <- _ _ _]|done].
  - apply CreateToken_good in Hc as (? & ? & Hw); [|done..]. apply good_audit; [done..|by intros []%Hw|].
    intros [_ Hset]%Hw. by apply proxy_within_set.
Qed.

(** In memory the scopes of a token are always replaced. *)
Lemma setScopes_memory e px id scopes : proxy_memory px → (setScopes e px id scopes).2 = None.
Proof. destruct px as [m|]; [|done]. cbn. unfold ReplaceTokenMCPServers. by intros ->. Qed.

Lemma adminTokenUpdateScopes_good px : proxy_memory px → good p ac s px (adminTokenUpdateScopes env s px p rights params).1.
Proof.
  intros Hpx. unfold adminTokenUpdateScopes. cbv zeta. set (id := AsString _).
  destruct (requireTokenAccess s p rights id) as [err|] eqn:Hta; [done|].
  destruct (GetToken s id) as [[tok|] [err|]]; try done. set (scopes := storageScopesFrom _ _).
  destruct (requireScopes rights scopes) as [err|] eqn:Hsc; [done|]. unfold ReplaceTokenStorages. rewrite Hdb.
  pose proof (setScopes_memory (env 2) px id (mcpScopesFrom (param params "mcpServers")) Hpx) as Hs.
  assert (Hset : ∀ s', ¬ platform_admin p → may_set s s' p ac id) by (intros s' Hna; left; by apply token_access_manages).
  pose proof (λ s' Hna, proxy_within_set (env 2) p ac s s' px id (mcpScopesFrom (param params "mcpServers")) Hpx (Hset s' Hna)) as Hx.
  destruct (setScopes _ _ _ _) as [px' err]. cbn in Hs. subst err. apply good_audit; [exact Hdb|reflexivity| |intros Hna; by apply Hx].
  intros Hna. apply within_scopes; [by apply Hset|]. intros sc Hin.
  apply list_elem_of_fmap in Hin as (sc' & -> & Hin). pose proof (scopes_administer scopes sc' Hsc Hna Hin) as Ha. by case_match.
Qed.

Lemma adminACLGrant_good px : good p ac s px ((adminACLGrant env s p rights params).1, px).
Proof.
  unfold adminACLGrant. cbv zeta. set (id := AsString (param params "storageId")).
  destruct (requireStorageRight rights id PermissionACLManage) as [err|] eqn:Hr; [done|].
  unfold UpsertACL. cbn. rewrite Hdb. destruct (Hfresh 1 0) as [Hid _]. apply good_audit_same; [exact Hdb|reflexivity|]. intros Hna.
  pose proof (storage_right_administers _ _ Hr Hna) as Ha. by apply (within_insert_acl p ac s (mkACLBinding _ _ _ _ _ _ _)).
Qed.

Lemma adminACLRevoke_good px : good p ac s px ((adminACLRevoke env s p rights params).1, px).
Proof.
  unfold adminACLRevoke. cbv zeta. set (id := AsString (param params "storageId")).
  destruct (requireStorageRight rights id PermissionACLManage) as [err|] eqn:Hr; [done|].
  unfold DeleteACL. rewrite Hdb. apply good_audit_same; [exact Hdb|reflexivity|]. intros Hna. apply within_delete_acl. intros b Hb. go_bool.
  match goal with Hb : ACLBinding_StorageID b = id |- _ => rewrite Hb end. by apply (storage_right_administers _ _ Hr).
Qed.

Lemma adminStorageCreate_good px : platform_admin p → good p ac s px ((adminStorageCreate env s p params).1, px).
Proof.
  intros Hadm. unfold adminStorageCreate, CreateStorage. cbv zeta. rewrite Hdb. apply good_audit_same; [exact Hdb|reflexivity|]. tauto.
Qed.

(** The branches of the handler that change one thing and audit it. *)
Lemma token_branch_good px f id method out : (∀ t, (f t).(AccessToken_OwnerSubjectKey) = t.(AccessToken_OwnerSubjectKey)) →
  good p ac s px (match requireTokenAccess s p rights id with
               | Some err => (s, px, fails RNil err)
               | None => match (alter_token s id f, None) with
                         | (s', Some err) => (s', px, fails RNil err)
                         | (s', None) => (audit (env 3) s' p method "access_token" id "", px, ok out)
                         end
               end : Store * option Manager * ret AdminResult).1.
Proof.
  intros Hf. destruct (requireTokenAccess s p rights id) as [err|] eqn:Hr; [done|].
  destruct (alter_token_same s id f) as [Hu Ha]. apply good_audit_same; [by rewrite Hu|done|].
  intros Hna. apply within_alter_token; [done|]. by apply token_access_manages.
Qed.

Lemma archive_good px method id :
  good p ac s px (match requireStorageRight rights id PermissionStorageDelete with
               | Some err => (s, px, fails RNil err)
               | None => match ArchiveStorage (env 1) s id with
                         | (s', (_, Some err)) => (s', px, fails RNil err)
                         | (s', (st, None)) => (audit (env 3) s' p method "storage" id id, px, ok (RStorage st))
                         end
               end : Store * option Manager * ret AdminResult).1.
Proof.
  destruct (requireStorageRight rights id PermissionStorageDelete) as [err|] eqn:Hr; [done|].
  unfold ArchiveStorage. rewrite Hdb. destruct (s.(s_storages) !! id) as [st|]; [|done].
  apply good_audit_same; [exact Hdb|reflexivity|]. intros Hna. apply within_storage. by apply (storage_right_administers _ _ Hr).
Qed.

(** A branch for platform administrators only. *)
Lemma platform_branch_good px (r : Store * option Manager * ret AdminResult) : (platform_admin p → good p ac s px r.1) →
  good p ac s px (if negb rights.(ar_platformAdmin) then (s, px, fails RNil ErrForbidden) else r).1.
Proof.
  intros Hr. destruct rights.(ar_platformAdmin) eqn:Hp; [|done]. apply Hr.
  destruct (decide (platform_admin p)) as [|Hna]; [done|]. pose proof (plain_rights Hna). congruence.
Qed.
End Rights.

Lemma handleAdminTool_good env s px p ac method params : s.(s_useDB) = false → proxy_memory px → fresh_ids env s →
  good p ac s px (handleAdminTool unicode_lower headers_decode json_marshal request_ok rpc_decode object_decode cfg
                 env s px p ac method params).1.
Proof.
  intros Hdb Hpx Hfresh. unfold handleAdminTool. destruct (rightsOf (env 0) s p ac) as [rights [err|]] eqn:Hr; [done|].
  cbv zeta. destruct (any_right rights) eqn:Hany; [|done]. cbn [negb].
  destruct (method =s "admin_token_create"); [by apply adminTokenCreate_good|].
  destruct (method =s "admin_token_list"); [done|].
  destruct (method =s "admin_token_get"); [done|].
  destruct (method =s "admin_token_revoke"); [unfold RevokeToken; rewrite Hdb; by apply token_branch_good|].
  destruct (method =s "admin_token_update_scopes"); [by apply adminTokenUpdateScopes_good|].
  destruct (method =s "admin_token_update_rate_limit"); [unfold UpdateTokenRateLimit; rewrite Hdb; by apply token_branch_good|].
  destruct (method =s "admin_user_list"); [by apply (platform_branch_good env s)|].
  destruct (method =s "admin_user_get").
  { apply (platform_branch_good env s); [done..|]. intros _. by destruct (GetUser _ _) as [[u|] [err|]]. }
  destruct (method =s "admin_user_disable").
  { apply (platform_branch_good env s); [done..|]. intros Hadm. unfold UpdateUser. rewrite Hdb.
    destruct (GetUser _ _) as [[u|] [err|]]; try done. apply good_audit_same; [exact Hdb|reflexivity|]. tauto. }
  destruct (method =s "admin_group_list"); [by apply (platform_branch_good env s)|].
  destruct (method =s "admin_group_members"); [by apply (platform_branch_good env s)|].
  destruct (method =s "admin_group_add_member").
  { apply (platform_branch_good env s); [done..|]. intros Hadm. unfold AddGroupMember. rewrite Hdb.
    apply good_audit_same; [exact Hdb|reflexivity|]. tauto. }
  destruct (method =s "admin_group_remove_member").
  { apply (platform_branch_good env s); [done..|]. intros Hadm. unfold RemoveGroupMember. rewrite Hdb.
    apply good_audit_same; [exact Hdb|reflexivity|]. tauto. }
  destruct (method =s "admin_acl_list"); [by case_match|].
  destruct (method =s "admin_acl_grant"); [by apply adminACLGrant_good|].
  destruct (method =s "admin_acl_revoke"); [by apply adminACLRevoke_good|].
  destruct (method =s "admin_storage_create").
  { apply (platform_branch_good env s); [done..|]. by apply adminStorageCreate_good. }
  destruct (method =s "admin_storage_archive"); [by apply archive_good|].
  destruct (method =s "admin_mcp_server_list"); [destruct px; [by apply (platform_branch_good env s)|done]|].
  destruct (method =s "admin_mcp_server_test").
  { destruct px as [m|]; [|done]. apply (platform_branch_good env s); [done..|]. intros Hadm.
    destruct (ConnectTest _ _ _ _ _ _ _ _ _ _) as [m' [out [err|]]]; [split; [by left|tauto]|]. apply good_audit; [exact Hdb|reflexivity|tauto..]. }
  destruct (method =s "admin_mcp_scope_set"); [|done].
  destruct (requireTokenAccess _ _ _ _) as [err|] eqn:Hta; [done|]. destruct px as [m|]; [|done].
  pose proof (setScopes_memory (env 2) (Some m) (AsString (param params "tokenId")) (mcpScopesFrom (param params "mcpServers")) Hpx) as Hs.
  pose proof (λ Hna, proxy_within_set (env 2) p ac s s (Some m) (AsString (param params "tokenId")) (mcpScopesFrom (param params "mcpServers")) Hpx
    (or_introl (token_access_manages env s p ac rights Hdb Hr Hany _ Hta Hna))) as Hx.
  destruct (setScopes _ _ _ _) as [px' err]. cbn in Hs. subst err. apply good_audit; [exact Hdb|reflexivity|intros _; apply within_refl|exact Hx].
Qed.

End Admin.

Section Witness.
#[local] Existing Instances no_postgres canonical_range wp_db wp_net wp_aead.

(** The owner of a storage grants a role on it, and cannot on another. *)
Definition wa_call (storageID : string) :=
  handleAdminTool (λ r, r) (λ _, None) (λ _, None) (λ _, true) (λ _, inl (mkRPCResponse None "")) (λ _, inl []) wp_cfg
    (λ _, w_env) (w_store None) None w_principal zeroval "admin_acl_grant"
    [("storageId", AString storageID); ("subjectKey", AString "user:internal:v"); ("role", AString RoleStorageReader)].

Lemma wa_fresh : fresh_ids (λ _, w_env) (w_store None).
Proof. intros i j. split; vm_compute; reflexivity. Qed.

Lemma wa_plain : ¬ platform_admin w_principal.
Proof. intros [H|H]; by apply elem_of_nil in H. Qed.

End Witness.
