(* ===== verification/Mcp.v ===== *)
(** The MCP server: [internal/mcp/protocol.go], [internal/mcp/server.go] and
    [internal/mcp/data_tools.go].

    The services it calls are interfaces here, one class each; [McpProps]
    connects the data services of [DataPlane]. A Go panic is an outcome of
    its own. [dispatch] calls itself on the arguments of a tool call; its
    fuel is the depth of the arguments plus two, and that is enough. *)
From S2P Require Import Prelude GoStrings Models DataObj AccessState AccessObjects AccessService PolicyScope Proxy ProxyManager DataPlane McpAdmin Knowledge Sessions.
From Stdlib Require Import Ascii Floats.SpecFloat.

(** ** The services *)

Class AccessAPI (A : Type) := {
  aa_AvailableStorages : Env → A → Principal → option AccessToken → list AccessTokenStorage →
    ret (list Storage * gmap string EffectiveAccess);
  aa_AvailableObjects : A → Principal → option AccessToken → list AccessTokenObject → ObjectKind →
    ret (list DataObject * gmap string EffectiveObjectAccess)
}.

(** [kn_Search] gives [None] when it panics. *)
Class KnowledgeAPI (A K : Type) := {
  kn_Save : (nat → Env) → Env → A → K → Principal → APIAccessContext → SaveInput → A * K * ret DocumentRecord;
  kn_Get : A → K → Principal → APIAccessContext → string → ret DocumentRecord;
  kn_Delete : Env → A → K → Principal → APIAccessContext → string → A * K * option error;
  kn_Search : Env → A → K → Principal → APIAccessContext → SearchRequest → bool → option (ret (list SearchHit))
}.

Class UsageAPI (U : Type) := {
  us_Allow : Env → U → AccessToken → string → U * ret bool;
  us_Record : Env → U → UsageEvent → U
}.

(** The proxy and its access service; a nil manager is one that is not
    enabled. *)
Class ProxyAPI (P : Type) := {
  pa_Enabled : P → bool;
  pa_Available : P → Principal → option AccessToken → list AccessTokenMCPServer → ret (list AccessibleServer);
  pa_Exposed : P → list AccessibleServer → Exposed;
  pa_CallTool : Env → P → string → Any → list AccessibleServer → P * ret (list (string * Any));
  pa_ReadResource : Env → P → string → list AccessibleServer → P * ret (list (string * Any));
  pa_GetPrompt : Env → P → string → option Any → list AccessibleServer → P * ret (list (string * Any))
}.

(** [internal/mcp/admin.go] *)
Class AdminAPI (A P : Type) := {
  ad_Tools : Env → A → Principal → APIAccessContext → ret (list AdminTool);
  ad_Call : (nat → Env) → A → P → Principal → APIAccessContext → string → list (string * Any) → A * P * ret AdminResult
}.

Class DataAPI (D : Type) := da_run : Env → D → Scope → DataCall → D * ret (option DataResult).

(** ** protocol.go *)

(** A request as it is on the wire, its parameters not decoded. *)
Record wireRequest := mkWireRequest { wire_JSONRPC : string; wire_ID : string; wire_Method : string; wire_Params : string }.

Record JSONRPCRequest := mkJSONRPCRequest {
  Req_JSONRPC : string;
  Req_ID : string;
  Req_Method : string;
  Req_Params : list (string * Any)
}.

Definition UnmarshalRequest (object_decode : string → option (list (string * Any))) (wire : wireRequest) : option JSONRPCRequest :=
  let req := mkJSONRPCRequest wire.(wire_JSONRPC) wire.(wire_ID) wire.(wire_Method) in
  if (wire.(wire_Params) =s "") || (wire.(wire_Params) =s "null") then Some (req [])
  else req <$> object_decode wire.(wire_Params).

Definition IsNotification (r : JSONRPCRequest) : bool := (r.(Req_ID) =s "") || (r.(Req_ID) =s "null").

(** ** Results *)

(** A tool as it is listed: its arguments by name, the identifiers its first
    argument may have, and which arguments are required. *)
Record ToolDescriptor := mkToolDescriptor {
  td_name : string;
  td_description : string;
  td_properties : list string;
  td_enum : list string;
  td_required : list string
}.

Inductive ListedTool :=
| ToolOwn (t : ToolDescriptor)
| ToolProxied (name : string) (t : MCPServerTool)
| ToolAdmin (t : AdminTool).

(** [RInitialize]: the session identifier is in the result until the
    transport takes it out. *)
Inductive McpResult :=
| RInitialize (protocolVersion : string) (sessionID : option string)
| RTools (tools : list ListedTool)
| RResources (l : list (string * MCPServerResource))
| RPrompts (l : list (string * MCPServerPrompt))
| RDocument (d : DocumentRecord)
| RDeleted
| RHits (l : list SearchHit)
| RData (r : option DataResult)
| RObject (o : list (string * Any))
| RAdmin (v : AdminResult)
| RNull
| RText (r : McpResult).   (* the content of a tool call: the result as JSON text *)

(** [None] as a result is nil. *)
Record JSONRPCResponse := mkJSONRPCResponse {
  Resp_ID : string;
  Resp_Result : option McpResult;
  Resp_Error : option (Z * string)
}.

Definition NewResultResponse (id : string) (result : option McpResult) : JSONRPCResponse := mkJSONRPCResponse id result None.
Definition NewErrorResponse (id : string) (code : Z) (message : string) : JSONRPCResponse :=
  mkJSONRPCResponse (if id =s "" then "null" else id) None (Some (code, message)).

(** ** Small functions of server.go *)

Definition defaultProtocolVersion : string := "2025-06-18".

Definition looksLikeProtocolVersion (v : string) : bool :=
  (slen v =? 10)%Z
  && forallb id (imap (λ i c, if bool_decide (i = 4 ∨ i = 7) then (c =? 45)%Z else is_digit c) (bytes v)).

Definition negotiateProtocolVersion (requested : string) : string :=
  if requested =s "" then defaultProtocolVersion
  else if looksLikeProtocolVersion requested then requested
  else defaultProtocolVersion.

Definition methodForToolName (name : string) : string :=
  if name =s "knowledge_search" then "knowledge.search"
  else if name =s "knowledge_get" then "knowledge.get"
  else if name =s "knowledge_save" then "knowledge.save"
  else if name =s "knowledge_delete" then "knowledge.delete"
  else name.

Definition operationForMethod (method : string) : string :=
  if method =s "knowledge.save" then "write"
  else if method =s "knowledge.delete" then "delete"
  else if sContains ["tools/list"; "resources/list"; "prompts/list"] method then "tools_list"
  else if method =s "initialize" then "initialize"
  else "read".

Definition statusFromError (err : error) : string := if errors_Is err ErrForbidden then "forbidden" else "error".

Definition asInt (v : Any) : Z := match v with AFloat f => f_to_int f | AInt z => z | _ => 0%Z end.

Definition knowledgeToolAllowed (name : string) (scopes : list AccessTokenStorage) : bool :=
  existsb (λ scope, bool_decide (scope.(AccessTokenStorage_ToolAllowlist) = [])
                    || existsb (λ allowed, allowed =s name) scope.(AccessTokenStorage_ToolAllowlist)) scopes.

Definition filterKnowledgeTools (tools : list ToolDescriptor) (scopes : list AccessTokenStorage) : list ToolDescriptor :=
  if bool_decide (scopes = []) then tools else List.filter (λ tool, knowledgeToolAllowed tool.(td_name) scopes) tools.

Definition dataToolAllowed (name : string) (scopes : list AccessTokenObject) : bool :=
  bool_decide (scopes = [])
  || existsb (λ scope, bool_decide (scope.(AccessTokenObject_MethodAllowlist) = [])
                       || existsb (λ allowed, allowed =s name) scope.(AccessTokenObject_MethodAllowlist)) scopes.

Section Tools.
Context `{!GoRange}.

Definition knowledgeToolDescriptor (name description : string) (storageEnums extra : list string) : ToolDescriptor :=
  mkToolDescriptor name description ("storageId" :: extra) storageEnums ("storageId" :: range_set (list_to_set extra)).

Definition defaultTools (storageEnums : list string) (writeAllowed : bool) : list ToolDescriptor :=
  [knowledgeToolDescriptor "knowledge_search" "Search knowledge in an allowed storage" storageEnums ["query"; "topK"];
   knowledgeToolDescriptor "knowledge_get" "Get a document by id" storageEnums ["docId"]]
  ++ (if writeAllowed then
        [knowledgeToolDescriptor "knowledge_save" "Save knowledge into an allowed storage" storageEnums ["title"; "text"; "mimeType"];
         knowledgeToolDescriptor "knowledge_delete" "Delete a document from an allowed storage" storageEnums ["docId"]]
      else []).
End Tools.

(** The arguments of a data tool besides the object, and the required ones. *)
Definition dataToolArgs (kind : ObjectKind) (method : string) : list string * list string :=
  if kind =s ObjectKindVariable then
    if method =s "set" then (["name"; "prefix"; "payload"], ["name"; "payload"]) else (["name"; "prefix"], ["name"])
  else if kind =s ObjectKindCounter then
    if method =s "set" then (["value"], ["value"])
    else if (method =s "increase") || (method =s "decrease") then (["delta"], []) else ([], [])
  else if kind =s ObjectKindLog then
    if method =s "add" then (["message"; "level"; "fields"], ["message"]) else (["limit"], [])
  else if kind =s ObjectKindQueue then if method =s "enqueue" then (["payload"], ["payload"]) else ([], [])
  else if kind =s ObjectKindBus then
    if method =s "produce" then (["payload"], ["payload"])
    else if (method =s "consume") || (method =s "subscribe") then (["consumer"], []) else ([], [])
  else if kind =s ObjectKindSecureBus then
    if method =s "publish" then
      (["keyId"; "policyVersion"; "policyHash"; "nonce"; "createdAt"; "payload"; "signature"; "prevHash"],
       ["keyId"; "policyVersion"; "policyHash"; "nonce"; "signature"; "payload"])
    else if method =s "attest" then
      (["keyId"; "messageId"; "policyVersion"; "status"; "comment"; "createdAt"; "signature"],
       ["keyId"; "messageId"; "policyVersion"; "status"; "signature"])
    else if method =s "verify" then (["messageId"], ["messageId"])
    else if (method =s "consume") || (method =s "subscribe") then (["consumer"; "condition"; "filter"], [])
    else if method =s "policy" then (["version"], [])
    else ([], [])
  else if kind =s ObjectKindSchedule then
    if method =s "set" then (["name"; "time"; "task"; "data"], ["name"; "time"; "task"])
    else if method =s "get" then (["name"], ["name"]) else ([], [])
  else if kind =s ObjectKindTable then (["sql"], ["sql"])
  else if kind =s ObjectKindGit then (["args"], [])
  else ([], []).

Definition adminMethods : list string :=
  ["admin_token_create"; "admin_token_list"; "admin_token_get"; "admin_token_revoke"; "admin_token_update_scopes";
   "admin_token_update_rate_limit"; "admin_user_list"; "admin_user_get"; "admin_user_disable"; "admin_group_list";
   "admin_group_members"; "admin_group_add_member"; "admin_group_remove_member"; "admin_acl_list"; "admin_acl_grant";
   "admin_acl_revoke"; "admin_storage_create"; "admin_storage_archive"; "admin_mcp_server_list"; "admin_mcp_server_test";
   "admin_mcp_scope_set"].

(** ** The server *)

(** What a handler ends in. [NoFuel] is not an end of the program. *)
Inductive outcome := Done (r : ret (option McpResult)) | Panic | NoFuel.

(** How deep objects and arrays are nested. *)
Fixpoint any_depth (v : Any) : nat :=
  match v with
  | AArray l => S (foldr (λ v n, Nat.max (any_depth v) n) 0 l)
  | AObject o => S (foldr (λ kv n, Nat.max (any_depth kv.2) n) 0 o)
  | _ => 0
  end.

Section Server.
Context `{!SessionRedis, !Codec Session, !Codec WebSession, !Codec (list string), !GoRange}.
Context {A K U P D : Type} `{!ObjectAccess A, !AccessAPI A, !KnowledgeAPI A K, !UsageAPI U, !ProxyAPI P, !AdminAPI A P, !DataAPI D}.
Context (parse_rfc3339 : string → Time).

(** The services are those the entry point builds; none of them is nil.
    [w_pool]: the pool of the opener. *)
Record World := mkWorld {
  w_sessions : SessionStore;
  w_access : A;
  w_knowledge : K;
  w_usage : U;
  w_proxy : P;
  w_data : D;
  w_pool : option Pool
}.
#[export] Instance settable_World : Settable World := λ w,
  mkWorld w.(w_sessions) w.(w_access) w.(w_knowledge) w.(w_usage) w.(w_proxy) w.(w_data) w.(w_pool).
Implicit Types (w : World) (p : Principal) (ac : APIAccessContext).

(** *** Listings *)

Definition accessibleMCPServers w p ac : ret (list AccessibleServer) :=
  pa_Available w.(w_proxy) p ac.(APIAccessContext_AccessToken) ac.(APIAccessContext_AllowedMCPServers).

Definition exposedProxy w p ac : ret Exposed :=
  if negb (pa_Enabled w.(w_proxy)) then ok (mkExposed [] [] [])
  else match accessibleMCPServers w p ac with
  | (_, Some err) => fails (mkExposed [] [] []) err
  | (servers, None) => ok (pa_Exposed w.(w_proxy) servers)
  end.

Definition buildKnowledgeTools (e : Env) w p ac : ret (list ToolDescriptor) :=
  match aa_AvailableStorages e w.(w_access) p ac.(APIAccessContext_AccessToken) ac.(APIAccessContext_AllowedStorage) with
  | (_, Some err) => fails [] err
  | ((storages, effective), None) =>
      let writeAllowed := existsb (λ st, existsb (λ perm, perm =s PermissionDocumentCreate)
        (default [] (EffectiveAccess_Permissions <$> effective !! st.(Storage_ID)))) storages in
      ok (filterKnowledgeTools (defaultTools (Storage_ID <$> storages) writeAllowed) ac.(APIAccessContext_AllowedStorage))
  end.

Definition dataToolsOf ac (kind : ObjectKind) (ids : list string) : list ToolDescriptor :=
  if bool_decide (ids = []) then []
  else omap (λ method,
    let name := kind +:+ "_" +:+ method in
    if dataToolAllowed name ac.(APIAccessContext_AllowedObjects) then
      let '(props, required) := dataToolArgs kind method in
      Some (mkToolDescriptor name (kind +:+ "." +:+ method +:+ " on a " +:+ kind +:+ " object") ("objectId" :: props) ids
              ("objectId" :: required))
    else None) (Methods kind).

Fixpoint dataToolsFrom w p ac (kinds : list ObjectKind) : ret (list ToolDescriptor) :=
  match kinds with
  | [] => ok []
  | kind :: kinds' =>
      match aa_AvailableObjects w.(w_access) p ac.(APIAccessContext_AccessToken) ac.(APIAccessContext_AllowedObjects) kind with
      | (_, Some err) => fails [] err
      | ((objs, _), None) =>
          match dataToolsFrom w p ac kinds' with
          | (_, Some err) => fails [] err
          | (rest, None) => ok (dataToolsOf ac kind (DataObject_ID <$> objs) ++ rest)
          end
      end
  end.

Definition buildDataObjectTools w p ac : ret (list ToolDescriptor) := dataToolsFrom w p ac toolKinds.

Definition handleToolsList (e : Env) w p ac : ret (option McpResult) :=
  match buildKnowledgeTools e w p ac with
  | (_, Some err) => fails None err
  | (tools, None) =>
  match buildDataObjectTools w p ac with
  | (_, Some err) => fails None err
  | (dataTools, None) =>
  match exposedProxy w p ac with
  | (_, Some err) => fails None err
  | (exposed, None) =>
  match ad_Tools e w.(w_access) p ac with
  | (_, Some err) => fails None err
  | (adminTools, None) =>
      ok (Some (RTools ((ToolOwn <$> tools ++ dataTools) ++ ((λ nt, ToolProxied nt.1 nt.2) <$> exposed.(ex_Tools))
                        ++ (ToolAdmin <$> adminTools))))
  end end end end.

Definition handleResourcesList w p ac : ret (option McpResult) :=
  match exposedProxy w p ac with
  | (_, Some err) => fails None err
  | (exposed, None) => ok (Some (RResources exposed.(ex_Resources)))
  end.

Definition handlePromptsList w p ac : ret (option McpResult) :=
  match exposedProxy w p ac with
  | (_, Some err) => fails None err
  | (exposed, None) => ok (Some (RPrompts exposed.(ex_Prompts)))
  end.

(** *** Data tools *)

Definition tokenIDOf ac : string := match ac.(APIAccessContext_AccessToken) with Some t => t.(AccessToken_ID) | None => "" end.

(** [env 0] is for the gate, [env 1] for the operation. *)
Definition handleDataObjectTool (env : nat → Env) w p ac (toolName : string) (params : list (string * Any))
    : World * ret (option McpResult) :=
  match splitKindMethod toolName with
  | None => (w, fails None (NewError "unknown data tool"))
  | Some (kind, method) =>
      if negb (HasMethod kind method) then (w, fails None (NewError "unknown data tool"))
      else
        let '(a, r) := Open (env 0) (Some w.(w_access)) w.(w_pool) p ac (AsString (param params "objectId")) method in
        let w := w <| w_access := default w.(w_access) a |> in
        match r with
        | (Some scope, None) =>
            match dataCall parse_rfc3339 (SubjectKeyForPrincipal p) (tokenIDOf ac) kind method params with
            | None => (w, fails None policy.ErrUnknownMethod)
            | Some c =>
                match da_run (env 1) w.(w_data) scope c with
                | (d, (_, Some err)) => (w <| w_data := d |>, fails None err)
                | (d, (res, None)) => (w <| w_data := d |>, ok (Some (RData res)))
                end
            end
        | (_, err) => (w, (None, err))
        end
  end.

(** *** Dispatch *)

Definition toolCallResult (r : option McpResult) : option McpResult := Some (RText (default RNull r)).

(** The state a handler leaves: the services, the status and the storage of
    the usage event, and its outcome. *)
Record Disp := mkDisp { di_world : World; di_status : string; di_storageID : string; di_out : outcome }.

(** The result of a proxied call. *)
Definition proxied w (status storageID : string) (wrap : option McpResult → option McpResult)
    (r : P * ret (list (string * Any))) : Disp :=
  match r with
  | (px, (_, Some err)) => mkDisp (w <| w_proxy := px |>) (statusFromError err) storageID (Done (fails None err))
  | (px, (o, None)) => mkDisp (w <| w_proxy := px |>) status storageID (Done (ok (wrap (Some (RObject o)))))
  end.

Definition saveInput (storageID : string) (params : list (string * Any)) : SaveInput :=
  let str k := AsString (param params k) in
  mkSaveInput storageID (str "title") (str "text") (str "mimeType") (str "visibility") (AsStringSlice (param params "groupIds"))
    (str "source") (str "sourceUrl") "mcp".

Definition searchRequest (storageID : string) (params : list (string * Any)) : SearchRequest :=
  let str k := AsString (param params k) in
  mkSearchRequest (str "query") (asInt (param params "topK"))
    ((zeroval : PageRequest) <| PageRequest_StorageID := storageID |> <| PageRequest_Source := str "source" |>
       <| PageRequest_SourceURL := str "sourceUrl" |> <| PageRequest_SourceURLMode := str "sourceUrlMode" |>).

(** A handler that only reads. *)
Definition listed_ w (storageID status : string) (r : ret (option McpResult)) : Disp :=
  mkDisp w (match r.2 with Some _ => "error" | None => status end) storageID (Done r).

(** [env]: the environments of the calls, in order. *)
Fixpoint dispatch (fuel : nat) (env : nat → Env) w p ac (method : string) (params : list (string * Any))
    (status storageID : string) : Disp :=
  match fuel with
  | O => mkDisp w status storageID NoFuel
  | S fuel =>
  let str k := AsString (param params k) in
  let failed w err := mkDisp w (statusFromError err) storageID (Done (fails None err)) in
  let done w r := mkDisp w status storageID (Done (ok (Some r))) in
  if method =s "initialize" then
    let '(s, sess) := CreateMCPSession (env 0) w.(w_sessions) p (12 * Hour)%Z in
    done (w <| w_sessions := s |>)
      (RInitialize (negotiateProtocolVersion (str "protocolVersion")) (Some sess.(Session_SessionID)))
  else if method =s "notifications/initialized" then mkDisp w status storageID (Done (ok None))
  else if method =s "tools/list" then listed_ w storageID status (handleToolsList (env 0) w p ac)
  else if method =s "tools/call" then
    let originalName := str "name" in
    let arguments := match param params "arguments" with AObject o => o | _ => [] end in
    if pa_Enabled w.(w_proxy) && HasProxiedTool originalName then
      match accessibleMCPServers w p ac with
      | (_, Some err) => failed w err
      | (servers, None) => proxied w status storageID toolCallResult (pa_CallTool (env 0) w.(w_proxy) originalName (AObject arguments) servers)
      end
    else match splitKindMethod originalName with
    | Some _ =>
        match handleDataObjectTool env w p ac originalName arguments with
        | (w, (_, Some err)) => failed w err
        | (w, (r, None)) => mkDisp w status storageID (Done (ok (toolCallResult r)))
        end
    | None =>
        let d := dispatch fuel env w p ac (methodForToolName originalName) arguments status storageID in
        match d.(di_out) with
        | Done (_, Some err) => mkDisp d.(di_world) (statusFromError err) d.(di_storageID) d.(di_out)
        | Done (r, None) => mkDisp d.(di_world) d.(di_status) d.(di_storageID) (Done (ok (toolCallResult r)))
        | _ => d
        end
    end
  else if method =s "resources/list" then listed_ w storageID status (handleResourcesList w p ac)
  else if method =s "resources/read" then
    match accessibleMCPServers w p ac with
    | (_, Some err) => failed w err
    | (servers, None) =>
        if negb (pa_Enabled w.(w_proxy)) then mkDisp w "error" storageID (Done (fails None ErrUnknownMethod))
        else proxied w status storageID id (pa_ReadResource (env 0) w.(w_proxy) (str "uri") servers)
    end
  else if method =s "prompts/list" then listed_ w storageID status (handlePromptsList w p ac)
  else if method =s "prompts/get" then
    match accessibleMCPServers w p ac with
    | (_, Some err) => failed w err
    | (servers, None) =>
        if negb (pa_Enabled w.(w_proxy)) then mkDisp w "error" storageID (Done (fails None ErrUnknownMethod))
        else
          let arguments := match param params "arguments" with AObject o => Some (AObject o) | _ => None end in
          proxied w status storageID id (pa_GetPrompt (env 0) w.(w_proxy) (str "name") arguments servers)
    end
  else if method =s "knowledge.save" then
    match kn_Save (λ i, env (S i)) (env 0) w.(w_access) w.(w_knowledge) p ac (saveInput storageID params) with
    | (a, k, (_, Some err)) => failed (w <| w_access := a |> <| w_knowledge := k |>) err
    | (a, k, (doc, None)) => done (w <| w_access := a |> <| w_knowledge := k |>) (RDocument doc)
    end
  else if method =s "knowledge.get" then
    match kn_Get w.(w_access) w.(w_knowledge) p ac (str "docId") with
    | (_, Some err) => failed w err
    | (doc, None) => mkDisp w status doc.(DocumentRecord_StorageID) (Done (ok (Some (RDocument doc))))
    end
  else if method =s "knowledge.delete" then
    match kn_Delete (env 0) w.(w_access) w.(w_knowledge) p ac (str "docId") with
    | (a, k, Some err) => failed (w <| w_access := a |> <| w_knowledge := k |>) err
    | (a, k, None) => done (w <| w_access := a |> <| w_knowledge := k |>) RDeleted
    end
  else if method =s "knowledge.search" then
    match kn_Search (env 0) w.(w_access) w.(w_knowledge) p ac (searchRequest storageID params) true with
    | None => mkDisp w status storageID Panic
    | Some (_, Some err) => failed w err
    | Some (hits, None) => done w (RHits hits)
    end
  else if sContains adminMethods method then
    match ad_Call env w.(w_access) w.(w_proxy) p ac method params with
    | (a, px, (_, Some err)) => failed (w <| w_access := a |> <| w_proxy := px |>) err
    | (a, px, (v, None)) => done (w <| w_access := a |> <| w_proxy := px |>) (RAdmin v)
    end
  else mkDisp w "error" storageID (Done (fails None ErrUnknownMethod))
  end.

(** *** Requests *)

Definition usageEvent p ac (storageID method status : string) (latency : Z) : UsageEvent :=
  mkUsageEvent ac.(APIAccessContext_TokenID) (SubjectKeyForPrincipal p) storageID method (operationForMethod method) status
    latency 0 0 0%Z.

(** The usage event is recorded on every way out. *)
Definition recorded (env : nat → Env) w p ac (method status storageID : string) (r : outcome) : World * outcome :=
  let since := now (env 1) 0 in
  let latency := ((since - now (env 0%nat) 0%nat) `quot` 1000000)%Z in
  (w <| w_usage := us_Record (env 1) w.(w_usage) (usageEvent p ac storageID method status latency) |>, r).

(** [env 0] is for the start, [env 1] for the event, [env 2] for the limiter. *)
Definition handleRequest (env : nat → Env) w p ac (request : JSONRPCRequest) : World * outcome :=
  let method := request.(Req_Method) in
  let params := request.(Req_Params) in
  let storageID := AsString (param params "storageId") in
  let run w :=
    let d := dispatch (any_depth (AObject params) + 2) (λ i, env (3 + i)) w p ac method params "ok" storageID in
    recorded env d.(di_world) p ac method d.(di_status) d.(di_storageID) d.(di_out) in
  match ac.(APIAccessContext_AccessToken) with
  | None => run w
  | Some token =>
      match us_Allow (env 2) w.(w_usage) token storageID with
      | (u, (_, Some err)) => recorded env (w <| w_usage := u |>) p ac method "error" storageID (Done (fails None err))
      | (u, (false, None)) => recorded env (w <| w_usage := u |>) p ac method "rate_limited" storageID (Done (fails None ErrRateLimited))
      | (u, (true, None)) => run (w <| w_usage := u |>)
      end
  end.

(** [None] is a panic. A notification has no response. *)
Definition HandleRequest (env : nat → Env) w p ac (request : JSONRPCRequest) : World * option (ret (option JSONRPCResponse)) :=
  match handleRequest env w p ac request with
  | (w, Done (result, err)) =>
      (w, Some (match err with
                | Some err => fails None err
                | None => ok (if IsNotification request then None else Some (NewResultResponse request.(Req_ID) result))
                end))
  | (w, _) => (w, None)
  end.

(** ** [internal/transport/streamablehttp/handler.go] *)

(** The parts of an HTTP request the handler reads; the body is [None] when
    reading it fails. *)
Record HandlerRequest := mkHandlerRequest {
  hr_accept : list string;
  hr_session : string;
  hr_lastEvent : string;
  hr_body : option string
}.

Inductive Body :=
| BNone
| BText (s : string)
| BOne (r : JSONRPCResponse)
| BMany (l : list JSONRPCResponse)
| BStream (replay : list string).

Record Reply := mkReply { re_status : Z; re_headers : gmap string string; re_body : Body }.

Definition accepts (r : HandlerRequest) (want : string) : bool :=
  bool_decide (r.(hr_accept) = [])
  || existsb (λ raw, existsb (λ item,
       let mediaType := TrimSpace (Cut item ";").1.1 in (mediaType =s want) || (mediaType =s "*/*")) (Split raw ","%char)) r.(hr_accept).

(** The error the handler answers with, [None] when the session is good. *)
Definition authorizedSession (t : Time) w p (sessionID : string) : option Reply :=
  match GetMCPSession t w.(w_sessions) sessionID with
  | (_, false) => Some (mkReply 404 ∅ (BText "invalid session"))
  | (sess, true) =>
      if SubjectKeyForPrincipal sess.(Session_Principal) <>s SubjectKeyForPrincipal p then Some (mkReply 403 ∅ (BText "forbidden"))
      else None
  end.

(** What the decoders of [encoding/json] make of a body: one request, a
    batch, the method of a request. *)
Context (decode_one : string → option wireRequest) (decode_batch : string → option (list wireRequest)).
Context (decode_method : string → option string) (object_decode : string → option (list (string * Any))).

Definition isBatch (raw : string) : bool := HasPrefix (TrimSpace raw) "[".

Definition peekJSONRPCMethod (raw : string) : string :=
  if (TrimSpace raw =s "") || isBatch raw then "" else default "" (decode_method raw).

(** The headers are those of the writer so far. *)
Definition handleOne (env : nat → Env) w (headers : gmap string string) p ac (req : JSONRPCRequest)
    : World * gmap string string * option (option JSONRPCResponse) :=
  match HandleRequest env w p ac req with
  | (w, None) => (w, headers, None)
  | (w, Some (_, Some err)) =>
      (w, headers, Some (if IsNotification req then None
                         else Some (NewErrorResponse req.(Req_ID) (JSONRPCCode err) (Error_text err))))
  | (w, Some (None, None)) => (w, headers, Some None)
  | (w, Some (Some resp, None)) =>
      if req.(Req_Method) =s "initialize" then
        match resp.(Resp_Result) with
        | Some (RInitialize version session) =>
            let headers := match session with
                           | Some id => if id =s "" then headers else <["Mcp-Session-Id" := id]> headers
                           | None => headers end in
            let session := match session with Some id => if id =s "" then Some id else None | None => None end in
            let headers := if version =s "" then headers else <["MCP-Protocol-Version" := version]> headers in
            (w, headers, Some (Some (mkJSONRPCResponse resp.(Resp_ID) (Some (RInitialize version session)) resp.(Resp_Error))))
        | _ => (w, headers, Some (Some resp))
        end
      else (w, headers, Some (Some resp))
  end.

(** The loop over a batch; [env i] are the environments of the i-th request.
    Every code of [handleOne] is below 400, so the status is 200. *)
Fixpoint handleAll (env : nat → nat → Env) w (headers : gmap string string) p ac (reqs : list JSONRPCRequest)
    : World * gmap string string * option (list JSONRPCResponse) :=
  match reqs with
  | [] => (w, headers, Some [])
  | req :: reqs' =>
      match handleOne (env 0) w headers p ac req with
      | (w, headers, None) => (w, headers, None)
      | (w, headers, Some resp) =>
          match handleAll (λ i, env (S i)) w headers p ac reqs' with
          | (w, headers, None) => (w, headers, None)
          | (w, headers, Some out) => (w, headers, Some (option_list resp ++ out))
          end
      end
  end.

(** What a body asks for, or the answer to one that is not understood. *)
Definition readPayload (raw : string) : list JSONRPCRequest + JSONRPCResponse :=
  if TrimSpace raw =s "" then inr (NewErrorResponse "" (-32700) "parse error")
  else if isBatch raw then
    match decode_batch raw ≫= mapM (UnmarshalRequest object_decode) with
    | None | Some [] => inr (NewErrorResponse "" (-32600) "invalid request")
    | Some batch => inl batch
    end
  else match decode_one raw ≫= UnmarshalRequest object_decode with
  | None => inr (NewErrorResponse "" (-32700) "parse error")
  | Some req => inl [req]
  end.

Definition responsesPayload (raw : string) (responses : list JSONRPCResponse) : Body :=
  if isBatch raw then BMany responses else match responses with r :: _ => BOne r | [] => BNone end.

(** [handleJSONRPCPayload] and the end of [post], [handlePost]; [None] is a panic. *)
Definition answerPayload (env : nat → nat → Env) w (headers : gmap string string) p ac (raw : string) : World * option Reply :=
  let json headers := <["Content-Type" := "application/json"]> headers in
  match readPayload raw with
  | inr resp => (w, Some (mkReply 400 (json headers) (responsesPayload raw [resp])))
  | inl reqs =>
      match handleAll env w headers p ac reqs with
      | (w, _, None) => (w, None)
      | (w, headers, Some []) => (w, Some (mkReply 202 headers BNone))
      | (w, headers, Some responses) => (w, Some (mkReply 200 (json headers) (responsesPayload raw responses)))
      end
  end.

(** [p]: the principal the gateway put in the context. *)
Definition handlePost (t : Time) (env : nat → nat → Env) w (p : option Principal) ac (r : HandlerRequest) : World * option Reply :=
  match p with
  | None => (w, Some (mkReply 401 ∅ (BText "unauthorized")))
  | Some p =>
      if negb (accepts r "application/json") && negb (accepts r "text/event-stream") && negb (accepts r "*/*")
      then (w, Some (mkReply 406 ∅ (BText "Accept must allow application/json or text/event-stream")))
      else match (if r.(hr_session) =s "" then None else authorizedSession t w p r.(hr_session)) with
      | Some reply => (w, Some reply)
      | None =>
          match r.(hr_body) with
          | None => (w, Some (mkReply 400 {[ "Content-Type" := "application/json" ]} (BOne (NewErrorResponse "" (-32700) "parse error"))))
          | Some raw =>
              let method := peekJSONRPCMethod raw in
              answerPayload env w (if method =s "" then ∅ else {[ "X-MCP-Method" := method ]}) p ac raw
          end
      end
  end.

(** The beginning of a stream; the keep-alive comments that follow are not
    modelled. [flusher]: whether the writer can flush. *)
Definition handleGet (t : Time) (flusher : bool) w (p : option Principal) (r : HandlerRequest) : Reply :=
  match p with
  | None => mkReply 401 ∅ (BText "unauthorized")
  | Some p =>
      if negb (accepts r "text/event-stream") && negb (accepts r "*/*")
      then mkReply 406 ∅ (BText "Accept must allow text/event-stream")
      else if r.(hr_session) =s "" then mkReply 400 ∅ (BText "missing Mcp-Session-Id")
      else match authorizedSession t w p r.(hr_session) with
      | Some reply => reply
      | None =>
          if negb flusher then mkReply 500 ∅ (BText "streaming unsupported")
          else mkReply 200 (<["Content-Type" := "text/event-stream"]> (<["Cache-Control" := "no-cache"]>
                 {[ "Connection" := "keep-alive" ]})) (BStream (ReplayFrom t w.(w_sessions) r.(hr_session) "default" r.(hr_lastEvent)))
      end
  end.

Definition handleDelete (t : Time) w (p : option Principal) (r : HandlerRequest) : World * Reply :=
  match p with
  | None => (w, mkReply 401 ∅ (BText "unauthorized"))
  | Some p =>
      if r.(hr_session) =s "" then (w, mkReply 400 ∅ (BText "missing Mcp-Session-Id"))
      else match authorizedSession t w p r.(hr_session) with
      | Some reply => (w, reply)
      | None => (w <| w_sessions := DeleteMCPSession t w.(w_sessions) r.(hr_session) |>, mkReply 204 ∅ BNone)
      end
  end.
End Server.
