(* ===== verification/McpProps.v ===== *)
(** What the MCP server of [Mcp] guarantees: requests end, each gets its one
    answer, and the data plane changes only where the access rules allow. *)
From S2P Require Import Prelude GoStrings Models DataObj AccessState AccessObjects AccessService AccessProps PolicyScope Proxy ProxyManager AgentKeys Bus Kinds SecureBus Tables DataPlane GitStore Knowledge Sessions McpAdmin Mcp.
From Stdlib Require Import Ascii Floats.SpecFloat.

(** ** Nested arguments *)

Lemma param_depth params k : (any_depth (param params k) < any_depth (AObject params))%nat.
Proof.
  cbn [any_depth]. unfold param. destruct (List.find _ _) as [[k' v]|] eqn:Hf; cbn; [|lia].
  apply find_elem_of in Hf as [Hin _]. clear k. induction params as [|[k v'] params IH]; [by apply not_elem_of_nil in Hin|].
  apply elem_of_cons in Hin as [[= -> ->]|Hin]; cbn in *; [lia|]. specialize (IH Hin). lia.
Qed.

Lemma param_nil k : param [] k = ANil.
Proof. done. Qed.

Section Server.
Context `{!SessionRedis, !Codec Session, !Codec WebSession, !Codec (list string), !GoRange}.
Context {A K U P D : Type} `{!ObjectAccess A, !AccessAPI A, !KnowledgeAPI A K, !UsageAPI U, !ProxyAPI P, !AdminAPI A P, !DataAPI D}.
Context (parse_rfc3339 : string → Time).
Implicit Types (w : World (A := A) (K := K) (U := U) (P := P) (D := D)) (p : Principal) (ac : APIAccessContext) (env : nat → Env).

(** ** Requests end *)

(** The fuel a call needs: only [tools/call] calls again, on its arguments. *)
Definition need (method : string) (params : list (string * Any)) : nat :=
  if method =s "tools/call" then match params with [] => 2 | _ => any_depth (AObject params) + 2 end else 1.

Lemma need_bound method params : (need method params <= any_depth (AObject params) + 2)%nat.
Proof. unfold need. case_match; [|lia]. destruct params; cbn; lia. Qed.

Lemma need_arguments params : let arguments := match param params "arguments" with AObject o => o | _ => [] end in
  (need (methodForToolName (AsString (param params "name"))) arguments < need "tools/call" params)%nat.
Proof.
  intros arguments. unfold need at 2. rewrite String.eqb_refl.
  destruct params as [|kv params]; [exact (le_n 2)|]. set (ps := kv :: params) in *.
  assert (Ha : arguments = [] ∨ (any_depth (AObject arguments) < any_depth (AObject ps))%nat).
  { unfold arguments. pose proof (param_depth ps "arguments") as Hd. destruct (param ps "arguments"); auto. }
  unfold need. case_match; [|lia]. destruct Ha as [->|Ha]; [cbn; lia|]. destruct arguments; lia.
Qed.

(** The outcomes of the handlers are ends. *)
Lemma listed_ended w sid st r : (listed_ w sid st r).(di_out) ≠ NoFuel.
Proof. done. Qed.
Lemma proxied_ended w st sid wrap r : (proxied w st sid wrap r).(di_out) ≠ NoFuel.
Proof. unfold proxied. destruct r as [px [o [err|]]]; done. Qed.

Lemma dispatch_enough n m env w p ac method params status sid :
  (need method params <= n)%nat → (need method params <= m)%nat →
  let d := dispatch parse_rfc3339 n env w p ac method params status sid in
  d = dispatch parse_rfc3339 m env w p ac method params status sid ∧ d.(di_out) ≠ NoFuel.
Proof.
  revert m method params. induction n as [|n IH]; intros m method params Hn Hm.
  { exfalso. unfold need in Hn. destruct (method =s "tools/call"); [destruct params|]; lia. }
  destruct m as [|m]; [exfalso; unfold need in Hm; destruct (method =s "tools/call"); [destruct params|]; lia|].
  cbn [dispatch]. cbv zeta.
  destruct (method =s "initialize"); [destruct (CreateMCPSession _ _ _ _); done|].
  destruct (method =s "notifications/initialized"); [done|].
  destruct (method =s "tools/list"); [done|].
  destruct (String.eqb_spec method "tools/call") as [->|].
  { destruct (_ && _).
    { destruct (accessibleMCPServers _ _ _) as [servers [err|]]; [done|]. split; [done|]. apply proxied_ended. }
    destruct (splitKindMethod _).
    { destruct (handleDataObjectTool _ _ _ _ _ _ _) as [w' [r [err|]]]; done. }
    pose proof (need_arguments params) as Hlt. cbv zeta in Hlt.
    destruct (IH m (methodForToolName (AsString (param params "name")))
      (match param params "arguments" with AObject o => o | _ => [] end) ltac:(lia) ltac:(lia)) as [Heq Hne].
    rewrite <- Heq. split; [done|].
    destruct (di_out _) as [[r [err|]]| |] eqn:Ho; cbn; congruence. }
  destruct (method =s "resources/list"); [done|].
  destruct (method =s "resources/read").
  { destruct (accessibleMCPServers _ _ _) as [servers [err|]]; [done|]. destruct (negb _); [done|]. split; [done|]. apply proxied_ended. }
  destruct (method =s "prompts/list"); [done|].
  destruct (method =s "prompts/get").
  { destruct (accessibleMCPServers _ _ _) as [servers [err|]]; [done|]. destruct (negb _); [done|]. split; [done|]. apply proxied_ended. }
  destruct (method =s "knowledge.save"); [destruct (kn_Save _ _ _ _ _ _ _) as [[a k] [doc [err|]]]; done|].
  destruct (method =s "knowledge.get"); [destruct (kn_Get _ _ _ _ _) as [doc [err|]]; done|].
  destruct (method =s "knowledge.delete"); [destruct (kn_Delete _ _ _ _ _ _) as [[a k] [err|]]; done|].
  destruct (method =s "knowledge.search"); [destruct (kn_Search _ _ _ _ _ _ _) as [[hits [err|]]|]; done|].
  destruct (sContains adminMethods method); [destruct (ad_Call _ _ _ _ _ _ _) as [[a px] [v [err|]]]; done|].
  done.
Qed.

(** C25. A request always ends. Tool calls may name [tools/call] itself, so
    that a request runs through its nested arguments; it does so at most as
    deep as they are nested, whatever the services answer, and the bound the
    model uses does not show in the result. *)
Theorem dispatch_settles n env w p ac method params status sid :
  (any_depth (AObject params) + 2 <= n)%nat →
  let d := dispatch parse_rfc3339 n env w p ac method params status sid in
  d.(di_out) ≠ NoFuel
  ∧ d = dispatch parse_rfc3339 (any_depth (AObject params) + 2) env w p ac method params status sid.
Proof.
  intros Hn d. pose proof (need_bound method params) as Hb.
  destruct (dispatch_enough n (any_depth (AObject params) + 2) env w p ac method params status sid ltac:(lia) ltac:(lia)) as [Heq Hne].
  by split.
Qed.

(** ** Each request gets its one answer *)

Context (decode_one : string → option wireRequest) (decode_batch : string → option (list wireRequest)).
Context (decode_method : string → option string) (object_decode : string → option (list (string * Any))).

(** What a client is shown of a result: the session that [initialize] made
    goes into a header. *)
Definition shown (req : JSONRPCRequest) (result : option McpResult) : option McpResult :=
  match result with
  | Some (RInitialize version (Some id)) =>
      if (req.(Req_Method) =s "initialize") && (id <>s "") then Some (RInitialize version None) else result
  | _ => result
  end.

(** The answer to a request that ended with [r]. *)
Definition answer (req : JSONRPCRequest) (r : ret (option McpResult)) : JSONRPCResponse :=
  match r.2 with
  | Some err => mkJSONRPCResponse req.(Req_ID) None (Some (JSONRPCCode err, Error_text err))
  | None => mkJSONRPCResponse req.(Req_ID) (shown req r.1) None
  end.

(** The requests handled one after the other from [w] to [w'], the i-th in the
    world its predecessors left and in its own environment, with the answers:
    that of each request to its own outcome, and none to a notification. *)
Inductive exchange p ac : (nat → nat → Env) → World → list JSONRPCRequest → World → list JSONRPCResponse → Prop :=
| exchange_nil (env : nat → nat → Env) w : exchange p ac env w [] w []
| exchange_note (env : nat → nat → Env) w req w1 r reqs w' out : IsNotification req = true →
    handleRequest parse_rfc3339 (env 0) w p ac req = (w1, Done r) →
    exchange p ac (λ i, env (S i)) w1 reqs w' out → exchange p ac env w (req :: reqs) w' out
| exchange_call (env : nat → nat → Env) w req w1 r reqs w' out : IsNotification req = false →
    handleRequest parse_rfc3339 (env 0) w p ac req = (w1, Done r) →
    exchange p ac (λ i, env (S i)) w1 reqs w' out → exchange p ac env w (req :: reqs) w' (answer req r :: out).

(** Handling a request of the list panics, after those before it. *)
Inductive panics p ac : (nat → nat → Env) → World → list JSONRPCRequest → World → Prop :=
| panics_here (env : nat → nat → Env) w req reqs w' : handleRequest parse_rfc3339 (env 0) w p ac req = (w', Panic) → panics p ac env w (req :: reqs) w'
| panics_later (env : nat → nat → Env) w req w1 r reqs w' : handleRequest parse_rfc3339 (env 0) w p ac req = (w1, Done r) →
    panics p ac (λ i, env (S i)) w1 reqs w' → panics p ac env w (req :: reqs) w'.

Lemma handleRequest_ended env w p ac req : (handleRequest parse_rfc3339 env w p ac req).2 ≠ NoFuel.
Proof.
  assert (Hrun : ∀ w1 sid, (dispatch parse_rfc3339 (any_depth (AObject req.(Req_Params)) + 2) (λ i, env (3 + i)) w1 p ac
    req.(Req_Method) req.(Req_Params) "ok" sid).(di_out) ≠ NoFuel).
  { intros w1 sid. pose proof (need_bound req.(Req_Method) req.(Req_Params)) as Hb. by eapply dispatch_enough. }
  unfold handleRequest, recorded. cbv zeta. repeat case_match; try done; apply Hrun.
Qed.

(** One request: its outcome, and the answer unless it is a notification. *)
Lemma handleOne_outcome env w headers p ac req w' headers' out : handleOne parse_rfc3339 env w headers p ac req = (w', headers', out) →
  match handleRequest parse_rfc3339 env w p ac req with
  | (w1, Done r) => w1 = w' ∧ out = Some (if IsNotification req then None else Some (answer req r))
  | (w1, _) => w1 = w' ∧ out = None
  end.
Proof.
  unfold handleOne, HandleRequest. destruct (handleRequest _ _ _ _ _ _) as [w1 [[result [err|]]| |]]; cbn [fails].
  - intros [= <- <- <-]. split; [done|]. f_equal. destruct (IsNotification req) eqn:Hn; [done|].
    unfold NewErrorResponse, answer. cbn. apply orb_false_iff in Hn as [-> _]. done.
  - unfold ok. destruct (IsNotification req) eqn:Hn; [by intros [= <- <- <-]|]. cbn [Resp_Result Resp_ID Resp_Error NewResultResponse].
    unfold answer, shown. cbn [fst snd].
    destruct (req.(Req_Method) =s "initialize"); [|intros [= <- <- <-]; by repeat case_match].
    destruct result as [res|]; [|by intros [= <- <- <-]]. destruct res as [version [id|]| | | | | | | | | | |];
      try (by intros [= <- <- <-]). cbn [andb]. destruct (id =s "") eqn:Hid; cbn [negb]; by intros [= <- <- <-].
  - by intros [= <- <- <-].
  - by intros [= <- <- <-].
Qed.

Lemma handleAll_outcome (env : nat → nat → Env) w headers p ac reqs w' headers' out :
  handleAll parse_rfc3339 env w headers p ac reqs = (w', headers', out) →
  match out with Some out => exchange p ac env w reqs w' out | None => panics p ac env w reqs w' end.
Proof.
  revert env w headers out. induction reqs as [|req reqs IH]; intros env w headers out; cbn [handleAll].
  { intros [= <- _ <-]. constructor. }
  destruct (handleOne _ _ _ _ _ _ _) as [[w1 h1] o] eqn:Ho. apply handleOne_outcome in Ho.
  pose proof (handleRequest_ended (env 0) w p ac req) as Hend.
  destruct (handleRequest _ _ _ _ _ _) as [w2 [r| |]] eqn:Hr; [| |done]; destruct Ho as [-> ->].
  - destruct (handleAll _ _ _ _ _ _ reqs) as [[w3 h3] [out'|]] eqn:Ha; intros [= <- <- <-]; apply IH in Ha.
    + destruct (IsNotification req) eqn:Hn; [by eapply exchange_note|by eapply exchange_call].
    + by eapply panics_later.
  - intros [= <- <- <-]. by apply panics_here.
Qed.

(** What the request itself must be. *)
Definition acceptable_types r : Prop := accepts r "application/json" || accepts r "text/event-stream" || accepts r "*/*" = true.
Definition own_session t w p r : Prop :=
  r.(hr_session) = "" ∨ ∃ sess, GetMCPSession t w.(w_sessions) r.(hr_session) = (sess, true)
    ∧ SubjectKeyForPrincipal sess.(Session_Principal) = SubjectKeyForPrincipal p.

Lemma own_session_spec t w p r :
  own_session t w p r ↔ (if r.(hr_session) =s "" then None else authorizedSession t w p r.(hr_session)) = None.
Proof.
  unfold own_session. destruct (String.eqb_spec r.(hr_session) ""); [tauto|]. unfold authorizedSession.
  destruct (GetMCPSession _ _ _) as [sess [|]]; [|naive_solver].
  destruct (String.eqb_spec (SubjectKeyForPrincipal sess.(Session_Principal)) (SubjectKeyForPrincipal p)); naive_solver.
Qed.

(** C14. Over HTTP the requests of a body are handled one after the other, each
    in the world the ones before it left, and each gets exactly one answer, in
    order, under its own identifier and with its own outcome: the result it
    ended with (less the session that [initialize] made, which goes into a
    header), or the error it failed with and the code of that error.
    Notifications are handled and get none. The status is then 200, and 202
    when there is nothing to answer. No reply comes only when handling one of
    the requests panicked. A caller that accepts neither JSON nor an event
    stream is answered with 406, a session that is not the caller's with 403
    or 404, a body that cannot be read or is not understood once with a parse
    or request error and status 400; none of these changes anything. *)
Theorem rpc_replies t (env : nat → nat → Env) w p ac r :
  let '(w', reply) := handlePost parse_rfc3339 decode_one decode_batch decode_method object_decode t env w (Some p) ac r in
  (¬ acceptable_types r → w' = w ∧ ∃ rep, reply = Some rep ∧ rep.(re_status) = 406%Z)
  ∧ (acceptable_types r → ¬ own_session t w p r → w' = w ∧ ∃ rep, reply = Some rep ∧ rep.(re_status) ∈ [403; 404]%Z)
  ∧ (acceptable_types r → own_session t w p r →
      match r.(hr_body) with
      | None => w' = w ∧ ∃ rep, reply = Some rep ∧ rep.(re_status) = 400%Z
          ∧ rep.(re_body) = BOne (NewErrorResponse "" (-32700) "parse error")
      | Some raw =>
          match readPayload decode_one decode_batch object_decode raw with
          | inr bad => w' = w ∧ (∃ rep, reply = Some rep ∧ rep.(re_status) = 400%Z ∧ rep.(re_body) = responsesPayload raw [bad])
              ∧ Resp_Error bad ∈ [Some (-32700, "parse error"); Some (-32600, "invalid request")]%Z
          | inl reqs =>
              match reply with
              | Some rep => ∃ responses, exchange p ac env w reqs w' responses
                  ∧ rep.(re_status) = (if bool_decide (responses = []) then 202 else 200)%Z
                  ∧ rep.(re_body) = (if bool_decide (responses = []) then BNone else responsesPayload raw responses)
              | None => panics p ac env w reqs w'
              end
          end
      end).
Proof.
  unfold handlePost. rewrite <- !negb_orb.
  destruct (accepts r "application/json" || accepts r "text/event-stream" || accepts r "*/*") eqn:Hacc; cbn [negb].
  2: { split; [by eauto|]. by split; intros Ha; unfold acceptable_types in Ha; rewrite Hacc in Ha. }
  pose proof (own_session_spec t w p r) as Hown.
  destruct (if r.(hr_session) =s "" then None else _) as [bad|] eqn:Hs.
  { split; [by intros []|]. split; [|by intros _ ?%Hown]. intros _ _. split; [done|]. eexists. split; [done|].
    destruct (r.(hr_session) =s ""); [done|]. revert Hs. unfold authorizedSession.
    destruct (GetMCPSession _ _ _) as [sess [|]]; [case_match; [|done]|]; intros [= <-]; cbn; set_solver. }
  destruct r.(hr_body) as [raw|]; [|split; [by intros []|]; split; [by intros _ []; apply Hown|by eauto 7]].
  unfold answerPayload. destruct (readPayload _ _ _ _) as [reqs|bad] eqn:Hread.
  - destruct (handleAll _ _ _ _ _ _ reqs) as [[w1 h1] [out|]] eqn:Ha; apply handleAll_outcome in Ha.
    + destruct out as [|resp out]; (split; [by intros []|]; split; [by intros _ []; apply Hown|]); intros _ _; eexists;
        (split; [exact Ha|]); [by rewrite !bool_decide_true|by rewrite !bool_decide_false].
    + split; [by intros []|]. split; [by intros _ []; apply Hown|]. done.
  - split; [by intros []|]. split; [by intros _ []; apply Hown|]. intros _ _. split; [done|]. split; [by eauto|].
    revert Hread. unfold readPayload. repeat case_match; intros [= <-]; cbn; set_solver.
Qed.
End Server.

(** ** The data plane changes only where access is given *)

Section Gate.
Context {A : Type} `{!ObjectAccess A}.

(** The rules give the caller the method on the object. *)
Definition granted (a : A) (p : Principal) (ac : APIAccessContext) (objectID method : string) (obj : DataObject) : Prop :=
  oa_GetObject a objectID = ok (Some obj) ∧ HasMethod obj.(DataObject_Kind) method = true
  ∧ ∃ eff, oa_CanAccessObject a p ac.(APIAccessContext_AccessToken) (bridgedScopes ac) objectID method = ok (eff, true).

Lemma Open_granted e a p ac objectID method a' sc err :
  Open e (Some a) None p ac objectID method = (a', (Some sc, err)) →
  err = None ∧ a' = Some a ∧ sc.(Scope_tx) = None ∧ granted a p ac objectID method sc.(Scope_Object).
Proof.
  unfold Open, granted. destruct (oa_GetObject a objectID) as [[obj|] [e1|]]; try done.
  destruct (HasMethod obj.(DataObject_Kind) method) eqn:Hm; [|done]. cbn [negb].
  destruct (oa_CanAccessObject _ _ _ _ _ _) as [[eff [|]] [e2|]] eqn:Hc; try done.
  intros [= <- <- <-]. split_and!; [done..|]. by exists eff.
Qed.
End Gate.

(** The data services behind the interface of the server. *)
Section Data.
Context `{!GoRange, !KindDB, !BusDB, !SecureBusDB, !Signatures} {KA Q R L G : Type}.
Context `{!Kafka KA, !AMQP Q, !TimeSeries R, !KeyLookup L, !Git G}.
Context (map_json : gmap string Any → string) (json_map : string → gmap string Any) (ParseDuration : string → ret Duration).
Context (quote : string → string) (rfc3339 : Time → string) (any_json : Any → option string).
Context (document_parse : string → Document + error) (condition_decode : gmap string Any → Condition + error).
Context (b64url_decode b64std_decode : string → option string) (graceSeconds : Z) (unicode_lower : Z → Z).

Definition services_DataAPI : DataAPI (DataServices (K := KA) (Q := Q) (R := R) (L := L) (G := G)) :=
  runData map_json json_map ParseDuration quote rfc3339 any_json document_parse condition_decode b64url_decode b64std_decode
    graceSeconds unicode_lower.
End Data.

Section Confined.
Context `{!SessionRedis, !Codec Session, !Codec WebSession, !Codec (list string), !GoRange}.
Context {A K U P : Type} `{!ObjectAccess A, !AccessAPI A, !KnowledgeAPI A K, !UsageAPI U, !ProxyAPI P, !AdminAPI A P}.
Context (parse_rfc3339 : string → Time).
Context `{!KindDB, !BusDB, !SecureBusDB, !Signatures} {KA Q R L B : Type}.
Context `{!Kafka KA, !AMQP Q, !TimeSeries R, !KeyLookup L, !GitBlob B, !RepoCodec}.
Context (map_json : gmap string Any → string) (json_map : string → gmap string Any) (ParseDuration : string → ret Duration).
Context (quote : string → string) (rfc3339 : Time → string) (any_json : Any → option string).
Context (document_parse : string → Document + error) (condition_decode : gmap string Any → Condition + error).
Context (b64url_decode b64std_decode : string → option string) (graceSeconds : Z) (unicode_lower : Z → Z).
Context (rfc3339nano : Time → string) (scope_commit : Env → Scope → option error).

#[local] Instance confined_git : Git (GitService B) := gitstore_Git rfc3339nano scope_commit.
#[local] Instance confined_data : DataAPI (DataServices (K := KA) (Q := Q) (R := R) (L := L) (G := GitService B)) :=
  services_DataAPI map_json json_map ParseDuration quote rfc3339 any_json document_parse condition_decode b64url_decode b64std_decode
    graceSeconds unicode_lower.
#[local] Abbreviation W := (World (A := A) (K := K) (U := U) (P := P)
  (D := DataServices (K := KA) (Q := Q) (R := R) (L := L) (G := GitService B))).
Implicit Types (w : W) (p : Principal) (ac : APIAccessContext) (env : nat → Env).

(** Nothing changed, or something of one object on which a method was given:
    its value, counter, log, queue, topic or schedule, and its repository. *)
Definition confined p ac w w' : Prop :=
  w'.(w_data) = w.(w_data)
  ∨ ∃ objectID method sc, granted w.(w_access) p ac objectID method sc.(Scope_Object)
      ∧ elsewhere (scope_id sc) w.(w_data) w'.(w_data)
      ∧ git_elsewhere sc w.(w_data).(dp_Git) w'.(w_data).(dp_Git).

(** The repositories after an operation on the scope. *)
Lemma runData_git_elsewhere e (d : DataServices (K := KA) (Q := Q) (R := R) (L := L) (G := GitService B)) sc c : blob_frame_law (B := B) →
  git_elsewhere sc d.(dp_Git) (da_run e d sc c).1.(dp_Git).
Proof.
  intros Hlaw. unfold da_run, confined_data, services_DataAPI.
  destruct (runData_git map_json json_map ParseDuration quote rfc3339 any_json document_parse condition_decode
    b64url_decode b64std_decode graceSeconds unicode_lower e d sc c) as [->|(method & args & ->)].
  - apply git_elsewhere_refl.
  - by apply gitstore_frame.
Qed.

Context (Hblob : blob_frame_law (B := B)).

Lemma handleDataObjectTool_confined env w p ac toolName params : w.(w_pool) = None → all_memory w.(w_data) →
  confined p ac w (handleDataObjectTool parse_rfc3339 env w p ac toolName params).1.
Proof.
  intros Hpool Hmem. unfold handleDataObjectTool. destruct (splitKindMethod toolName) as [[kind method]|]; [|by left].
  destruct (negb _); [by left|]. rewrite Hpool.
  destruct (Open _ _ _ _ _ _ _) as [a [[sc|] [err|]]] eqn:Ho; [| | |]; try by left.
  destruct (dataCall _ _ _ _ _ _) as [c|]; [|by left].
  apply Open_granted in Ho as (_ & _ & Htx & Hg). right.
  eexists _, _, _. split; [exact Hg|]. pose proof (runData_git_elsewhere (env 1) w.(w_data) sc c Hblob) as Hgit.
  pose proof (runData_frame map_json json_map ParseDuration quote rfc3339 any_json document_parse condition_decode
    b64url_decode b64std_decode graceSeconds unicode_lower (env 1) w.(w_data) sc c Htx Hmem) as Hf.
  unfold da_run, confined_data, services_DataAPI in *. cbn [w_data].
  destruct (runData _ _ _ _ _ _ _ _ _ _ _ _ _ _ _ _) as [d [res [err|]]]; exact (conj Hf Hgit).
Qed.

Lemma proxied_data w status sid wrap r : (proxied w status sid wrap r).(di_world).(w_data) = w.(w_data).
Proof. unfold proxied. destruct r as [px [o [err|]]]; done. Qed.

Lemma dispatch_confined n env w p ac method params status sid : w.(w_pool) = None → all_memory w.(w_data) →
  confined p ac w (dispatch parse_rfc3339 n env w p ac method params status sid).(di_world).
Proof.
  intros Hpool Hmem. revert method params. induction n as [|n IH]; intros method params; [by left|].
  cbn [dispatch]. cbv zeta.
  destruct (method =s "initialize"); [destruct (CreateMCPSession _ _ _ _); by left|].
  destruct (method =s "notifications/initialized"); [by left|].
  destruct (method =s "tools/list"); [by left|].
  destruct (method =s "tools/call").
  { destruct (_ && _).
    { destruct (accessibleMCPServers _ _ _) as [servers [err|]]; [by left|]. left. apply proxied_data. }
    destruct (splitKindMethod _).
    { pose proof (handleDataObjectTool_confined env w p ac (AsString (param params "name"))
        (match param params "arguments" with AObject o => o | _ => [] end) Hpool Hmem) as Hc.
      destruct (handleDataObjectTool _ _ _ _ _ _ _) as [w' [r [err|]]]; exact Hc. }
    pose proof (IH (methodForToolName (AsString (param params "name")))
      (match param params "arguments" with AObject o => o | _ => [] end)) as Hd.
    destruct (di_out _) as [[r [err|]]| |]; exact Hd. }
  destruct (method =s "resources/list"); [by left|].
  destruct (method =s "resources/read").
  { destruct (accessibleMCPServers _ _ _) as [servers [err|]]; [by left|]. destruct (negb _); [by left|]. left. apply proxied_data. }
  destruct (method =s "prompts/list"); [by left|].
  destruct (method =s "prompts/get").
  { destruct (accessibleMCPServers _ _ _) as [servers [err|]]; [by left|]. destruct (negb _); [by left|]. left. apply proxied_data. }
  destruct (method =s "knowledge.save"); [destruct (kn_Save _ _ _ _ _ _ _) as [[a k] [doc [err|]]]; by left|].
  destruct (method =s "knowledge.get"); [destruct (kn_Get _ _ _ _ _) as [doc [err|]]; by left|].
  destruct (method =s "knowledge.delete"); [destruct (kn_Delete _ _ _ _ _ _) as [[a k] [err|]]; by left|].
  destruct (method =s "knowledge.search"); [destruct (kn_Search _ _ _ _ _ _ _) as [[hits [err|]]|]; by left|].
  destruct (sContains adminMethods method); [destruct (ad_Call _ _ _ _ _ _ _) as [[a px] [v [err|]]]; by left|].
  by left.
Qed.

End Confined.
