(* ===== verification/McpServer.v ===== *)
(** The MCP server with the services [cmd/server/main.go] gives it: the
    interfaces of [Mcp] implemented by the components of the development. *)
From S2P Require Import Prelude GoStrings Models DataObj AccessState AccessObjects AccessService PolicyScope Usage Proxy ProxyStore ProxyManager Documents Ingest Knowledge McpAdmin Mcp.
From Stdlib Require Import Ascii.

Section Services.
Context `{Postgres, ProxyDB, Upstream, AEAD, Redis, S3, GoRange}.
Context {C V J : Type} `{!Catalog C, !VectorStore V, !JobStore J}.
Context (unicode_lower : Z → Z) (headers_decode : string → option (gmap string string)).
Context (json_marshal : Any → option string) (request_ok : string → bool).
Context (rpc_decode : string → RPCResponse + error) (object_decode : string → list (string * Any) + error).
Context (proxyCfg : MCPProxyConfig) (parse_request_uri : string → option error).
Context (pipelineCfg : PipelineConfig) (s3Bucket : string) (worker : option Z) (llm : LLM).

Definition access_AccessAPI : AccessAPI Store := {|
  aa_AvailableStorages := AvailableStorages;
  aa_AvailableObjects := AvailableObjects
|}.

(** The service keeps the access store it is given. *)
Definition knowledge_KnowledgeAPI : KnowledgeAPI Store (PState C V J) := {|
  kn_Save env e a k p ac inp :=
    let '(s, r) := KSave parse_request_uri pipelineCfg s3Bucket env e (mkKState a k) p ac inp in
    (s.(k_access), s.(k_docs), r);
  kn_Get a k p ac id := KGet (mkKState a k) p ac id;
  kn_Delete e a k p ac id :=
    let '(s, r) := KDelete worker e (mkKState a k) p ac id in
    (s.(k_access), s.(k_docs), r);
  kn_Search e a k p ac req allowPartial := KSearch unicode_lower e llm (mkKState a k) p ac req allowPartial
|}.

Definition usage_UsageAPI : UsageAPI Service := {|
  us_Allow e s token storageID := Allow (now e) s token storageID;
  us_Record e s event := Record_ (now e 0) s event
|}.

(** Without a manager nothing of the proxy is called. *)
Definition proxy_ProxyAPI : ProxyAPI (option Manager) := {|
  pa_Enabled px := match px with Some _ => proxyCfg.(mp_Enabled) | None => false end;
  pa_Available px p token scopes := AvailableMCPServers (mg_store <$> px) p token scopes;
  pa_Exposed px servers := match px with Some m => ExposedForAccess m servers | None => mkExposed [] [] [] end;
  pa_CallTool e px name arguments servers :=
    match px with
    | Some m => let '(m, r) := CallTool unicode_lower headers_decode json_marshal request_ok rpc_decode object_decode proxyCfg
                                 e m name arguments servers in (Some m, r)
    | None => (None, ok [])
    end;
  pa_ReadResource e px uri servers :=
    match px with
    | Some m => let '(m, r) := ReadResource unicode_lower headers_decode json_marshal request_ok rpc_decode object_decode proxyCfg
                                 e m uri servers in (Some m, r)
    | None => (None, ok [])
    end;
  pa_GetPrompt e px name arguments servers :=
    match px with
    | Some m => let '(m, r) := GetPrompt unicode_lower headers_decode json_marshal request_ok rpc_decode object_decode proxyCfg
                                 e m name arguments servers in (Some m, r)
    | None => (None, ok [])
    end
|}.

Definition admin_AdminAPI : AdminAPI Store (option Manager) := {|
  ad_Tools := buildAdminTools;
  ad_Call := handleAdminTool unicode_lower headers_decode json_marshal request_ok rpc_decode object_decode proxyCfg
|}.
End Services.
