(* ===== verification/McpServerProps.v ===== *)
(** The server of [McpServer] at work: runs of whole requests through all the
    components, and what the interplay of dispatch and arguments gives. *)
From S2P Require Import Prelude GoStrings Models DataObj AccessState AccessObjects AccessService AccessProps PolicyScope Usage UsageProps Proxy ProxyStore ProxyManager ProxyProps AgentKeys Bus Kinds KindProps SecureBus SecureBusProps Tables DataPlane GitStore Documents Ingest Knowledge KnowledgeProps Sessions McpAdmin Mcp McpProps McpServer.
From Stdlib Require Import Ascii Floats.SpecFloat.

Section Witnesses.
#[local] Existing Instances no_postgres canonical_range wp_db wp_net wp_aead UsageProps.no_redis wd_s3 wd_catalog wd_vectors.
#[local] Existing Instances no_kind_db no_amqp no_timeseries no_bus_db wb_db wb_sigs wb_lookup.
#[local] Existing Instances Sessions.no_redis Sessions.no_codec.
#[local] Instance ws_jobs : JobStore InMemoryJobStore := InMemory_JobStore (λ s, s).
(** Repositories in a blob store that keeps every document. *)
#[local] Instance ws_blob : GitBlob (gmap string string) := {| gb_put := λ k v b, (<[k := v]> b, None); gb_get := λ k b, ok (b !! k) |}.
#[local] Instance ws_codec : RepoCodec := {| repo_json := λ st, r_Head st; repo_decode := λ raw st, st <| r_Head := raw |> |}.
#[local] Instance ws_git : Git (GitService (gmap string string)) := gitstore_Git (λ _, "") (λ _ _, None).
Lemma ws_blob_law : blob_frame_law (B := gmap string string).
Proof. intros key key' raw b Hne. cbn. by rewrite lookup_insert_ne. Qed.
#[local] Instance ws_objects : ObjectAccess Store := access_ObjectAccess (λ r, r).
#[local] Instance ws_access : AccessAPI Store := access_AccessAPI.
#[local] Instance ws_knowledge : KnowledgeAPI Store (PState DocStore VecStore InMemoryJobStore) :=
  knowledge_KnowledgeAPI (λ r, r) (λ _, None) wd_cfg "" None wd_llm.
#[local] Instance ws_usage : UsageAPI Service := usage_UsageAPI.
#[local] Instance ws_proxy : ProxyAPI (option Manager) :=
  proxy_ProxyAPI (λ r, r) (λ _, None) (λ _, None) (λ _, true) (λ _, inl (mkRPCResponse None "")) (λ _, inl []) wp_cfg.
#[local] Instance ws_admin : AdminAPI Store (option Manager) :=
  admin_AdminAPI (λ r, r) (λ _, None) (λ _, None) (λ _, true) (λ _, inl (mkRPCResponse None "")) (λ _, inl []) wp_cfg.

Abbreviation Data := (DataServices (K := KafkaClient) (Q := unit) (R := unit) (L := gmap string AgentKey) (G := GitService (gmap string string))).
#[local] Instance ws_data : DataAPI Data :=
  services_DataAPI (λ _, "") (λ _, ∅) (λ _, ok 0%Z) (λ s, s) (λ _, "") (λ _, None) (λ _, inl wb_doc) (λ _, inl wb_cond)
    (λ _, None) (λ _, None) 0 (λ r, r).

Definition ws_services : Data :=
  mkDataServices (mkVariableService ∅ w_kdb) (mkCounterService (R := unit) ∅ None "" w_kdb) (mkLogService ∅ w_kdb)
    w_queue (mkBusService ∅ ∅ None tt) None wb_keys (mkScheduleService ∅ ∅ w_kdb) w_kdb (NewGitService (Some (∅ : gmap string string))).

(** A store with one queue that the caller may write. *)
Definition ws_store : Store :=
  (w_store None) <| s_objects := {[ "q" := w_object ]} |>
    <| s_objectACL := {[ "b2" := (zeroval : ObjectACLBinding) <| ObjectACLBinding_ObjectID := "q" |>
         <| ObjectACLBinding_SubjectKey := "user:internal:u" |> <| ObjectACLBinding_Role := RoleStorageWriter |> ]} |>.

Definition ws_world : World :=
  mkWorld (NewSessionStore None "" 24) ws_store wd_s0.(k_docs) (UsageProps.w_usage ∅) (None : option Manager) ws_services None.

Definition ws_env : nat → Env := λ _, w_env.
Definition ws_call (name : string) (arguments : list (string * Any)) : list (string * Any) :=
  [("name", AString name); ("arguments", AObject arguments)].
Definition ws_enqueue : list (string * Any) :=
  ws_call "queue_enqueue" [("objectId", AString "q"); ("payload", AObject [("n", AString "x")])].
Definition ws_request (method : string) (params : list (string * Any)) : JSONRPCRequest := mkJSONRPCRequest "2.0" "1" method params.

Definition ws_run (request : JSONRPCRequest) := handleRequest (λ _, 0%Z) ws_env ws_world w_principal zeroval request.

(** A call of [tools/call] inside a call of [tools/call] ends. *)
Lemma dispatch_settles_witness :
  let d := dispatch (λ _, 0%Z) 9 ws_env ws_world w_principal zeroval "tools/call" (ws_call "tools/call" ws_enqueue) "ok" "" in
  d.(di_out) ≠ NoFuel ∧ d.(di_status) = "ok".
Proof.
  pose proof (dispatch_settles (λ _, 0%Z) 9 ws_env ws_world w_principal zeroval "tools/call" (ws_call "tools/call" ws_enqueue) "ok" "") as Hd.
  split; [|vm_compute; reflexivity]. apply Hd. vm_compute. lia.
Defined.

(** The same store with a repository beside the queue. *)
Definition ws_repo : DataObject := w_object <| DataObject_ID := "g" |> <| DataObject_Kind := ObjectKindGit |>.
Definition ws_git_world : World :=
  mkWorld (NewSessionStore None "" 24)
    (ws_store <| s_objects := <["g" := ws_repo]> ws_store.(s_objects) |>
       <| s_objectACL := <["b3" := (zeroval : ObjectACLBinding) <| ObjectACLBinding_ObjectID := "g" |>
            <| ObjectACLBinding_SubjectKey := "user:internal:u" |> <| ObjectACLBinding_Role := RoleStorageWriter |> ]> ws_store.(s_objectACL) |>)
    wd_s0.(k_docs) (UsageProps.w_usage ∅) (None : option Manager) ws_services None.
Definition ws_git_run (request : JSONRPCRequest) := handleRequest (λ _, 0%Z) ws_env ws_git_world w_principal zeroval request.
Definition ws_add : list (string * Any) :=
  ws_call "git_add" [("objectId", AString "g"); ("args", AObject [("path", AString "a.txt"); ("content", AString "one")])].


(** A batch of a call, a notification and a call that fails. *)
Definition ws_decode (raw : string) : option (list wireRequest) :=
  Some [mkWireRequest "2.0" "7" "tools/list" ""; mkWireRequest "2.0" "" "notifications/initialized" "";
        mkWireRequest "2.0" "8" "unknown" ""].
Definition ws_http : HandlerRequest := mkHandlerRequest ["application/json"] "" "" (Some "[...]").
Definition ws_post := handlePost (λ _, 0%Z) (λ _, None) ws_decode (λ _, None) (λ _, None) 0 (λ _, ws_env) ws_world (Some w_principal) zeroval ws_http.

Lemma rpc_replies_witness : ∃ reply tools, ws_post.2 = Some reply ∧ reply.(re_status) = 200%Z
  ∧ reply.(re_body) = BMany [mkJSONRPCResponse "7" (Some tools) None;
                             mkJSONRPCResponse "8" None (Some (JSONRPCCode ErrUnknownMethod, Error_text ErrUnknownMethod))]
  ∧ ∃ responses, exchange (λ _, 0%Z) w_principal zeroval (λ _, ws_env) ws_world
      [mkJSONRPCRequest "2.0" "7" "tools/list" []; mkJSONRPCRequest "2.0" "" "notifications/initialized" [];
       mkJSONRPCRequest "2.0" "8" "unknown" []] ws_post.1 responses
    ∧ reply.(re_body) = BMany responses.
Proof.
  assert (Hr : ∃ reply tools, ws_post.2 = Some reply ∧ reply.(re_status) = 200%Z
    ∧ reply.(re_body) = BMany [mkJSONRPCResponse "7" (Some tools) None;
        mkJSONRPCResponse "8" None (Some (JSONRPCCode ErrUnknownMethod, Error_text ErrUnknownMethod))])
    by (eexists _, _; split_and!; vm_compute; reflexivity).
  destruct Hr as (reply & tools & Hr & Hst & Hbody). exists reply, tools. split_and!; [done..|].
  pose proof (rpc_replies (λ _, 0%Z) (λ _, None) ws_decode (λ _, None) (λ _, None) 0 (λ _, ws_env) ws_world w_principal zeroval ws_http)
    as Hreply. fold ws_post in Hreply. destruct ws_post as [w' rep]. cbn [snd] in Hr. subst rep.
  destruct Hreply as (_ & _ & Hok). destruct (Hok eq_refl (or_introl eq_refl)) as (responses & Hex & Hst' & Hb).
  exists responses. split; [exact Hex|]. destruct responses; [by rewrite bool_decide_true in Hst'; [rewrite Hst in Hst'|]|exact Hb].
Defined.

(** The storage of a tool call is not read from its arguments: a document
    saved through [tools/call] with the required argument [storageId] goes to
    the storage of the outer parameters, and without one to the caller's
    personal storage. *)
Lemma tool_storage_ignored :
  let save arguments := ws_request "tools/call" (ws_call "knowledge_save" arguments) in
  let args := [("title", AString "T"); ("text", AString "x")] in
  match (ws_run (save (("storageId", AString "st") :: args))).2, (ws_run (save args)).2 with
  | Done (Some (RText (RDocument d)), None), Done (Some (RText (RDocument d')), None) =>
      d = d' ∧ d.(DocumentRecord_StorageID) ≠ "st"
  | _, _ => False
  end.
Proof. vm_compute. split; [reflexivity|discriminate]. Qed.
End Witnesses.
