(* ===== verification/HttpObjects.v ===== *)
(** [internal/httpapi/data_objects_handler.go]: data objects over HTTP, and
    the long poll of [internal/schedule/service.go].

    A handler gets what [ServeMux] took from the path: [{id}] and [{method}].
    Decoding bodies and numbers is a parameter. The two streaming branches
    ([subscribe]) are modelled up to the point where the stream begins, and
    the smart HTTP protocol of git is a parameter. *)
From S2P Require Import Prelude GoStrings Models DataObj AccessState AccessObjects AccessService PolicyScope AgentKeys Bus Kinds SecureBus Tables DataPlane.
From Stdlib Require Import Ascii Floats.SpecFloat.

(** ** Requests and replies *)

Record ObjReq := mkObjReq {
  or_method : string;                        (* the HTTP method *)
  or_path : string;
  or_id : string;
  or_name : string;                          (* [{method}], [{service}] *)
  or_query : list (string * list string);
  or_body : string
}.

(** [r.URL.Query().Get(k)] *)
Definition queryGet (r : ObjReq) (k : string) : string :=
  match List.find (λ kv, kv.1 =s k) r.(or_query) with Some (_, v :: _) => v | _ => "" end.

Inductive ObjBody :=
| OText (s : string)                         (* [http.Error] *)
| OObjects (l : list DataObject)
| OObject (o : DataObject)
| ODeleted
| OACL (l : list ObjectACLBinding)
| OBinding (b : ObjectACLBinding)
| OPolicy (p : SignedPolicy)
| OData (r : DataResult)
| OHint
| OEmpty                                     (* [{"empty": true}] *)
| ODelivery (d : Delivery)
| OGit (contentType body : string)
| OStream
| ONone.

Record ObjReply := mkObjReply { orp_status : Z; orp_body : ObjBody }.

Definition http_Error (text : string) (status : Z) : ObjReply := mkObjReply status (OText text).
Definition unauthorized : ObjReply := http_Error "unauthorized" 401.

(** What the bodies decode to. *)
Record createObjectRequest := mkCreateObjectRequest {
  cor_kind : string; cor_slug : string; cor_name : string; cor_backend : string; cor_config : option (gmap string Any)
}.
Record patchObjectRequest := mkPatchObjectRequest { por_config : gmap string Any; por_name : string }.

(** ** Errors *)

Definition errNotFound : error := Sentinel "httpapi" "not found".

Definition statusFromErr (err : error) : Z := HTTPStatus err.

Definition statusFromPolicy (err : error) : Z :=
  if errors_Is err policy.ErrForbidden || errors_Is err ErrForbiddenByPolicy || errors_Is err ErrKeyNotAllowed then 403
  else if errors_Is err policy.ErrObjectNotFound || errors_Is err errNotFound || errors_Is err securebus_ErrNotFound then 404
  else 400.

(** ** [schedule.Service.Wait] *)

(** [polls]: the environments of the polls there is time for before the
    context is done; [None] when it is. *)
Fixpoint Wait {S X} (poll : Env → S → S * ret (option X)) (polls : list Env) (s : S) : S * option (ret (option X)) :=
  match polls with
  | [] => (s, None)
  | e :: polls' =>
      match poll e s with
      | (s, (_, Some err)) => (s, Some (fails None err))
      | (s, (Some d, None)) => (s, Some (ok (Some d)))
      | (s, (None, None)) => Wait poll polls' s
      end
  end.

(** ** Arguments *)

Definition asStringParam (v : Any) : string := match v with AString s => TrimSpace s | _ => "" end.

Section Handler.
Context `{!Postgres, !KindDB, !BusDB, !SecureBusDB, !Signatures, !GoRange} {K Q R L G : Type}.
Context `{!Kafka K, !AMQP Q, !TimeSeries R, !KeyLookup L, !Git G}.
Context (map_json : gmap string Any → string) (json_map : string → gmap string Any) (ParseDuration : string → ret Duration).
Context (quote : string → string) (rfc3339 : Time → string) (any_json : Any → option string).
Context (document_parse : string → Document + error) (condition_decode : gmap string Any → Condition + error).
Context (b64url_decode b64std_decode : string → option string) (graceSeconds : Z) (unicode_lower : Z → Z).
(** [strconv.ParseFloat] without its error; [time.Parse] likewise. *)
Context (ParseFloat : string → float64) (parse_rfc3339 : string → Time).
Context (decode_params : string → list (string * Any)) (decode_create : string → createObjectRequest + error).
Context (decode_patch : string → patchObjectRequest + error) (decode_acl : string → ObjectACLBinding + error).
Context (decode_document : string → Document + error) (document_json : Document → Any).
Context (ed25519_sign : string → string → string) (signer : option PolicySigner).
(** [SmartHTTP] and [InfoRefs] of the git store: content type and body. *)
Context (git_http : Env → G → Scope → string → string → G * ret (string * string)).

#[local] Instance handler_oa : ObjectAccess Store := access_ObjectAccess unicode_lower.
Abbreviation Services := (DataServices (K := K) (Q := Q) (R := R) (L := L) (G := G)).

Record ObjWorld := mkObjWorld { ow_access : Store; ow_data : Services; ow_pool : option Pool }.
#[export] Instance settable_ObjWorld : Settable ObjWorld := λ w, mkObjWorld w.(ow_access) w.(ow_data) w.(ow_pool).
Implicit Types (w : ObjWorld) (r : ObjReq) (p : Principal) (ac : APIAccessContext) (env : nat → Env).

Definition asFloatParam (v : Any) : float64 :=
  match v with AFloat f => f | AInt z => f_of_Z z | AString s => ParseFloat s | _ => f_zero end.

Definition openObject (e : Env) w p ac (id method : string) : ObjWorld * ret (option Scope) :=
  let '(a, sc) := Open e (Some w.(ow_access)) w.(ow_pool) p ac id method in
  (w <| ow_access := default w.(ow_access) a |>, sc).

(** ** Calls *)

(** [dispatchSecureBus] without its subscription; [None] at its end. *)
Definition httpSecureBusCall (subject tokenID method : string) (params : list (string * Any)) : option DataCall :=
  let str k := asStringParam (param params k) in
  let num k := f_to_int (asFloatParam (param params k)) in
  if method =s "policy" then Some (CallPolicy (num "version"))
  else if method =s "publish" then
    Some (CallPublish (mkPublishInput (str "keyId") subject tokenID (num "policyVersion") (str "policyHash") (str "nonce")
      (parse_rfc3339 (str "createdAt")) (asMap (param params "payload")) (str "signature") (str "prevHash")))
  else if method =s "attest" then
    Some (CallAttest (mkAttestInput (str "keyId") subject tokenID (num "messageId") (num "policyVersion") (str "status")
      (str "comment") (parse_rfc3339 (str "createdAt")) (str "signature")))
  else if method =s "verify" then Some (CallVerify (num "messageId"))
  else if method =s "keys" then Some CallKeys
  else if method =s "consume" then
    Some (CallSBConsume (str "consumer") (str "condition") (asMap (param params "filter")) (num "max"))
  else None.

(** The switch of [dispatch]. *)
Definition httpCall (subject tokenID : string) (kind : ObjectKind) (method : string) (params : list (string * Any)) : option DataCall :=
  let str k := AsString (param params k) in
  let num k := asFloatParam (param params k) in
  let map_ k := asMap (param params k) in
  if kind =s ObjectKindVariable then
    Some (if method =s "set" then CallVariableSet (str "name") (str "prefix") (map_ "payload")
          else CallVariableGet (str "name") (str "prefix"))
  else if kind =s ObjectKindCounter then
    if method =s "set" then Some (CallCounterSet (num "value"))
    else if method =s "get" then Some CallCounterGet
    else if method =s "increase" then Some (CallCounterIncrease (num "delta"))
    else if method =s "decrease" then Some (CallCounterDecrease (num "delta"))
    else None
  else if kind =s ObjectKindLog then
    Some (if method =s "add" then CallLogAdd (str "level") (str "message") (map_ "fields") else CallLogTail (f_to_int (num "limit")))
  else if kind =s ObjectKindQueue then
    if method =s "enqueue" then Some (CallEnqueue (map_ "payload"))
    else if method =s "dequeue" then Some CallDequeue
    else if method =s "peek" then Some CallPeek
    else if method =s "size" then Some CallSize
    else None
  else if kind =s ObjectKindBus then
    if method =s "produce" then Some (CallProduce (map_ "payload"))
    else if method =s "consume" then Some (CallConsume (str "consumer") (f_to_int (num "max")))
    else None
  else if kind =s ObjectKindSecureBus then httpSecureBusCall subject tokenID method params
  else if kind =s ObjectKindSchedule then
    if method =s "set" then
      Some (CallScheduleSet (str "name") (if str "time" =s "" then str "cron" else str "time") (str "task") (map_ "data"))
    else if method =s "get" then Some (CallScheduleGet (str "name"))
    else if method =s "list" then Some CallScheduleList
    else None
  else if kind =s ObjectKindTable then Some (CallQuery (str "sql"))
  else if kind =s ObjectKindGit then Some (CallGit method (list_to_map params))
  else None.

(** What the handler makes of a result: a variable or an entry that is not
    there is an error here. *)
Definition httpResult (res : ret (option DataResult)) : ret (option ObjBody) :=
  match res with
  | (_, Some err) => fails None err
  | (Some (GotVariable None), None) | (Some (GotEntry None), None) => fails None errNotFound
  | (Some (GotMessage None), None) => ok (Some OEmpty)
  | (r, None) => ok (OData <$> r)
  end.

(** [env 0] is for the gate, [env 1] for the operation. *)
Definition objectDispatch env w p ac (kind : ObjectKind) (id method : string) (params : list (string * Any))
    : ObjWorld * ret (option ObjBody) :=
  match openObject (env 0) w p ac id method with
  | (w, (Some scope, None)) =>
      if scope.(Scope_Object).(DataObject_Kind) <>s kind then (w, fails None policy.ErrKindMismatch)
      else if kind =s ObjectKindStorage then (w, ok (Some OHint))
      else if (method =s "subscribe") && ((kind =s ObjectKindBus) || (kind =s ObjectKindSecureBus)) then
        if (kind =s ObjectKindSecureBus) && bool_decide (w.(ow_data).(dp_SecureBus) = None)
        then (w, fails None errNoSecureBus) else (w, ok (Some OStream))
      else
        let tokenID := match ac.(APIAccessContext_AccessToken) with Some t => t.(AccessToken_ID) | None => "" end in
        match httpCall (SubjectKeyForPrincipal p) tokenID kind method params with
        | None => (w, fails None policy.ErrUnknownMethod)
        | Some c =>
            let '(d, res) := runData map_json json_map ParseDuration quote rfc3339 any_json document_parse condition_decode
                               b64url_decode b64std_decode graceSeconds unicode_lower (env 1) w.(ow_data) scope c in
            (w <| ow_data := d |>, httpResult res)
        end
  | (w, (_, err)) => (w, (None, err))
  end.

(** The parameters of a [POST] come from its body, those of a [GET] from the
    query. *)
Definition invokeParams r : list (string * Any) :=
  if r.(or_method) =s "POST" then decode_params r.(or_body)
  else omap (λ kv, match kv with (k, v :: _) => Some (k, AString v) | _ => None end) r.(or_query).

Definition invoke env w (p : option Principal) ac r : ObjWorld * ObjReply :=
  match p with
  | None => (w, unauthorized)
  | Some p =>
      let kind := hd "" (Split (TrimPrefix r.(or_path) "/api/") "/"%char) in
      if negb (HasMethod kind r.(or_name)) then (w, http_Error "unknown method" 400)
      else match objectDispatch env w p ac kind r.(or_id) r.(or_name) (invokeParams r) with
      | (w, (_, Some err)) => (w, http_Error (Error_text err) (statusFromPolicy err))
      | (w, (Some body, None)) => (w, mkObjReply 200 body)
      | (w, (None, None)) => (w, mkObjReply 200 ONone)
      end
  end.

(** ** Objects *)

Definition listObjects w (p : option Principal) ac r : ObjReply :=
  match p with
  | None => unauthorized
  | Some p =>
      match AvailableObjects w.(ow_access) p ac.(APIAccessContext_AccessToken) ac.(APIAccessContext_AllowedObjects) (queryGet r "kind") with
      | (_, Some err) => http_Error (Error_text err) (statusFromErr err)
      | ((objs, _), None) => mkObjReply 200 (OObjects objs)
      end
  end.

Definition createObject (e : Env) w (p : option Principal) r : ObjWorld * ObjReply :=
  match p with
  | None => (w, unauthorized)
  | Some p =>
      match decode_create r.(or_body) with
      | inr err => (w, http_Error (Error_text err) 400)
      | inl req =>
          let obj := (zeroval : DataObject) <| DataObject_Kind := req.(cor_kind) |> <| DataObject_Slug := req.(cor_slug) |>
            <| DataObject_Name := req.(cor_name) |> <| DataObject_OwnerSubjectKey := SubjectKeyForPrincipal p |>
            <| DataObject_Backend := req.(cor_backend) |> <| DataObject_Config := req.(cor_config) |> in
          match CreateObject e w.(ow_access) obj (SubjectKeyForPrincipal p) with
          | (a, (_, Some err)) => (w <| ow_access := a |>, http_Error (Error_text err) 400)
          | (a, (created, None)) => (w <| ow_access := a |>, mkObjReply 201 (OObject created))
          end
      end
  end.

Definition getObject w r : ObjReply :=
  match GetObject w.(ow_access) r.(or_id) with
  | (_, Some err) => http_Error (Error_text err) (statusFromErr err)
  | (None, None) => http_Error "not found" 404
  | (Some obj, None) => mkObjReply 200 (OObject obj)
  end.

Definition deleteObject w r : ObjWorld * ObjReply :=
  match DeleteObject w.(ow_access) r.(or_id) with
  | (a, Some err) => (w <| ow_access := a |>, http_Error (Error_text err) (statusFromErr err))
  | (a, None) => (w <| ow_access := a |>, mkObjReply 200 ODeleted)
  end.

(** The name of the request is in the reply only. *)
Definition patchObject (e : Env) w r : ObjWorld * ObjReply :=
  match decode_patch r.(or_body) with
  | inr err => (w, http_Error (Error_text err) 400)
  | inl req =>
      match GetObject w.(ow_access) r.(or_id) with
      | (_, Some err) => (w, http_Error (Error_text err) (statusFromErr err))
      | (None, None) => (w, http_Error "not found" 404)
      | (Some obj, None) =>
          let cfg := req.(por_config) ∪ default ∅ obj.(DataObject_Config) in
          match UpdateObjectConfig e w.(ow_access) r.(or_id) (Some cfg) with
          | (a, (_, Some err)) => (w <| ow_access := a |>, http_Error (Error_text err) (statusFromErr err))
          | (a, (updated, None)) =>
              (w <| ow_access := a |>,
               mkObjReply 200 (OObject (if (req.(por_name) <>s "") && (req.(por_name) <>s updated.(DataObject_Name))
                                        then updated <| DataObject_Name := req.(por_name) |> else updated)))
          end
      end
  end.

Definition getACL w r : ObjReply :=
  match ObjectACLForObject w.(ow_access) r.(or_id) with
  | (_, Some err) => http_Error (Error_text err) (statusFromErr err)
  | (acl, None) => mkObjReply 200 (OACL acl)
  end.

Definition putACL (e : Env) w (p : option Principal) r : ObjWorld * ObjReply :=
  match p with
  | None => (w, unauthorized)
  | Some p =>
      match decode_acl r.(or_body) with
      | inr err => (w, http_Error (Error_text err) 400)
      | inl req =>
          let b := req <| ObjectACLBinding_ObjectID := r.(or_id) |> <| ObjectACLBinding_GrantedBy := SubjectKeyForPrincipal p |> in
          match UpsertObjectACL e w.(ow_access) b with
          | (a, (_, Some err)) => (w <| ow_access := a |>, http_Error (Error_text err) (statusFromErr err))
          | (a, (b, None)) => (w <| ow_access := a |>, mkObjReply 200 (OBinding b))
          end
      end
  end.

(** ** Topic policies *)

Definition getObjectPolicy (e : Env) w (p : option Principal) ac r : ObjWorld * ObjReply :=
  match w.(ow_data).(dp_SecureBus) with
  | None => (w, http_Error "securebus not configured" 503)
  | Some sb =>
  match p with
  | None => (w, unauthorized)
  | Some p =>
      match openObject e w p ac r.(or_id) "policy" with
      | (w, (Some scope, None)) =>
          let '(sb, res) := GetPolicy quote document_parse sb (Some scope) (f_to_int (ParseFloat (queryGet r "version"))) in
          let w := w <| ow_data := w.(ow_data) <| dp_SecureBus := Some sb |> |> in
          match res with
          | (_, Some err) => (w, http_Error (Error_text err) (statusFromPolicy err))
          | (sp, None) => (w, mkObjReply 200 (OPolicy sp))
          end
      | (w, (_, err)) => let err := default (NewError "") err in (w, http_Error (Error_text err) (statusFromPolicy err))
      end
  end end.

(** The role, not the token, decides. *)
Definition canManageObject w p (objectID : string) : bool :=
  if sContains p.(Principal_Scopes) "platform_admin" then true
  else match ObjectACLForObject w.(ow_access) objectID with
  | (_, Some _) => false
  | (acl, None) =>
      existsb (λ b, (b.(ObjectACLBinding_SubjectKey) =s SubjectKeyForPrincipal p)
                    && ((b.(ObjectACLBinding_Role) =s RoleStorageOwner) || (b.(ObjectACLBinding_Role) =s RoleStorageAdmin))) acl
  end.

Definition putObjectPolicy env w (p : option Principal) ac r : ObjWorld * ObjReply :=
  match w.(ow_data).(dp_SecureBus) with
  | None => (w, http_Error "securebus not configured" 503)
  | Some sb =>
  match p with
  | None => (w, unauthorized)
  | Some p =>
  match GetObject w.(ow_access) r.(or_id) with
  | (_, Some err) => (w, http_Error (Error_text err) (statusFromErr err))
  | (None, None) => (w, http_Error "securebus object not found" 404)
  | (Some obj, None) =>
      if obj.(DataObject_Kind) <>s ObjectKindSecureBus then (w, http_Error "securebus object not found" 404)
      else if negb (canManageObject w p r.(or_id)) then (w, http_Error "forbidden" 403)
      else match decode_document r.(or_body) with
      | inr err => (w, http_Error (Error_text err) 400)
      | inl doc =>
          match openObject (env 0) w p ac r.(or_id) "publish" with
          | (w, (Some scope, None)) =>
              let '(sb, res) := PutPolicy quote rfc3339 any_json document_json ed25519_sign signer (env 1) sb w.(ow_data).(dp_Keys)
                                  (Some scope) doc (SubjectKeyForPrincipal p) in
              let w := w <| ow_data := w.(ow_data) <| dp_SecureBus := Some sb |> |> in
              match res with
              | (_, Some err) => (w, http_Error (Error_text err) (statusFromPolicy err))
              | (sp, None) => (w, mkObjReply 200 (OPolicy sp))
              end
          | (w, (_, err)) => let err := default (NewError "") err in (w, http_Error (Error_text err) (statusFromPolicy err))
          end
      end
  end end end.

(** ** Waiting for a schedule *)

Definition pollSchedule p ac (id claimer : string) (e : Env) w : ObjWorld * ret (option Delivery) :=
  let on x := w <| ow_data := w.(ow_data) <| dp_Schedule := x |> |> in
  match ClaimMemory w.(ow_data).(dp_Schedule) id with
  | (x, Some d) => (on x, ok (Some d))
  | (_, None) =>
      match openObject e w p ac id "get" with
      | (w, (Some scope, None)) =>
          let '(x, r) := ClaimSchedule json_map w.(ow_data).(dp_Schedule) (Some scope) claimer in
          (w <| ow_data := w.(ow_data) <| dp_Schedule := x |> |>, r)
      | (w, (_, err)) => (w, (None, err))
      end
  end.

(** [polls]: of the time the request gives, 30 seconds when it gives none. *)
Definition scheduleWait (e : Env) (polls : list Env) w (p : option Principal) ac r : ObjWorld * ObjReply :=
  match p with
  | None => (w, unauthorized)
  | Some p =>
      let claimer := match ac.(APIAccessContext_AccessToken) with
                     | Some t => "token:" +:+ t.(AccessToken_ID) | None => SubjectKeyForPrincipal p end in
      match openObject e w p ac r.(or_id) "get" with
      | (w, (Some _, None)) =>
          match Wait (pollSchedule p ac r.(or_id) claimer) polls w with
          | (w, None) => (w, mkObjReply 200 OEmpty)
          | (w, Some (_, Some err)) => (w, http_Error (Error_text err) (statusFromErr err))
          | (w, Some (Some d, None)) => (w, mkObjReply 200 (ODelivery d))
          | (w, Some (None, None)) => (w, mkObjReply 200 ONone)
          end
      | (w, (_, err)) => let err := default (NewError "") err in (w, http_Error (Error_text err) (statusFromPolicy err))
      end
  end.

(** ** Git *)

(** [gitSmartHTTP] with the service of the path and at most 32 MiB of the body,
    [gitInfoRefs] with the service of the query and no body. *)
Definition gitMethod (service : string) : string := if Contains service "receive" then "push" else "fetch".

Definition gitHTTP env w (p : option Principal) ac (id service body : string) : ObjWorld * ObjReply :=
  match p with
  | None => (w, unauthorized)
  | Some p =>
      match openObject (env 0) w p ac id (gitMethod service) with
      | (w, (Some scope, None)) =>
          let '(g, res) := git_http (env 1) w.(ow_data).(dp_Git) scope service body in
          let w := w <| ow_data := w.(ow_data) <| dp_Git := g |> |> in
          match res with
          | (_, Some err) => (w, http_Error (Error_text err) (statusFromPolicy err))
          | ((ct, out), None) => (w, mkObjReply 200 (OGit ct out))
          end
      | (w, (_, err)) => let err := default (NewError "") err in (w, http_Error (Error_text err) (statusFromPolicy err))
      end
  end.
End Handler.
