(* ===== verification/HttpObjectsProps.v ===== *)
(** What the HTTP front of the data objects guarantees: a call changes one
    object the caller was given, and does what the same call through MCP
    does; and what it does not: the handlers of objects and their ACL ask for
    no permission. *)
From S2P Require Import Prelude GoStrings Models DataObj AccessState AccessObjects AccessService AccessProps PolicyScope AccessFlows AgentKeys UsageProps ProxyProps Bus Kinds KindProps SecureBus SecureBusProps KnowledgeProps Tables DataPlane Sessions Mcp McpProps McpServerProps HttpObjects.
From Stdlib Require Import Ascii Floats.SpecFloat.

(** ** The same call on both fronts *)

(** The arguments of a method that are numbers. *)
Definition number_args (kind : ObjectKind) (method : string) : list string :=
  if kind =s ObjectKindCounter then
    if method =s "set" then ["value"] else if (method =s "increase") || (method =s "decrease") then ["delta"] else []
  else if kind =s ObjectKindLog then if method =s "tail" then ["limit"] else []
  else if kind =s ObjectKindBus then if method =s "consume" then ["max"] else []
  else if kind =s ObjectKindSecureBus then
    if method =s "policy" then ["version"]
    else if method =s "publish" then ["policyVersion"]
    else if method =s "attest" then ["messageId"; "policyVersion"]
    else if method =s "verify" then ["messageId"]
    else if method =s "consume" then ["max"] else []
  else [].

(** Arguments both fronts read alike: a number is not written as a string, a
    decrease says by how much, the strings of a call of a secure bus have no
    space around them, and the arguments of git are not nested in [args]. *)
Record plain_params (kind : ObjectKind) (method : string) (params : list (string * Any)) : Prop := {
  pp_numbers : ∀ k s, k ∈ number_args kind method → param params k ≠ AString s;
  pp_delta : kind = ObjectKindCounter → method = "decrease" → f_eqb (asFloat (param params "delta")) f_zero = false;
  pp_strings : ∀ k s, kind = ObjectKindSecureBus → param params k = AString s → TrimSpace s = s;
  pp_git : kind = ObjectKindGit → asMap (param params "args") = None
}.

(** A number that is missing or zero gives way to the default. *)
Lemma asFloatOr_spec v def : asFloatOr v def = if f_eqb (asFloat v) f_zero then def else asFloat v.
Proof. by destruct v. Qed.
Lemma f_eqb_zero f : f_eqb f f_zero = true → f_to_int f = 0%Z.
Proof. by destruct f as [[]|[]| |[]]. Qed.

Section Calls.
Context (ParseFloat : string → float64) (parse_rfc3339 : string → Time).
Context `{!GoRange, !KindDB, !BusDB, !SecureBusDB, !Signatures} {K Q R L G : Type}.
Context `{!Kafka K, !AMQP Q, !TimeSeries R, !KeyLookup L, !Git G}.
Context (map_json : gmap string Any → string) (json_map : string → gmap string Any) (ParseDuration : string → ret Duration).
Context (quote : string → string) (rfc3339 : Time → string) (any_json : Any → option string).
Context (document_parse : string → Document + error) (condition_decode : gmap string Any → Condition + error).
Context (b64url_decode b64std_decode : string → option string) (graceSeconds : Z) (unicode_lower : Z → Z).
#[local] Abbreviation run := (runData (K := K) (Q := Q) (R := R) (L := L) (G := G) map_json json_map ParseDuration quote rfc3339 any_json
  document_parse condition_decode b64url_decode b64std_decode graceSeconds unicode_lower).

(** Two calls that do the same, or two that are refused. *)
Definition same_call (c c' : option DataCall) : Prop :=
  match c, c' with Some c, Some c' => ∀ e d sc, run e d sc c = run e d sc c' | None, None => True | _, _ => False end.

Lemma same_call_eq c c' : c = c' → same_call c c'.
Proof. intros ->. by destruct c'. Qed.

(** What a number that may be left out is on each front. *)
Lemma number_cases kind method params k def : plain_params kind method params → k ∈ number_args kind method →
  asFloatParam ParseFloat (param params k) = asFloat (param params k)
  ∧ (asFloatOr (param params k) def = asFloat (param params k)
     ∨ f_eqb (asFloat (param params k)) f_zero = true ∧ asFloatOr (param params k) def = def).
Proof.
  intros Hp Hk. pose proof (λ s, pp_numbers _ _ _ Hp k s Hk) as Hs. rewrite asFloatOr_spec.
  split; [destruct (param params k) as [| | | |s| |]; try done; by destruct (Hs s)|]. destruct (f_eqb _ _); auto.
Qed.

Lemma plain_asFloat kind method params k : plain_params kind method params → k ∈ number_args kind method →
  asFloatParam ParseFloat (param params k) = asFloat (param params k).
Proof. intros Hp Hk. by destruct (number_cases kind method params k f_zero Hp Hk). Qed.

Lemma plain_string method params k : plain_params ObjectKindSecureBus method params →
  asStringParam (param params k) = AsString (param params k).
Proof. intros Hp. pose proof (λ s, pp_strings _ _ _ Hp k s eq_refl) as Hs. destruct (param params k); try done. by apply Hs. Qed.

Lemma parseTime_plain s : parse_rfc3339 "" = 0%Z → parseTime parse_rfc3339 s = parse_rfc3339 s.
Proof. intros Hz. unfold parseTime. by destruct (String.eqb_spec s "") as [->|]. Qed.

Lemma secureBus_calls_agree subject tokenID method params : parse_rfc3339 "" = 0%Z → method ≠ "subscribe" →
  plain_params ObjectKindSecureBus method params →
  same_call (httpSecureBusCall ParseFloat parse_rfc3339 subject tokenID method params)
    (secureBusCall parse_rfc3339 subject tokenID method params).
Proof.
  intros Ht Hns Hp. unfold httpSecureBusCall, secureBusCall.
  rewrite !(plain_string _ _ _ Hp), !parseTime_plain by done.
  destruct (String.eqb_spec method "policy") as [->|_].
  { destruct (number_cases _ _ _ "version" f_zero Hp) as [-> [->|[Hz ->]]]; [cbn; set_solver|done|].
    apply same_call_eq. by rewrite (f_eqb_zero _ Hz). }
  destruct (String.eqb_spec method "publish") as [->|_].
  { rewrite (plain_asFloat _ _ _ "policyVersion" Hp) by (cbn; set_solver). done. }
  destruct (String.eqb_spec method "attest") as [->|_].
  { rewrite (plain_asFloat _ _ _ "messageId" Hp), (plain_asFloat _ _ _ "policyVersion" Hp) by (cbn; set_solver). done. }
  destruct (String.eqb_spec method "verify") as [->|_].
  { rewrite (plain_asFloat _ _ _ "messageId" Hp) by (cbn; set_solver). done. }
  destruct (method =s "keys"); [done|].
  destruct (String.eqb_spec method "consume") as [->|_].
  { cbn [orb]. destruct (number_cases _ _ _ "max" (f_of_Z 10) Hp) as [-> [->|[Hz ->]]]; [cbn; set_solver|done|].
    intros e d sc. by rewrite (f_eqb_zero _ Hz). }
  by destruct (String.eqb_spec method "subscribe").
Qed.

Lemma counter_calls_agree method params : plain_params ObjectKindCounter method params → ∀ subject tokenID,
  same_call (httpCall ParseFloat parse_rfc3339 subject tokenID ObjectKindCounter method params)
    (dataCall parse_rfc3339 subject tokenID ObjectKindCounter method params).
Proof.
  intros Hp subject tokenID. unfold httpCall, dataCall. cbn [String.eqb].
  change (ObjectKindCounter =s ObjectKindVariable) with false. change (ObjectKindCounter =s ObjectKindCounter) with true. cbn iota.
  destruct (String.eqb_spec method "set") as [->|_].
  { by rewrite (plain_asFloat _ _ _ "value" Hp) by (cbn; set_solver). }
  destruct (method =s "get"); [done|].
  destruct (String.eqb_spec method "increase") as [->|_].
  { destruct (number_cases _ _ _ "delta" f_one Hp) as [-> [->|[Hz ->]]]; [cbn; set_solver|done|].
    intros e d sc. cbn [runData]. unfold Increase, adjust. by rewrite Hz. }
  destruct (String.eqb_spec method "decrease") as [->|_]; [|done].
  rewrite (plain_asFloat _ _ _ "delta" Hp) by (cbn; set_solver).
  rewrite asFloatOr_spec, (pp_delta _ _ _ Hp) by done. done.
Qed.

Lemma calls_agree subject tokenID kind method params : parse_rfc3339 "" = 0%Z → method ≠ "subscribe" →
  HasMethod kind method = true → plain_params kind method params →
  same_call (httpCall ParseFloat parse_rfc3339 subject tokenID kind method params)
    (dataCall parse_rfc3339 subject tokenID kind method params).
Proof.
  intros Ht Hns Hm Hp. destruct (String.eqb_spec kind ObjectKindCounter) as [->|Hnc]; [by apply counter_calls_agree|].
  unfold httpCall, dataCall. apply String.eqb_neq in Hnc. rewrite Hnc.
  destruct (kind =s ObjectKindVariable); [by apply same_call_eq|].
  destruct (String.eqb_spec kind ObjectKindLog) as [->|_].
  { apply HasMethod_spec in Hm. case_elem Hm; subst; [by apply same_call_eq|].
    change ("tail" =s "add") with false. cbn iota.
    destruct (number_cases _ _ _ "limit" (f_of_Z 100) Hp) as [-> [->|[Hz ->]]]; [cbn; set_solver|done|].
    intros e d sc. by rewrite (f_eqb_zero _ Hz). }
  destruct (kind =s ObjectKindQueue); [by apply same_call_eq|].
  destruct (String.eqb_spec kind ObjectKindBus) as [->|_].
  { destruct (method =s "produce"); [done|].
    destruct (String.eqb_spec method "consume") as [->|_]; [|by destruct (String.eqb_spec method "subscribe")].
    cbn [orb]. destruct (number_cases _ _ _ "max" (f_of_Z 10) Hp) as [-> [->|[Hz ->]]]; [cbn; set_solver|done|].
    intros e d sc. by rewrite (f_eqb_zero _ Hz). }
  destruct (String.eqb_spec kind ObjectKindSecureBus) as [->|_]; [by apply secureBus_calls_agree|].
  apply same_call_eq.
  destruct (kind =s ObjectKindSchedule); [done|].
  destruct (kind =s ObjectKindTable); [done|].
  destruct (String.eqb_spec kind ObjectKindGit) as [->|_]; [|done]. by rewrite (pp_git _ _ _ Hp).
Qed.
End Calls.

(** ** Names of tools *)

Lemma kind_prefix kind kind' method : kind ∈ toolKinds → kind' ∈ toolKinds →
  HasPrefix (kind +:+ "_" +:+ method) (kind' +:+ "_") = bool_decide (kind = kind').
Proof. intros Hk Hk'. unfold toolKinds in *. case_elem Hk; case_elem Hk'; subst; destruct method; reflexivity. Qed.

Lemma kind_longer kind method : method ≠ "" → (slen (kind +:+ "_") <? slen (kind +:+ "_" +:+ method))%Z = true.
Proof.
  intros Hm. apply Z.ltb_lt. unfold slen.
  rewrite !length_app_s. destruct method; [done|]. cbn [String.length]. lia.
Qed.

Lemma splitKindMethod_name kind method : kind ∈ toolKinds → method ≠ "" →
  splitKindMethod (kind +:+ "_" +:+ method) = Some (kind, method).
Proof.
  intros Hk Hm. unfold splitKindMethod.
  assert (Hf : List.find (λ kind', (slen (kind' +:+ "_") <? slen (kind +:+ "_" +:+ method))%Z
    && HasPrefix (kind +:+ "_" +:+ method) (kind' +:+ "_")) toolKinds = Some kind).
  { assert (Hsub : ∀ l, (∀ x, x ∈ l → x ∈ toolKinds) → kind ∈ l →
      List.find (λ kind', (slen (kind' +:+ "_") <? slen (kind +:+ "_" +:+ method))%Z
        && HasPrefix (kind +:+ "_" +:+ method) (kind' +:+ "_")) l = Some kind); [|by apply Hsub].
    induction l as [|x l IH]; intros Hl Hin; [by apply elem_of_nil in Hin|]. cbn [List.find].
    rewrite (kind_prefix kind x) by (try done; apply Hl; by left). destruct (decide (kind = x)) as [<-|Hne].
    - by rewrite kind_longer, bool_decide_true.
    - rewrite bool_decide_false, andb_false_r by done. apply elem_of_cons in Hin as [?|?]; [done|].
      apply IH; [|done]. intros y Hy. apply Hl. by right. }
  rewrite Hf. do 2 f_equal. clear. induction kind as [|c kind IH]; [by destruct method|exact IH].
Qed.

Section Fronts.
Context `{!SessionRedis, !Codec Session, !Codec WebSession, !Codec (list string), !GoRange, !Postgres}.
Context {KK U P : Type} `{!AccessAPI Store, !KnowledgeAPI Store KK, !UsageAPI U, !ProxyAPI P, !AdminAPI Store P}.
Context `{!KindDB, !BusDB, !SecureBusDB, !Signatures} {K Q R L G : Type}.
Context `{!Kafka K, !AMQP Q, !TimeSeries R, !KeyLookup L, !Git G}.
Context (map_json : gmap string Any → string) (json_map : string → gmap string Any) (ParseDuration : string → ret Duration).
Context (quote : string → string) (rfc3339 : Time → string) (any_json : Any → option string).
Context (document_parse : string → Document + error) (condition_decode : gmap string Any → Condition + error).
Context (b64url_decode b64std_decode : string → option string) (graceSeconds : Z) (unicode_lower : Z → Z).
Context (ParseFloat : string → float64) (parse_rfc3339 : string → Time).
#[local] Instance fronts_oa : ObjectAccess Store := access_ObjectAccess unicode_lower.
#[local] Instance fronts_data : DataAPI (DataServices (K := K) (Q := Q) (R := R) (L := L) (G := G)) :=
  services_DataAPI map_json json_map ParseDuration quote rfc3339 any_json document_parse condition_decode b64url_decode b64std_decode
    graceSeconds unicode_lower.
Abbreviation ODispatch := (objectDispatch map_json json_map ParseDuration quote rfc3339 any_json document_parse condition_decode
  b64url_decode b64std_decode graceSeconds unicode_lower ParseFloat parse_rfc3339).
Implicit Types (w : World (A := Store) (K := KK) (U := U) (P := P) (D := DataServices (K := K) (Q := Q) (R := R) (L := L) (G := G))).
Implicit Types (ow : ObjWorld (K := K) (Q := Q) (R := R) (L := L) (G := G)).
Implicit Types (p : Principal) (ac : APIAccessContext) (env : nat → Env).

(** The data of both fronts after a call. *)
Definition same_services w ow : Prop := w.(w_access) = ow.(ow_access) ∧ w.(w_data) = ow.(ow_data) ∧ w.(w_pool) = ow.(ow_pool).

Lemma kind_of_method kind method : HasMethod kind method = true → method ≠ "".
Proof.
  intros Hm ->. apply HasMethod_spec in Hm. unfold Methods in Hm. revert Hm.
  repeat case_match; intros Hm; by apply sContains_spec in Hm.
Qed.

Lemma tool_kind_not_storage kind : kind ∈ toolKinds → (kind =s ObjectKindStorage) = false.
Proof. intros Hk. unfold toolKinds in Hk. by case_elem Hk; subst. Qed.

(** A scope or an error. *)
Lemma Open_result e a pool p ac id method :
  (∃ scope, (Open e a pool p ac id method).2 = ok (Some scope)) ∨ ∃ err, (Open e a pool p ac id method).2 = fails None err.
Proof. unfold Open. repeat case_match; cbn; eauto. Qed.

(** What HTTP says where MCP gives [r]: the same data or the same error,
    except that a variable or an entry that is not there is an error, and a
    queue with no message an empty answer. *)
Definition over_http (r : ret (option McpResult)) : ret (option ObjBody) :=
  match r with
  | (_, Some err) => fails None err
  | (Some (RData (Some (GotVariable None))), None) | (Some (RData (Some (GotEntry None))), None) => fails None errNotFound
  | (Some (RData (Some (GotMessage None))), None) => ok (Some OEmpty)
  | (Some (RData res), None) => ok (OData <$> res)
  | (_, None) => ok None
  end.

(** C5. The two fronts do the same. A method of a data object of any kind,
    other than [subscribe], called through MCP and through HTTP with the same
    arguments changes the same state in the same way and gives the same
    result or fails with the same error, except that HTTP reports a missing
    variable or schedule entry as an error of its own. The arguments are read
    alike when numbers are not written as strings, a decrease names an amount
    that is not zero, the strings given to a secure bus have no surrounding
    space, and the arguments of a git method are not nested in [args]. *)
Theorem fronts_agree env w ow p ac kind method id params :
  same_services w ow → parse_rfc3339 "" = 0%Z → method ≠ "subscribe" → kind ∈ toolKinds →
  HasMethod kind method = true → plain_params kind method params → param params "objectId" = AString id →
  (∀ obj, GetObject ow.(ow_access) id = ok (Some obj) → obj.(DataObject_Kind) = kind) →
  let '(w', r) := handleDataObjectTool parse_rfc3339 env w p ac (kind +:+ "_" +:+ method) params in
  let '(ow', r') := ODispatch env ow p ac kind id method params in
  same_services w' ow' ∧ r' = over_http r.
Proof.
  intros (Ha & Hd & Hpool) Ht Hns Hk Hm Hp Hid Hkind. unfold handleDataObjectTool, objectDispatch, openObject.
  rewrite splitKindMethod_name, Hm, Hid, Ha, Hpool by (try done; by eapply kind_of_method). cbn [negb AsString].
  fold fronts_oa. pose proof (Open_result (env 0) (Some ow.(ow_access)) ow.(ow_pool) p ac id method) as Hr.
  destruct (Open _ _ _ _ _ _ _) as [a r] eqn:Ho. cbn [snd] in Hr. destruct Hr as [[scope ->]|[err ->]]; unfold ok, fails; cbn iota beta.
  2: by split; [by split|].
  apply Open_success in Ho as (s & obj & eff & [= <-] & Hg & _ & _ & Hobj & _). rewrite Hobj, (Hkind obj Hg), String.eqb_refl.
  rewrite (tool_kind_not_storage kind Hk). destruct (String.eqb_spec method "subscribe"); [done|]. cbn [negb andb].
  change (match ac.(APIAccessContext_AccessToken) with Some t => t.(AccessToken_ID) | None => "" end) with (tokenIDOf ac).
  pose proof (calls_agree ParseFloat parse_rfc3339 (K := K) (Q := Q) (R := R) (L := L) (G := G) map_json json_map ParseDuration quote
    rfc3339 any_json document_parse condition_decode b64url_decode b64std_decode graceSeconds unicode_lower
    (SubjectKeyForPrincipal p) (tokenIDOf ac) kind method params Ht Hns Hm Hp) as Hc.
  destruct (httpCall _ _ _ _ _ _ _) as [c|], (dataCall _ _ _ _ _ _) as [c'|]; try done.
  unfold da_run, fronts_data, services_DataAPI.
  change (w_data (w <| w_access := _ |>)) with w.(w_data). change (ow_data (ow <| ow_access := _ |>)) with ow.(ow_data).
  rewrite Hd, Hc. destruct (runData _ _ _ _ _ _ _ _ _ _ _ _ _ _ _ _) as [d [res [err|]]]; (split; [by split|]);
  by destruct res as [[[]| | | |[]| | | | | | | | | |[]| | |]|].
Qed.
End Fronts.

(** ** Calls stay with their object *)

Section Invoke.
Context `{!Postgres, !GoRange, !KindDB, !BusDB, !SecureBusDB, !Signatures} {K Q R L G : Type}.
Context `{!Kafka K, !AMQP Q, !TimeSeries R, !KeyLookup L, !Git G}.
Context (map_json : gmap string Any → string) (json_map : string → gmap string Any) (ParseDuration : string → ret Duration).
Context (quote : string → string) (rfc3339 : Time → string) (any_json : Any → option string).
Context (document_parse : string → Document + error) (condition_decode : gmap string Any → Condition + error).
Context (b64url_decode b64std_decode : string → option string) (graceSeconds : Z) (unicode_lower : Z → Z).
Context (ParseFloat : string → float64) (parse_rfc3339 : string → Time).
Context (decode_params : string → list (string * Any)).
#[local] Instance invoke_oa : ObjectAccess Store := access_ObjectAccess unicode_lower.
Abbreviation Invoke := (invoke map_json json_map ParseDuration quote rfc3339 any_json document_parse condition_decode
  b64url_decode b64std_decode graceSeconds unicode_lower ParseFloat parse_rfc3339 decode_params).
Implicit Types (w : ObjWorld (K := K) (Q := Q) (R := R) (L := L) (G := G)) (p : Principal) (ac : APIAccessContext) (r : ObjReq).

Lemma openObject_granted e w p ac id method w' sc err : w.(ow_pool) = None →
  openObject unicode_lower e w p ac id method = (w', (Some sc, err)) →
  err = None ∧ w' = w ∧ sc.(Scope_tx) = None ∧ granted w.(ow_access) p ac id method sc.(Scope_Object).
Proof.
  intros Hpool. unfold openObject. rewrite Hpool. destruct (Open _ _ _ _ _ _ _) as [a r] eqn:Ho. intros [= <- ->].
  apply Open_granted in Ho as (-> & -> & Htx & Hg). split_and!; try done. by destruct w.
Qed.

Lemma openObject_same e w p ac id method : w.(ow_pool) = None → (openObject unicode_lower e w p ac id method).1 = w.
Proof.
  intros Hpool. unfold openObject, Open. rewrite Hpool. destruct w as [a d pool]. cbn in *.
  repeat case_match; simplify_eq/=; done.
Qed.

(** A call of a data object over HTTP needs a caller. It leaves the access
    store as it is, and the data services too, or it changes one object: the
    object of the path, of the kind of the path, with a method of that kind
    that the access rules give the caller under the caller's token. *)
Theorem invoke_confined env w (p : option Principal) ac r : w.(ow_pool) = None → all_memory w.(ow_data) →
  let '(w', reply) := Invoke env w p ac r in
  w'.(ow_access) = w.(ow_access)
  ∧ (w'.(ow_data) = w.(ow_data)
     ∨ ∃ caller obj, p = Some caller ∧ granted w.(ow_access) caller ac r.(or_id) r.(or_name) obj
         ∧ obj.(DataObject_Kind) = hd "" (Split (TrimPrefix r.(or_path) "/api/") "/"%char)
         ∧ elsewhere obj.(DataObject_ID) w.(ow_data) w'.(ow_data)).
Proof.
  intros Hpool Hmem. unfold invoke. destruct p as [caller|]; [|by split; [|left]].
  set (kind := hd "" _). destruct (negb _); [by split; [|left]|].
  assert (Hd : let w' := (objectDispatch map_json json_map ParseDuration quote rfc3339 any_json document_parse condition_decode
      b64url_decode b64std_decode graceSeconds unicode_lower ParseFloat parse_rfc3339 env w caller ac kind r.(or_id) r.(or_name)
      (invokeParams decode_params r)).1 in
    w'.(ow_access) = w.(ow_access) ∧ (w'.(ow_data) = w.(ow_data)
     ∨ ∃ obj, granted w.(ow_access) caller ac r.(or_id) r.(or_name) obj ∧ obj.(DataObject_Kind) = kind
         ∧ elsewhere obj.(DataObject_ID) w.(ow_data) w'.(ow_data))).
  { unfold objectDispatch. pose proof (openObject_same (env 0) w caller ac r.(or_id) r.(or_name) Hpool) as Hs.
    destruct (openObject _ _ _ _ _ _ _) as [w0 [[sc|] err]] eqn:Ho; cbn [fst] in Hs; subst w0; [|by split; [|left]].
    apply openObject_granted in Ho as (-> & _ & Htx & Hg); [|done].
    destruct (String.eqb_spec sc.(Scope_Object).(DataObject_Kind) kind) as [Hk|]; [|by split; [|left]]. cbn [negb].
    destruct (kind =s ObjectKindStorage); [by split; [|left]|].
    destruct (_ && _); [case_match; by split; [|left]|]. destruct (httpCall _ _ _ _ _ _ _) as [c|]; [|by split; [|left]].
    pose proof (runData_frame map_json json_map ParseDuration quote rfc3339 any_json document_parse condition_decode
      b64url_decode b64std_decode graceSeconds unicode_lower (env 1) w.(ow_data) sc c Htx Hmem) as Hf.
    destruct (runData _ _ _ _ _ _ _ _ _ _ _ _ _ _ _ _) as [d res]. split; [done|]. right. exists sc.(Scope_Object). auto. }
  destruct (objectDispatch _ _ _ _ _ _ _ _ _ _ _ _ _ _ _ _ _ _ _ _ _ _) as [w' [body err]]. cbn [fst] in Hd.
  assert (Hgoal : w'.(ow_access) = w.(ow_access) ∧ (w'.(ow_data) = w.(ow_data)
     ∨ ∃ caller0 obj, Some caller = Some caller0 ∧ granted w.(ow_access) caller0 ac r.(or_id) r.(or_name) obj
         ∧ obj.(DataObject_Kind) = kind ∧ elsewhere obj.(DataObject_ID) w.(ow_data) w'.(ow_data))).
  { destruct Hd as [Ha [Hsame|(obj & Hobj)]]; (split; [done|]); [by left|right]. exists caller, obj. tauto. }
  destruct err, body; exact Hgoal.
Qed.

Context (decode_acl : string → ObjectACLBinding + error).

(** Whoever calls, and whatever the object: after [PUT /api/objects/{id}/acl]
    with a binding for one of the caller's subject keys the object is open to
    the caller, for every method. Nothing is asked of the caller but to be
    authenticated. *)
Theorem acl_open_to_everyone e e' w p ac r obj b method : w.(ow_access).(s_useDB) = false → w.(ow_pool) = None →
  GetObject w.(ow_access) r.(or_id) = ok (Some obj) → obj.(DataObject_ID) = r.(or_id) → HasMethod obj.(DataObject_Kind) method = true →
  ac.(APIAccessContext_AccessToken) = None →
  decode_acl r.(or_body) = inl b → b.(ObjectACLBinding_SubjectKey) ∈ SubjectKeys p → b.(ObjectACLBinding_Role) = RoleStorageOwner →
  let '(w', reply) := putACL decode_acl e w (Some p) r in
  reply.(orp_status) = 200%Z ∧ ∃ sc, (openObject unicode_lower e' w' p ac r.(or_id) method).2 = ok (Some sc).
Proof.
  intros Hdb Hpool Hg Hid Hm Hnt Hb Hsub Hrole. unfold putACL. rewrite Hb. unfold UpsertObjectACL. cbv zeta.
  set (b0 := if ObjectACLBinding_ID _ =s "" then _ else _). set (b1 := if IsZero _ then _ else b0).
  assert (Hb1 : b1.(ObjectACLBinding_SubjectKey) = b.(ObjectACLBinding_SubjectKey) ∧ b1.(ObjectACLBinding_Role) = RoleStorageOwner
    ∧ b1.(ObjectACLBinding_ObjectID) = r.(or_id)).
  { unfold b1, b0. rewrite <- Hrole. by destruct (_ =s ""), (IsZero _). }
  clearbody b1. clear b0. destruct Hb1 as (Hs1 & Hr1 & Ho1). rewrite Hdb. cbn [negb ok]. split; [done|].
  unfold openObject. cbn [ow_access ow_pool]. set (s' := w.(ow_access) <| s_objectACL := _ |>).
  change (ow_access (w <| ow_access := s' |>)) with s'. change (ow_pool (w <| ow_access := s' |>)) with w.(ow_pool). rewrite Hpool.
  assert (Hg' : GetObject s' r.(or_id) = ok (Some obj)) by exact Hg.
  assert (Hc : CanAccessObject s' p ac.(APIAccessContext_AccessToken) (bridgedScopes ac) r.(or_id) method =
    ok (evaluateObjectAccess p ac.(APIAccessContext_AccessToken) (bridgedScopes ac) (object_acl_of s' (SubjectKeys p)) obj method))
    by (apply CanAccessObject_memory; [exact Hdb|done|by apply HasMethod_spec]).
  assert (Hallowed : (evaluateObjectAccess p ac.(APIAccessContext_AccessToken) (bridgedScopes ac)
    (object_acl_of s' (SubjectKeys p)) obj method).2 = true).
  { apply evaluateObjectAccess_rule. rewrite Hnt. left. exists b1. split_and!; [|by rewrite Ho1|].
    - apply elem_of_object_acl_of; [exact Hdb| |by rewrite Hs1]. exists b1.(ObjectACLBinding_ID). cbn. by rewrite lookup_insert_eq.
    - rewrite Hr1. by apply HasMethod_spec. }
  unfold Open, handler_oa. cbn [oa_GetObject access_ObjectAccess oa_CanAccessObject]. rewrite Hg'. cbn [ok]. rewrite Hm, Hc. cbn [negb ok].
  destruct (evaluateObjectAccess _ _ _ _ _ _) as [eff b']. cbn in Hallowed. subst b'. by eexists.
Qed.
End Invoke.

Section Witnesses.
#[local] Existing Instances no_postgres canonical_range wp_db wp_net wp_aead UsageProps.no_redis wd_s3 wd_catalog wd_vectors.
#[local] Existing Instances no_kind_db no_amqp no_timeseries no_bus_db wb_db wb_sigs wb_lookup.
#[local] Existing Instances Sessions.no_redis Sessions.no_codec.
#[local] Existing Instances ws_jobs ws_git ws_objects ws_access ws_knowledge ws_usage ws_proxy ws_admin ws_data.

Definition wo_world : ObjWorld := mkObjWorld ws_store ws_services None.
Definition wo_params : list (string * Any) := [("objectId", AString "q"); ("payload", AObject [("n", AString "x")])].
Definition wo_invoke (id : string) :=
  invoke (λ _, "") (λ _, ∅) (λ _, ok 0%Z) (λ s, s) (λ _, "") (λ _, None) (λ _, inl wb_doc) (λ _, inl wb_cond) (λ _, None) (λ _, None) 0
    (λ r, r) (λ _, f_zero) (λ _, 0%Z) (λ _, wo_params) ws_env wo_world (Some w_principal) zeroval
    (mkObjReq "POST" "/api/queue/q/enqueue" id "enqueue" [] "{...}").

Definition wo_dispatch :=
  objectDispatch (λ _, "") (λ _, ∅) (λ _, ok 0%Z) (λ s, s) (λ _, "") (λ _, None) (λ _, inl wb_doc) (λ _, inl wb_cond) (λ _, None)
    (λ _, None) 0 (λ r, r) (λ _, f_zero) (λ _, 0%Z) ws_env wo_world w_principal zeroval ObjectKindQueue "q" "enqueue" wo_params.

Lemma wo_plain : plain_params ObjectKindQueue "enqueue" wo_params.
Proof. by split; [by intros k s ?%elem_of_nil|..]. Qed.

(** A message enqueued through either front. *)
Lemma fronts_agree_witness :
  length <$> (wo_dispatch.1).(ow_data).(dp_Queue).(q_mem) !! "q" = Some 2
  ∧ let r := handleDataObjectTool (λ _, 0%Z) ws_env ws_world w_principal zeroval "queue_enqueue" wo_params in
    same_services r.1 wo_dispatch.1 ∧ wo_dispatch.2 = over_http r.2.
Proof.
  split; [vm_compute; reflexivity|].
  pose proof (fronts_agree (λ _, "") (λ _, ∅) (λ _, ok 0%Z) (λ s, s) (λ _, "") (λ _, None) (λ _, inl wb_doc) (λ _, inl wb_cond) (λ _, None)
    (λ _, None) 0 (λ r, r) (λ _, f_zero) (λ _, 0%Z) ws_env ws_world wo_world w_principal zeroval ObjectKindQueue "enqueue" "q" wo_params)
    as Hf.
  assert (Hobj : ∀ obj, GetObject wo_world.(ow_access) "q" = ok (Some obj) → obj.(DataObject_Kind) = ObjectKindQueue).
  { intros obj Hg. change (ok (Some w_object) = ok (Some obj)) in Hg. by injection Hg as <-. }
  specialize (Hf (conj eq_refl (conj eq_refl eq_refl)) eq_refl ltac:(discriminate)
    (proj1 (sContains_spec toolKinds ObjectKindQueue) eq_refl) eq_refl wo_plain eq_refl Hobj).
  change (ObjectKindQueue +:+ "_" +:+ "enqueue") with "queue_enqueue" in Hf. unfold wo_dispatch.
  destruct (handleDataObjectTool _ _ _ _ _ _ _) as [w' r']. destruct (objectDispatch _ _ _ _ _ _ _ _ _ _ _ _ _ _ _ _ _ _ _ _ _ _) as [ow' r''].
  apply Hf.
Defined.

Lemma invoke_confined_witness :
  (wo_invoke "q").2.(orp_status) = 200%Z ∧ (wo_invoke "other").2.(orp_status) = 404%Z
  ∧ (wo_invoke "q").1.(ow_access) = wo_world.(ow_access).
Proof.
  split; [vm_compute; reflexivity|]. split; [vm_compute; reflexivity|].
  pose proof (invoke_confined (λ _, "") (λ _, ∅) (λ _, ok 0%Z) (λ s, s) (λ _, "") (λ _, None) (λ _, inl wb_doc) (λ _, inl wb_cond) (λ _, None)
    (λ _, None) 0 (λ r, r) (λ _, f_zero) (λ _, 0%Z) (λ _, wo_params) ws_env wo_world (Some w_principal) zeroval
    (mkObjReq "POST" "/api/queue/q/enqueue" "q" "enqueue" [] "{...}") eq_refl ltac:(by split)) as Hi.
  unfold wo_invoke. destruct (invoke _ _ _ _ _ _ _ _ _ _ _ _ _ _ _ _ _ _ _ _) as [w' reply]. apply Hi.
Defined.

(** A stranger opens the queue with one request. *)
Definition wo_stranger : Principal := (zeroval : Principal) <| Principal_UserID := "mallory" |>.
Definition wo_binding : ObjectACLBinding :=
  (zeroval : ObjectACLBinding) <| ObjectACLBinding_SubjectKey := "all:authenticated" |> <| ObjectACLBinding_Role := RoleStorageOwner |>.

Lemma acl_open_to_everyone_witness :
  let open w := (openObject (λ r, r) w_env w wo_stranger zeroval "q" "dequeue").2 in
  let put := putACL (λ _, inl wo_binding) w_env wo_world (Some wo_stranger) (mkObjReq "PUT" "/api/objects/q/acl" "q" "" [] "{...}") in
  open wo_world = fails None policy.ErrForbidden ∧ ∃ sc, open put.1 = ok (Some sc).
Proof.
  split; [vm_compute; reflexivity|].
  pose proof (acl_open_to_everyone (λ r, r) (λ _, inl wo_binding) w_env w_env wo_world wo_stranger zeroval
    (mkObjReq "PUT" "/api/objects/q/acl" "q" "" [] "{...}") w_object wo_binding "dequeue" eq_refl eq_refl eq_refl eq_refl eq_refl eq_refl eq_refl
    (proj1 (sContains_spec (SubjectKeys wo_stranger) "all:authenticated") eq_refl) eq_refl) as Hp.
  destruct (putACL _ _ _ _ _) as [w' reply]. apply Hp.
Defined.
End Witnesses.
