(* ===== verification/HttpAdmin.v ===== *)
(** [internal/httpapi/admin_handler.go] and
    [internal/httpapi/mcp_admin_handler.go]: users, groups, storages, tokens
    and proxied servers over HTTP, and the authentication in front,
    [internal/httpapi/auth_middleware.go].

    Decoders of bodies are parameters. The access and the proxy service are
    configured; without a proxy its manager is [None]. *)
From S2P Require Import Prelude GoStrings Models DataObj AccessState AccessObjects AccessService Usage Proxy ProxyStore ProxyManager Sessions.
From Stdlib Require Import Ascii.

(** ** Requests and replies *)

Record AdminReq := mkAdminReq {
  ar_method : string;
  ar_urlPath : string;
  ar_query : string → string;         (* [r.URL.Query().Get] *)
  ar_body : string;
  ar_host : string;
  ar_tls : bool;
  ar_forwardedProto : string
}.

Record TokenConnectConfig := mkTokenConnectConfig {
  tcc_Client : string;
  tcc_ServerName : string;
  tcc_Transport : string;
  tcc_ConfigFileName : string;
  tcc_ConfigBody : string;
  tcc_Instructions : list string
}.

Inductive AdminBody :=
| BText (s : string)                  (* [http.Error] *)
| BUser (u : User)
| BUsers (l : list User)
| BGroup (g : Group)
| BGroups (l : list Group)
| BMembers (l : list GroupMembership)
| BStorage (st : Storage)
| BStorages (l : list Storage)
| BDetails (st : Storage) (acl : list ACLBinding) (tokens : list TokenStorageAccess)
| BACL (l : list ACLBinding)
| BBinding (b : ACLBinding)
| BTokens (l : list AccessToken)
| BToken (t : AccessToken) (rawToken : string)
| BStatus (fields : list (string * string))
| BConnect (c : TokenConnectConfig)
| BSeries (metric groupBy : string) (points : list (string * Z))
| BServers (l : list MCPServer)
| BServer (s : MCPServer)
| BServerDetails (c : MCPServerCapabilities) (acl : list MCPServerACLBinding)
| BCapabilities (c : MCPServerCapabilities)
| BServerACL (l : list MCPServerACLBinding)
| BServerBinding (b : MCPServerACLBinding)
| BNothing.

Record AdminReply := mkAdminReply { arp_status : Z; arp_body : AdminBody }.

Definition error_reply (text : string) (status : Z) : AdminReply := mkAdminReply status (BText text).
Definition bad (err : error) : AdminReply := error_reply (Error_text err) 400.
Definition forbidden_reply : AdminReply := error_reply "forbidden" 403.
Definition not_found : AdminReply := error_reply "not found" 404.
Definition http_NotFound : AdminReply := error_reply "404 page not found" 404.
Definition no_content : AdminReply := mkAdminReply 204 BNothing.

(** ** Paths *)

Definition Trim_slashes (s : string) : string := trim_right_byte "/"%char (trim_left_byte "/"%char s).
Definition parts (path : string) : list string := Split (Trim_slashes path) "/"%char.

Definition idFromPath (path : string) (idx : nat) : string := default "" (parts path !! idx).
Definition storageIDFromACLPath (path : string) : string := idFromPath path 1.
Definition tokenIDFromPath (path : string) : string := idFromPath path 1.

Definition mcpServerID (path : string) : string :=
  let rest := TrimPrefix path "/mcp-servers/" in
  if (rest =s "") || Contains rest "/" then "" else rest.

(** [strings.TrimSuffix(strings.TrimPrefix(path, prefix), suffix)] *)
Definition between (path prefix suffix : string) : string := TrimSuffix (TrimPrefix path prefix) suffix.

(** ** Rights *)

Definition isPlatformAdmin (p : Principal) : bool :=
  existsb (λ scope, (scope =s "platform_admin") || (scope =s "admin")) p.(Principal_Scopes).

Definition canEditUser (p : Principal) (user : User) : bool :=
  isPlatformAdmin p || (user.(User_SubjectKey) =s SubjectKeyForPrincipal p).

(** ** Connection instructions *)

Definition serverBaseURL (r : AdminReq) : string :=
  let scheme := if r.(ar_tls) then "https" else "http" in
  (if r.(ar_forwardedProto) =s "" then scheme else r.(ar_forwardedProto)) +:+ "://" +:+ r.(ar_host).

Definition quoted (s : string) : string := String dquote (s +:+ String dquote "").
Definition nl (s : string) : string := s +:+ String newline "".

Definition connectBody (mcpURL rawToken : string) : string :=
  nl "{" +:+ nl ("  " +:+ quoted "mcpServers" +:+ ": {") +:+ nl ("    " +:+ quoted "syna-knowledge" +:+ ": {")
    +:+ nl ("      " +:+ quoted "url" +:+ ": " +:+ quoted mcpURL +:+ ",")
    +:+ nl ("      " +:+ quoted "headers" +:+ ": {")
    +:+ nl ("        " +:+ quoted "Authorization" +:+ ": " +:+ quoted ("Bearer " +:+ rawToken))
    +:+ nl "      }" +:+ nl "    }" +:+ nl "  }" +:+ "}".

Definition buildConnectConfig (client baseURL rawToken : string) (oauthASEnabled : bool) : TokenConnectConfig :=
  let mcpURL := trim_right_byte "/"%char baseURL +:+ "/mcp" in
  let body := connectBody mcpURL rawToken in
  let '(file, body, instructions) :=
    if client =s "cursor" then
      ("mcp.json", body, ["Open Cursor settings."; "Add this MCP server configuration.";
                          "Restart MCP tools and verify allowed storage tools."])
    else if client =s "claude_desktop" then
      if oauthASEnabled then
        ("claude-connector.txt", mcpURL,
         ["In Claude Desktop, open Settings → Connectors → Add custom connector.";
          "Paste the SynaMCPs MCP URL (HTTPS required for Anthropic cloud egress).";
          "Complete the browser login (internal user or configured OIDC provider).";
          "Do not paste a static bearer token; Claude obtains one via OAuth.";
          "Legacy fallback: use claude_desktop_config.json with Authorization Bearer if OAuth AS is disabled."])
      else ("claude_desktop_config.json", body,
            ["Open Claude Desktop config."; "Add the mcpServers entry."; "Restart Claude Desktop."])
    else if client =s "claude_code" then
      (".mcp.json", body, ["Create or update .mcp.json."; "Start Claude Code in the project."; "Verify tools/list output."])
    else ("mcp.json", body, ["Add the MCP server configuration."; "Restart MCP tools.";
                             "Run tools/list and verify that only allowed storage tools are visible."]) in
  mkTokenConnectConfig client "syna-knowledge" "streamable_http" file body instructions.

(** What the bodies decode to. *)
Record createTokenRequest := mkCreateTokenRequest {
  ctr_Name : string;
  ctr_Mode : AccessMode;
  ctr_StorageIDs : list string;
  ctr_MCPServers : list AccessTokenMCPServer;
  ctr_RateLimit : RateLimitPolicy;
  ctr_ExpiresAt : option Time
}.

(** [json.NewDecoder(r.Body).Decode(&req)] for each type of body. *)
Class AdminCodec := {
  dec_user : string → User + error;
  dec_password : string → (string * string) + error;      (* current, new *)
  dec_group : string → Group + error;
  dec_storage : string → Storage + error;
  dec_acl : string → ACLBinding + error;
  dec_token : string → createTokenRequest + error;
  dec_rateLimit : string → RateLimitPolicy + error;
  dec_connect : string → string * string;                 (* client, token; what was decoded *)
  dec_createServer : string → CreateServerInput + error;  (* the owner is not in the body *)
  dec_patchServer : string → UpdateServerInput + error;   (* [US_ClearAuthSecret] is not in the body *)
  dec_capabilities : string → (list string * list string * list string) + error;
  dec_serverACL : string → MCPServerACLBinding + error;
  dec_scopes : string → list AccessTokenMCPServer + error
}.

Definition ensurePrincipalTTL : Duration := (5 * Minute)%Z.

Section Admin.
Context `{Postgres, Bcrypt, ProxyDB, Upstream, AEAD, Redis, GoRange, AdminCodec}.
Context (unicode_lower : Z → Z) (headers_decode : string → option (gmap string string)).
Context (json_marshal : Any → option string) (request_ok : string → bool).
Context (rpc_decode : string → RPCResponse + error) (object_decode : string → list (string * Any) + error).
Context (proxyCfg : MCPProxyConfig) (quote : string → string) (parse_rfc3339 : string → Time).
Context (s3Bucket : string) (oauthASEnabled : bool) (publicBaseURL : string).

(** The handler with the services it points to. *)
Record AdminHandler := mkAdminHandler {
  ah_access : Store;
  ah_usage : Service;
  ah_proxy : option Manager;
  ah_ensured : gmap string Time
}.
#[export] Instance settable_AdminHandler : Settable AdminHandler := λ h,
  mkAdminHandler h.(ah_access) h.(ah_usage) h.(ah_proxy) h.(ah_ensured).
Implicit Types (h : AdminHandler) (r : AdminReq) (p : Principal) (env : nat → Env).

Definition shouldEnsurePrincipal (t : Time) h (subjectKey : string) : AdminHandler * bool :=
  let fresh := match h.(ah_ensured) !! subjectKey with Some u => (t - u <? ensurePrincipalTTL)%Z | None => false end in
  if fresh then (h, false) else (h <| ah_ensured := <[subjectKey := t]> h.(ah_ensured) |>, true).

(** The outcome of an operation of the access store. *)
Definition on_access h (r : Store * AdminReply) : AdminHandler * AdminReply := (h <| ah_access := r.1 |>, r.2).

Definition reply_of {X} (status : Z) (body : X → AdminBody) (r : ret X) : AdminReply :=
  match r with (_, Some err) => bad err | (x, None) => mkAdminReply status (body x) end.

Definition done_or_bad (r : option error) (reply : AdminReply) : AdminReply := match r with Some err => bad err | None => reply end.

(** ** Users *)

Definition currentUser h p : AdminReply :=
  match UserBySubjectKey h.(ah_access) (SubjectKeyForPrincipal p) with
  | (_, Some err) => bad err
  | (None, None) => not_found
  | (Some user, None) => mkAdminReply 200 (BUser user)
  end.

Definition getUser h p (path : string) : AdminReply :=
  match GetUser h.(ah_access) (idFromPath path 1) with
  | (_, Some err) => bad err
  | (None, None) => not_found
  | (Some user, None) => if negb (canEditUser p user) then forbidden_reply else mkAdminReply 200 (BUser user)
  end.

Definition createUser (e : Env) h r : AdminHandler * AdminReply :=
  match dec_user r.(ar_body) with
  | inr err => (h, bad err)
  | inl req => let '(a, res) := CreateUser e h.(ah_access) req in on_access h (a, reply_of 201 BUser res)
  end.

Definition updateUser h r p (path : string) : AdminHandler * AdminReply :=
  let userID := idFromPath path 1 in
  match GetUser h.(ah_access) userID with
  | (_, Some err) => (h, bad err)
  | (None, None) => (h, not_found)
  | (Some existing, None) =>
      if negb (canEditUser p existing) then (h, forbidden_reply)
      else match dec_user r.(ar_body) with
      | inr err => (h, bad err)
      | inl req =>
          let req := if isPlatformAdmin p then req else req <| User_Status := "" |> in
          let '(a, res) := UpdateUser h.(ah_access) userID req in on_access h (a, reply_of 200 BUser res)
      end
  end.

(** The current password of a caller who is no administrator. *)
Definition passwordRefused h p (userID current : string) : option AdminReply :=
  if isPlatformAdmin p then None
  else match HasUserPassword h.(ah_access) userID with
  | (_, Some err) => Some (bad err)
  | (false, None) => None
  | (true, None) =>
      match CheckUserPassword h.(ah_access) userID current with
      | (_, Some err) => Some (bad err)
      | (false, None) => Some (error_reply "current password is invalid" 403)
      | (true, None) => None
      end
  end.

Definition changeUserPassword (e : Env) h r p (path : string) : AdminHandler * AdminReply :=
  let userID := idFromPath path 1 in
  match GetUser h.(ah_access) userID with
  | (_, Some err) => (h, bad err)
  | (None, None) => (h, not_found)
  | (Some existing, None) =>
      if negb (canEditUser p existing) then (h, forbidden_reply)
      else match dec_password r.(ar_body) with
      | inr err => (h, bad err)
      | inl (current, new) =>
          if (slen new <? 8)%Z then (h, error_reply "new password must be at least 8 characters" 422)
          else match passwordRefused h p userID current with
          | Some reply => (h, reply)
          | None =>
              let '(a, err) := SetUserPassword e h.(ah_access) userID new in
              on_access h (a, done_or_bad err (mkAdminReply 200 (BStatus [("status", "password_updated")])))
          end
      end
  end.

Definition deleteUser h (path : string) : AdminHandler * AdminReply :=
  let '(a, err) := DeleteUser h.(ah_access) (idFromPath path 1) in on_access h (a, done_or_bad err no_content).

(** ** Groups *)

Definition createGroup (e : Env) h r : AdminHandler * AdminReply :=
  match dec_group r.(ar_body) with
  | inr err => (h, bad err)
  | inl req => let '(a, res) := CreateGroup e h.(ah_access) req in on_access h (a, reply_of 201 BGroup res)
  end.

Definition deleteGroup h (path : string) : AdminHandler * AdminReply :=
  let '(a, err) := DeleteGroup h.(ah_access) (idFromPath path 1) in on_access h (a, done_or_bad err no_content).

(** [groups/{id}/members/{user}]; one definition for the two handlers. *)
Definition memberPath (path : string) : option (string * string) :=
  match parts path with _ :: group :: _ :: user :: _ => Some (group, user) | _ => None end.

Definition addGroupMember (e : Env) h (path : string) : AdminHandler * AdminReply :=
  match memberPath path with
  | None => (h, error_reply "invalid member path" 400)
  | Some (group, user) =>
      let '(a, err) := AddGroupMember e h.(ah_access) group user "internal" in on_access h (a, done_or_bad err no_content)
  end.

Definition removeGroupMember h (path : string) : AdminHandler * AdminReply :=
  match memberPath path with
  | None => (h, error_reply "invalid member path" 400)
  | Some (group, user) =>
      let '(a, err) := RemoveGroupMember h.(ah_access) group user in on_access h (a, done_or_bad err no_content)
  end.

(** ** Storages *)

(** The permission of the caller on a storage; a token does not count. *)
Definition refusedOn h p (storageID : string) (perm : StoragePermission) : option AdminReply :=
  match CanAccessStorage h.(ah_access) p None [] storageID perm with
  | (_, Some err) => Some (bad err)
  | ((_, false), None) => Some forbidden_reply
  | ((_, true), None) => None
  end.

Definition listStorages (e : Env) h p : AdminReply :=
  match AvailableStorages e h.(ah_access) p None [] with
  | (_, Some err) => bad err
  | ((storages, _), None) => mkAdminReply 200 (BStorages storages)
  end.

Definition createStorage (e : Env) h r p : AdminHandler * AdminReply :=
  match dec_storage r.(ar_body) with
  | inr err => (h, bad err)
  | inl req =>
      let req := if req.(Storage_OwnerSubjectKey) =s ""
                 then req <| Storage_OwnerSubjectKey := SubjectKeyForPrincipal p |> else req in
      let req := if req.(Storage_S3Bucket) =s "" then req <| Storage_S3Bucket := s3Bucket |> else req in
      let '(a, res) := CreateStorage e h.(ah_access) req (SubjectKeyForPrincipal p) in on_access h (a, reply_of 201 BStorage res)
  end.

Definition getStorageDetails h p (path : string) : AdminReply :=
  let storageID := idFromPath path 1 in
  match GetStorage h.(ah_access) storageID with
  | (_, Some err) => bad err
  | (None, None) => not_found
  | (Some st, None) =>
      match refusedOn h p storageID PermissionStorageRead with
      | Some reply => reply
      | None =>
          match ACLForStorage h.(ah_access) storageID with
          | (_, Some err) => bad err
          | (acl, None) => reply_of 200 (BDetails st acl) (TokenAccessByStorage h.(ah_access) storageID)
          end
      end
  end.

Definition deleteStorage h p (path : string) : AdminHandler * AdminReply :=
  let storageID := idFromPath path 1 in
  match refusedOn h p storageID PermissionStorageDelete with
  | Some reply => (h, reply)
  | None => let '(a, err) := DeleteStorage h.(ah_access) storageID in on_access h (a, done_or_bad err no_content)
  end.

Definition storageACL h p (path : string) : AdminReply :=
  let storageID := storageIDFromACLPath path in
  match refusedOn h p storageID PermissionACLManage with
  | Some reply => reply
  | None => reply_of 200 BACL (ACLForStorage h.(ah_access) storageID)
  end.

Definition upsertACL (e : Env) h r p (path : string) : AdminHandler * AdminReply :=
  let storageID := storageIDFromACLPath path in
  match refusedOn h p storageID PermissionACLManage with
  | Some reply => (h, reply)
  | None =>
      match dec_acl r.(ar_body) with
      | inr err => (h, bad err)
      | inl req =>
          let b := req <| ACLBinding_StorageID := storageID |> in
          let b := if b.(ACLBinding_GrantedBy) =s "" then b <| ACLBinding_GrantedBy := SubjectKeyForPrincipal p |> else b in
          let '(a, res) := UpsertACL e h.(ah_access) b in on_access h (a, reply_of 200 BBinding res)
      end
  end.

(** ** Tokens *)

Definition listTokens h p : AdminReply :=
  match ListTokens h.(ah_access) with
  | (_, Some err) => bad err
  | (tokens, None) =>
      mkAdminReply 200 (BTokens (if isPlatformAdmin p then tokens
        else List.filter (λ token, token.(AccessToken_OwnerSubjectKey) =s SubjectKeyForPrincipal p) tokens))
  end.

Definition canManageToken h p (tokenID : string) : ret bool :=
  if isPlatformAdmin p then ok true
  else match GetToken h.(ah_access) tokenID with
  | (_, Some err) => fails false err
  | (None, None) => ok false
  | (Some t, None) => ok (t.(AccessToken_OwnerSubjectKey) =s SubjectKeyForPrincipal p)
  end.

(** The reply when the caller may not. *)
Definition requireTokenOwner h p (tokenID : string) : option AdminReply :=
  match canManageToken h p tokenID with
  | (_, Some err) => Some (bad err)
  | (false, None) => Some forbidden_reply
  | (true, None) => None
  end.

(** [SaveTokenMCPServers]; its error is dropped. *)
Definition saveScopes (e : Env) h (tokenID : string) (scopes : list AccessTokenMCPServer) : AdminHandler :=
  match h.(ah_proxy), scopes with
  | Some m, _ :: _ =>
      let scopes := (λ sc, sc <| AccessTokenMCPServer_TokenID := tokenID |>) <$> scopes in
      h <| ah_proxy := Some (m <| mg_store := (ReplaceTokenMCPServers e m.(mg_store) tokenID scopes).1 |>) |>
  | _, _ => h
  end.

(** A token is minted; the raw token is shown once. *)
Definition mint (e1 e2 : Env) h (inp : CreateTokenInput) (mcpScopes : list AccessTokenMCPServer) : AdminHandler * AdminReply :=
  match CreateToken unicode_lower e1 h.(ah_access) inp with
  | (a, (_, Some err)) => (h <| ah_access := a |>, bad err)
  | (a, ((token, raw), None)) =>
      (saveScopes e2 (h <| ah_access := a |>) token.(AccessToken_ID) mcpScopes, mkAdminReply 201 (BToken token raw))
  end.

(** [env 0] and [env 1] are for [EnsurePrincipal], here and in [ServeHTTP]. *)
Definition createToken (env : nat → nat → Env) h r p : AdminHandler * AdminReply :=
  match dec_token r.(ar_body) with
  | inr err => (h, bad err)
  | inl req =>
      let mode := if req.(ctr_Mode) =s "" then AccessModeRead else req.(ctr_Mode) in
      let mintWith h ids :=
        mint (env 2 0) (env 3 0) h
          (mkCreateTokenInput (SubjectKeyForPrincipal p) req.(ctr_Name) mode
             ((λ id, mkAccessTokenStorage "" id mode [] 0%Z) <$> ids) req.(ctr_RateLimit) req.(ctr_ExpiresAt) (SubjectKeyForPrincipal p))
          req.(ctr_MCPServers) in
      match req.(ctr_StorageIDs) with
      | [] =>
          match EnsurePrincipal (env 1) h.(ah_access) p s3Bucket with
          | (a, (_, Some err)) => (h <| ah_access := a |>, bad err)
          | (a, ((_, st), None)) => mintWith (h <| ah_access := a |>) [st.(Storage_ID)]
          end
      | ids => mintWith h ids
      end
  end.

Definition deleteToken (env : nat → nat → Env) h p (path : string) : AdminHandler * AdminReply :=
  let tokenID := idFromPath path 1 in
  match requireTokenOwner h p tokenID with
  | Some reply => (h, reply)
  | None =>
      let h := match h.(ah_proxy) with
               | Some m => h <| ah_proxy := Some (m <| mg_store := (ReplaceTokenMCPServers (env 3 0) m.(mg_store) tokenID []).1 |>) |>
               | None => h
               end in
      let '(a, err) := DeleteToken h.(ah_access) tokenID in on_access h (a, done_or_bad err no_content)
  end.

Definition patchRateLimit h r p (path : string) : AdminHandler * AdminReply :=
  let tokenID := tokenIDFromPath path in
  match requireTokenOwner h p tokenID with
  | Some reply => (h, reply)
  | None =>
      match dec_rateLimit r.(ar_body) with
      | inr err => (h, bad err)
      | inl req =>
          let '(a, err) := UpdateTokenRateLimit h.(ah_access) tokenID req in
          on_access h (a, done_or_bad err (mkAdminReply 200 (BStatus [("status", "updated"); ("tokenId", tokenID)])))
      end
  end.

Definition revokeToken (e : Env) h p (path : string) : AdminHandler * AdminReply :=
  let tokenID := tokenIDFromPath path in
  match requireTokenOwner h p tokenID with
  | Some reply => (h, reply)
  | None => let '(a, err) := RevokeToken e h.(ah_access) tokenID in on_access h (a, done_or_bad err no_content)
  end.

Definition rotateToken (env : nat → nat → Env) h p (path : string) : AdminHandler * AdminReply :=
  let oldID := tokenIDFromPath path in
  match requireTokenOwner h p oldID with
  | Some reply => (h, reply)
  | None =>
      let scopes := (TokenStorages h.(ah_access) oldID).1 in
      let mcpScopes := match h.(ah_proxy) with Some m => (TokenMCPServers m.(mg_store) oldID).1 | None => [] end in
      let h := h <| ah_access := (RevokeToken (env 4 0) h.(ah_access) oldID).1 |> in
      mint (env 2 0) (env 3 0) h
        (mkCreateTokenInput (SubjectKeyForPrincipal p) "Rotated MCP token" AccessModeRead scopes zeroval None (SubjectKeyForPrincipal p))
        mcpScopes
  end.

Definition connectOptions r : AdminReply :=
  let client := r.(ar_query) "client" in
  let '(client, raw) := if r.(ar_method) =s "POST"
                        then let '(c, t) := dec_connect r.(ar_body) in (if c =s "" then client else c, t) else (client, "") in
  let client := if client =s "" then "generic" else client in
  let raw := if raw =s "" then "<rotate-or-create-token-to-reveal>" else raw in
  let base := if publicBaseURL =s "" then serverBaseURL r else publicBaseURL in
  mkAdminReply 200 (BConnect (buildConnectConfig client base raw oauthASEnabled)).

(** ** Usage *)

Definition parseTimeRange r : Time * Time := (parse_rfc3339 (r.(ar_query) "from"), parse_rfc3339 (r.(ar_query) "to")).

Definition usageSeries h r : AdminReply :=
  let '(from, to) := parseTimeRange r in
  let metric := r.(ar_query) "metric" in
  let groupBy := r.(ar_query) "groupBy" in
  mkAdminReply 200 (BSeries (if metric =s "" then "requests" else metric) (if groupBy =s "" then "storage" else groupBy)
    (seriesPoints h.(ah_usage) groupBy from to)).

Definition usageSummary h r : AdminReply :=
  let '(from, to) := parseTimeRange r in
  mkAdminReply 200 (BSeries "requests" "storage" (seriesPoints h.(ah_usage) "storage" from to)).

(** ** Proxied servers *)

(** [CanAccessMCPServer] without a token; its error counts as a refusal. *)
Definition mayServer (m : Manager) p (id : string) (perm : MCPServerPermission) : bool :=
  (CanAccessMCPServer (Some m.(mg_store)) p None [] id perm).1.

Definition on_proxy h (m : Manager) (r : ProxyStore * AdminReply) : AdminHandler * AdminReply :=
  (h <| ah_proxy := Some (m <| mg_store := r.1 |>) |>, r.2).

Definition listMCPServers (m : Manager) p : AdminReply :=
  match ListServers m.(mg_store) with
  | (_, Some err) => error_reply (Error_text err) 500
  | (all, None) => mkAdminReply 200 (BServers (List.filter (λ srv, mayServer m p srv.(MCPServer_ID) PermissionMCPServerUse) all))
  end.

Definition createMCPServer (e : Env) h (m : Manager) r p : AdminHandler * AdminReply :=
  match dec_createServer r.(ar_body) with
  | inr err => (h, bad err)
  | inl req =>
      let inp := mkCreateServerInput req.(CS_Slug) req.(CS_Name) (SubjectKeyForPrincipal p) req.(CS_Transport) req.(CS_URL)
                   req.(CS_HeadersJSON) req.(CS_AuthType) req.(CS_AuthHeaderName) req.(CS_AuthSecret) in
      let '(s, res) := CreateServer unicode_lower e m.(mg_store) inp in on_proxy h m (s, reply_of 201 BServer res)
  end.

Definition getMCPServer (m : Manager) p (id : string) : AdminReply :=
  if negb (mayServer m p id PermissionMCPServerUse) then forbidden_reply
  else match GetCapabilities m.(mg_store) id with
  | (_, Some err) => error_reply (Error_text err) 404
  | (caps, None) => mkAdminReply 200 (BServerDetails caps (ACLForServer m.(mg_store) id).1)
  end.

(** The secret of the body: left alone when empty, cleared by [__clear__]. *)
Definition patchInput (req : UpdateServerInput) : UpdateServerInput :=
  let put secret clear := mkUpdateServerInput req.(US_Name) req.(US_Transport) req.(US_URL) req.(US_HeadersJSON) req.(US_AuthType)
                            req.(US_AuthHeaderName) secret clear in
  match req.(US_AuthSecret) with
  | Some s => if s =s "__clear__" then put None true else if s =s "" then put None false else put (Some s) false
  | None => put None false
  end.

Definition patchMCPServer (e : Env) h (m : Manager) r p (id : string) : AdminHandler * AdminReply :=
  if negb (mayServer m p id PermissionMCPServerManage) then (h, forbidden_reply)
  else match dec_patchServer r.(ar_body) with
  | inr err => (h, bad err)
  | inl req => let '(s, res) := UpdateServer e m.(mg_store) id (patchInput req) in on_proxy h m (s, reply_of 200 BServer res)
  end.

Definition clearMCPServerSecret (e : Env) h (m : Manager) p (id : string) : AdminHandler * AdminReply :=
  if negb (mayServer m p id PermissionMCPServerManage) then (h, forbidden_reply)
  else let '(s, err) := ClearAuthSecret e m.(mg_store) id in on_proxy h m (s, done_or_bad err no_content).

Definition deleteMCPServer h (m : Manager) p (id : string) : AdminHandler * AdminReply :=
  if negb (mayServer m p id PermissionMCPServerDelete) then (h, forbidden_reply)
  else let '(s, err) := DeleteServer m.(mg_store) id in on_proxy h m (s, done_or_bad err no_content).

Definition connectTestMCPServer (e : Env) h (m : Manager) p (id : string) : AdminHandler * AdminReply :=
  if negb (mayServer m p id PermissionMCPServerManage) then (h, forbidden_reply)
  else match ConnectTest unicode_lower headers_decode json_marshal request_ok rpc_decode object_decode proxyCfg e m id with
  | (m, (_, Some err)) => (h <| ah_proxy := Some m |>, error_reply (Error_text err) 502)
  | (m, (caps, None)) => (h <| ah_proxy := Some m |>, mkAdminReply 200 (BCapabilities caps))
  end.

Definition setMCPServerCapabilities h (m : Manager) r p (id : string) : AdminHandler * AdminReply :=
  if negb (mayServer m p id PermissionMCPServerManage) then (h, forbidden_reply)
  else match dec_capabilities r.(ar_body) with
  | inr err => (h, bad err)
  | inl (tools, resources, prompts) =>
      match SetEnabledCapabilities m.(mg_store) id tools resources prompts with
      | (s, Some err) => on_proxy h m (s, bad err)
      | (s, None) => on_proxy h m (s, reply_of 200 BCapabilities (GetCapabilities s id))
      end
  end.

(** Nothing is asked of the caller. *)
Definition getMCPServerACL (m : Manager) (id : string) : AdminReply := reply_of 200 BServerACL (ACLForServer m.(mg_store) id).

Definition putMCPServerACL (e : Env) h (m : Manager) r p (id : string) : AdminHandler * AdminReply :=
  if negb (mayServer m p id PermissionMCPServerManage) then (h, forbidden_reply)
  else match dec_serverACL r.(ar_body) with
  | inr err => (h, bad err)
  | inl req =>
      let b := req <| MCPServerACLBinding_ServerID := id |> <| MCPServerACLBinding_GrantedBy := SubjectKeyForPrincipal p |> in
      let '(s, res) := UpsertServerACL e m.(mg_store) b in on_proxy h m (s, reply_of 200 BServerBinding res)
  end.

Definition handleMCPServers (e : Env) h r p (path : string) : AdminHandler * AdminReply :=
  match h.(ah_proxy) with
  | None => (h, error_reply "mcp proxy is not configured" 503)
  | Some m =>
      let on_meth method := r.(ar_method) =s method in
      let named suffix := between path "/mcp-servers/" suffix in
      let server := HasPrefix path "/mcp-servers/" && (mcpServerID path <>s "") in
      if on_meth "GET" && (path =s "/mcp-servers") then (h, listMCPServers m p)
      else if on_meth "POST" && (path =s "/mcp-servers") then createMCPServer e h m r p
      else if on_meth "POST" && HasSuffix path "/connect-test" then connectTestMCPServer e h m p (named "/connect-test")
      else if on_meth "PUT" && HasSuffix path "/capabilities" then setMCPServerCapabilities h m r p (named "/capabilities")
      else if on_meth "GET" && HasSuffix path "/acl" then (h, getMCPServerACL m (named "/acl"))
      else if on_meth "PUT" && HasSuffix path "/acl" then putMCPServerACL e h m r p (named "/acl")
      else if on_meth "DELETE" && HasSuffix path "/auth-secret" then clearMCPServerSecret e h m p (named "/auth-secret")
      else if on_meth "GET" && server then (h, getMCPServer m p (mcpServerID path))
      else if on_meth "PATCH" && server then patchMCPServer e h m r p (mcpServerID path)
      else if on_meth "DELETE" && server then deleteMCPServer h m p (mcpServerID path)
      else (h, http_NotFound)
  end.

(** The loop of [patchTokenMCPScopes]. *)
Definition badScope (m : Manager) (scopes : list AccessTokenMCPServer) : option error :=
  foldr (λ sc rest, match ValidateScopeNames quote m sc.(AccessTokenMCPServer_ServerID) sc.(AccessTokenMCPServer_ToolAllowlist)
                            sc.(AccessTokenMCPServer_ResourceAllowlist) sc.(AccessTokenMCPServer_PromptAllowlist) with
                    | Some err => Some err | None => rest end) None scopes.

Definition patchTokenMCPScopes (e : Env) h r p (tokenID : string) : AdminHandler * AdminReply :=
  match h.(ah_proxy) with
  | None => (h, error_reply "mcp proxy is not configured" 503)
  | Some m =>
      match requireTokenOwner h p tokenID with
      | Some reply => (h, reply)
      | None =>
          match dec_scopes r.(ar_body) with
          | inr err => (h, bad err)
          | inl scopes =>
              let scopes := (λ sc, sc <| AccessTokenMCPServer_TokenID := tokenID |>) <$> scopes in
              match badScope m scopes with
              | Some err => (h, bad err)
              | None =>
                  let '(s, err) := ReplaceTokenMCPServers e m.(mg_store) tokenID scopes in
                  on_proxy h m (s, done_or_bad err (mkAdminReply 200 (BStatus [("status", "updated")])))
              end
          end
      end
  end.

(** ** The switch *)

(** [env 5] is for the operation of a handler that has no more. *)
Definition adminRoute (env : nat → nat → Env) h r p : AdminHandler * AdminReply :=
  let path := TrimPrefix r.(ar_urlPath) "/api/admin" in
  let on_meth method := r.(ar_method) =s method in
  let e := env 5 0 in
  let reads reply := (h, reply) in
  let admin (k : AdminHandler * AdminReply) := if negb (isPlatformAdmin p) then (h, forbidden_reply) else k in
  if on_meth "GET" && (path =s "/me") then reads (currentUser h p)
  else if on_meth "GET" && (path =s "/users") then admin (reads (reply_of 200 BUsers (ListUsers h.(ah_access))))
  else if on_meth "GET" && HasPrefix path "/users/" then reads (getUser h p path)
  else if on_meth "POST" && (path =s "/users") then admin (createUser e h r)
  else if on_meth "PATCH" && HasPrefix path "/users/" then updateUser h r p path
  else if on_meth "POST" && HasSuffix path "/password" then changeUserPassword e h r p path
  else if on_meth "DELETE" && HasPrefix path "/users/" then admin (deleteUser h path)
  else if on_meth "GET" && (path =s "/groups") then admin (reads (reply_of 200 BGroups (ListGroups h.(ah_access))))
  else if on_meth "POST" && (path =s "/groups") then admin (createGroup e h r)
  else if on_meth "DELETE" && HasPrefix path "/groups/" && negb (Contains path "/members/") then admin (deleteGroup h path)
  else if on_meth "GET" && HasSuffix path "/members" then
    admin (reads (reply_of 200 BMembers (ListGroupMembers h.(ah_access) (idFromPath path 1))))
  else if on_meth "PUT" && Contains path "/members/" then admin (addGroupMember e h path)
  else if on_meth "DELETE" && Contains path "/members/" then admin (removeGroupMember h path)
  else if on_meth "GET" && (path =s "/storages") then reads (listStorages e h p)
  else if on_meth "GET" && HasPrefix path "/storages/" && negb (Contains path "/acl") && negb (Contains path "/usage")
  then reads (getStorageDetails h p path)
  else if on_meth "POST" && (path =s "/storages") then createStorage e h r p
  else if on_meth "DELETE" && HasPrefix path "/storages/" && negb (Contains path "/acl") then deleteStorage h p path
  else if on_meth "GET" && HasSuffix path "/acl" then reads (storageACL h p path)
  else if on_meth "PUT" && HasSuffix path "/acl" then upsertACL e h r p path
  else if on_meth "GET" && (path =s "/tokens") then reads (listTokens h p)
  else if on_meth "POST" && (path =s "/tokens") then createToken env h r p
  else if on_meth "DELETE" && HasPrefix path "/tokens/"
          && forallb (λ part, negb (Contains path part)) ["/connect-options"; "/mcp-scopes"; "/rate-limit"; "/revoke"; "/rotate"]
  then deleteToken env h p path
  else if on_meth "PATCH" && HasSuffix path "/rate-limit" then patchRateLimit h r p path
  else if on_meth "POST" && HasSuffix path "/revoke" then revokeToken e h p path
  else if on_meth "POST" && HasSuffix path "/rotate" then rotateToken env h p path
  else if (on_meth "GET" || on_meth "POST") && HasSuffix path "/connect-options" then reads (connectOptions r)
  else if on_meth "GET" && HasPrefix path "/usage/series" then reads (usageSeries h r)
  else if on_meth "GET" && HasPrefix path "/usage/summary" then reads (usageSummary h r)
  else if on_meth "GET" && Contains path "/usage" then reads (usageSeries h r)
  else if HasPrefix path "/mcp-servers" then handleMCPServers e h r p path
  else if on_meth "PATCH" && HasSuffix path "/mcp-scopes" then patchTokenMCPScopes e h r p (between path "/tokens/" "/mcp-scopes")
  else (h, http_NotFound).

(** The principal is the one the middleware put in the context. The result
    of [EnsurePrincipal] is dropped. *)
Definition ServeHTTP (env : nat → nat → Env) h r (p : option Principal) : AdminHandler * AdminReply :=
  match p with
  | None => (h, error_reply "unauthorized" 401)
  | Some p =>
      let '(h, ensure) := shouldEnsurePrincipal (now (env 6 0) 0) h (SubjectKeyForPrincipal p) in
      let h := if ensure then h <| ah_access := (EnsurePrincipal (env 0) h.(ah_access) p s3Bucket).1 |> else h in
      adminRoute env h r p
  end.
End Admin.

(** ** auth_middleware.go *)

Definition isMutatingMethod (method : string) : bool := sContains ["POST"; "PUT"; "PATCH"; "DELETE"] method.

(** How a request got through: with the session of the cookie or with what
    the gateway found. *)
Inductive admitted := ByCookie (p : Principal) (ac : APIAccessContext) | ByGateway (p : Principal) (ac : APIAccessContext).

Section Middleware.
Context `{!SessionRedis, !Codec WebSession}.

(** [cookie]: the value of [session_id]; [gateway]: what the middleware of the
    gateway makes of the request, a principal with its access context or an
    error reply. *)
Definition AuthMiddleware (t : Time) (sessions : SessionStore) (method : string) (cookie : option string) (csrf : string)
    (gateway : (Principal * APIAccessContext) + AdminReply) : admitted + AdminReply :=
  let rest := match gateway with inl (p, ac) => inl (ByGateway p ac) | inr reply => inr reply end in
  match cookie with
  | None => rest
  | Some id =>
      match GetWebSession t sessions id with
      | (ws, true) =>
          if isMutatingMethod method && (csrf <>s ws.(WebSession_CSRFToken)) then inr (error_reply "invalid csrf token" 403)
          else inl (ByCookie ws.(WebSession_Principal)
                      ((zeroval : APIAccessContext) <| APIAccessContext_Principal := ws.(WebSession_Principal) |>
                         <| APIAccessContext_AuthMode := "web_session" |>
                         <| APIAccessContext_GrantedScopes := ws.(WebSession_Principal).(Principal_Scopes) |>))
      | (_, false) => rest
      end
  end.
End Middleware.

(** [rateLimitMiddleware]: the reply that stops the request, if any. *)
Definition rateLimitMiddleware `{Redis} (t : nat → Time) (usage : Service) (ac : APIAccessContext) : Service * option AdminReply :=
  match ac.(APIAccessContext_AccessToken) with
  | None => (usage, None)
  | Some token =>
      match Allow t usage token "" with
      | (u, (_, Some _)) => (u, Some (error_reply "rate limiter unavailable" 503))
      | (u, (false, None)) => (u, Some (error_reply "rate limit exceeded" 429))
      | (u, (true, None)) => (u, None)
      end
  end.
