(* ===== verification/HttpAdminProps.v ===== *)
(** What the administration over HTTP guarantees: a caller without platform
    rights stays within what it owns or administers, a browser's request is
    admitted only with the token of its session; and what it does not: bodies
    choose identifiers, and a caller's own token asks for any storage. *)
From S2P Require Import Prelude GoStrings GoCrypto Models DataObj AccessState AccessObjects AccessService AccessProps AccessInv AccessFlows Usage UsageProps Proxy ProxyStore ProxyManager ProxyProps Sessions DataPlane McpAdmin McpAdminProps HttpAdmin.
From Stdlib Require Import Ascii.

(** ** What a caller who is no platform administrator can change *)

Section Within.
Context `{Postgres, GoRange}.
Implicit Types (s : Store) (p : Principal).

(** The caller holds an administrative role on the storage. *)
Notation rules s p id := (administers s p zeroval id).
Notation self p := (SubjectKeyForPrincipal p).

(** The entry of the caller in the table of users. *)
Definition own_user p (id : string) (u : User) : Prop := u.(User_SubjectKey) = self p ∨ id = subjectID (self p).

Record rest_within p s s' : Prop := {
  rw_users : ∀ id u, s.(s_users) !! id = Some u → s'.(s_users) !! id = Some u ∨ own_user p id u;
  rw_users_new : ∀ id u, s'.(s_users) !! id = Some u → is_Some (s.(s_users) !! id) ∨ u.(User_SubjectKey) = self p;
  rw_groups : ∀ id g, s.(s_groups) !! id = Some g → s'.(s_groups) !! id = Some g
    ∨ ∃ k, k ∈ GroupSubjectKeysForPrincipal p ∧ id = subjectIDForService k;
  rw_memberships : s'.(s_memberships) = s.(s_memberships);
  rw_storages : ∀ id st, s.(s_storages) !! id = Some st → s'.(s_storages) !! id = Some st ∨ rules s p id;
  rw_acl : ∀ k b, s.(s_acl) !! k = Some b → s'.(s_acl) !! k = Some b ∨ rules s p b.(ACLBinding_StorageID);
  rw_acl_new : ∀ k b, s'.(s_acl) !! k = Some b → s.(s_acl) !! k = Some b ∨ rules s p b.(ACLBinding_StorageID)
    ∨ s.(s_storages) !! b.(ACLBinding_StorageID) = None;
  rw_objects : s.(s_objects) ⊆ s'.(s_objects);
  rw_objectACL : s.(s_objectACL) ⊆ s'.(s_objectACL);
  rw_tokens : ∀ id tok, s.(s_tokens) !! id = Some tok → s'.(s_tokens) !! id = Some tok ∨ tok.(AccessToken_OwnerSubjectKey) = self p;
  rw_tokens_new : ∀ id tok, s'.(s_tokens) !! id = Some tok →
    s.(s_tokens) !! id = Some tok ∨ tok.(AccessToken_OwnerSubjectKey) = self p;
  rw_scopes_kept : ∀ sc, sc ∈ s.(s_tokenScopes) → sc ∈ s'.(s_tokenScopes) ∨ rules s p sc.(AccessTokenStorage_StorageID)
    ∨ ∃ tok, s.(s_tokens) !! sc.(AccessTokenStorage_TokenID) = Some tok ∧ tok.(AccessToken_OwnerSubjectKey) = self p;
  rw_scopes : ∀ sc, sc ∈ s'.(s_tokenScopes) → sc ∈ s.(s_tokenScopes)
    ∨ ∃ tok, s'.(s_tokens) !! sc.(AccessTokenStorage_TokenID) = Some tok ∧ tok.(AccessToken_OwnerSubjectKey) = self p
}.

Lemma rest_refl p s : rest_within p s s.
Proof. split; eauto. Qed.

(** The identifiers drawn by a call are new. *)
Definition rest_fresh (env : nat → nat → Env) s : Prop := ∀ i k j,
  s.(s_acl) !! uuid (env i k) j = None ∧ s.(s_objectACL) !! uuid (env i k) j = None ∧ s.(s_tokens) !! uuid (env i k) j = None
  ∧ s.(s_storages) !! uuid (env i k) j = None ∧ s.(s_objects) !! uuid (env i k) j = None ∧ uuid (env i k) j ≠ "".

Definition users_keyed s : Prop := ∀ k u, s.(s_users) !! k = Some u → u.(User_ID) = k.

(** *** Tokens *)

Lemma rest_alter_token p s id f tok : s.(s_tokens) !! id = Some tok → tok.(AccessToken_OwnerSubjectKey) = self p →
  (∀ t, (f t).(AccessToken_OwnerSubjectKey) = t.(AccessToken_OwnerSubjectKey)) → rest_within p s (alter_token s id f).
Proof.
  intros Ht Ho Hf. unfold alter_token. rewrite Ht. split; cbn; eauto.
  - intros id' tok' Ht'. destruct (decide (id' = id)) as [->|]; [right; congruence|left; by rewrite lookup_insert_ne].
  - intros id' tok' [[<- <-]|[_ ?]]%lookup_insert_Some; [right; by rewrite Hf|by left].
Qed.

Lemma rest_delete_token p s id tok : s.(s_useDB) = false → s.(s_tokens) !! id = Some tok →
  tok.(AccessToken_OwnerSubjectKey) = self p → rest_within p s (DeleteToken s id).1.
Proof.
  intros Hdb Ht Ho. unfold DeleteToken. rewrite Hdb, Ht. split; cbn; eauto.
  - intros id' tok' Ht'. destruct (decide (id' = id)) as [->|]; [right; congruence|left; by rewrite lookup_delete_ne].
  - intros id' tok' [_ ?]%lookup_delete_Some. by left.
  - intros sc Hin. destruct (String.eqb_spec sc.(AccessTokenStorage_TokenID) id) as [->|Hne]; [eauto|left].
    apply elem_of_filter_bool. split; [done|]. by apply negb_true_iff, String.eqb_neq.
  - intros sc [? _]%elem_of_filter_bool. by left.
Qed.

(** A token minted for the caller, after other changes. *)
Lemma rest_mint ul e p s s1 inp s2 r : rest_within p s s1 → s1.(s_useDB) = false → s1.(s_tokens) !! uuid e 0 = None →
  inp.(In_OwnerSubjectKey) = self p → CreateToken ul e s1 inp = (s2, r) → rest_within p s s2.
Proof.
  intros Hw Hdb Hid Ho. unfold CreateToken. rewrite Hdb. destruct (_ =s ""); [by intros [= <- _]|].
  destruct (newRawToken _) as [raw [err|]]; [by intros [= <- _]|]. intros [= <- _]. destruct Hw as [Hu Hun Hg Hm Hst Ha Han Hob Hoa Ht Htn Hkept Hsc].
  split; cbn; eauto.
  - intros id tok Htok. destruct (Ht id tok Htok) as [Ht1|?]; [left|by right]. rewrite lookup_insert_ne; [done|]. intros <-. congruence.
  - intros id tok [[<- <-]|[_ ?]]%lookup_insert_Some; [by right|eauto].
  - intros sc Hin. destruct (Hkept sc Hin) as [?|?]; [left; apply elem_of_app; by left|by right].
  - intros sc [Hin|Hin]%elem_of_app.
    + destruct (Hsc sc Hin) as [?|(tok & Htok & ?)]; [by left|right]. exists tok. split; [|done].
      rewrite lookup_insert_ne; [done|]. intros Heq. rewrite <- Heq in Htok. congruence.
    + right. apply list_elem_of_fmap in Hin as (sc' & -> & _). eexists.
      split; [rewrite (proj1 (completeScope_ids _ _ _)); apply lookup_insert_eq|exact Ho].
Qed.

(** *** Users *)

Lemma rest_user p s k u u' : s.(s_users) !! k = Some u → u.(User_SubjectKey) = self p → u'.(User_SubjectKey) = self p →
  rest_within p s (s <| s_users := <[k := u']> s.(s_users) |>).
Proof.
  intros Hk Hu Hu'. split; cbn; eauto.
  - intros id v Hv. destruct (decide (id = k)) as [->|]; [right; left; congruence|left; by rewrite lookup_insert_ne].
  - intros id v [[<- <-]|[_ ?]]%lookup_insert_Some; [by right|left; eauto].
Qed.

(** *** Storages and their ACL *)

Lemma rest_delete_storage p s id : s.(s_useDB) = false → rules s p id → rest_within p s (DeleteStorage s id).1.
Proof.
  intros Hdb Hr. unfold DeleteStorage. rewrite Hdb. split; cbn; eauto.
  - intros id' st Hst. destruct (decide (id' = id)) as [->|]; [by right|left; by rewrite lookup_delete_ne].
  - intros k b Hb. destruct (String.eqb_spec b.(ACLBinding_StorageID) id) as [->|Hne]; [by right|left].
    apply lookup_delete_if. split; [done|]. by apply String.eqb_neq.
  - intros k b [? _]%lookup_delete_if. by left.
  - intros sc Hin. destruct (String.eqb_spec sc.(AccessTokenStorage_StorageID) id) as [->|Hne]; [eauto|left].
    apply elem_of_filter_bool. split; [done|]. by apply negb_true_iff, String.eqb_neq.
  - intros sc [? _]%elem_of_filter_bool. by left.
Qed.

Lemma rest_grant p s b : rules s p b.(ACLBinding_StorageID) →
  (∀ b', s.(s_acl) !! b.(ACLBinding_ID) = Some b' → rules s p b'.(ACLBinding_StorageID)) →
  rest_within p s (s <| s_acl := <[b.(ACLBinding_ID) := b]> s.(s_acl) |>).
Proof.
  intros Hr Hf. split; cbn; eauto.
  - intros k b' Hb. destruct (decide (b.(ACLBinding_ID) = k)) as [<-|]; [right; by apply Hf|left; by rewrite lookup_insert_ne].
  - intros k b' [[<- <-]|[_ ?]]%lookup_insert_Some; auto.
Qed.

Lemma keep_if {A B} (f : A → B) (c : bool) a b v : f a = f b → f b = v → f (if c then a else b) = v.
Proof. by destruct c; intros; [etransitivity|]. Qed.

(** The identifier is drawn when there is none; the owner stays. *)
Lemma completeStorage_keeps e st : (completeStorage e st).(Storage_ID) = (if st.(Storage_ID) =s "" then uuid e 0 else st.(Storage_ID))
  ∧ (completeStorage e st).(Storage_OwnerSubjectKey) = st.(Storage_OwnerSubjectKey).
Proof.
  unfold completeStorage. split; cbn [Storage_ID].
  - do 6 (apply keep_if; [reflexivity|]). by destruct (_ =s "").
  - by repeat (apply keep_if; [reflexivity|]).
Qed.

(** A storage that is new. *)
Lemma rest_new_storage e p s s1 st actor : rest_within p s s1 → s1.(s_useDB) = false →
  s1.(s_acl) = s.(s_acl) → s1.(s_storages) = s.(s_storages) → s1.(s_objects) = s.(s_objects) → s1.(s_objectACL) = s.(s_objectACL) →
  (∀ j, s.(s_acl) !! uuid e j = None ∧ s.(s_objectACL) !! uuid e j = None ∧ s.(s_storages) !! uuid e j = None ∧ s.(s_objects) !! uuid e j = None) →
  (st.(Storage_ID) ≠ "" → s.(s_storages) !! st.(Storage_ID) = None ∧ s.(s_objects) !! st.(Storage_ID) = None) →
  rest_within p s (CreateStorage e s1 st actor).1.
Proof.
  intros Hw Hdb Hea Hes Heo Heoa Hf Hid. unfold CreateStorage. cbv zeta. rewrite Hdb.
  destruct (completeStorage_keeps e st) as [Hcid _].
  assert (Hnew : s.(s_storages) !! (completeStorage e st).(Storage_ID) = None ∧ s.(s_objects) !! (completeStorage e st).(Storage_ID) = None).
  { rewrite Hcid. destruct (String.eqb_spec st.(Storage_ID) ""); [by destruct (Hf 0) as (_ & _ & ? & ?)|by apply Hid]. }
  destruct Hnew as [Hs0 Ho0]. destruct (Hf 1) as (Ha1 & Hoa1 & _ & _). clear Hcid.
  set (id0 := (completeStorage e st).(Storage_ID)) in *. clearbody id0.
  destruct Hw as [Hu Hun Hg Hm Hst Ha Han Hob Hoa Ht Htn Hkept Hsc]. split; cbn; eauto.
  - intros id st' Hst'. left. rewrite Hes, lookup_insert_ne; [done|]. intros <-. congruence.
  - intros k b Hb. left. rewrite Hea, lookup_insert_ne; [done|]. intros <-. congruence.
  - intros k b [[_ <-]|[_ Hb]]%lookup_insert_Some; [by right; right|]. left. by rewrite <- Hea.
  - rewrite Heo. by apply insert_subseteq.
  - rewrite Heoa. by apply insert_subseteq.
Qed.

(** *** The caller's own user, groups and storage *)

Lemma subject_id_nonempty k : subjectIDForService k ≠ "".
Proof.
  unfold subjectIDForService. intros He%(f_equal (length ∘ bytes)). revert He. cbn -[take_bytes hex_encode Sum256].
  rewrite bytes_take_bytes, length_take, length_bytes, length_hex_encode, length_Sum256. done.
Qed.

Definition groups_kept p (gs gs' : gmap string Group) : Prop := ∀ id g, gs !! id = Some g →
  gs' !! id = Some g ∨ ∃ k, k ∈ GroupSubjectKeysForPrincipal p ∧ id = subjectIDForService k.

Lemma ensure_groups p env (l : list (nat * string)) s : s.(s_useDB) = false → (∀ i k, (i, k) ∈ l → k ∈ GroupSubjectKeysForPrincipal p) →
  ∃ gs, foldl (λ s ik, (CreateGroup (env (1 + ik.1)) s (groupOfKey p ik.2)).1) s l = s <| s_groups := gs |> ∧ groups_kept p s.(s_groups) gs.
Proof.
  revert s. induction l as [|[i k] l IH]; intros s Hdb Hl; [exists s.(s_groups); split; [by destruct s|by left]|]. cbn [foldl fst snd].
  set (g0 := completeGroup (env (1 + i)) (groupOfKey p k)).
  assert (Hid : g0.(Group_ID) = subjectIDForService k).
  { unfold g0, completeGroup. cbn [Group_ID groupOfKey]. rewrite (seqb_neq_false (subjectIDForService k) "") by apply subject_id_nonempty. by repeat case_match. }
  assert (Hs : (CreateGroup (env (1 + i)) s (groupOfKey p k)).1 = s <| s_groups := <[g0.(Group_ID) := g0]> s.(s_groups) |>)
    by (unfold CreateGroup; by rewrite Hdb).
  rewrite Hs. destruct (IH (s <| s_groups := <[g0.(Group_ID) := g0]> s.(s_groups) |>)) as (gs & -> & Hgs);
    [done|intros i' k' ?; apply (Hl i'); by right|].
  exists gs. split; [done|]. intros id g Hg. destruct (decide (id = g0.(Group_ID))) as [->|Hne].
  - right. exists k. split; [apply (Hl i); by left|done].
  - apply Hgs. cbn. by rewrite lookup_insert_ne.
Qed.

Lemma rest_ensure env p s bucket s' r : s.(s_useDB) = false →
  (∀ k j, s.(s_acl) !! uuid (env k) j = None ∧ s.(s_objectACL) !! uuid (env k) j = None
          ∧ s.(s_storages) !! uuid (env k) j = None ∧ s.(s_objects) !! uuid (env k) j = None) →
  EnsurePrincipal env s p bucket = (s', r) → rest_within p s s' ∧ s'.(s_useDB) = false ∧ s'.(s_tokens) = s.(s_tokens).
Proof.
  intros Hdb Hf. unfold EnsurePrincipal, UpsertUserFromPrincipal. rewrite Hdb. cbv zeta. cbn [User_ID].
  set (user := match s.(s_users) !! _ with Some _ => _ | None => _ end).
  assert (Huser : user.(User_SubjectKey) = self p ∧ user.(User_ID) = subjectID (self p)) by (unfold user; by case_match).
  destruct Huser as [Hself Huid]. set (s1 := s <| s_users := <[user.(User_ID) := user]> s.(s_users) |>).
  assert (Hkeys : ∀ i k, (i, k) ∈ imap (λ i k, (i, k)) (GroupSubjectKeysForPrincipal p) → k ∈ GroupSubjectKeysForPrincipal p).
  { intros i k (j & ? & [= <- <-] & Hj)%elem_of_lookup_imap. by eapply list_elem_of_lookup_2. }
  destruct (ensure_groups p env _ s1 Hdb Hkeys) as (gs & -> & Hgs).
  assert (Hw : rest_within p s (s1 <| s_groups := gs |>)).
  { split; cbn; eauto.
    - intros id u Hu. destruct (decide (id = user.(User_ID))) as [->|]; [by right; right|left; by rewrite lookup_insert_ne].
    - intros id u [[_ <-]|[_ ?]]%lookup_insert_Some; [by right|left; eauto]. }
  unfold EnsurePersonalStorage, StorageBySlug. change (s_useDB (s1 <| s_groups := gs |>)) with s.(s_useDB). rewrite Hdb. unfold ok.
  destruct (List.find _ _) as [st|]; [intros [= <- _]; by split_and!|].
  match goal with |- context [CreateStorage ?e ?s0 ?st ?a] =>
    pose proof (rest_new_storage e p s s0 st a Hw Hdb eq_refl eq_refl eq_refl eq_refl (Hf _) ltac:(done)) as Hn end.
  unfold CreateStorage in *. cbv zeta in *. change (s_useDB (s1 <| s_groups := gs |>)) with s.(s_useDB) in *. rewrite Hdb in *.
  intros [= <- _]. by split_and!.
Qed.
End Within.

Section Rest.
Context `{Postgres, Bcrypt, ProxyDB, Upstream, AEAD, Redis, GoRange, AdminCodec}.
Context (unicode_lower : Z → Z) (headers_decode : string → option (gmap string string)).
Context (json_marshal : Any → option string) (request_ok : string → bool).
Context (rpc_decode : string → RPCResponse + error) (object_decode : string → list (string * Any) + error).
Context (proxyCfg : MCPProxyConfig) (quote : string → string) (parse_rfc3339 : string → Time).
Context (s3Bucket : string) (oauthASEnabled : bool) (publicBaseURL : string).
Implicit Types (h : AdminHandler) (r : AdminReq) (p : Principal) (m : Manager) (st : ProxyStore).

Lemma refused_rules h p id perm : perm ∈ [PermissionACLManage; PermissionTokenManage; PermissionStorageDelete] →
  ¬ platform_admin p → h.(ah_access).(s_useDB) = false → refusedOn h p id perm = None → administers h.(ah_access) p zeroval id.
Proof.
  intros Hperm Hna Hdb. unfold refusedOn. destruct (decide (id = "")) as [->|Hid]; [done|].
  rewrite CanAccessStorage_memory by done. unfold ok. destruct (evaluateStorageAccess _ _ _ _ _ _) as [eff b] eqn:He.
  destruct b; [|done]. intros _. assert (Hb : (evaluateStorageAccess p None [] (acl_of h.(ah_access) (SubjectKeys p)) id perm).2 = true) by (by rewrite He).
  apply evaluateStorageAccess_rule in Hb as [(b & Hb & Hs & Hp)|[Hadm _]]; [|destruct Hna; by left].
  apply elem_of_acl_of in Hb as [[k Hk] Hsub]. split; [done|]. exists k, b. split_and!; [done..|]. by eapply administrative_role.
Qed.


(** *** Proxied servers *)

(** The caller may change or delete the server. *)
Definition runs m p (id : string) : Prop :=
  mayServer m p id PermissionMCPServerManage = true ∨ mayServer m p id PermissionMCPServerDelete = true.

Record px_within p (owned : string → Prop) m st : Prop := {
  pw_servers : ∀ id srv, m.(mg_store).(px_servers) !! id = Some srv → st.(px_servers) !! id = Some srv ∨ runs m p id;
  pw_secrets : ∀ id sec, m.(mg_store).(px_secrets) !! id = Some sec → st.(px_secrets) !! id = Some sec ∨ runs m p id;
  pw_acl : ∀ k b, m.(mg_store).(px_acl) !! k = Some b → st.(px_acl) !! k = Some b ∨ runs m p b.(MCPServerACLBinding_ServerID);
  pw_acl_new : ∀ k b, st.(px_acl) !! k = Some b → m.(mg_store).(px_acl) !! k = Some b
    ∨ runs m p b.(MCPServerACLBinding_ServerID) ∨ m.(mg_store).(px_servers) !! b.(MCPServerACLBinding_ServerID) = None;
  pw_scopes : ∀ sc, sc ∈ m.(mg_store).(px_tokenScopes) → sc ∈ st.(px_tokenScopes) ∨ owned sc.(AccessTokenMCPServer_TokenID);
  pw_scopes_new : ∀ sc, sc ∈ st.(px_tokenScopes) → sc ∈ m.(mg_store).(px_tokenScopes) ∨ owned sc.(AccessTokenMCPServer_TokenID)
}.

Lemma px_refl o p m st : st.(px_tokenScopes) = m.(mg_store).(px_tokenScopes) → st.(px_servers) = m.(mg_store).(px_servers) → st.(px_secrets) = m.(mg_store).(px_secrets) →
  st.(px_acl) = m.(mg_store).(px_acl) → px_within p o m st.
Proof. intros Ht Hs Hc Ha. split; rewrite ?Hs, ?Hc, ?Ha, ?Ht; auto. Qed.

(** Only the entries of one server differ. *)
Lemma px_one o p m st id : st.(px_tokenScopes) = m.(mg_store).(px_tokenScopes) → runs m p id → st.(px_acl) = m.(mg_store).(px_acl) →
  (∀ id', id' ≠ id → st.(px_servers) !! id' = m.(mg_store).(px_servers) !! id') →
  (∀ id', id' ≠ id → st.(px_secrets) !! id' = m.(mg_store).(px_secrets) !! id') → px_within p o m st.
Proof.
  intros Ht Hr Ha Hs Hc. split; rewrite ?Ha, ?Ht; auto.
  - intros id' srv Hsrv. destruct (decide (id' = id)) as [->|]; [by right|left; by rewrite Hs].
  - intros id' sec Hsec. destruct (decide (id' = id)) as [->|]; [by right|left; by rewrite Hc].
Qed.

Definition px_fresh (e : Env) st : Prop := ∀ j,
  st.(px_servers) !! uuid e j = None ∧ st.(px_secrets) !! uuid e j = None ∧ st.(px_acl) !! uuid e j = None.

Lemma px_create o e m p inp : m.(mg_store).(px_useDB) = false → px_fresh e m.(mg_store) →
  px_within p o m (CreateServer unicode_lower e m.(mg_store) inp).1.
Proof.
  intros Hdb Hf. unfold CreateServer. destruct (_ =s ""); [by apply px_refl|]. cbv zeta.
  destruct (encryptSecret _ _ _) as [sec [err|]]; [by apply px_refl|]. rewrite Hdb.
  destruct (Hf 51) as (Hs & Hc & _), (Hf 52) as (_ & _ & Ha). split; cbn; try (by intros; left; case_match).
  - intros id srv Hsrv. left. case_match; cbn; (rewrite lookup_insert_ne; [done|]; intros <-; congruence).
  - intros id sec' Hsec. left. case_match; cbn; [|done]. rewrite lookup_insert_ne; [done|]. intros <-. congruence.
  - intros k b Hb. left. case_match; cbn; (rewrite lookup_insert_ne; [done|]; intros <-; congruence).
  - intros k b Hb. case_match; cbn in Hb; (apply lookup_insert_Some in Hb as [[_ <-]|[_ ?]]; [by right; right|by left]).
Qed.

Lemma px_update o e m p id inp : m.(mg_store).(px_useDB) = false → runs m p id → px_within p o m (UpdateServer e m.(mg_store) id inp).1.
Proof.
  intros Hdb Hr. unfold UpdateServer. destruct (GetServer _ _) as [srv [err|]]; [by apply px_refl|]. cbv zeta.
  destruct (secretForUpdate _ _ _ _) as [[sec has] [err|]]; [by apply px_refl|]. rewrite Hdb.
  apply (px_one o p m _ id); [by repeat case_match|done|by repeat case_match| |]; intros id' Hne; cbn.
  - repeat case_match; cbn; by rewrite lookup_insert_ne.
  - repeat case_match; cbn; rewrite ?lookup_delete_ne, ?lookup_insert_ne by done; done.
Qed.

Lemma px_clear o e m p id : m.(mg_store).(px_useDB) = false → runs m p id → px_within p o m (ClearAuthSecret e m.(mg_store) id).1.
Proof.
  intros Hdb Hr. unfold ClearAuthSecret. rewrite Hdb. apply (px_one o p m _ id); [by repeat case_match|done|by repeat case_match| |]; intros id' Hne; cbn.
  - case_match; cbn; [by rewrite lookup_insert_ne|done].
  - case_match; cbn; by rewrite lookup_delete_ne.
Qed.

Lemma px_delete o m p id : m.(mg_store).(px_useDB) = false → runs m p id → px_within p o m (DeleteServer m.(mg_store) id).1.
Proof.
  intros Hdb Hr. unfold DeleteServer. rewrite Hdb. split; cbn; eauto.
  - intros id' srv Hs. destruct (decide (id' = id)) as [->|]; [by right|left; by rewrite lookup_delete_ne].
  - intros id' srv Hs. destruct (decide (id' = id)) as [->|]; [by right|left; by rewrite lookup_delete_ne].
  - intros k b Hb. destruct (String.eqb_spec b.(MCPServerACLBinding_ServerID) id) as [->|Hne]; [by right|left].
    apply lookup_delete_if. split; [done|]. by apply String.eqb_neq.
  - intros k b [? _]%lookup_delete_if. by left.
Qed.

Lemma px_grant o e m p b : m.(mg_store).(px_useDB) = false → px_fresh e m.(mg_store) →
  (∀ b', b.(MCPServerACLBinding_ID) ≠ "" → m.(mg_store).(px_acl) !! b.(MCPServerACLBinding_ID) = Some b' → runs m p b'.(MCPServerACLBinding_ServerID)) →
  runs m p b.(MCPServerACLBinding_ServerID) → px_within p o m (UpsertServerACL e m.(mg_store) b).1.
Proof.
  intros Hdb Hf Hid Hr. unfold UpsertServerACL. cbv zeta. rewrite Hdb.
  destruct (Hf 0) as (_ & _ & Ha). set (b0 := if _ =s "" then _ else _). set (b1 := if IsZero _ then _ else _).
  assert (Hs : b1.(MCPServerACLBinding_ServerID) = b.(MCPServerACLBinding_ServerID)) by (unfold b1, b0; by destruct (_ =s ""), (IsZero _)).
  assert (Hi : ∀ b', m.(mg_store).(px_acl) !! b1.(MCPServerACLBinding_ID) = Some b' → runs m p b'.(MCPServerACLBinding_ServerID)).
  { intros b'. assert (Hi1 : b1.(MCPServerACLBinding_ID) = b0.(MCPServerACLBinding_ID)) by (unfold b1; by destruct (IsZero _)).
    rewrite Hi1. unfold b0. destruct (String.eqb_spec b.(MCPServerACLBinding_ID) ""); [cbn; by rewrite Ha|by apply Hid]. }
  split; cbn; eauto.
  - intros k b' Hb. destruct (decide (b1.(MCPServerACLBinding_ID) = k)) as [<-|]; [right; by apply Hi|left; by rewrite lookup_insert_ne].
  - intros k b' [[_ <-]|[_ ?]]%lookup_insert_Some; [right; left; by rewrite Hs|by left].
Qed.

Lemma px_connect o e m p id : m.(mg_store).(px_useDB) = false → runs m p id →
  px_within p o m (ConnectTest unicode_lower headers_decode json_marshal request_ok rpc_decode object_decode proxyCfg e m id).1.(mg_store).
Proof.
  intros Hdb Hr. assert (Hst : ∀ s status err c, s.(px_useDB) = false → s.(px_tokenScopes) = m.(mg_store).(px_tokenScopes) → s.(px_acl) = m.(mg_store).(px_acl) →
      s.(px_servers) = m.(mg_store).(px_servers) → s.(px_secrets) = m.(mg_store).(px_secrets) →
      px_within p o m (SetServerStatus (later 2 e) s id status err c).1).
  { intros s status err c Hd Ht Ha Hs Hc. unfold SetServerStatus. rewrite Hd. cbv zeta. case_match; [|by apply px_refl].
    apply (px_one o p m _ id); [exact Ht|done|exact Ha| |]; intros id' Hne; cbn; [by rewrite lookup_insert_ne, Hs|by rewrite Hc]. }
  destruct (ConnectTest_store unicode_lower headers_decode json_marshal request_ok rpc_decode object_decode proxyCfg e m id)
    as [->|[(status & err & c & ->)|(tools & resources & prompts & _ & _ & _ & Hs)]]; [by apply px_refl|by apply Hst|].
  revert Hs. cbv zeta. unfold UpsertDiscovery. rewrite Hdb. intros [->|(status & err & c & ->)]; [by apply px_refl|by apply Hst].
Qed.

(** *** The handlers *)

Notation self p := (SubjectKeyForPrincipal p).

(** The token is the caller's before or after the call. *)
Definition own_token p (s s' : Store) (id : string) : Prop :=
  ∃ tok, (s.(s_tokens) !! id = Some tok ∨ s'.(s_tokens) !! id = Some tok) ∧ tok.(AccessToken_OwnerSubjectKey) = self p.

Record rest_confined_to p h h' : Prop := {
  co_access : rest_within p h.(ah_access) h'.(ah_access);
  co_proxy : match h.(ah_proxy), h'.(ah_proxy) with
             | Some m, Some m' => px_within p (own_token p h.(ah_access) h'.(ah_access)) m m'.(mg_store)
             | None, None => True
             | _, _ => False
             end;
  co_usage : h'.(ah_usage) = h.(ah_usage)
}.

Lemma confined_access p h a : rest_within p h.(ah_access) a → rest_confined_to p h (h <| ah_access := a |>).
Proof. intros Ha. split; cbn; [done| |done]. destruct h.(ah_proxy); [by apply px_refl|done]. Qed.

Lemma confined_refl p h : rest_confined_to p h h.
Proof. replace h with (h <| ah_access := h.(ah_access) |>) at 2 by (by destruct h). apply confined_access, rest_refl. Qed.

Lemma confined_proxy p h m m' : h.(ah_proxy) = Some m → px_within p (own_token p h.(ah_access) h.(ah_access)) m m'.(mg_store) →
  rest_confined_to p h (h <| ah_proxy := Some m' |>).
Proof. intros Hm Hw. split; cbn; [apply rest_refl| |done]. by rewrite Hm. Qed.

Lemma confined_if p h (c : bool) (x y : AdminHandler * AdminReply) :
  rest_confined_to p h x.1 → rest_confined_to p h y.1 → rest_confined_to p h (if c then x else y).1.
Proof. by destruct c. Qed.

Lemma confined_gate p h (o : option AdminReply) (x : AdminHandler * AdminReply) :
  (o = None → rest_confined_to p h x.1) → rest_confined_to p h (match o with Some reply => (h, reply) | None => x end).1.
Proof. intros Hx. destruct o; [apply confined_refl|by apply Hx]. Qed.

Lemma isPlatformAdmin_spec p : isPlatformAdmin p = true ↔ platform_admin p.
Proof.
  unfold isPlatformAdmin, platform_admin. rewrite existsb_exists. split.
  - intros (sc & Hin & Hsc). apply list_elem_of_In in Hin. apply orb_true_iff in Hsc as [->%String.eqb_eq| ->%String.eqb_eq]; auto.
  - intros [Hin|Hin]; eexists; (split; [by apply list_elem_of_In|done]).
Qed.

(** The scopes of a token of the caller are replaced in the proxy. *)
Lemma px_replace o e m p id scopes : m.(mg_store).(px_useDB) = false → o id →
  px_within p o m (ReplaceTokenMCPServers e m.(mg_store) id scopes).1.
Proof.
  intros Hdb Ho. unfold ReplaceTokenMCPServers. rewrite Hdb. split; cbn; eauto.
  - intros sc Hin. destruct (String.eqb_spec sc.(AccessTokenMCPServer_TokenID) id) as [->|Hne]; [by right|left].
    apply elem_of_app. left. apply elem_of_filter_bool. split; [done|]. by apply negb_true_iff, String.eqb_neq.
  - intros sc [[? _]%elem_of_filter_bool|Hin]%elem_of_app; [by left|right]. apply list_elem_of_fmap in Hin as (sc' & -> & _).
    unfold completeMCPScope. by case_match.
Qed.

(** A body may name the identifier of the storage or of the binding it makes:
    it does not name a storage that exists, and no binding on a storage or a
    server that the caller does not administer. *)
Definition names_own h r p : Prop :=
  (∀ st : Storage, dec_storage r.(ar_body) = inl st → st.(Storage_ID) ≠ "" →
    h.(ah_access).(s_storages) !! st.(Storage_ID) = None ∧ h.(ah_access).(s_objects) !! st.(Storage_ID) = None)
  ∧ (∀ b b' : ACLBinding, dec_acl r.(ar_body) = inl b → b.(ACLBinding_ID) ≠ "" → h.(ah_access).(s_acl) !! b.(ACLBinding_ID) = Some b' →
    administers h.(ah_access) p zeroval b'.(ACLBinding_StorageID))
  ∧ (∀ (b b' : MCPServerACLBinding) m, dec_serverACL r.(ar_body) = inl b → h.(ah_proxy) = Some m → b.(MCPServerACLBinding_ID) ≠ "" →
    m.(mg_store).(px_acl) !! b.(MCPServerACLBinding_ID) = Some b' → runs m p b'.(MCPServerACLBinding_ServerID)).

Section Caller.
Context (env : nat → nat → Env) h r p.
Hypothesis Hdb : h.(ah_access).(s_useDB) = false.
Hypothesis Hkeyed : users_keyed h.(ah_access).
Hypothesis Hfresh : rest_fresh env h.(ah_access).
Hypothesis Hplain : ¬ platform_admin p.
Hypothesis Hproxy : ∀ m, h.(ah_proxy) = Some m → m.(mg_store).(px_useDB) = false ∧ px_fresh (env 5 0) m.(mg_store).
(** The body names nothing of another's. *)
Hypothesis Hbody : names_own h r p.

Lemma caller_plain : isPlatformAdmin p = false.
Proof. apply not_true_is_false. by rewrite isPlatformAdmin_spec. Qed.

Lemma owner_owns id : requireTokenOwner h p id = None →
  ∃ tok, h.(ah_access).(s_tokens) !! id = Some tok ∧ tok.(AccessToken_OwnerSubjectKey) = self p.
Proof.
  unfold requireTokenOwner, canManageToken, GetToken. rewrite caller_plain, Hdb. destruct (_ =s ""); [done|]. cbn.
  destruct (_ !! id) as [tok|]; [|done]. cbn. destruct (String.eqb_spec tok.(AccessToken_OwnerSubjectKey) (self p)); [|done]. eauto.
Qed.

Lemma getUser_self id u : (GetUser h.(ah_access) id).1 = Some u → canEditUser p u = true →
  h.(ah_access).(s_users) !! u.(User_ID) = Some u ∧ u.(User_ID) = id ∧ u.(User_SubjectKey) = self p.
Proof.
  unfold GetUser, canEditUser. rewrite Hdb, caller_plain. cbn. intros Hu Hs%String.eqb_eq. by rewrite (Hkeyed _ _ Hu).
Qed.

Lemma updateUser_confined path : rest_confined_to p h (updateUser h r p path).1.
Proof.
  unfold updateUser. destruct (GetUser _ _) as [[u|] [err|]] eqn:Hg; try apply confined_refl.
  destruct (canEditUser p u) eqn:Hc; [|apply confined_refl]. cbn [negb].
  destruct (getUser_self (idFromPath path 1) u) as (Hu & Hid & Hs); [by rewrite Hg|done|].
  destruct (dec_user _) as [req|err]; [|apply confined_refl]. unfold UpdateUser. rewrite Hg, Hdb.
  apply confined_access. set (u' := if User_Status _ <>s "" then _ else _).
  assert (Hu' : u'.(User_ID) = u.(User_ID) ∧ u'.(User_SubjectKey) = u.(User_SubjectKey)) by (unfold u'; by repeat case_match).
  destruct Hu' as [Hi Hk]. rewrite Hi. apply (rest_user p _ _ u); congruence.
Qed.

Lemma changeUserPassword_confined e path : rest_confined_to p h (changeUserPassword e h r p path).1.
Proof.
  unfold changeUserPassword. destruct (GetUser _ _) as [[u|] [err|]] eqn:Hg; try apply confined_refl.
  destruct (canEditUser p u) eqn:Hc; [|apply confined_refl]. cbn [negb].
  destruct (getUser_self (idFromPath path 1) u) as (Hu & Hid & Hs); [by rewrite Hg|done|].
  destruct (dec_password _) as [[current new]|err]; [|apply confined_refl]. case_match; [apply confined_refl|].
  apply confined_gate. intros _. unfold SetUserPassword. destruct (new =s ""); [apply confined_access, rest_refl|].
  destruct (bcrypt_generate _ _) as [hash [err|]]; [apply confined_access, rest_refl|]. rewrite Hdb.
  rewrite Hid in Hu. rewrite Hu. apply confined_access. by apply (rest_user p _ _ u).
Qed.

Lemma createStorage_confined k : rest_confined_to p h (createStorage s3Bucket (env k 0) h r p).1.
Proof.
  unfold createStorage. destruct (dec_storage _) as [st|err] eqn:Hd; [|apply confined_refl].
  destruct Hbody as (Hid & _ & _). specialize (Hid st Hd). cbv zeta.
  match goal with |- context [CreateStorage ?e ?s0 ?st0 ?a] =>
    pose proof (rest_new_storage e p s0 s0 st0 a (rest_refl p s0) Hdb eq_refl eq_refl eq_refl eq_refl) as Hn;
    destruct (CreateStorage e s0 st0 a) as [a' res] end.
  apply confined_access, Hn; [intros j; destruct (Hfresh k 0 j) as (? & ? & ? & ? & ? & ?); by split_and!|].
  repeat case_match; exact Hid.
Qed.

Lemma deleteStorage_confined path : rest_confined_to p h (deleteStorage h p path).1.
Proof.
  unfold deleteStorage. apply confined_gate. intros Hr. destruct (DeleteStorage _ _) as [a err] eqn:Hd.
  replace a with (DeleteStorage h.(ah_access) (idFromPath path 1)).1 by (by rewrite Hd).
  apply confined_access, rest_delete_storage; [done|]. eapply refused_rules; [|done..]. set_solver.
Qed.

Lemma upsertACL_confined k path : rest_confined_to p h (upsertACL (env k 0) h r p path).1.
Proof.
  unfold upsertACL. apply confined_gate. intros Hr. destruct (dec_acl _) as [b|err] eqn:Hd; [|apply confined_refl].
  destruct Hbody as (_ & Hid & _). specialize (λ b', Hid b b' Hd) as Hown. clear Hid. cbv zeta. unfold UpsertACL. rewrite Hdb. cbv zeta. cbn [fst snd on_access].
  apply confined_access. match goal with |- rest_within _ _ (_ <| s_acl := <[_ := ?b']> _ |>) => set (b1 := b') end.
  assert (Hb1 : (b1.(ACLBinding_ID) = uuid (env k 0) 0 ∨ b1.(ACLBinding_ID) = b.(ACLBinding_ID) ∧ b.(ACLBinding_ID) ≠ "")
    ∧ b1.(ACLBinding_StorageID) = storageIDFromACLPath path).
  { unfold b1. destruct (ACLBinding_GrantedBy _ =s ""); cbn; destruct (String.eqb_spec b.(ACLBinding_ID) ""); cbn;
      destruct (IsZero b.(ACLBinding_CreatedAt)); cbn; auto. }
  destruct Hb1 as [Hi Hs]. apply rest_grant; [rewrite Hs; eapply refused_rules; [|done..]; set_solver|].
  intros b'. destruct Hi as [->|[-> Hne]]; [destruct (Hfresh k 0 0) as [-> _]; done|]. by apply Hown.
Qed.

(** A token is altered by its owner. *)
Lemma alter_confined id f reply : (∀ t, (f t).(AccessToken_OwnerSubjectKey) = t.(AccessToken_OwnerSubjectKey)) →
  requireTokenOwner h p id = None → rest_confined_to p h (on_access h (alter_token h.(ah_access) id f, reply)).1.
Proof. intros Hf (tok & Ht & Ho)%owner_owns. by eapply confined_access, rest_alter_token. Qed.

Lemma saveScopes_confined e h1 id scopes : rest_confined_to p h h1 → h1.(ah_proxy) = h.(ah_proxy) →
  own_token p h.(ah_access) h1.(ah_access) id → rest_confined_to p h (saveScopes e h1 id scopes).
Proof.
  intros [Ha Hp Hu] Hsame Hown. unfold saveScopes. destruct h1.(ah_proxy) as [m|] eqn:Hm; [|by split; [|rewrite Hm|]].
  destruct scopes as [|sc scopes]; [by split; [|rewrite Hm|]|].
  split; [exact Ha| |exact Hu]. cbn [ah_proxy]. rewrite <- Hsame. cbn. apply px_replace; [|exact Hown].
  symmetry in Hsame. by destruct (Hproxy _ Hsame).
Qed.

(** A token is minted after changes that keep the tokens of others. *)
Lemma mint_confined h1 inp scopes : rest_within p h.(ah_access) h1.(ah_access) → h1.(ah_access).(s_useDB) = false →
  h1.(ah_access).(s_tokens) !! uuid (env 2 0) 0 = None → h1.(ah_proxy) = h.(ah_proxy) → h1.(ah_usage) = h.(ah_usage) →
  inp.(In_OwnerSubjectKey) = self p → rest_confined_to p h (mint unicode_lower (env 2 0) (env 3 0) h1 inp scopes).1.
Proof.
  intros Hw Hdb1 Hid Hpx Hus Hown. unfold mint. destruct (CreateToken _ _ _ _) as [a [[tok raw] err]] eqn:Hc.
  pose proof (rest_mint unicode_lower (env 2 0) p _ _ _ _ _ Hw Hdb1 Hid Hown Hc) as Hm.
  assert (Hh : rest_confined_to p h (on_access h1 (a, no_content)).1).
  { split; [done| |done]. cbn. rewrite Hpx. destruct h.(ah_proxy); [by apply px_refl|done]. }
  destruct err as [err|]; [done|]. apply saveScopes_confined; [done|done|].
  revert Hc. unfold CreateToken. rewrite Hdb1. destruct (_ =s ""); [done|]. destruct (newRawToken _) as [raw' [?|]]; [done|].
  intros [= <- <- _]. eexists. split; [right; apply lookup_insert_eq|done].
Qed.

Lemma createToken_confined : rest_confined_to p h (createToken unicode_lower s3Bucket env h r p).1.
Proof.
  unfold createToken. destruct (dec_token _) as [req|err]; [|apply confined_refl]. cbv zeta.
  destruct req.(ctr_StorageIDs) as [|id ids]; [|apply mint_confined; try done; [apply rest_refl|apply Hfresh]].
  destruct (EnsurePrincipal _ _ _ _) as [a [[u st] err]] eqn:He.
  apply rest_ensure in He as (Hw & Hdb' & Ht); [|done|intros k j; destruct (Hfresh 1 k j) as (? & ? & ? & ? & ? & ?); by split_and!].
  destruct err as [err|]; [by apply confined_access|]. apply mint_confined; try done. cbn. rewrite Ht. apply Hfresh.
Qed.

Lemma rotateToken_confined path : rest_confined_to p h (rotateToken unicode_lower env h p path).1.
Proof.
  unfold rotateToken. apply confined_gate. intros (tok & Ht & Ho)%owner_owns. unfold RevokeToken. rewrite Hdb. apply mint_confined; try done; cbn.
  - by eapply rest_alter_token.
  - by rewrite (proj1 (alter_token_same _ _ _)).
  - unfold alter_token. rewrite Ht. cbn. rewrite lookup_insert_ne; [apply Hfresh|]. intros Heq.
    destruct (Hfresh 2 0 0) as (_ & _ & Hn & _). rewrite <- Heq in Hn. congruence.
Qed.

Lemma deleteToken_confined path : rest_confined_to p h (deleteToken env h p path).1.
Proof.
  unfold deleteToken. apply confined_gate. intros Hr. destruct (owner_owns _ Hr) as (tok & Ht & Ho). cbv zeta.
  match goal with |- context [DeleteToken (ah_access ?x) _] => set (h1 := x) end.
  assert (Ha : h1.(ah_access) = h.(ah_access)) by (unfold h1; by case_match). rewrite Ha.
  pose proof (rest_delete_token p _ _ tok Hdb Ht Ho) as Hd. destruct (DeleteToken _ _) as [a err].
  split; [done| |unfold h1; by case_match]. cbn. unfold h1. destruct h.(ah_proxy) as [m|] eqn:Hm; [|by rewrite Hm]. cbn.
  apply px_replace; [by destruct (Hproxy m eq_refl)|]. exists tok. auto.
Qed.

Lemma may_manage m id x : (mayServer m p id PermissionMCPServerManage = true → rest_confined_to p h x.1) →
  rest_confined_to p h (if negb (mayServer m p id PermissionMCPServerManage) then (h, forbidden_reply) else x).1.
Proof. intros Hx. destruct (mayServer _ _ _ _); [by apply Hx|apply confined_refl]. Qed.

Lemma on_proxy_confined m st reply : h.(ah_proxy) = Some m → px_within p (own_token p h.(ah_access) h.(ah_access)) m st →
  rest_confined_to p h (on_proxy h m (st, reply)).1.
Proof. intros Hm Hw. by apply (confined_proxy p h m). Qed.

Lemma handleMCPServers_confined path :
  rest_confined_to p h (handleMCPServers unicode_lower headers_decode json_marshal request_ok rpc_decode object_decode proxyCfg
                          (env 5 0) h r p path).1.
Proof.
  unfold handleMCPServers. destruct h.(ah_proxy) as [m|] eqn:Hm; [|apply confined_refl]. cbv zeta.
  destruct (Hproxy m eq_refl) as [Hmdb Hmf]. set (o := own_token p h.(ah_access) h.(ah_access)).
  repeat match goal with |- rest_confined_to _ _ (if _ then _ else _).1 => apply confined_if end; try apply confined_refl.
  - unfold createMCPServer. destruct (dec_createServer _) as [req|err]; [|apply confined_refl]. cbv zeta.
    match goal with |- context [CreateServer _ _ _ ?inp] => pose proof (px_create o (env 5 0) m p inp Hmdb Hmf) as Hc end.
    destruct (CreateServer _ _ _ _) as [st res]. by apply on_proxy_confined.
  - apply may_manage. intros Hmay. pose proof (px_connect o (env 5 0) m p _ Hmdb (or_introl Hmay)) as Hc.
    destruct (ConnectTest _ _ _ _ _ _ _ _ _ _) as [m' [caps [err|]]]; by apply (confined_proxy p h m).
  - apply may_manage. intros Hmay. destruct (dec_capabilities _) as [[[t rs] ps]|err]; [|apply confined_refl].
    unfold SetEnabledCapabilities. rewrite Hmdb. apply on_proxy_confined; [done|]. by apply px_refl.
  - apply may_manage. intros Hmay. destruct (dec_serverACL _) as [b|err] eqn:Hd; [|apply confined_refl]. cbv zeta.
    destruct Hbody as (_ & _ & Hid). pose proof (λ b', Hid b b' m Hd Hm) as Hown. clear Hid.
    match goal with |- context [UpsertServerACL _ _ ?b'] => pose proof (px_grant o (env 5 0) m p b' Hmdb Hmf Hown (or_introl Hmay)) as Hc end.
    destruct (UpsertServerACL _ _ _) as [st res]. by apply on_proxy_confined.
  - apply may_manage. intros Hmay. pose proof (px_clear o (env 5 0) m p _ Hmdb (or_introl Hmay)) as Hc.
    destruct (ClearAuthSecret _ _ _) as [st err]. by apply on_proxy_confined.
  - apply may_manage. intros Hmay. destruct (dec_patchServer _) as [req|err]; [|apply confined_refl].
    pose proof (px_update o (env 5 0) m p (mcpServerID path) (patchInput req) Hmdb (or_introl Hmay)) as Hc.
    destruct (UpdateServer _ _ _ _) as [st res]. by apply on_proxy_confined.
  - unfold deleteMCPServer. destruct (mayServer _ _ _ _) eqn:Hmay; [|apply confined_refl]. cbn [negb].
    pose proof (px_delete o m p _ Hmdb (or_intror Hmay)) as Hc. destruct (DeleteServer _ _) as [st err]. by apply on_proxy_confined.
Qed.

Lemma patchTokenMCPScopes_confined id : rest_confined_to p h (patchTokenMCPScopes quote (env 5 0) h r p id).1.
Proof.
  unfold patchTokenMCPScopes. destruct h.(ah_proxy) as [m|] eqn:Hm; [|apply confined_refl]. apply confined_gate.
  intros (tok & Ht & Ho)%owner_owns. destruct (dec_scopes _) as [scopes|err]; [|apply confined_refl]. cbv zeta.
  destruct (badScope _ _ _) as [err|]; [apply confined_refl|]. destruct (Hproxy m eq_refl) as [Hmdb _].
  match goal with |- context [ReplaceTokenMCPServers ?e _ _ ?l] => pose proof (px_replace (own_token p h.(ah_access) h.(ah_access)) e m p id l Hmdb) as Hc end.
  destruct (ReplaceTokenMCPServers _ _ _ _) as [st err]. apply on_proxy_confined; [done|]. apply Hc. exists tok. auto.
Qed.
End Caller.

(** What a request needs for the guarantee: stores in memory, identifiers that
    are drawn new, and a body that names nothing of another's. *)
Record plain_request (env : nat → nat → Env) h r p : Prop := {
  pr_memory : h.(ah_access).(s_useDB) = false;
  pr_keyed : users_keyed h.(ah_access);
  pr_fresh : rest_fresh env h.(ah_access);
  pr_proxy : ∀ m, h.(ah_proxy) = Some m → m.(mg_store).(px_useDB) = false ∧ px_fresh (env 5 0) m.(mg_store);
  pr_body : names_own h r p
}.


(** ** Rotation *)

(** What minting leaves in memory. *)
Lemma mint_memory e1 e2 h inp mcpScopes raw : h.(ah_access).(s_useDB) = false → inp.(In_OwnerSubjectKey) ≠ "" →
  newRawToken e1 = ok raw →
  let '(h', reply) := mint unicode_lower e1 e2 h inp mcpScopes in
  ∃ tok, reply = mkAdminReply 201 (BToken tok raw) ∧ h'.(ah_access).(s_useDB) = false
    ∧ tok.(AccessToken_ID) = uuid e1 0 ∧ tok.(AccessToken_TokenHash) = HashToken raw ∧ tok.(AccessToken_RevokedAt) = None
    ∧ tok.(AccessToken_OwnerSubjectKey) = inp.(In_OwnerSubjectKey) ∧ tok.(AccessToken_ExpiresAt) = inp.(In_ExpiresAt)
    ∧ tok.(AccessToken_RateLimit) = inp.(In_RateLimit)
    ∧ tok.(AccessToken_Mode) = (if inp.(In_Mode) =s "" then AccessModeRead else inp.(In_Mode))
    ∧ h'.(ah_access).(s_tokens) = <[uuid e1 0 := tok]> h.(ah_access).(s_tokens)
    ∧ h'.(ah_access).(s_tokenByHash) = <[HashToken raw := uuid e1 0]> h.(ah_access).(s_tokenByHash)
    ∧ h'.(ah_access).(s_tokenScopes) = h.(ah_access).(s_tokenScopes) ++ (completeScope tok (now e1 0) <$> inp.(In_StorageScopes)).
Proof.
  intros Hdb Ho Hraw. unfold mint, CreateToken. rewrite (seqb_neq_false _ "") by done. rewrite Hraw, Hdb. cbn [ok].
  unfold saveScopes. eexists. split; [reflexivity|]. repeat case_match; by split_and!.
Qed.

(** What a storage scope says: the storage and the mode. *)
Definition scope_says (mode : AccessMode) (sc : AccessTokenStorage) : string * AccessMode :=
  (sc.(AccessTokenStorage_StorageID), if sc.(AccessTokenStorage_MaxMode) =s "" then mode else sc.(AccessTokenStorage_MaxMode)).

Lemma completeScope_says tok t sc mode : tok.(AccessToken_Mode) = mode → mode ≠ "" → scope_says mode (completeScope tok t sc) = scope_says mode sc.
Proof.
  intros <- Hm. unfold completeScope, scope_says. cbv zeta. destruct (IsZero _); cbn; destruct (String.eqb_spec sc.(AccessTokenStorage_MaxMode) "");
    cbn; by rewrite seqb_neq_false.
Qed.

(** A token in memory that is neither revoked nor expires resolves. *)
Lemma resolve_memory e s secret tok id : s.(s_useDB) = false → s.(s_tokenByHash) !! HashToken secret = Some id → s.(s_tokens) !! id = Some tok →
  tok.(AccessToken_ID) = id → tok.(AccessToken_ExpiresAt) = None →
  (ResolveToken e s secret).2 = if bool_decide (is_Some tok.(AccessToken_RevokedAt)) then fails (zeroval, [], true) errTokenDead
    else ok (tok, (TokenStorages s id).1, true).
Proof.
  intros Hdb Hh Ht Hid Hx. unfold ResolveToken. rewrite Hdb, Hh, Ht. unfold ok. rewrite Hx, orb_false_r.
  case_bool_decide; [done|]. rewrite Hid. unfold TokenStorages. by rewrite Hdb.
Qed.

Lemma resolve_revoked e s secret tok id : s.(s_useDB) = false → s.(s_tokenByHash) !! HashToken secret = Some id → s.(s_tokens) !! id = Some tok →
  is_Some tok.(AccessToken_RevokedAt) → (ResolveToken e s secret).2 = fails (zeroval, [], true) errTokenDead.
Proof. intros Hdb Hh Ht Hr. unfold ResolveToken. rewrite Hdb, Hh, Ht. unfold ok. by rewrite bool_decide_eq_true_2. Qed.

(** Rotating a token, over the in-memory stores, for its owner or an
    administrator: the secret of the old token is refused from then on, and
    the reply shows a new secret that resolves to a token of the caller whose
    scopes say what those of the old one said, storage by storage and mode by
    mode. The new token is for reading, without expiry and without a limit of
    its own. *)
Theorem rotation_hands_over env h p path old raw e' :
  let id := tokenIDFromPath path in
  h.(ah_access).(s_useDB) = false → rest_fresh env h.(ah_access) →
  h.(ah_access).(s_tokens) !! id = Some old → h.(ah_access).(s_tokenByHash) !! old.(AccessToken_TokenHash) = Some id →
  (∀ sc, sc ∈ h.(ah_access).(s_tokenScopes) → sc.(AccessTokenStorage_TokenID) ≠ uuid (env 2 0) 0) →
  requireTokenOwner h p id = None → self p ≠ "" → newRawToken (env 2 0) = ok raw → HashToken raw ≠ old.(AccessToken_TokenHash) →
  let '(h', reply) := rotateToken unicode_lower env h p path in
  (∀ secret, HashToken secret = old.(AccessToken_TokenHash) → (ResolveToken e' h'.(ah_access) secret).2 = fails (zeroval, [], true) errTokenDead)
  ∧ ∃ tok scopes, reply = mkAdminReply 201 (BToken tok raw)
    ∧ (ResolveToken e' h'.(ah_access) raw).2 = ok (tok, scopes, true)
    ∧ tok.(AccessToken_OwnerSubjectKey) = self p
    ∧ scope_says AccessModeRead <$> scopes = scope_says AccessModeRead <$> (TokenStorages h.(ah_access) id).1
    ∧ tok.(AccessToken_Mode) = AccessModeRead ∧ tok.(AccessToken_ExpiresAt) = None ∧ tok.(AccessToken_RateLimit) = zeroval.
Proof.
  intros id Hdb Hf Hold Hhash Hsc Hown Hself Hraw Hne. destruct (Hf 2 0 0) as (_ & _ & Hnew & _ & _ & _).
  unfold rotateToken. fold id. rewrite Hown. unfold RevokeToken, alter_token. rewrite Hdb, Hold. cbn [fst].
  match goal with |- context [mint _ ?e1 ?e2 ?h1 ?inp ?l] => pose proof (mint_memory e1 e2 h1 inp l raw Hdb Hself Hraw) as Hm end.
  destruct (mint _ _ _ _ _ _) as [h' reply]. destruct Hm as (tok & -> & Hdb' & Hid & Hth & Hrev & Ho & Hx & Hrl & Hmode & Hts & Hbh & Hss).
  cbn in Hts, Hbh, Hss, Hmode. assert (Hii : id ≠ uuid (env 2 0) 0) by (intros Heq; rewrite Heq in Hold; congruence). split.
  - intros secret Hs. eapply (resolve_revoked e' _ secret _ id); [done|by rewrite Hbh, Hs, lookup_insert_ne|by rewrite Hts, lookup_insert_ne, lookup_insert_eq|done].
  - exists tok, (TokenStorages h'.(ah_access) (uuid (env 2 0) 0)).1. split; [done|]. split_and!; [|done| |done..].
    + rewrite (resolve_memory e' _ raw tok (uuid (env 2 0) 0)); [by rewrite Hrev|done|by rewrite Hbh, lookup_insert_eq|by rewrite Hts, lookup_insert_eq|done|done].
    + set (olds := (TokenStorages h.(ah_access) id).1) in *. clearbody olds.
      unfold TokenStorages. rewrite Hdb', Hss. cbn [fst ok]. rewrite List.filter_app.
      rewrite (filter_none _ h.(ah_access).(s_tokenScopes)) by (intros sc Hin; by apply seqb_neq_false, Hsc). cbn [app].
      clear Hss. induction olds as [|sc olds IH]; [done|]. rewrite fmap_cons. cbn [List.filter].
      rewrite (proj1 (completeScope_ids _ _ _)), Hid, String.eqb_refl, !fmap_cons, completeScope_says by done. by rewrite IH.
Qed.

(** ** What is not guaranteed *)

(** In memory, a caller who posts a storage under the identifier of one that
    exists replaces its record and holds every permission on it. *)
Theorem storage_taken_over e h r p (st : Storage) perm : h.(ah_access).(s_useDB) = false → dec_storage r.(ar_body) = inl st →
  st.(Storage_ID) ≠ "" → st.(Storage_OwnerSubjectKey) = "" → perm ∈ ownerPermissions → self p ∈ SubjectKeys p →
  let '(h', _) := createStorage s3Bucket e h r p in
  refusedOn h' p st.(Storage_ID) perm = None
  ∧ (Storage_OwnerSubjectKey <$> h'.(ah_access).(s_storages) !! st.(Storage_ID)) = Some (self p).
Proof.
  intros Hdb Hd Hid Ho Hp Hme. unfold createStorage. rewrite Hd. cbv zeta. rewrite Ho. cbn [String.eqb].
  match goal with |- context [CreateStorage ?e ?s0 ?st0 ?a] => set (st1 := st0); destruct (CreateStorage e s0 st1 a) as [a' [st' err]] eqn:Hc end.
  assert (Hst1 : st1.(Storage_ID) = st.(Storage_ID) ∧ st1.(Storage_OwnerSubjectKey) = self p) by (unfold st1; by case_match).
  destruct Hst1 as [Hi1 Ho1]. assert (err = None) as -> by (apply (f_equal (λ x, snd (snd x))) in Hc; revert Hc; unfold CreateStorage; rewrite Hdb; intros Hc; exact (eq_sym Hc)).
  apply CreateStorage_memory in Hc as (-> & Hdb' & Hs & _ & b & Ha & _ & Hbs & Hbk & Hbr); [|done].
  destruct (completeStorage_keeps e st1) as [Hci Hco]. rewrite Hi1, (seqb_neq_false st.(Storage_ID) "") in Hci by done. rewrite Ho1 in Hco.
  cbn [on_access fst]. split; [|cbn; rewrite Hs, <- Hci, lookup_insert_eq; exact (f_equal Some Hco)]. rewrite <- Hci.
  unfold refusedOn. rewrite CanAccessStorage_memory by (exact Hdb' || congruence). unfold ok.
  destruct (evaluateStorageAccess _ _ _ _ _ _) as [eff [|]] eqn:He; [done|exfalso].
  assert (Hr : (eff, false).2 = true) by (rewrite <- He; apply evaluateStorageAccess_rule; left; exists b;
    split_and!; [apply elem_of_acl_of; split; [exists (ACLBinding_ID b); cbn; by rewrite Ha, lookup_insert_eq|]|done|by rewrite Hbr];
    by rewrite Hbk, Hco). done.
Qed.
End Rest.

(** ** The middleware and the sessions of browsers *)

Section Cookies.
Context `{SessionRedis, !Codec Session, !Codec WebSession, !Codec (list string)}.
Implicit Types (s : SessionStore) (T : Time).

(** The logins of a run by their identifier. *)
Definition login_step (a : gmap string WebSession) (op : ss_op) : gmap string WebSession :=
  match op with
  | SWeb e p ttl => <[uuid e 0 := mkWebSession (uuid e 0) p (uuid e 1) (now e 0 + ttl)%Z]> a
  | _ => a
  end.

Record web_rel T s (a : gmap string WebSession) : Prop := {
  wl_memory : s.(ss_redis) = None;
  wl_kept : ∀ id v, s.(ss_web) !! id = Some v → a !! id = Some v;
  wl_gone : ∀ id v, a !! id = Some v → s.(ss_web) !! id = None → (v.(WebSession_ExpiresAt) <= T)%Z
}.

Lemma web_rel_step T s a op : op_fits T op → web_rel T s a → web_rel T (ss_step s op) (login_step a op).
Proof.
  intros Hop [Hm Hk Hg]. destruct op; cbn [ss_step op_fits login_step] in *.
  - unfold CreateMCPSession. rewrite persist_memory by done. by split.
  - unfold CreateWebSession. rewrite persist_memory by done. split; cbn; [done| |]; intros id v; rewrite !lookup_insert; case_decide; eauto; done.
  - unfold DeleteMCPSession. cbn. rewrite Hm. by split.
  - unfold SaveLastEvent, persistString. cbn. rewrite Hm. by split.
  - unfold AppendEvent. rewrite persist_memory by done. by split.
  - unfold EvictExpired. split; cbn; [done| |].
    + intros id v [Hv _]%map_lookup_filter_Some. by apply Hk.
    + intros id v Ha Hn. destruct (s.(ss_web) !! id) as [v'|] eqn:Hv; [|by eapply Hg].
      assert (v' = v) as -> by (apply Hk in Hv; congruence).
      apply map_lookup_filter_None in Hn as [?|Hn]; [congruence|].
      specialize (Hn v Hv). apply not_true_iff_false, Z.ltb_ge in Hn. cbn in Hn. lia.
Qed.

Lemma web_rel_run T prefix hours ops : Forall (op_fits T) ops →
  web_rel T (foldl ss_step (NewSessionStore None prefix hours) ops) (foldl login_step ∅ ops).
Proof.
  intros Hops. assert (H0 : web_rel T (NewSessionStore None prefix hours) ∅) by (by split).
  revert H0. generalize (NewSessionStore None prefix hours) (∅ : gmap string WebSession).
  induction Hops as [|op ops Hop Hops IH]; intros s a Hr; cbn; [done|]. by apply IH, web_rel_step.
Qed.

Lemma GetWebSession_run T s a id : web_rel T s a →
  ((GetWebSession T s id).2 = true ↔ ∃ v, a !! id = Some v ∧ (T < v.(WebSession_ExpiresAt))%Z)
  ∧ ∀ v, GetWebSession T s id = (v, true) → a !! id = Some v.
Proof.
  intros [Hm Hk Hg]. unfold GetWebSession, loadWebSession, load. rewrite Hm.
  destruct (s.(ss_web) !! id) as [v|] eqn:Hv; cbn.
  - unfold Before. rewrite Z.ltb_lt. split; [apply Hk in Hv; naive_solver|]. intros v' [= <- _]. by apply Hk.
  - split; [|done]. split; [done|]. intros (v & Ha & Ht). specialize (Hg _ _ Ha Hv). lia.
Qed.

(** C38. Requests that carry the cookie of a browser, after any run of the
    session store in memory. Such a request is admitted as a user exactly when
    that user's login opened the session, it has not expired, and a request
    that changes something repeats the session's own anti-forgery value; it
    then carries no access token. When only that value is wrong, the request
    is refused whatever other credentials it has; when the session is unknown
    or expired, the cookie counts for nothing. *)
Theorem cookie_admission T prefix hours ops method id csrf gateway : Forall (op_fits T) ops →
  let s := foldl ss_step (NewSessionStore None prefix hours) ops in
  let logins := foldl login_step ∅ ops in
  let outcome := AuthMiddleware T s method (Some id) csrf gateway in
  (∀ p, (∃ ac, outcome = inl (ByCookie p ac) ∧ ac.(APIAccessContext_AccessToken) = None ∧ ac.(APIAccessContext_Principal) = p)
     ↔ ∃ ws, logins !! id = Some ws ∧ ws.(WebSession_Principal) = p ∧ (T < ws.(WebSession_ExpiresAt))%Z
         ∧ (isMutatingMethod method = true → csrf = ws.(WebSession_CSRFToken)))
  ∧ (∀ ws, logins !! id = Some ws → (T < ws.(WebSession_ExpiresAt))%Z → isMutatingMethod method = true →
       csrf ≠ ws.(WebSession_CSRFToken) → outcome = inr (error_reply "invalid csrf token" 403))
  ∧ ((∀ ws, logins !! id = Some ws → (ws.(WebSession_ExpiresAt) <= T)%Z) → outcome = AuthMiddleware T s method None csrf gateway).
Proof.
  intros Hops s logins outcome. pose proof (web_rel_run T prefix hours ops Hops) as Hr.
  destruct (GetWebSession_run T s logins id Hr) as [Hlive Hsame]. unfold outcome, AuthMiddleware. clear outcome. clearbody s logins.
  destruct (GetWebSession T s id) as [ws [|]] eqn:Hg; cbn [snd] in Hlive.
  - specialize (Hsame ws eq_refl). destruct (proj1 Hlive eq_refl) as (ws' & Hws & Ht). rewrite Hsame in Hws. injection Hws as <-.
    split_and!; [| |intros Hexp; specialize (Hexp ws Hsame); lia].
    + intros p. destruct (String.eqb_spec csrf ws.(WebSession_CSRFToken)), (isMutatingMethod method); cbn; split; naive_solver.
    + intros ws' Hws' _ -> Hc. rewrite Hsame in Hws'. injection Hws' as <-. by apply String.eqb_neq in Hc as ->.
  - assert (Hno : ∀ ws, logins !! id = Some ws → ¬ (T < ws.(WebSession_ExpiresAt))%Z) by (intros; intros ?; enough (false = true) by done; apply Hlive; eauto).
    split_and!; [|naive_solver|done]. intros p. split; [|naive_solver]. intros (ac & Heq & _). by destruct gateway as [[? ?]|].
Qed.
End Cookies.

(** ** Witnesses *)

Section Witnesses.
#[local] Existing Instances no_postgres canonical_range wp_db wp_net wp_aead w_bcrypt no_redis.

(** The decoders for a body that asks for a token on one object. *)
#[local] Instance wh_codec : AdminCodec := {|
  dec_user := λ _, inr (NewError "EOF"); dec_password := λ _, inr (NewError "EOF"); dec_group := λ _, inr (NewError "EOF");
  dec_storage := λ b, inl ((zeroval : Storage) <| Storage_ID := b |>); dec_acl := λ _, inr (NewError "EOF");
  dec_token := λ b, inl (mkCreateTokenRequest "" AccessModeReadWrite [b] [] zeroval None);
  dec_rateLimit := λ _, inr (NewError "EOF"); dec_connect := λ _, ("", ""); dec_createServer := λ _, inr (NewError "EOF");
  dec_patchServer := λ _, inr (NewError "EOF"); dec_capabilities := λ _, inr (NewError "EOF");
  dec_serverACL := λ _, inr (NewError "EOF"); dec_scopes := λ _, inr (NewError "EOF")
|}.

Definition wh_env (i k : nat) : Env := mkEnv (λ _, 100%Z) (λ _, "new") (λ _, Some "seed").
Definition wh_req (method path body : string) : AdminReq := mkAdminReq method path (λ _, "") body "host" false "".
Definition wh_call (a : Store) (p : Principal) (r : AdminReq) :=
  adminRoute (λ r, r) (λ _, None) (λ _, None) (λ _, true) (λ _, inl (mkRPCResponse None "")) (λ _, inl []) wp_cfg (λ s, s) (λ _, 0%Z)
    "bucket" false "" wh_env (mkAdminHandler a (w_usage ∅) None ∅) r p.
Definition wh_stranger : Principal := (zeroval : Principal) <| Principal_UserID := "mallory" |>.


(** A token is rotated. *)
Definition wh_old : AccessToken :=
  (zeroval : AccessToken) <| AccessToken_ID := "t" |> <| AccessToken_OwnerSubjectKey := "user:internal:u" |>
    <| AccessToken_TokenHash := HashToken "old" |> <| AccessToken_Mode := AccessModeReadWrite |>.
Definition wh_tokens : Store := (w_store None) <| s_tokens := {[ "t" := wh_old ]} |> <| s_tokenByHash := {[ HashToken "old" := "t" ]} |>
  <| s_tokenScopes := [mkAccessTokenStorage "t" "st" AccessModeReadWrite [] 0%Z] |>.
Definition wh_rotated := rotateToken (λ r, r) wh_env (mkAdminHandler wh_tokens (w_usage ∅) None ∅) w_principal "/tokens/t/rotate".

Lemma rotation_hands_over_witness :
  (ResolveToken w_late wh_rotated.1.(ah_access) "old").2 = fails (zeroval, [], true) errTokenDead
  ∧ ∃ tok scopes, (ResolveToken w_late wh_rotated.1.(ah_access) (minted w_env)).2 = ok (tok, scopes, true)
      ∧ scope_says AccessModeRead <$> scopes = [("st", AccessModeReadWrite)].
Proof.
  pose proof (rotation_hands_over (λ r, r) wh_env (mkAdminHandler wh_tokens (w_usage ∅) None ∅) w_principal "/tokens/t/rotate" wh_old
    (minted w_env) w_late) as Hr.
  assert (Hf : rest_fresh wh_env wh_tokens) by (intros i k j; split_and!; try (vm_compute; reflexivity); discriminate).
  specialize (Hr eq_refl Hf ltac:(vm_compute; reflexivity) ltac:(vm_compute; reflexivity)
    ltac:(intros sc ->%list_elem_of_singleton; discriminate) ltac:(vm_compute; reflexivity) ltac:(vm_compute; discriminate)
    ltac:(vm_compute; reflexivity) ltac:(vm_compute; discriminate)).
  unfold wh_rotated. destruct (rotateToken _ _ _ _ _) as [h' reply]. destruct Hr as [Hold (tok & scopes & _ & Hres & _ & Hsc & _)].
  split; [by apply Hold|]. exists tok, scopes. split; [exact Hres|]. rewrite Hsc. vm_compute. reflexivity.
Defined.

(** A login, a request that changes something with and without the value of
    the session. *)
#[local] Instance wh_sessions : SessionRedis := {|
  SR := unit; sr_set := λ _ _ _ _ r, r; sr_get := λ _ _ _, None; sr_scan := λ _ _ _, []; sr_del := λ _ r, r; sr_ping := λ _, None
|}.
#[local] Instance wh_json A : Codec A := {| to_json := λ _, None; of_json := λ _, None |}.
Definition wh_login : list ss_op := [SWeb (mkEnv (λ _, 100%Z) (λ j, if (j =? 0)%nat then "sid" else "csrf") (λ _, None)) w_principal 1000; SEvict 200].
Definition wh_admit (csrf : string) :=
  AuthMiddleware 300 (foldl ss_step (NewSessionStore None "" 24) wh_login) "POST" (Some "sid") csrf (inl (wh_stranger, zeroval)).

Lemma cookie_admission_witness :
  (∃ ac, wh_admit "csrf" = inl (ByCookie w_principal ac) ∧ ac.(APIAccessContext_AccessToken) = None)
  ∧ wh_admit "guess" = inr (error_reply "invalid csrf token" 403).
Proof.
  assert (Hops : Forall (op_fits 300) wh_login) by (repeat constructor; cbn; lia). split.
  - destruct (cookie_admission 300 "" 24 wh_login "POST" "sid" "csrf" (inl (wh_stranger, zeroval)) Hops) as (Hin & _ & _).
    destruct (proj2 (Hin w_principal)) as (ac & Hac & Ht & _); [|exact (ex_intro _ ac (conj Hac Ht))].
    eexists. split; [vm_compute; reflexivity|]. split; [reflexivity|]. split; [reflexivity|]. by intros _.
  - destruct (cookie_admission 300 "" 24 wh_login "POST" "sid" "guess" (inl (wh_stranger, zeroval)) Hops) as (_ & Hno & _).
    eapply Hno; [vm_compute; reflexivity|reflexivity|reflexivity|discriminate].
Defined.

(** A stranger mints a token on another's queue, and it opens the queue. *)
Lemma minted_token_opens_any_object :
  let '(h, reply) := wh_call w_queue_store wh_stranger (wh_req "POST" "/api/admin/tokens" "q") in
  match reply.(arp_body) with
  | BToken tok _ =>
      (CanAccessObject h.(ah_access) wh_stranger None [] "q" "enqueue").1.2 = false
      ∧ (CanAccessObject h.(ah_access) wh_stranger (Some tok) (TokenObjects h.(ah_access) tok.(AccessToken_ID)).1 "q" "enqueue").1.2 = true
  | _ => False
  end.
Proof. vm_compute. split; reflexivity. Qed.

Lemma storage_taken_over_witness :
  let '(h, _) := createStorage "bucket" (wh_env 5 0) (mkAdminHandler (w_store None) (w_usage ∅) None ∅) (wh_req "POST" "" "st") wh_stranger in
  refusedOn h wh_stranger "st" PermissionStorageDelete = None.
Proof.
  pose proof (storage_taken_over "bucket" (wh_env 5 0) (mkAdminHandler (w_store None) (w_usage ∅) None ∅) (wh_req "POST" "" "st") wh_stranger
    ((zeroval : Storage) <| Storage_ID := "st" |>) PermissionStorageDelete eq_refl eq_refl ltac:(discriminate) eq_refl
    ltac:(apply sContains_spec; reflexivity) ltac:(apply sContains_spec; vm_compute; reflexivity)) as Ht.
  destruct (createStorage _ _ _ _ _) as [h' r']. apply Ht.
Defined.
End Witnesses.
