(* ===== verification/Web.v ===== *)
(** [internal/web/handler.go]: the pages, with login and logout of browsers.
    The embedded templates and the assets are parameters. *)
From S2P Require Import Prelude GoStrings Models DataObj AccessState AccessObjects AccessService Sessions Auth Config.
From Stdlib Require Import Ascii.

(** [strings.ReplaceAll(s, old, new)] for a non-empty [old]; each turn takes a
    match away, so the bytes of [s] are fuel enough. *)
Fixpoint replaceLoop (fuel : nat) (s old new : string) : string :=
  match fuel with
  | O => s
  | S fuel => match Cut s old with (a, b, true) => a +:+ new +:+ replaceLoop fuel b old new | (_, _, false) => s end
  end.
Definition ReplaceString (s old new : string) : string := replaceLoop (String.length s) s old new.

Record Capabilities := mkCapabilities { caps_Transports : list string; caps_Auth : list string }.

Definition capabilities (cfg : Config) : Capabilities :=
  mkCapabilities
    ("streamable_http" :: (if cfg.(Config_Transport).(TransportConfig_LegacySSE) then ["legacy_sse"] else []))
    ((Provider_Name <$> cfg.(Config_OAuth).(OAuthConfig_Providers))
     ++ (if cfg.(Config_Teleport).(Teleport_Enabled) then ["teleport_proxy"] else [])).

(** The cookie [session_id] of a reply: its value and when it ends. *)
Record Cookie := mkCookie { ck_value : string; ck_expires : Time }.

Inductive WebReply :=
| WPage (html : string)
| WRedirect (path : string)
| WError (text : string) (status : Z)
| WNotFound.

Definition isAdminPrincipal (p : Principal) : bool :=
  existsb (λ scope, (scope =s "platform_admin") || (scope =s "admin")) p.(Principal_Scopes).

Section Pages.
Context `{Postgres, GoRange, Bcrypt, SessionRedis, !Codec WebSession}.
Context (env : Environ) (loginHTML adminHTML userHTML mcpConnectHTML : string).
Implicit Types (cfg : Config) (sessions : SessionStore) (e : Env) (t : Time).

Definition createWebLogin e sessions (principal : Principal) (ttlHours : Z) : SessionStore * (option Cookie * WebReply) :=
  let ttlHours := if (ttlHours <=? 0)%Z then 12%Z else ttlHours in
  let '(sessions, ws) := CreateWebSession e sessions principal (wrap64 (ttlHours * Hour)) in
  (sessions, (Some (mkCookie ws.(WebSession_SessionID) ws.(WebSession_ExpiresAt)),
              WRedirect (if isAdminPrincipal principal then "/admin" else "/app"))).

Definition defaultAdmin cfg : Principal :=
  (zeroval : Principal) <| Principal_UserID := "default-admin" |>
    <| Principal_Email := cfg.(Config_Web).(WebConfig_Admin).(DefaultAdminConfig_Username) |>
    <| Principal_SubjectKey := "user:internal:default-admin" |> <| Principal_Scopes := ["platform_admin"; "admin"] |>
    <| Principal_AuthSource := "internal" |>.

Definition userPrincipal (user : User) : Principal :=
  let p := (zeroval : Principal) <| Principal_UserID := user.(User_ExternalSubject) |> <| Principal_Email := user.(User_Email) |>
             <| Principal_SubjectKey := user.(User_SubjectKey) |> <| Principal_AuthSource := user.(User_Source) |> in
  if user.(User_SubjectKey) =s "user:internal:default-admin" then p <| Principal_Scopes := ["platform_admin"; "admin"] |> else p.

(** [form]: [None] when it cannot be parsed. *)
Definition loginHandler cfg e sessions (access : option Store) (method : string) (form : option (string → string))
    : SessionStore * (option Cookie * WebReply) :=
  if method =s "GET" then (sessions, (None, WPage loginHTML))
  else if method <>s "POST" then (sessions, (None, WError "method not allowed" 405))
  else match form with
  | None => (sessions, (None, WError "invalid form" 400))
  | Some form =>
      let username := TrimSpace (form "username") in
      let password := form "password" in
      let expectedPassword := DefaultAdminPassword env cfg in
      let admin := cfg.(Config_Web).(WebConfig_Admin) in
      let ttl := admin.(DefaultAdminConfig_SessionTTLHours) in
      if admin.(DefaultAdminConfig_Enabled) && (expectedPassword <>s "") && (username =s admin.(DefaultAdminConfig_Username))
         && (password =s expectedPassword)
      then createWebLogin e sessions (defaultAdmin cfg) ttl
      else match access with
      | None => (sessions, (None, WError "invalid credentials" 401))
      | Some a =>
          match AuthenticateUser a username password with
          | (_, Some err) => (sessions, (None, WError (Error_text err) 400))
          | (Some user, None) => createWebLogin e sessions (userPrincipal user) ttl
          | (None, None) => (sessions, (None, WError "invalid credentials" 401))
          end
      end
  end.

(** The cookie is emptied; the session store is not asked. *)
Definition logoutHandler sessions : SessionStore * (option Cookie * WebReply) :=
  (sessions, (Some (mkCookie "" 0), WRedirect "/login")).

Definition webSessionFromRequest t sessions (cookie : option string) : option WebSession :=
  match cookie with
  | None => None
  | Some id => match GetWebSession t sessions id with (ws, true) => Some ws | (_, false) => None end
  end.

Definition indexHandler cfg t sessions (path : string) (cookie : option string) : WebReply :=
  if path <>s "/" then WNotFound
  else match webSessionFromRequest t sessions cookie with
  | None => WRedirect "/login"
  | Some ws =>
      if isAdminPrincipal ws.(WebSession_Principal) then WRedirect "/admin"
      else if cfg.(Config_Web).(WebConfig_UserUI).(UserUIConfig_Enabled) then WRedirect "/app"
      else WError "user UI disabled" 404
  end.

Definition adminHandler t sessions (path : string) (cookie : option string) : WebReply :=
  if path <>s "/admin" then WNotFound
  else match webSessionFromRequest t sessions cookie with
  | None => WRedirect "/login"
  | Some ws =>
      if negb (isAdminPrincipal ws.(WebSession_Principal)) then WError "forbidden" 403
      else WPage (ReplaceString adminHTML "__CSRF_TOKEN__" ws.(WebSession_CSRFToken))
  end.

Definition adminMCPConnectHandler t sessions (cookie : option string) : WebReply :=
  match webSessionFromRequest t sessions cookie with
  | None => WRedirect "/login"
  | Some ws => if negb (isAdminPrincipal ws.(WebSession_Principal)) then WError "forbidden" 403 else WPage mcpConnectHTML
  end.

Definition userAppHandler cfg t sessions (path : string) (cookie : option string) : WebReply :=
  if path <>s "/app" then WNotFound
  else if negb cfg.(Config_Web).(WebConfig_UserUI).(UserUIConfig_Enabled) then WError "user UI disabled" 404
  else match webSessionFromRequest t sessions cookie with
  | None => WRedirect "/login"
  | Some ws => WPage (ReplaceString userHTML "__CSRF_TOKEN__" ws.(WebSession_CSRFToken))
  end.
End Pages.
