(* ===== verification/WebProps.v ===== *)
(** The two doors a user comes in by: the login page of the browser and the
    one of the authorization server. *)
From S2P Require Import Prelude GoStrings Models DataObj AccessState AccessObjects AccessService AccessProps Sessions Auth OAuth OAuthServer OAuthProps Config HttpObjects HttpAdmin HttpAdminProps Web.
From Stdlib Require Import Ascii.

Section Login.
Context `{Postgres, GoRange, Bcrypt, OAuthDB, JWT, SessionRedis, !Codec WebSession}.
Context (env : Environ) (loginHTML : string) (cfg : Config) (as_cfg : OAuthServer.OAuthConfig).

(** Both read the same settings. *)
Definition same_admin : Prop :=
  as_cfg.(cfg_AdminEnabled) = cfg.(Config_Web).(WebConfig_Admin).(DefaultAdminConfig_Enabled)
  ∧ as_cfg.(cfg_AdminUsername) = cfg.(Config_Web).(WebConfig_Admin).(DefaultAdminConfig_Username)
  ∧ as_cfg.(cfg_AdminPasswordEnvRef) = cfg.(Config_Web).(WebConfig_Admin).(DefaultAdminConfig_PasswordEnvRef).

(** A session that was opened, until it ends. *)
Lemma created_session_live e (s : SessionStore) p ttl t : s.(ss_redis) = None → (t < now e 0 + ttl)%Z →
  GetWebSession t (CreateWebSession e s p ttl).1 (uuid e 0) = (mkWebSession (uuid e 0) p (uuid e 1) (now e 0 + ttl), true).
Proof.
  intros Hm Ht. unfold CreateWebSession, GetWebSession, loadWebSession. rewrite persist_memory by done. unfold load. cbn. rewrite Hm. cbn.
  rewrite lookup_insert_eq. f_equal. unfold Before. by apply Z.ltb_lt.
Qed.

Definition ttl_hours : Z :=
  let h := cfg.(Config_Web).(WebConfig_Admin).(DefaultAdminConfig_SessionTTLHours) in if (h <=? 0)%Z then 12 else h.

End Login.

(** ** Witnesses *)

Section Witnesses.
#[local] Existing Instances no_postgres canonical_range OAuthProps.wo_bcrypt OAuthProps.wo_db OAuthProps.wo_jwt wh_sessions wh_json.

Definition ww_cfg : Config :=
  (zeroval : Config) <| Config_Web := (zeroval : WebConfig) <| WebConfig_Admin := mkDefaultAdminConfig true "root" "literal:pw" 1 |> |>.
Definition ww_as : OAuthServer.OAuthConfig := OAuthServer.mkOAuthConfig "" [] 300 24 720 "" [] true "root" "literal:pw" "".
Definition ww_form (password k : string) : string := if k =s "username" then " root " else password.
Definition ww_env : Env := mkEnv (λ _, 100%Z) (λ j, if (j =? 0)%nat then "sid" else "csrf") (λ _, None).
Definition ww_st : OState := mkOState (NewInMemoryOStore tt) None NewProviderRouter.
Abbreviation ww_login password := (loginHandler ∅ "" ww_cfg ww_env (NewSessionStore None "" 24) None "POST" (Some (ww_form password))).


(** Logging out empties the cookie of the browser and leaves the session in
    the store: whoever kept the cookie is still admitted. *)
Theorem logout_keeps_session :
  let '(sessions, _) := ww_login "pw" in
  ∃ ac, AuthMiddleware 200 (logoutHandler sessions).1 "GET" (Some "sid") "" (inr (error_reply "unauthorized" 401))
    = inl (ByCookie (defaultAdmin ww_cfg) ac).
Proof. eexists. vm_compute. reflexivity. Qed.
End Witnesses.
