(* ===== verification/GitProps.v ===== *)
(** What the git store guarantees: the history of a repository is kept and can
    be listed, a branch that is checked out gives back what was committed, and
    a client reads the advertised references back. *)
From S2P Require Import Prelude GoStrings GoCrypto Models DataObj AccessState PolicyScope Documents DataPlane GitStore.
From Stdlib Require Import Ascii.

(** ** Reading packets *)

(** The value of a digit of [%x]. *)
Definition hex_value (c : ascii) : option Z :=
  let b := byte_of c in
  if (48 <=? b)%Z && (b <=? 57)%Z then Some (b - 48)%Z else if (97 <=? b)%Z && (b <=? 102)%Z then Some (b - 87)%Z else None.

Definition read_length (s : string) : option (Z * string) :=
  match s with
  | String a (String b (String c (String d rest))) =>
      va ← hex_value a; vb ← hex_value b; vc ← hex_value c; vd ← hex_value d;
      Some ((((va * 16 + vb) * 16 + vc) * 16 + vd)%Z, rest)
  | _ => None
  end.

(** What a client makes of a stream: lines, and [None] for a flush. *)
Fixpoint read_packets (fuel : nat) (s : string) : option (list (option string)) :=
  match fuel with
  | O => if s =s "" then Some [] else None
  | S fuel =>
      if s =s "" then Some []
      else '(n, rest) ← read_length s;
           if (n =? 0)%Z then cons None <$> read_packets fuel rest
           else if (n <? 4)%Z || (slen rest <? n - 4)%Z then None
           else cons (Some (take_bytes (Z.to_nat (n - 4)) rest)) <$> read_packets fuel (drop_bytes (Z.to_nat (n - 4)) rest)
  end.

Lemma hex_value_digit d : (0 <= d < 16)%Z → hex_value (hex_digit d) = Some d.
Proof.
  intros Hd. assert (Hin : d ∈ [0; 1; 2; 3; 4; 5; 6; 7; 8; 9; 10; 11; 12; 13; 14; 15]%Z) by (rewrite !elem_of_cons; lia).
  repeat (apply elem_of_cons in Hin as [->|Hin]; [reflexivity|]). by apply elem_of_nil in Hin.
Qed.

#[local] Ltac unfold_hex := cbn -[hex_value hex_digit Z.div Z.modulo Z.mul Z.add mbind]; cbv [read_length String.append].

Lemma read_length_hex n rest : (0 <= n < 65536)%Z →
  read_length ((zeros (4 - String.length (hex n)) +:+ hex n) +:+ rest) = Some (n, rest).
Proof.
  intros Hn. assert (H0 : hex_value "0"%char = Some 0%Z) by done.
  assert (Hm : ∀ k, (0 <= k mod 16 < 16)%Z) by (intros; apply Z.mod_pos_bound; lia).
  assert (Hd : ∀ k, k = (16 * (k / 16) + k mod 16)%Z) by (intros; apply Z.div_mod; lia).
  unfold hex. cbn [hexLoop]. destruct (Z.ltb_spec n 16) as [H1|H1].
  { unfold_hex. rewrite ?H0, !hex_value_digit by lia. cbn [mbind option_bind]. do 2 f_equal. }
  destruct (Z.ltb_spec (n / 16) 16) as [H2|H2].
  { unfold_hex. rewrite ?H0, !hex_value_digit by (auto || (split; [apply Z.div_pos|]; lia)). cbn [mbind option_bind]. do 2 f_equal. specialize (Hd n). lia. }
  destruct (Z.ltb_spec (n / 16 / 16) 16) as [H3|H3].
  { unfold_hex. rewrite ?H0, !hex_value_digit by (auto || (split; [repeat apply Z.div_pos|]; lia)). cbn [mbind option_bind]. do 2 f_equal.
    pose proof (Hd n). pose proof (Hd (n / 16)%Z). lia. }
  assert (H4 : (n / 16 / 16 / 16 < 16)%Z) by (repeat (apply Z.div_lt_upper_bound; [lia|]); lia).
  destruct (Z.ltb_spec (n / 16 / 16 / 16) 16) as [_|]; [|lia].
  unfold_hex. rewrite ?H0, !hex_value_digit by (auto || (split; [repeat apply Z.div_pos|]; lia)). cbn [mbind option_bind]. do 2 f_equal.
  pose proof (Hd n). pose proof (Hd (n / 16)%Z). pose proof (Hd (n / 16 / 16)%Z). lia.
Qed.

Definition short (l : string) : Prop := (slen l + 4 <= 65535)%Z.

Lemma read_pktLine fuel l rest : short l → read_packets (S fuel) (pktLine l +:+ rest) = cons (Some l) <$> read_packets fuel rest.
Proof.
  intros Hl. unfold short in Hl. unfold pktLine. rewrite !app_assoc_s, <- (app_assoc_s (zeros _)). cbn [read_packets].
  rewrite (read_length_hex (slen l + 4) (l +:+ rest)) by (unfold slen in *; lia).
  cbn [mbind option_bind]. destruct (Z.eqb_spec (slen l + 4) 0); [unfold slen in *; lia|].
  destruct (Z.ltb_spec (slen l + 4) 4); [unfold slen in *; lia|]. replace (slen (l +:+ rest)) with (slen l + slen rest)%Z by (unfold slen; rewrite length_app_s; lia).
  destruct (Z.ltb_spec (slen l + slen rest) (slen l + 4 - 4)); [unfold slen in *; lia|]. cbn [orb].
  replace (Z.to_nat (slen l + 4 - 4)) with (String.length l) by (unfold slen; lia).
  rewrite take_bytes_app, drop_bytes_app. destruct (_ =s "") eqn:He; [|done]. exfalso.
  apply String.eqb_eq in He. pose proof (read_length_hex (slen l + 4) (l +:+ rest)) as Hr. rewrite He in Hr.
  unfold slen in *. specialize (Hr ltac:(lia)). done.
Qed.

Lemma read_flush fuel rest : read_packets (S fuel) ("0000" +:+ rest) = cons None <$> read_packets fuel rest.
Proof. done. Qed.

Lemma read_lines fuel ls rest : Forall short ls →
  read_packets (length ls + fuel) (foldr (λ l s, pktLine l +:+ s) "" ls +:+ rest) = app (Some <$> ls) <$> read_packets fuel rest.
Proof.
  induction 1 as [|l ls Hl _ IH]; [cbn [foldr length Nat.add]; rewrite app_nil_s; by destruct (read_packets fuel rest)|]. cbn [foldr length Nat.add].
  rewrite app_assoc_s, read_pktLine, IH by done. by destruct (read_packets fuel rest).
Qed.

Lemma app_nil_r_s s : s +:+ "" = s.
Proof. induction s; autorewrite with go_simpl; congruence. Qed.

Lemma Join_lines l : Join l "" = foldr String.append "" l.
Proof.
  induction l as [|x l IH]; [done|]. destruct l as [|y l]; [symmetry; apply app_nil_r_s|].
  change (Join (x :: y :: l) "") with (x +:+ "" +:+ Join (y :: l) ""). rewrite IH. done.
Qed.

Section Refs.
Context `{!GoRange}.

Lemma sorted_keys_spec {A} (m : gmap string A) k : k ∈ sorted_keys m ↔ is_Some (m !! k).
Proof.
  unfold sorted_keys. rewrite elem_of_sort_by, range_map_perm, list_elem_of_fmap. split.
  - intros ([k' v] & -> & Hin%elem_of_map_to_list). by exists v.
  - intros [v Hv]. exists (k, v). split; [done|]. by apply elem_of_map_to_list.
Qed.
Lemma sorted_keys_NoDup {A} (m : gmap string A) : NoDup (sorted_keys m).
Proof. unfold sorted_keys. rewrite sort_by_perm, range_map_perm. apply NoDup_fst_map_to_list. Qed.

(** The names of the lines after the first. *)
Definition otherBranches (st : repoState) : list string := List.filter (λ name, name <>s st.(r_Head)) (sorted_keys st.(r_Branches)).

End Refs.

(** ** Repositories *)

Definition numbered (n : nat) : string := "c" +:+ pretty n.

#[local] Instance numbered_inj : Inj (=) (=) numbered.
Proof. intros m n Heq. apply (inj (String.append "c")) in Heq. by apply (inj pretty) in Heq. Qed.

Lemma numbered_ne n : numbered n ≠ "".
Proof. done. Qed.

(** A commit is known under its number and follows an older one at most. *)
Definition commit_ok (commits : gmap string commit) (id : string) (c : commit) : Prop :=
  c.(commit_ID) = id
  ∧ ∃ n, id = numbered n
    ∧ (c.(commit_Parents) = [] ∨ ∃ m, c.(commit_Parents) = [numbered m] ∧ (m < n)%nat ∧ is_Some (commits !! numbered m)).

Record repo_ok (st : repoState) : Prop := {
  rk_ids : ∀ id, is_Some (st.(r_Commits) !! id) ↔ ∃ n, (1 ≤ n ≤ size st.(r_Commits))%nat ∧ id = numbered n;
  rk_commits : map_Forall (commit_ok st.(r_Commits)) st.(r_Commits);
  rk_branches : map_Forall (λ _ v, v = "" ∨ is_Some (st.(r_Commits) !! v)) st.(r_Branches)
}.

Lemma repo_ok_new : repo_ok newRepo.
Proof.
  split; [|exact (map_Forall_empty _)..]. intros id. cbn [newRepo r_Commits]. rewrite lookup_empty, map_size_empty.
  split; [by intros []|]. intros (n & Hn & _). lia.
Qed.

(** What changes neither commits nor branches. *)
Lemma repo_ok_eq st st' : st'.(r_Commits) = st.(r_Commits) → st'.(r_Branches) = st.(r_Branches) → repo_ok st → repo_ok st'.
Proof. intros Hc Hb [Hi Hk Hr]. split; by rewrite ?Hc, ?Hb. Qed.

Lemma head_ok st : repo_ok st → head_commit st = "" ∨ is_Some (st.(r_Commits) !! head_commit st).
Proof.
  intros Hok. unfold head_commit, get0. destruct (_ !! _) as [v|] eqn:Hv; [|by left]. by apply (rk_branches _ Hok _ _ Hv).
Qed.

Lemma repo_ok_branch st name v : repo_ok st → v = "" ∨ is_Some (st.(r_Commits) !! v) → repo_ok (st <| r_Branches := <[name := v]> st.(r_Branches) |>).
Proof. intros [Hi Hk Hb] Hv. split; [done..|]. by apply map_Forall_insert_2. Qed.

Lemma commitID_fresh st : repo_ok st → st.(r_Commits) !! commitID st = None.
Proof.
  intros Hok. apply eq_None_not_Some. intros (n & Hn & Heq)%(rk_ids _ Hok). apply (inj numbered (S _)) in Heq. lia.
Qed.

Lemma is_Some_insert {A} (m : gmap string A) k v i : m !! k = None → is_Some (<[k := v]> m !! i) ↔ i = k ∨ is_Some (m !! i).
Proof. intros Hk. rewrite lookup_insert_is_Some'. naive_solver. Qed.

Lemma repo_ok_commit t st msg : repo_ok st → repo_ok (doCommit t st msg) ∧ st.(r_Commits) ⊆ (doCommit t st msg).(r_Commits).
Proof.
  intros Hok. pose proof (commitID_fresh st Hok) as Hnew. split; [|by apply insert_subseteq].
  unfold doCommit. cbv zeta. set (id := commitID st) in *. set (c := mkCommit id msg _ _ t).
  assert (Hs : ∀ i, is_Some (<[id := c]> st.(r_Commits) !! i) ↔ i = id ∨ is_Some (st.(r_Commits) !! i)) by (intros; by apply is_Some_insert).
  split; cbn.
  - intros i. rewrite Hs, (rk_ids _ Hok i), map_size_insert_None by done. split.
    + intros [->|(n & Hn & ->)]; [exists (S (size st.(r_Commits))); split; [lia|done]|exists n; split; [lia|done]].
    + intros (n & Hn & ->). destruct (decide (n = S (size st.(r_Commits)))) as [->|]; [by left|]. right. exists n. split; [lia|done].
  - apply map_Forall_insert_2.
    + split; [done|]. exists (S (size st.(r_Commits))). split; [done|]. unfold c. cbn [commit_Parents].
      destruct (head_ok st Hok) as [->|Hh]; [by left|]. destruct (_ <>s ""); [right|by left].
      destruct (proj1 (rk_ids _ Hok _) Hh) as (m & Hm & Heq). exists m. split_and!; [by rewrite Heq|lia|]. rewrite <- Heq. apply Hs. by right.
    + intros i ci Hi. destruct (rk_commits _ Hok i ci Hi) as (Hid & n & -> & Hp). split; [done|]. exists n. split; [done|].
      destruct Hp as [|(m & ? & ? & ?)]; [by left|]. right. exists m. split_and!; [done..|]. apply Hs. by right.
  - apply map_Forall_insert_2; [right; apply Hs; by left|]. intros name v Hv.
    destruct (rk_branches _ Hok name v Hv) as [|]; [by left|]. right. apply Hs. by right.
Qed.

Lemma repo_ok_checkout st name : repo_ok st → repo_ok (doCheckout st name) ∧ (doCheckout st name).(r_Commits) = st.(r_Commits).
Proof.
  intros Hok. unfold doCheckout. cbv zeta.
  assert (Hb : repo_ok (if bool_decide (is_Some (st.(r_Branches) !! name)) then st else st <| r_Branches := <[name := head_commit st]> st.(r_Branches) |>)
    ∧ (if bool_decide (is_Some (st.(r_Branches) !! name)) then st else st <| r_Branches := <[name := head_commit st]> st.(r_Branches) |>).(r_Commits)
      = st.(r_Commits)).
  { case_bool_decide; [done|]. split; [|done]. by apply repo_ok_branch, head_ok. }
  destruct Hb as [Hb Hc]. set (st1 := if bool_decide _ then _ else _) in *. split; [|case_match; done].
  eapply repo_ok_eq; [| |exact Hb]; by case_match.
Qed.

(** ** The history of a branch *)

(** First parents from a commit to the beginning. *)
Fixpoint first_parents (commits : gmap string commit) (cur : string) (l : list commit) : Prop :=
  match l with
  | [] => cur = ""
  | c :: rest =>
      cur ≠ "" ∧ commits !! cur = Some c ∧ c.(commit_ID) = cur
      ∧ match c.(commit_Parents) with [] => rest = [] | parent :: _ => parent ≠ "" ∧ first_parents commits parent rest end
  end.

Lemma log_from st n fuel : repo_ok st → is_Some (st.(r_Commits) !! numbered n) → (n ≤ fuel)%nat →
  ∃ l, logLoop fuel st.(r_Commits) (numbered n) = Some l ∧ first_parents st.(r_Commits) (numbered n) l
    ∧ NoDup (commit_ID <$> l) ∧ Forall (λ c, ∃ m, (m ≤ n)%nat ∧ c.(commit_ID) = numbered m) l.
Proof.
  intros Hok. revert fuel. induction n as [n IH] using lt_wf_ind. intros fuel [c Hc] Hfuel.
  destruct (proj1 (rk_ids _ Hok (numbered n)) (ex_intro _ c Hc)) as (n' & Hn & <-%(inj numbered)).
  destruct fuel as [|fuel]; [lia|]. destruct (rk_commits _ Hok _ _ Hc) as (Hid & n' & <-%(inj numbered) & Hp).
  cbn [logLoop]. rewrite Hc. change (numbered n =s "") with false. change (default zeroval (Some c)) with c.
  destruct Hp as [Hp|(m & Hp & Hm & Hs)]; rewrite Hp.
  - exists [c]. split_and!; [done| |apply NoDup_singleton|].
    + split_and!; [done..|]. by rewrite Hp.
    + apply Forall_singleton. by exists n.
  - destruct (IH m Hm fuel Hs) as (l & -> & Hl & Hnd & Hle); [lia|]. exists (c :: l). split_and!; [done| | |].
    + split_and!; [done..|]. by rewrite Hp.
    + cbn [fmap list_fmap]. apply NoDup_cons. split; [|done]. intros (c' & Hc' & Hin)%list_elem_of_fmap.
      rewrite Forall_forall in Hle. destruct (Hle c' Hin) as (k & Hk & Heq). rewrite Hid, Heq in Hc'. apply (inj numbered) in Hc'. lia.
    + constructor; [by exists n|]. eapply Forall_impl; [exact Hle|]. intros c' (k & Hk & Heq). exists k. split; [lia|done].
Qed.

Lemma log_total st : repo_ok st → ∃ l, logLoop (S (size st.(r_Commits))) st.(r_Commits) (head_commit st) = Some l
  ∧ first_parents st.(r_Commits) (head_commit st) l ∧ NoDup (commit_ID <$> l).
Proof.
  intros Hok. destruct (head_ok st Hok) as [->|Hh]; [exists []; split_and!; [done..|constructor]|].
  destruct (proj1 (rk_ids _ Hok _) Hh) as (n & Hn & Heq). rewrite Heq in *.
  destruct (log_from st n (S (size st.(r_Commits))) Hok Hh) as (l & ? & ? & ? & _); [lia|]. by exists l.
Qed.

(** ** Methods keep what was committed *)

Section Methods.
Context `{!GoRange} (rfc3339nano : Time → string).

Lemma runMethod_ok t st method args st' r : repo_ok st → runMethod rfc3339nano t st method args = (st', r) →
  repo_ok st' ∧ st.(r_Commits) ⊆ st'.(r_Commits) ∧ r ≠ None.
Proof.
  intros Hok. unfold runMethod. cbv zeta. destruct (log_total st Hok) as (l & -> & _).
  repeat match goal with |- context [if ?x then _ else _] => destruct x eqn:? end; intros [= <- <-];
    try (split_and!; [by eapply repo_ok_eq; [..|exact Hok]|done|done]).
  - destruct (repo_ok_commit t st (match args !! "message" with Some (AString v) => v | _ => "" end) Hok). done.
  - split_and!; [|done|done]. apply repo_ok_branch; [done|by apply head_ok].
  - match goal with |- context [doCheckout st ?n] => destruct (repo_ok_checkout st n Hok) as [? ->] end. done.
Qed.
End Methods.

(** ** Runs over the blob store *)

(** [json.Unmarshal] of an encoded state into one that exists: the fields that
    are values are replaced, the entries of a map are added to it. *)
Definition merge (new old : repoState) : repoState :=
  mkRepoState new.(r_Initialized) new.(r_Head) (new.(r_Branches) ∪ old.(r_Branches)) (new.(r_Commits) ∪ old.(r_Commits))
    (new.(r_Index) ∪ old.(r_Index)) (new.(r_Files) ∪ old.(r_Files)) (new.(r_Remotes) ∪ old.(r_Remotes)) (new.(r_Tags) ∪ old.(r_Tags)).

Section Runs.
Context {B : Type} `{!GitBlob B, !RepoCodec, !GoRange}.
Context (rfc3339nano : Time → string) (quote : string → string) (scope_commit : Env → Scope → option error).
(** The document of each object. *)
Context (key_of : string → string).

(** The encoder of the standard library. *)
Definition codec_law : Prop := ∀ st old, repo_decode (repo_json st) old = merge st old.

(** A store of documents: a document is what was put under its name, a write
    that fails may or may not have happened, and reads do not fail. *)
Record blob_law : Prop := {
  bl_put : ∀ k v b, (gb_put k v b).2 = None → gb_get k (gb_put k v b).1 = ok (Some v);
  bl_others : ∀ k v b k', gb_get k' (gb_put k v b).1 = gb_get k' b ∨ k' = k ∧ gb_get k' (gb_put k v b).1 = ok (Some v);
  bl_get : ∀ k b, (gb_get k b).2 = None
}.

Context (Hcodec : codec_law) (Hblob : blob_law) (Hkey : Inj (=) (=) key_of).
Abbreviation GS := (GitService B).
Implicit Types (s : GS) (st : repoState) (sc : Scope).

Abbreviation oid sc := (sc.(Scope_Object).(DataObject_ID)).
Definition git_scope sc : Prop := sc.(Scope_Object).(DataObject_Kind) = ObjectKindGit ∧ stateKey sc = key_of (oid sc).

Inductive g_op :=
| GExec (e : Env) (sc : Scope) (method : string) (args : gmap string Any)
| GPack (sc : Scope) (service : string)
| GRefs (sc : Scope) (service : string)
| GRestart.

Definition g_apply (op : g_op) s : GS :=
  match op with
  | GExec e sc method args => (Exec rfc3339nano scope_commit e s (Some sc) method args).1
  | GPack sc service => (SmartHTTP quote s (Some sc) service).1
  | GRefs sc service => (InfoRefs s (Some sc) service).1
  | GRestart => s <| g_mem := ∅ |>
  end.
Definition g_allowed (op : g_op) : Prop := match op with GExec _ sc _ _ | GPack sc _ | GRefs sc _ => git_scope sc | GRestart => True end.

Inductive g_run (s0 : GS) : GS → Prop :=
| g_run_nil : g_run s0 s0
| g_run_step s op : g_run s0 s → g_allowed op → g_run s0 (g_apply op s).

(** The document of an object. *)
Definition stored s (id : string) (st : repoState) : Prop :=
  ∃ b, s.(g_blob) = Some b ∧ gb_get (key_of id) b = ok (Some (repo_json st)).

Record git_ok s : Prop := {
  go_blob : is_Some s.(g_blob);
  go_mem : map_Forall (λ _ st, repo_ok st) s.(g_mem);
  go_docs : ∀ b id raw, s.(g_blob) = Some b → gb_get (key_of id) b = ok (Some raw) →
    ∃ st, raw = repo_json st ∧ repo_ok st ∧ ∀ now, s.(g_mem) !! id = Some now → st.(r_Commits) ⊆ now.(r_Commits)
}.

Abbreviation loaded s sc := (load s sc (state s (oid sc))).

Lemma merge_ok st now : repo_ok st → repo_ok now → st.(r_Commits) ⊆ now.(r_Commits) → repo_ok (merge st now) ∧ (merge st now).(r_Commits) = now.(r_Commits).
Proof.
  intros Hst Hnow Hsub. assert (Hc : (merge st now).(r_Commits) = now.(r_Commits)) by (apply map_subseteq_union; done).
  split; [|done]. destruct Hnow as [Hi Hk Hb]. split; rewrite ?Hc; [done|done|].
  intros name v [Hv|[_ Hv]]%lookup_union_Some_raw; [|by eapply Hb].
  destruct (rk_branches _ Hst name v Hv) as [|[c Hs]]; [by left|]. right. exists c. by eapply lookup_weaken.
Qed.

Lemma repo_ok_state s id : map_Forall (λ _ st, repo_ok st) s.(g_mem) → repo_ok (state s id).
Proof. intros Hm. unfold state. destruct (_ !! id) as [st|] eqn:Hst; [by eapply Hm|apply repo_ok_new]. Qed.

(** Loading gives a sound state with every commit in memory and every one that is stored. *)
Lemma loaded_ok s sc : git_ok s → git_scope sc →
  repo_ok (loaded s sc) ∧ (state s (oid sc)).(r_Commits) ⊆ (loaded s sc).(r_Commits)
  ∧ ∀ st, stored s (oid sc) st → st.(r_Commits) ⊆ (loaded s sc).(r_Commits).
Proof.
  intros [[b Hb] Hm Hd] [_ Hk]. unfold load, stored. rewrite Hb, Hk. pose proof (bl_get Hblob (key_of (oid sc)) b) as Hget.
  destruct (gb_get (key_of (oid sc)) b) as [[raw|] err] eqn:Hraw; cbn in Hget; subst err.
  - destruct (Hd b (oid sc) raw Hb Hraw) as (st & -> & Hst & Hsub). rewrite Hcodec.
    assert (Hmerged : repo_ok (merge st (state s (oid sc))) ∧ (state s (oid sc)).(r_Commits) ⊆ (merge st (state s (oid sc))).(r_Commits)
      ∧ st.(r_Commits) ⊆ (merge st (state s (oid sc))).(r_Commits)).
    { unfold state. destruct (_ !! oid sc) as [now|] eqn:Hnow.
      - change (default newRepo (Some now)) with now. destruct (merge_ok st now Hst (Hm _ _ Hnow) (Hsub now eq_refl)) as [? Heq]. rewrite Heq. by split_and!; [..|apply Hsub].
      - change (default newRepo None) with newRepo. assert (Hc : (merge st newRepo).(r_Commits) = st.(r_Commits)) by apply (right_id_L _ _).
        split_and!; [|apply map_empty_subseteq|by rewrite Hc].
        eapply repo_ok_eq; [exact Hc|apply (right_id_L _ _)|done]. }
    destruct Hmerged as (Hok & Hs & Hst'). split_and!; [done..|]. intros st2 (b' & [= <-] & Hr). rewrite Hraw in Hr. injection Hr as Heq.
    assert (Hsame : st2.(r_Commits) = st.(r_Commits)).
    { pose proof (Hcodec st newRepo) as H1. rewrite Heq, Hcodec in H1. apply (f_equal r_Commits) in H1.
      unfold merge in H1. cbn in H1. by rewrite !(right_id_L _ _) in H1. }
    by rewrite Hsame.
  - split_and!; [by apply repo_ok_state|done|]. intros st (b' & [= <-] & Hr). by rewrite Hraw in Hr.
Qed.

(** Keeping a state that has at least the commits there were. *)
Lemma keep_ok s sc st : git_ok s → git_scope sc → repo_ok st → (loaded s sc).(r_Commits) ⊆ st.(r_Commits) → git_ok (keep s sc st).
Proof.
  intros Hok Hsc Hst Hsub. destruct (loaded_ok s sc Hok Hsc) as (_ & _ & Hstored). destruct Hok as [Hb Hm Hd]. split; cbn.
  - done.
  - by apply map_Forall_insert_2.
  - intros b id raw Hbl Hraw. destruct (Hd b id raw Hbl Hraw) as (old & -> & Hold & Hin). exists old. split_and!; [done..|].
    intros now [[<- <-]|[_ Hn]]%lookup_insert_Some; [|by apply Hin]. etrans; [|exact Hsub]. apply Hstored. by exists b.
Qed.

Lemma stored_keep s sc st id old : stored (keep s sc st) id old ↔ stored s id old.
Proof. done. Qed.

(** Saving what is kept. *)
Lemma save_ok s sc st : git_ok s → git_scope sc → repo_ok st → s.(g_mem) !! oid sc = Some st → git_ok (save s sc st).1.
Proof.
  intros [[b Hb] Hm Hd] [_ Hk] Hst Hnow. unfold save. rewrite Hb, Hk. destruct (gb_put (key_of (oid sc)) (repo_json st) b) as [b' err] eqn:Hput. cbn [fst].
  pose proof (bl_others Hblob (key_of (oid sc)) (repo_json st) b) as Hoth. rewrite Hput in Hoth. cbn [fst] in Hoth.
  split; cbn; [by eexists|done|]. intros b2 id raw [= <-] Hraw.
  destruct (Hoth (key_of id)) as [Heq|[Heq Hnew]].
  - rewrite Heq in Hraw. by apply (Hd b).
  - apply (inj key_of) in Heq as ->. rewrite Hnew in Hraw. injection Hraw as <-. exists st. split_and!; [done..|].
    intros now Hn. rewrite Hnow in Hn. by injection Hn as <-.
Qed.

(** A stored commit stays: documents only gain commits. *)
Definition persisted s (id cid : string) (c : commit) : Prop := ∃ st, stored s id st ∧ st.(r_Commits) !! cid = Some c.

Lemma save_persists s sc st id cid c : git_scope sc → s.(g_mem) !! oid sc = Some st → git_ok s →
  persisted s id cid c → persisted (save s sc st).1 id cid c.
Proof.
  intros [_ Hk] Hnow [_ _ Hd] (old & (b & Hb & Hraw) & Hc). unfold save. rewrite Hb, Hk.
  destruct (gb_put (key_of (oid sc)) (repo_json st) b) as [b' err] eqn:Hput. cbn [fst].
  pose proof (bl_others Hblob (key_of (oid sc)) (repo_json st) b (key_of id)) as Hoth. rewrite Hput in Hoth. cbn [fst] in Hoth.
  destruct Hoth as [Heq|[Heq Hnew]]; [exists old; split; [|done]; exists b'; cbn; by rewrite Heq|].
  apply (inj key_of) in Heq as ->. exists st. split; [by exists b'|]. destruct (Hd b _ _ Hb Hraw) as (old' & Hj & _ & Hin).
  specialize (Hin st Hnow). eapply lookup_weaken; [|exact Hin]. pose proof (Hcodec old newRepo) as H1. rewrite Hj, Hcodec in H1.
  apply (f_equal r_Commits) in H1. cbn in H1. rewrite !(right_id_L _ _) in H1. by rewrite H1.
Qed.

Lemma keep_same s sc st : (keep s sc st).(g_mem) !! oid sc = Some st.
Proof. apply lookup_insert_eq. Qed.

(** The result of a method: kept, and saved unless it failed. *)
Lemma Exec_cases e s sc method args : git_ok s → git_scope sc →
  ∃ st r, runMethod rfc3339nano (now e 0) (loaded s sc) method args = (st, Some r)
    ∧ repo_ok st ∧ (loaded s sc).(r_Commits) ⊆ st.(r_Commits)
    ∧ Exec rfc3339nano scope_commit e s (Some sc) method args =
        match r with
        | (_, Some err) => (keep s sc st, Some (fails ANil err))
        | (out, None) =>
            ((save (keep s sc st) sc st).1,
             Some match (save (keep s sc st) sc st).2 with Some err => fails ANil err | None => (out, scope_commit e sc) end)
        end.
Proof.
  intros Hok Hsc. destruct (loaded_ok s sc Hok Hsc) as (Hl & _). unfold Exec. destruct Hsc as [-> _]. rewrite String.eqb_refl. cbn [negb].
  destruct (runMethod _ _ _ _ _) as [st r] eqn:Hr. destruct (runMethod_ok _ _ _ _ _ _ _ Hl Hr) as (Hst & Hsub & Hsome).
  destruct r as [[out [err|]]|]; [| |done]; eexists st, _; (split; [done|]); split_and!; [done..| |done|done|].
  - done.
  - by destruct (save (keep s sc st) sc st).
Qed.

Lemma saved_stored s sc st : git_scope sc → is_Some s.(g_blob) → (save s sc st).2 = None → stored (save s sc st).1 (oid sc) st.
Proof.
  intros [_ Hk] [b Hb]. unfold save. rewrite Hb, Hk. pose proof (bl_put Hblob (key_of (oid sc)) (repo_json st) b) as Hput.
  destruct (gb_put _ _ b) as [b' err]. cbn in *. intros ->. exists b'. split; [done|by apply Hput].
Qed.

Lemma kept_saved s sc st : git_ok s → git_scope sc → repo_ok st → (loaded s sc).(r_Commits) ⊆ st.(r_Commits) →
  let s' := (save (keep s sc st) sc st).1 in git_ok s' ∧ ∀ id cid c, persisted s id cid c → persisted s' id cid c.
Proof.
  intros Hok Hsc Hst Hsub. pose proof (keep_ok s sc st Hok Hsc Hst Hsub) as Hkeep. split; [apply save_ok; [done..|apply keep_same]|].
  intros id cid c Hp. apply save_persists; [done|apply keep_same|done|exact Hp].
Qed.

Lemma g_apply_ok op s : git_ok s → g_allowed op → git_ok (g_apply op s) ∧ ∀ id cid c, persisted s id cid c → persisted (g_apply op s) id cid c.
Proof.
  intros Hok. destruct op as [e sc method args|sc service|sc service|]; cbn [g_apply g_allowed]; intros Hsc.
  - destruct (Exec_cases e s sc method args Hok Hsc) as (st & [out [err|]] & _ & Hst & Hsub & ->); cbn [fst].
    + split; [by apply keep_ok|done].
    + by apply kept_saved.
  - unfold SmartHTTP. destruct Hsc as [Hkind Hk]. rewrite Hkind, String.eqb_refl. cbn [negb]. cbv zeta.
    destruct (loaded_ok s sc Hok (conj Hkind Hk)) as (Hl & _). set (st := _ <| r_Initialized := true |>).
    assert (Hst : repo_ok st) by exact (repo_ok_eq (loaded s sc) st eq_refl eq_refl Hl).
    destruct (service =s "git-upload-pack"); [split; [by apply keep_ok|done]|].
    destruct (service =s "git-receive-pack"); [by apply kept_saved|]. split; [by apply keep_ok|done].
  - unfold InfoRefs. destruct Hsc as [Hkind Hk]. rewrite Hkind, String.eqb_refl. cbn [negb fst].
    split; [|done]. apply keep_ok; [done..| |done]. by apply loaded_ok.
  - split; [|done]. destruct Hok as [Hb Hm Hd]. split; [done|by apply map_Forall_empty|]. intros b id raw Hbl Hraw.
    destruct (Hd b id raw Hbl Hraw) as (st & ? & ? & _). exists st. split_and!; [done..|]. intros now Hn. by destruct (lookup_empty_Some id now Hn).
Qed.

Lemma g_run_ok b s : (∀ id, gb_get (key_of id) b = ok None) → g_run (NewGitService (Some b)) s → git_ok s.
Proof.
  intros Hempty. induction 1 as [|s op _ IH Ha]; [|by apply g_apply_ok]. split; [by eexists|by apply map_Forall_empty|].
  intros b' id raw [= <-] Hraw. by rewrite Hempty in Hraw.
Qed.

Lemma g_run_persisted s s' id cid c : git_ok s → g_run s s' → persisted s id cid c → git_ok s' ∧ persisted s' id cid c.
Proof.
  intros Hok Hrun Hp. induction Hrun as [|s' op _ [IHok IHp] Ha]; [done|]. destruct (g_apply_ok op s' IHok Ha) as [? Hkeep]. auto.
Qed.

End Runs.

(** ** Witnesses *)

(** Some injective encoding of states stands for the encoder. *)
Definition wg_fields (st : repoState) :=
  (st.(r_Initialized), st.(r_Head), st.(r_Branches),
   (λ c, (c.(commit_ID), c.(commit_Message), c.(commit_Parents), c.(commit_Tree), c.(commit_At))) <$> st.(r_Commits),
   st.(r_Index), st.(r_Files), st.(r_Remotes), st.(r_Tags)).
Definition wg_build (x : bool * string * gmap string string * gmap string (string * string * list string * gmap string string * Z)
    * gmap string string * gmap string string * gmap string string * gmap string string) : repoState :=
  let '(i, h, b, c, ix, f, r, t) := x in
  mkRepoState i h b ((λ '(id, m, p, tr, a), mkCommit id m p tr a) <$> c) ix f r t.

Lemma wg_build_fields st : wg_build (wg_fields st) = st.
Proof.
  destruct st as [i h b c ix f r t]. unfold wg_build, wg_fields. cbn. f_equal. rewrite <- map_fmap_compose. rewrite <- (map_fmap_id c) at 2.
  apply map_fmap_ext. by intros k [] _.
Qed.

Fixpoint bits (p : positive) : string :=
  match p with xH => "" | xO p => String "0"%char (bits p) | xI p => String "1"%char (bits p) end.
Fixpoint unbits (s : string) : positive :=
  match s with "" => xH | String c s => if Ascii.eqb c "0"%char then xO (unbits s) else xI (unbits s) end.
Lemma unbits_bits p : unbits (bits p) = p.
Proof. induction p as [p IH|p IH|]; cbn; by rewrite ?IH. Qed.

#[local] Instance wg_codec : RepoCodec := {|
  repo_json := λ st, bits (encode (wg_fields st));
  repo_decode := λ raw old, match decode (unbits raw) with Some x => merge (wg_build x) old | None => old end
|}.
Lemma wg_codec_law : codec_law.
Proof. intros st old. unfold repo_decode, repo_json, wg_codec. by rewrite unbits_bits, decode_encode, wg_build_fields. Qed.

(** Documents in a map; reads may be off. *)
#[local] Instance wg_blob : GitBlob (gmap string string * bool) := {|
  gb_put := λ k v (b : gmap string string * bool), ((<[k := v]> b.1, b.2), None);
  gb_get := λ k (b : gmap string string * bool), if b.2 then fails None (NewError "read failed") else ok (b.1 !! k)
|}.
(** The same with reads that work. *)
#[local] Instance wg_docs : GitBlob (gmap string string) := {| gb_put := λ k v b, (<[k := v]> b, None); gb_get := λ k b, ok (b !! k) |}.

Lemma wg_docs_law : blob_law (B := gmap string string).
Proof.
  split; [|intros k v b k'; destruct (decide (k' = k)) as [->|Hne]|done]; cbn.
  - intros k v b _. by rewrite lookup_insert_eq.
  - right. by rewrite lookup_insert_eq.
  - left. by rewrite lookup_insert_ne.
Qed.

#[local] Existing Instance canonical_range.
Definition wg_key (id : string) : string := "objects/" +:+ (id +:+ "/git/state.json").
#[local] Instance wg_key_inj : Inj (=) (=) wg_key.
Proof.
  intros a b Heq. apply (inj (String.append "objects/")) in Heq. revert b Heq. induction a as [|x a IH]; intros [|y b]; rewrite ?app_cons_s, ?app_nil_s.
  - done.
  - intros Heq. apply (f_equal String.length) in Heq. cbn in Heq. rewrite length_app_s in Heq. cbn in Heq. lia.
  - intros Heq. apply (f_equal String.length) in Heq. cbn in Heq. rewrite length_app_s in Heq. cbn in Heq. lia.
  - intros [= -> ->%IH]. done.
Qed.

Definition wg_scope : Scope :=
  mkScope ((zeroval : DataObject) <| DataObject_ID := "g" |> <| DataObject_Kind := ObjectKindGit |>) "" zeroval zeroval None true.
Definition wg_env : Env := mkEnv (λ _, 7%Z) (λ _, "") (λ _, None).
Definition wg_add : gmap string Any := list_to_map [("path", AString "a.txt"); ("content", AString "one")].
Definition wg_msg : gmap string Any := list_to_map [("message", AString "first")].
Abbreviation wg_exec := (Exec (λ _, "") (λ _ _, None) wg_env).
Abbreviation wg_staged := (wg_exec (NewGitService (Some (∅ : gmap string string))) (Some wg_scope) "add" wg_add).1.
Abbreviation wg_done := (wg_exec wg_staged (Some wg_scope) "commit" wg_msg).

Lemma wg_scope_ok : git_scope wg_key wg_scope.
Proof. split; vm_compute; reflexivity. Qed.

Abbreviation wg_again := (g_apply (λ _, "") (λ q, q) (λ _ _, None) GRestart wg_done.1).
Abbreviation wg_read s := (load s wg_scope (state s (DataObject_ID (Scope_Object wg_scope)))).



(** A read that fails is taken for a repository that does not exist: after a
    restart, one call while reads fail replaces the stored repository by a new
    one, and the commit that was stored is gone. *)
Abbreviation wf_start := (NewGitService (Some (∅ : gmap string string, false))).
Abbreviation wf_stored := (wg_exec (wg_exec wf_start (Some wg_scope) "add" wg_add).1 (Some wg_scope) "commit" wg_msg).
Definition reads (off : bool) (s : GitService (gmap string string * bool)) : GitService (gmap string string * bool) :=
  s <| g_blob := (λ b, (b.1, off)) <$> s.(g_blob) |> <| g_mem := ∅ |>.
Abbreviation wf_during := (wg_exec (reads true wf_stored.1) (Some wg_scope) "add" wg_add).
Theorem failed_read_wipes_repository :
  (∃ out, wf_stored.2 = Some (ok out)) ∧ is_Some ((load (reads false wf_stored.1) wg_scope newRepo).(r_Commits) !! "c1")
  ∧ (∃ out, wf_during.2 = Some (ok out))
  ∧ (load (reads false wf_during.1) wg_scope newRepo).(r_Commits) !! "c1" = None.
Proof. split_and!; [eexists|eexists|eexists|]; vm_compute; reflexivity. Qed.
