(* ===== verification/HttpKnowledge.v ===== *)
(** [internal/httpapi/knowledge_handler.go], [ingest_handler.go] and
    [agent_keys_handler.go]: documents, uploads, downloads and agent keys over
    HTTP, behind the chain [guard] of [router.go].

    Decoders, multipart forms, media types and the HTTP client of the download
    are parameters; what the client asks of its dialer is modelled. *)
From S2P Require Import Prelude GoStrings GoNet Models DataObj AccessState AccessObjects AccessService Documents Ingest Knowledge AgentKeys Usage Sessions HttpObjects HttpAdmin.
From Stdlib Require Import Ascii Floats.SpecFloat.

(** ** Requests and replies *)

Inductive KBody :=
| KText (s : string)                         (* [http.Error] *)
| KPage (l : PaginatedKnowledgeList)
| KDoc (d : DocumentRecord)
| KHits (l : list SearchHit)
| KChallenge (nonce : string) (expiresAt : Time)
| KKey (k : AgentKey)
| KKeys (l : list AgentKey)
| KRevoked
| KNone
| KAborted.                                  (* the handler panicked; the server drops the connection *)

Record KReply := mkKReply { kr_status : Z; kr_body : KBody }.

Definition k_Error (text : string) (status : Z) : KReply := mkKReply status (KText text).
Definition k_unauthorized : KReply := k_Error "unauthorized" 401.
Definition aborted : KReply := mkKReply 0 KAborted.

Definition reply_with {X} (status : Z) (body : X → KBody) (r : ret X) : KReply :=
  match r with (_, Some err) => k_Error (Error_text err) (statusFromErr err) | (x, None) => mkKReply status (body x) end.

(** [dto.go] *)
Record CreateKnowledgeRequest := mkCreateKnowledgeRequest {
  ck_StorageID : string; ck_Title : string; ck_Text : string; ck_MimeType : string;
  ck_Visibility : Visibility; ck_GroupIDs : list string; ck_Source : string; ck_SourceURL : string
}.

(** [r.URL.Query().Get(k)]; [strconv.Atoi] gives zero for what is no number. *)
Definition parsePageRequest (Atoi : string → Z) (query : string → string) : PageRequest :=
  let mode := if query "sourceUrlMode" =s "" then "exact" else query "sourceUrlMode" in
  mkPageRequest (Atoi (query "page")) (Atoi (query "pageSize")) "" "" (query "storageId") (query "source") (query "sourceUrl") mode
    [] false [] [].

Section Knowledge.
Context `{Postgres, GoRange, S3} {C V J : Type} `{!Catalog C, !VectorStore V, !JobStore J}.
Context (quote : string → string) (unicode_lower : Z → Z) (parse_request_uri : string → option error).
Context (cfg : PipelineConfig) (s3Bucket : string) (worker : option Z) (allowPartialSource : bool).
Context (Atoi : string → Z) (dec_create : string → CreateKnowledgeRequest + error) (dec_search : string → SearchRequest + error).
Implicit Types (s : KState C V J) (p : option Principal) (ac : APIAccessContext).

Definition List_ e s p ac (query : string → string) : KReply :=
  match p with
  | None => k_unauthorized
  | Some p => match KList e s p ac (parsePageRequest Atoi query) with None => aborted | Some r => reply_with 200 KPage r end
  end.

Definition Create (channel : string) (env : nat → Env) e s p ac (body : string) : KState C V J * KReply :=
  match p with
  | None => (s, k_unauthorized)
  | Some p =>
      match dec_create body with
      | inr err => (s, k_Error (Error_text err) 400)
      | inl req =>
          let '(s, r) := KSave parse_request_uri cfg s3Bucket env e s p ac
            (mkSaveInput req.(ck_StorageID) req.(ck_Title) req.(ck_Text) req.(ck_MimeType) req.(ck_Visibility) req.(ck_GroupIDs)
               req.(ck_Source) req.(ck_SourceURL) channel) in
          (s, reply_with 201 KDoc r)
      end
  end.

Definition docIDOf (urlPath : string) : string := TrimPrefix urlPath "/api/knowledge/".

Definition Get_ s p ac (urlPath : string) : KReply :=
  match p with None => k_unauthorized | Some p => reply_with 200 KDoc (KGet s p ac (docIDOf urlPath)) end.

Definition Delete_ e s p ac (urlPath : string) : KState C V J * KReply :=
  match p with
  | None => (s, k_unauthorized)
  | Some p =>
      let '(s, err) := KDelete worker e s p ac (docIDOf urlPath) in
      (s, match err with Some err => k_Error (Error_text err) (statusFromErr err) | None => mkKReply 204 KNone end)
  end.

Definition Search_ e (llm : LLM) s p ac (body : string) : KReply :=
  match p with
  | None => k_unauthorized
  | Some p =>
      match dec_search body with
      | inr err => k_Error (Error_text err) 400
      | inl req =>
          match KSearch unicode_lower e llm s p ac req allowPartialSource with None => aborted | Some r => reply_with 200 KHits r end
      end
  end.
End Knowledge.

(** ** Addresses a download may reach *)

(** [None]: [nil] *)
Definition isDisallowedIP (ip : option IP) : bool :=
  match ip with
  | None => true
  | Some ip => IsLoopback ip || IsLinkLocalUnicast ip || IsLinkLocalMulticast ip || IsMulticast ip || IsUnspecified ip || IsPrivate ip
  end.

(** The [Control] hook of [ssrfSafeClient]'s dialer. *)
Definition dialControl (ParseIP : string → option IP) (quote : string → string) (ip_String : IP → string) (address : string) : option error :=
  match SplitHostPort address with
  | (_, Some err) => Some err
  | ((host, _), None) =>
      match ParseIP host with
      | None => Some (NewError ("cannot resolve address " +:+ quote host))
      | Some ip => if isDisallowedIP (Some ip) then Some (NewError ("address " +:+ ip_String ip +:+ " is not allowed")) else None
      end
  end.

(** ** [path/filepath] *)

Fixpoint Ext (path : string) : string :=
  match path with
  | "" => ""
  | String c rest =>
      let e := Ext rest in
      if e <>s "" then e else if Ascii.eqb c "."%char && negb (Contains rest "/") then path else ""
  end.

Definition Base (path : string) : string :=
  if path =s "" then "."
  else let base := last_part "/"%char (trim_right_byte "/"%char path) in if base =s "" then "/" else base.

(** ** Uploads and downloads *)

(** A multipart form: [FormValue], and the file with its name; a file that
    cannot be read is [None]. *)
Record UploadForm := mkUploadForm { uf_value : string → string; uf_file : option (string * option string) }.

(** What [url.ParseRequestURI] gives. *)
Record URLParts := mkURLParts { u_scheme : string; u_path : string; u_string : string }.

(** A response; a body that cannot be read is [None]. *)
Record Download := mkDownload { dl_code : Z; dl_status : string; dl_contentType : string; dl_body : option string }.

(** The client's [Get] under a hook: what it changes, the addresses it
    connects to, and the response. *)
Class Fetcher := {
  FW : Type;
  fetch : (string → option error) → string → FW → FW * list string * (Download + error)
}.

Record ingestLinkRequest := mkIngestLinkRequest {
  il_StorageID : string; il_Title : string; il_URL : string; il_Visibility : Visibility; il_Source : string
}.

Definition maxDownload : Z := 33554432.     (* [32 << 20] *)

(** [io.ReadAll(io.LimitReader(r, n))] *)
Definition readLimited (n : Z) (content : string) : string :=
  if (slen content <=? n)%Z then content else take_bytes (Z.to_nat n) content.

Section Ingestion.
Context `{Postgres, GoRange, S3, Fetcher} {C V J : Type} `{!Catalog C, !VectorStore V, !JobStore J}.
Context (quote : string → string) (unicode_lower : Z → Z) (parse_request_uri : string → option error).
Context (cfg : PipelineConfig) (s3Bucket : string).
Context (ParseIP : string → option IP) (ip_String : IP → string) (parse_uri : string → URLParts + error).
Context (TypeByExtension : string → string) (ParseMediaType : string → string + error) (dec_link : string → ingestLinkRequest + error).
Implicit Types (s : KState C V J) (p : option Principal) (ac : APIAccessContext).

Definition octetStream : string := "application/octet-stream".

(** The type of a file: the one given, else that of its extension. *)
Definition mimeOf (given filename : string) : string :=
  let mimeType := if given =s "" then TypeByExtension (ToLower unicode_lower (Ext filename)) else given in
  if mimeType =s "" then octetStream else mimeType.

(** [form]: [None] when the form cannot be parsed. *)
Definition IngestFile (env : nat → Env) e s p ac (form : option UploadForm) : KState C V J * KReply :=
  match p with
  | None => (s, k_unauthorized)
  | Some p =>
      match form with
      | None => (s, k_Error "invalid multipart form" 400)
      | Some f =>
          let value k := TrimSpace (f.(uf_value) k) in
          if (value "sourceUrl" <>s "") && bool_decide (is_Some (parse_request_uri (value "sourceUrl")))
          then (s, k_Error "invalid sourceUrl" 422)
          else match f.(uf_file) with
          | None => (s, k_Error "missing file" 400)
          | Some (_, None) => (s, k_Error "failed to read file" 400)
          | Some (name, Some payload) =>
              let filename := if name =s "" then "upload.bin" else name in
              let title := if value "title" =s "" then filename else value "title" in
              let '(s, r) := IngestBinary unicode_lower parse_request_uri cfg s3Bucket env e s p ac
                (mkBinaryInput (value "storageId") title filename payload (mimeOf (value "mimeType") filename) (value "visibility") []
                   (value "source") (value "sourceUrl") "api") in
              (s, reply_with 201 KDoc r)
          end
      end
  end.

(** The name and the type of what was downloaded. *)
Definition downloadName (u : URLParts) : string :=
  let base := Base u.(u_path) in
  if (u.(u_path) =s "") || (base =s ".") || (base =s "/") || (base =s "") then "download.bin" else base.

Definition downloadType (d : Download) : string :=
  match ParseMediaType d.(dl_contentType) with
  | inl mt => if d.(dl_contentType) =s "" then "" else mt
  | inr _ => d.(dl_contentType)
  end.

(** The addresses the download connected to come with the result. *)
Definition IngestLink (env : nat → Env) e (w : FW) s p ac (body : string) : FW * list string * (KState C V J * KReply) :=
  let stop s reply := (w, [], (s, reply)) in
  match p with
  | None => stop s k_unauthorized
  | Some p =>
      match dec_link body with
      | inr _ => stop s (k_Error "invalid json" 400)
      | inl req =>
          let url := TrimSpace req.(il_URL) in
          if url =s "" then stop s (k_Error "url is empty" 422)
          else match parse_uri url with
          | inr _ => stop s (k_Error "invalid url" 422)
          | inl u =>
              if (u.(u_scheme) <>s "http") && (u.(u_scheme) <>s "https") then stop s (k_Error "unsupported url scheme" 422)
              else
                let '(w, dialled, resp) := fetch (dialControl ParseIP quote ip_String) u.(u_string) w in
                let stop s reply := (w, dialled, (s, reply)) in
                match resp with
                | inr _ => stop s (k_Error "failed to download" 400)
                | inl d =>
                    if (d.(dl_code) <? 200)%Z || (300 <=? d.(dl_code))%Z then stop s (k_Error ("download failed: " +:+ d.(dl_status)) 400)
                    else match d.(dl_body) with
                    | None => stop s (k_Error "failed to read body" 400)
                    | Some content =>
                        let payload := readLimited maxDownload content in
                        let filename := downloadName u in
                        let title := if TrimSpace req.(il_Title) =s "" then filename else TrimSpace req.(il_Title) in
                        let source := if TrimSpace req.(il_Source) =s "" then "link" else TrimSpace req.(il_Source) in
                        let '(s, r) := IngestBinary unicode_lower parse_request_uri cfg s3Bucket env e s p ac
                          (mkBinaryInput (TrimSpace req.(il_StorageID)) title filename payload (mimeOf (downloadType d) filename)
                             req.(il_Visibility) [] source u.(u_string) "api") in
                        stop s (reply_with 201 KDoc r)
                    end
                end
          end
      end
  end.
End Ingestion.

(** ** Agent keys *)

Record registerRequest := mkRegisterRequest { rr_alg : string; rr_publicKey : string; rr_nonce : string; rr_signature : string }.

Section Keys.
Context `{AgentDB, AgentRedis, Signatures, GoRange}.
Context (json_marshal : Any → option string) (rfc3339nano : Time → string) (quote : string → string).
Context (b64rawurl b64std : string → option string) (dec_register : string → registerRequest + error).
Implicit Types (s : KeyStore) (p : option Principal) (ac : APIAccessContext).

(** [cookie]: the value of [session_id] *)
Definition binder (cookie : option string) (p : Principal) ac : string :=
  match ac.(APIAccessContext_AccessToken) with
  | Some t => "token:" +:+ t.(AccessToken_ID)
  | None =>
      match cookie with
      | Some v => if v =s "" then "subject:" +:+ SubjectKeyForPrincipal p else "session:" +:+ v
      | None => "subject:" +:+ SubjectKeyForPrincipal p
      end
  end.

Definition decodeKeyBytes (s : string) : option string :=
  let s := TrimSpace s in match b64rawurl s with Some out => Some out | None => b64std s end.

Definition challenge e s p ac (cookie : option string) : KeyStore * KReply :=
  match p with
  | None => (s, k_unauthorized)
  | Some p =>
      match CreateChallenge rfc3339nano e s (binder cookie p ac) 0 with
      | (s, (_, Some err)) => (s, k_Error (Error_text err) 400)
      | (s, (ch, None)) => (s, mkKReply 200 (KChallenge ch.(Chal_Nonce) ch.(Chal_ExpiresAt)))
      end
  end.

Definition register e s p ac (cookie : option string) (body : string) : KeyStore * KReply :=
  match p with
  | None => (s, k_unauthorized)
  | Some p =>
      match dec_register body with
      | inr err => (s, k_Error (Error_text err) 400)
      | inl req =>
          match decodeKeyBytes req.(rr_publicKey), decodeKeyBytes req.(rr_signature) with
          | None, _ => (s, k_Error "invalid publicKey" 400)
          | Some _, None => (s, k_Error "invalid signature" 400)
          | Some pub, Some sig =>
              let tokenID := match ac.(APIAccessContext_AccessToken) with Some t => t.(AccessToken_ID) | None => "" end in
              match Register json_marshal quote e s
                      (mkRegisterInput (SubjectKeyForPrincipal p) tokenID req.(rr_alg) pub req.(rr_nonce) sig (binder cookie p ac)) with
              | (s, (_, Some err)) => (s, k_Error (Error_text err) 400)
              | (s, (key, None)) => (s, mkKReply 201 (KKey key))
              end
          end
      end
  end.

Definition listKeys s p : KReply :=
  match p with None => k_unauthorized | Some p => reply_with 200 KKeys (ListForSubject s (SubjectKeyForPrincipal p)) end.

Definition revokeKey (t : Time) s p (id : string) : KeyStore * KReply :=
  match p with
  | None => (s, k_unauthorized)
  | Some p =>
      match RevokeKey t s id (SubjectKeyForPrincipal p) with
      | (s, Some err) => (s, k_Error (Error_text err) 400)
      | (s, None) => (s, mkKReply 200 KRevoked)
      end
  end.
End Keys.

(** ** The chain in front of the handlers *)

(** [guard] of [NewRouter]: authentication, then the limit of the token, then
    the handler. [run] is given the principal and the access context. *)
Definition guard `{Redis, SessionRedis, !Codec WebSession} {S R} (t : Time) (clock : nat → Time) (sessions : SessionStore) (usage : Service)
    (method : string) (cookie : option string) (csrf : string) (gateway : (Principal * APIAccessContext) + AdminReply)
    (run : Principal → APIAccessContext → S → S * R) (s : S) : Service * S * (R + AdminReply) :=
  match AuthMiddleware t sessions method cookie csrf gateway with
  | inr reply => (usage, s, inr reply)
  | inl who =>
      let '(p, ac) := match who with ByCookie p ac | ByGateway p ac => (p, ac) end in
      match rateLimitMiddleware clock usage ac with
      | (usage, Some reply) => (usage, s, inr reply)
      | (usage, None) => let '(s, r) := run p ac s in (usage, s, inl r)
      end
  end.
