(* ===== verification/HttpKnowledgeProps.v ===== *)
(** Downloads on behalf of a caller reach public addresses only, and what is
    stored of them is bounded. *)
From S2P Require Import Prelude GoStrings GoNet Models DataObj AccessState AccessObjects AccessService Documents Ingest Knowledge AgentKeys Usage Sessions HttpObjects HttpAdmin KnowledgeProps AccessProps HttpKnowledge.
From Stdlib Require Import Ascii.

(** ** Addresses as numbers *)

(** The value of bytes in network order. *)
Definition ip_value (l : list Z) : Z := foldl (λ n b, n * 256 + b)%Z 0%Z l.

Definition is_ip (ip : IP) : Prop := (length ip = 4 ∨ length ip = 16)%nat ∧ Forall (λ b, 0 <= b < 256)%Z ip.

(** The blocks of a prefix: [a] of [bits] bits, cut to [len]. *)
Definition in_block (bits : Z) (block : Z * Z) (n : Z) : Prop :=
  (block.1 * 2 ^ (bits - block.2) <= n < (block.1 + 1) * 2 ^ (bits - block.2))%Z.

(** Internal blocks of IPv4, as the prefix and its length: 127/8, 169.254/16,
    224/4, 0.0.0.0/32, 10/8, 172.16/12 and 192.168/16. *)
Definition internal_v4 : list (Z * Z) :=
  [(127, 8); (169 * 256 + 254, 16); (14, 4); (0, 32); (10, 8); (172 * 16 + 1, 12); (192 * 256 + 168, 16)]%Z.

(** Internal blocks of IPv6: ::1, ::, fe80::/10, ff00::/8 and fc00::/7. *)
Definition internal_v6 : list (Z * Z) := [(1, 128); (0, 128); (254 * 4 + 2, 10); (255, 8); (126, 7)]%Z.

(** An address in none of the internal blocks; a mapped IPv4 address counts
    as that address. *)
Definition public_ip (ip : IP) : Prop :=
  match To4 ip with
  | Some ip4 => ∀ block, block ∈ internal_v4 → ¬ in_block 32 block (ip_value ip4)
  | None => ∀ block, block ∈ internal_v6 → ¬ in_block 128 block (ip_value ip)
  end.

Lemma ip_value_from l a : foldl (λ n b, n * 256 + b)%Z a l = (a * 256 ^ Z.of_nat (length l) + ip_value l)%Z.
Proof.
  unfold ip_value. revert a. induction l as [|b l IH]; intros a; [cbn; lia|]. cbn [foldl length].
  rewrite (IH (a * 256 + b)%Z), (IH (0 * 256 + b)%Z), Nat2Z.inj_succ, Z.pow_succ_r by lia. ring.
Qed.

Lemma ip_value_cons b l : ip_value (b :: l) = (b * 256 ^ Z.of_nat (length l) + ip_value l)%Z.
Proof. unfold ip_value at 1. cbn [foldl]. by rewrite ip_value_from. Qed.

Lemma ip_value_bounds l : Forall (λ b, 0 <= b < 256)%Z l → (0 <= ip_value l < 256 ^ Z.of_nat (length l))%Z.
Proof.
  induction 1 as [|b l Hb _ IH]; [done|]. rewrite ip_value_cons. cbn [length]. rewrite Nat2Z.inj_succ, Z.pow_succ_r by lia. nia.
Qed.

Lemma ip_value_inj l l' : length l = length l' → Forall (λ b, 0 <= b < 256)%Z l → Forall (λ b, 0 <= b < 256)%Z l' →
  ip_value l = ip_value l' → l = l'.
Proof.
  revert l'. induction l as [|b l IH]; intros [|b' l'] Hlen Hl Hl' Hv; try done. injection Hlen as Hlen.
  apply Forall_cons in Hl as [Hb Hl], Hl' as [Hb' Hl']. rewrite !ip_value_cons, Hlen in Hv.
  pose proof (ip_value_bounds l Hl) as Hbl. pose proof (ip_value_bounds l' Hl') as Hbl'. rewrite Hlen in Hbl.
  set (w := (256 ^ Z.of_nat (length l'))%Z) in *. assert (b = b') as <- by nia. f_equal. apply IH; [done..|lia].
Qed.

(** Masks of one octet. *)
Definition octets : list Z := map Z.of_nat (seq 0 256).
Lemma elem_of_octets b : (0 <= b < 256)%Z → b ∈ octets.
Proof. intros Hb. apply list_elem_of_fmap. exists (Z.to_nat b). split; [lia|]. apply elem_of_seq. lia. Qed.

Lemma octet_table (f g : Z → bool) b : (0 <= b < 256)%Z → forallb (λ b, Bool.eqb (f b) (g b)) octets = true → f b = g b.
Proof. intros Hb Hf. rewrite forallb_forall in Hf. apply Bool.eqb_prop, Hf, list_elem_of_In. by apply elem_of_octets. Qed.

Lemma mask_multicast b : (0 <= b < 256)%Z → (Z.land b 240 =? 224)%Z = ((224 <=? b) && (b <? 240))%Z.
Proof. intros Hb. by apply (octet_table (λ b, Z.land b 240 =? 224)%Z (λ b, (224 <=? b) && (b <? 240))%Z). Qed.
Lemma mask_172 b : (0 <= b < 256)%Z → (Z.land b 240 =? 16)%Z = ((16 <=? b) && (b <? 32))%Z.
Proof. intros Hb. by apply (octet_table (λ b, Z.land b 240 =? 16)%Z (λ b, (16 <=? b) && (b <? 32))%Z). Qed.
Lemma mask_fe80 b : (0 <= b < 256)%Z → (Z.land b 192 =? 128)%Z = ((128 <=? b) && (b <? 192))%Z.
Proof. intros Hb. by apply (octet_table (λ b, Z.land b 192 =? 128)%Z (λ b, (128 <=? b) && (b <? 192))%Z). Qed.
Lemma mask_fc b : (0 <= b < 256)%Z → (Z.land b 254 =? 252)%Z = ((252 <=? b) && (b <? 254))%Z.
Proof. intros Hb. by apply (octet_table (λ b, Z.land b 254 =? 252)%Z (λ b, (252 <=? b) && (b <? 254))%Z). Qed.

Lemma blocks_cons bits block l n : (∀ b, b ∈ block :: l → ¬ in_block bits b n) ↔ ¬ in_block bits block n ∧ ∀ b, b ∈ l → ¬ in_block bits b n.
Proof. setoid_rewrite elem_of_cons. naive_solver. Qed.
Lemma blocks_nil bits n : (∀ b, b ∈ [] → ¬ in_block bits b n) ↔ True.
Proof. split; [done|]. by intros _ b ?%elem_of_nil. Qed.

Lemma public_v4 a b c d : Forall (λ x, 0 <= x < 256)%Z [a; b; c; d] →
  (isDisallowedIP (Some [a; b; c; d]) = false ↔ public_ip [a; b; c; d]).
Proof.
  rewrite !Forall_cons. intros (Ha & Hb & Hc & Hd & _). unfold isDisallowedIP, public_ip, internal_v4.
  unfold IsLoopback, IsLinkLocalUnicast, IsLinkLocalMulticast, IsMulticast, IsUnspecified, IsPrivate. cbn [To4 length Nat.eqb octet nth].
  rewrite mask_multicast, mask_172 by done. rewrite !blocks_cons, blocks_nil. unfold in_block, ip_value. cbn [foldl fst snd].
  replace (bool_decide ([a; b; c; d] = [0; 0; 0; 0]%Z)) with ((a =? 0) && (b =? 0) && (c =? 0) && (d =? 0))%Z.
  2: { apply eq_iff_eq_true. rewrite bool_decide_eq_true, !andb_true_iff, !Z.eqb_eq. split; [by intros [[[-> ->] ->] ->]|by intros [= -> -> -> ->]]. }
  change (2 ^ (32 - 8))%Z with 16777216%Z. change (2 ^ (32 - 16))%Z with 65536%Z. change (2 ^ (32 - 4))%Z with 268435456%Z.
  change (2 ^ (32 - 32))%Z with 1%Z. change (2 ^ (32 - 12))%Z with 1048576%Z. lia.
Qed.

(** The first two octets and the rest of a long address. *)
Lemma ip_value_head a b l : length l = 14%nat → Forall (λ x, 0 <= x < 256)%Z l →
  ∃ r, ip_value (a :: b :: l) = (a * 2 ^ 120 + b * 2 ^ 112 + r)%Z ∧ (0 <= r < 2 ^ 112)%Z.
Proof.
  intros Hlen Hl. exists (ip_value l). rewrite !ip_value_cons. cbn [length]. rewrite Hlen.
  pose proof (ip_value_bounds l Hl) as Hb. rewrite Hlen in Hb. change (256 ^ Z.of_nat 14)%Z with (2 ^ 112)%Z in *.
  change (256 ^ Z.of_nat 15)%Z with (2 ^ 120)%Z. lia.
Qed.

(** Comparing addresses is comparing their values. *)
Lemma ip_is (ip other : IP) (D : Decision (ip = other)) : length ip = length other → Forall (λ x, 0 <= x < 256)%Z ip →
  Forall (λ x, 0 <= x < 256)%Z other → @bool_decide (ip = other) D = (ip_value ip =? ip_value other)%Z.
Proof.
  intros Hlen Hip Hother. apply eq_iff_eq_true. rewrite bool_decide_eq_true, Z.eqb_eq. split; [by intros ->|]. by apply ip_value_inj.
Qed.

Lemma public_v6 (ip : IP) : length ip = 16%nat → Forall (λ x, 0 <= x < 256)%Z ip → To4 ip = None →
  (isDisallowedIP (Some ip) = false ↔ public_ip ip).
Proof.
  intros Hlen Hip H4. unfold isDisallowedIP, public_ip. rewrite H4. unfold internal_v6.
  unfold IsLoopback, IsLinkLocalUnicast, IsLinkLocalMulticast, IsMulticast, IsUnspecified, IsPrivate. rewrite H4, Hlen. cbn [Nat.eqb andb].
  rewrite (ip_is ip IPv6loopback), (ip_is ip IPv6unspecified) by (done || by repeat constructor).
  change (ip_value IPv6loopback) with 1%Z. change (ip_value IPv6unspecified) with 0%Z. destruct ip as [|a [|b l]]; try done. cbn [octet nth]. injection Hlen as Hlen.
  apply Forall_cons in Hip as [Ha Hip]. apply Forall_cons in Hip as [Hb Hip].
  destruct (ip_value_head a b l Hlen Hip) as (r & -> & Hr). rewrite mask_fe80, mask_fc by done.
  rewrite !blocks_cons, blocks_nil. unfold in_block. cbn [fst snd].
  change (2 ^ (128 - 128))%Z with 1%Z. change (2 ^ (128 - 10))%Z with (2 ^ 118)%Z. change (2 ^ (128 - 8))%Z with (2 ^ 120)%Z.
  change (2 ^ (128 - 7))%Z with (2 ^ 121)%Z. destruct (Z.land b 15 =? 2)%Z; lia.
Qed.

(** An address of sixteen bytes that maps one of four is that one. *)
Lemma mapped_v4 ip ip4 : To4 ip = Some ip4 → isDisallowedIP (Some ip) = isDisallowedIP (Some ip4) ∧ (public_ip ip ↔ public_ip ip4) ∧
  length ip4 = 4%nat ∧ (Forall (λ x, 0 <= x < 256)%Z ip → Forall (λ x, 0 <= x < 256)%Z ip4).
Proof.
  intros H4. assert (length ip4 = 4%nat ∧ (Forall (λ x, 0 <= x < 256)%Z ip → Forall (λ x, 0 <= x < 256)%Z ip4)) as [Hlen Hall].
  { unfold To4 in H4. destruct (Nat.eqb_spec (length ip) 4); [by injection H4 as <-|].
    destruct (Nat.eqb_spec (length ip) 16); [|done]. cbn [andb] in H4. case_bool_decide; [|done]. injection H4 as <-.
    split; [rewrite length_drop; lia|by apply Forall_drop]. }
  assert (Hself : To4 ip4 = Some ip4) by (unfold To4; by rewrite Hlen). split_and!; [|by unfold public_ip; rewrite H4, Hself|done|done].
  unfold isDisallowedIP, IsLoopback, IsLinkLocalUnicast, IsLinkLocalMulticast, IsMulticast, IsUnspecified, IsPrivate. by rewrite H4, Hself.
Qed.

Lemma disallowed_exact ip : is_ip ip → (isDisallowedIP (Some ip) = false ↔ public_ip ip).
Proof.
  intros [Hlen Hip]. destruct (To4 ip) as [ip4|] eqn:H4.
  - destruct (mapped_v4 ip ip4 H4) as (-> & -> & Hlen4 & Hip4). specialize (Hip4 Hip).
    destruct ip4 as [|a [|b [|c [|d [|]]]]]; try done. by apply public_v4.
  - apply public_v6; [|done|done]. destruct Hlen as [Hlen|?]; [|done]. unfold To4 in H4. by rewrite Hlen in H4.
Qed.

(** ** Downloads *)

Lemma readLimited_bound n content : (0 <= n → slen (readLimited n content) <= n)%Z.
Proof.
  intros Hn. unfold readLimited. destruct (Z.leb_spec (slen content) n); [done|]. unfold slen.
  pose proof (take_bytes_length (Z.to_nat n) content). lia.
Qed.

(** The address names a public host. *)
Definition public_address (ParseIP : string → option IP) (a : string) : Prop :=
  ∃ host port ip, SplitHostPort a = ok (host, port) ∧ ParseIP host = Some ip ∧ public_ip ip.

Lemma dialControl_exact ParseIP quote ip_String a : (∀ h ip, ParseIP h = Some ip → is_ip ip) →
  (dialControl ParseIP quote ip_String a = None ↔ public_address ParseIP a).
Proof.
  intros Hparse. unfold dialControl, public_address, ok. destruct (SplitHostPort a) as [[host port] [err|]].
  { split; [done|]. by intros (? & ? & ? & ? & _). }
  destruct (ParseIP host) as [ip|] eqn:Hip; [|split; [done|]; intros (? & ? & ? & [= -> ->] & ? & _); congruence].
  destruct (isDisallowedIP (Some ip)) eqn:Hd.
  - split; [done|]. intros (? & ? & ip' & [= <- <-] & Hip' & Hpub). rewrite Hip in Hip'. injection Hip' as <-.
    apply disallowed_exact in Hpub; [congruence|by eauto].
  - split; [|done]. intros _. exists host, port, ip. split_and!; [done..|]. apply disallowed_exact; by eauto.
Qed.

Section Downloads.
Context `{Postgres, GoRange, S3, Fetcher} {C V J : Type} `{!Catalog C, !VectorStore V, !JobStore J}.
Context (quote : string → string) (unicode_lower : Z → Z) (parse_request_uri : string → option error).
Context (cfg : PipelineConfig) (s3Bucket : string).
Context (ParseIP : string → option IP) (ip_String : IP → string) (parse_uri : string → URLParts + error).
Context (TypeByExtension : string → string) (ParseMediaType : string → string + error) (dec_link : string → ingestLinkRequest + error).

(** The dialer asks its hook about every address before it connects. *)
Definition hook_obeyed : Prop :=
  ∀ control url w, Forall (λ a, control a = None) (fetch control url w).1.2.

(** A refusal before the download, and one after it. *)
#[local] Ltac not_fetched := by split_and!; [|constructor|intros [?|?]|left].
#[local] Ltac not_stored := by split_and!; [..|left].

(** C32. Downloading on behalf of a caller: with a dialer that asks its hook
    before each connection, every address [IngestLink] connects to names a
    host outside the internal blocks of IPv4 and IPv6 (and the hook turns
    nothing else away); nothing is fetched for an anonymous caller or for a
    URL that is not http or https; and either the knowledge base is untouched
    or what it is given is one document of at most 32 MiB, in the caller's name. *)
Theorem download_stays_public env e w (s : KState C V J) who ac body :
  (∀ h ip, ParseIP h = Some ip → is_ip ip) → hook_obeyed →
  let '(w', dialled, (s', reply)) := IngestLink quote unicode_lower parse_request_uri cfg s3Bucket ParseIP ip_String parse_uri
    TypeByExtension ParseMediaType dec_link env e w s who ac body in
  (∀ a, dialControl ParseIP quote ip_String a = None ↔ public_address ParseIP a)
  ∧ Forall (public_address ParseIP) dialled
  ∧ (w' ≠ w ∨ dialled ≠ [] → ∃ p req u, who = Some p ∧ dec_link body = inl req ∧ parse_uri (TrimSpace req.(il_URL)) = inl u
      ∧ (u.(u_scheme) = "http" ∨ u.(u_scheme) = "https"))
  ∧ (s' = s ∧ reply.(kr_status) ≠ 201%Z
     ∨ ∃ p inp, who = Some p ∧ (slen inp.(BI_Payload) <= 33554432)%Z
        ∧ s' = (IngestBinary unicode_lower parse_request_uri cfg s3Bucket env e s p ac inp).1).
Proof.
  intros Hparse Hhook. unfold IngestLink. pose proof (λ a, dialControl_exact ParseIP quote ip_String a Hparse) as Hexact.
  destruct who as [p|]; [|not_fetched].
  destruct (dec_link body) as [req|err] eqn:Hreq; [|not_fetched].
  destruct (TrimSpace (il_URL req) =s ""); [not_fetched|].
  destruct (parse_uri _) as [u|err] eqn:Hu; [|not_fetched].
  destruct ((u_scheme u <>s "http") && (u_scheme u <>s "https")) eqn:Hscheme; [not_fetched|].
  specialize (Hhook (dialControl ParseIP quote ip_String) (u_string u) w).
  destruct (fetch _ _ w) as [[w' dialled] resp]. cbn [fst snd] in Hhook.
  assert (Hpub : Forall (public_address ParseIP) dialled) by (eapply Forall_impl; [exact Hhook|]; intros a; apply Hexact).
  assert (Hwho : ∃ p0 req0 u0, Some p = Some p0 ∧ inl (B := error) req = inl req0 ∧ parse_uri (TrimSpace req0.(il_URL)) = inl u0
    ∧ (u0.(u_scheme) = "http" ∨ u0.(u_scheme) = "https")).
  { exists p, req, u. split_and!; [done..|]. apply andb_false_iff in Hscheme as [Hs|Hs]; apply negb_false_iff, String.eqb_eq in Hs; auto. }
  destruct resp as [d|err]; [|not_stored].
  destruct ((dl_code d <? 200)%Z || (300 <=? dl_code d)%Z); [not_stored|]. destruct (dl_body d) as [content|]; [|not_stored].
  match goal with |- context [IngestBinary _ _ _ _ _ _ _ _ _ ?i] => set (inp := i) end.
  destruct (IngestBinary _ _ _ _ _ _ _ _ _ inp) as [s' r] eqn:Hin. split_and!; [done..|]. right. exists p, inp. rewrite Hin.
  split_and!; [done| |done]. by apply readLimited_bound.
Qed.
End Downloads.

(** ** Witness *)

Section Witnesses.
#[local] Existing Instances canonical_range no_postgres wd_s3 wd_catalog wd_vectors.
#[local] Instance wl_jobs : JobStore InMemoryJobStore := InMemory_JobStore (λ s, s).

(** One host on the network, 93.184.216.34, and a redirect to loopback that is
    not followed. *)
Definition wl_host : string := "93.184.216.34:443".
#[local] Instance wl_net : Fetcher := {|
  FW := unit;
  fetch := λ control _ w,
    (w, filter (λ a, control a = None) [wl_host; "127.0.0.1:80"], inl (mkDownload 200 "200 OK" "text/plain" (Some "one two three")))
|}.
Definition wl_parse (h : string) : option IP :=
  if h =s "93.184.216.34" then Some [93; 184; 216; 34]%Z else if h =s "127.0.0.1" then Some [127; 0; 0; 1]%Z else None.
Definition wl_uri (u : string) : URLParts + error := inl (mkURLParts "https" "/a.txt" u).
Definition wl_link (u : string) : ingestLinkRequest + error := inl (mkIngestLinkRequest "st" "" u "" "").
Definition wl_run :=
  IngestLink (λ s, s) (λ r, r) (λ _, None) wd_cfg "" wl_parse (λ _, "") wl_uri (λ _, "") (λ t, inl t) wl_link
    (λ _, w_env) w_env (tt : FW) wd_s0 (Some w_principal) wd_ac "https://example.org/a.txt".

(** Only the public host is reached, and the document is stored. *)
Lemma download_stays_public_witness :
  wl_run.1.2 = [wl_host] ∧ wl_run.2.2.(kr_status) = 201%Z ∧ Forall (public_address wl_parse) wl_run.1.2.
Proof.
  split; [vm_compute; reflexivity|]. split; [vm_compute; reflexivity|].
  pose proof (download_stays_public (λ s, s) (λ r, r) (λ _, None) wd_cfg "" wl_parse (λ _, "") wl_uri (λ _, "") (λ t, inl t) wl_link
    (λ _, w_env) w_env (tt : FW) wd_s0 (Some w_principal) wd_ac "https://example.org/a.txt") as Hd.
  fold wl_run in Hd. destruct wl_run as [[w' dialled] [s' reply]]. apply Hd.
  - intros h ip. unfold wl_parse. destruct (h =s "93.184.216.34"); [|destruct (h =s "127.0.0.1")]; [| |discriminate];
      intros [= <-]; (split; [by left|]); repeat constructor; lia.
  - intros control url w. apply Forall_forall. intros a Ha. apply list_elem_of_filter in Ha as [Ha _]. exact Ha.
Defined.
End Witnesses.
