(* ===== verification/AgentProps.v ===== *)
(** The agent keeps conversations apart, and gives the model only what the
    caller may read. *)
From S2P Require Import Prelude GoStrings Models DataObj AccessState AccessObjects AccessService AccessProps Documents Ingest IngestProps Knowledge KnowledgeProps Usage UsageProps Config HttpObjects HttpAdmin HttpKnowledge Agent.
From Stdlib Require Import Ascii Floats.SpecFloat.

(** ** Strings *)

Lemma take_bytes_prefix n s : HasPrefix s (take_bytes n s) = true.
Proof. revert s. induction n as [|n IH]; intros [|c s]; cbn; [done..|]. by rewrite Ascii.eqb_refl, IH. Qed.
Lemma HasPrefix_self s : HasPrefix s s = true.
Proof. induction s as [|c s IH]; cbn; [done|]. by rewrite Ascii.eqb_refl, IH. Qed.

Lemma slen_nonneg s : (0 <= slen s)%Z.
Proof. unfold slen. lia. Qed.

Section Agent.
Context `{Postgres, GoRange, S3, CatalogDB, VectorDB, Redis, ConvDB}.
Context (quote : string → string) (unicode_lower : Z → Z) (parse_request_uri : string → option error).
Context (pipeline : PipelineConfig) (s3Bucket : string) (worker : option Z).
Context (marshal_refs : list DocumentRef → string + error) (unmarshal_refs : string → list DocumentRef) (cfg : AgentConfig).
#[local] Instance a_queue : JobStore InMemoryJobStore := InMemory_JobStore quote.
Abbreviation AS := (AgentService DocStore VecStore InMemoryJobStore).
Implicit Types (s : AS) (p : Principal) (ac : APIAccessContext) (env : nat → nat → Env).

Abbreviation send llm chat :=
  (SendMessage unicode_lower parse_request_uri pipeline s3Bucket marshal_refs unmarshal_refs cfg llm chat).
Abbreviation answered llm chat := (answer unicode_lower marshal_refs unmarshal_refs cfg llm chat).
Abbreviation know := (k_apply quote unicode_lower parse_request_uri pipeline s3Bucket worker).

Definition convs s : gmap string Conversation := s.(as_store).(cs_conversations).
Definition history s (id : string) : list AgentMessage := get0 s.(as_store).(cs_messages) id.

(** ** Runs *)

(** Conversations, the operations of the knowledge base, and whatever happens
    to the access store. *)
Inductive a_op :=
| AOpen env p ac (inp : CreateConversationInput)
| ASend env (llm : LLM) (chat : ChatModel) p ac (id : string) (inp : SendMessageInput)
| AKnow (op : k_op)
| AAccess (a : Store).

Definition a_apply (op : a_op) s : AS :=
  match op with
  | AOpen env p ac inp => (CreateConversation env s p ac inp).1
  | ASend env llm chat p ac id inp => (send llm chat env s p ac id inp).1.2
  | AKnow op => s <| as_knowledge := know op s.(as_knowledge) |>
  | AAccess a => s <| as_knowledge := s.(as_knowledge) <| k_access := a |> |>
  end.

(** Random identifiers are new ones. *)
Definition a_fresh (op : a_op) s : Prop :=
  match op with
  | AOpen env _ _ _ => convs s !! uuid (env 1%nat 0%nat) 0 = None ∧ history s (uuid (env 1%nat 0%nat) 0) = []
  | ASend env _ _ _ _ _ _ => fresh_doc s.(as_knowledge).(k_docs) (uuid (env 3%nat 0%nat) 0)
  | AKnow op => k_fresh op s.(as_knowledge)
  | AAccess _ => True
  end.

Inductive a_run (s0 : AS) : AS → Prop :=
| a_run_nil : a_run s0 s0
| a_run_step s op : a_run s0 s → a_fresh op s → a_run s0 (a_apply op s).

Definition a_empty (a : Store) (b : BlobStore) (cd : CD) (vd : VD) (u : option Service) : AS :=
  mkAgentService (NewConvStore None) (k_empty a b cd vd) u.

(** ** The invariant *)

Record agent_ok s : Prop := {
  ag_mem : s.(as_store).(cs_pool) = None;
  ag_keyed : ∀ id c, convs s !! id = Some c → c.(Conv_ID) = id;
  ag_index : index_ok s.(as_knowledge).(k_docs)
}.

(** ** Single steps *)

Lemma storeCreate_memory e (cs : ConvStore) c : cs.(cs_pool) = None → c.(Conv_ID) = "" →
  ∃ c', storeCreateConversation e cs c = (cs <| cs_conversations := <[uuid e 0 := c']> cs.(cs_conversations) |>, ok c')
    ∧ c'.(Conv_ID) = uuid e 0 ∧ c'.(Conv_OwnerSubjectKey) = c.(Conv_OwnerSubjectKey)
    ∧ c'.(Conv_DatasetStorageIDs) = c.(Conv_DatasetStorageIDs) ∧ c'.(Conv_Title) = c.(Conv_Title).
Proof.
  intros Hm Hid. unfold storeCreateConversation. rewrite Hm, Hid. cbn [String.eqb].
  destruct (_ =s ""); destruct (IsZero _); eexists; (split; [done|]); done.
Qed.

(** A message added to a conversation in memory. *)
Definition appended (t : Time) (cs : ConvStore) (msg : AgentMessage) : ConvStore :=
  let id := msg.(Msg_ConversationID) in
  cs <| cs_messages := <[id := get0 cs.(cs_messages) id ++ [msg]]> cs.(cs_messages) |>
     <| cs_conversations := alter (λ c, c <| Conv_UpdatedAt := t |>) id cs.(cs_conversations) |>.

Lemma Append_memory e (cs : ConvStore) msg : cs.(cs_pool) = None →
  ∃ msg', AppendMessage marshal_refs e cs msg = (appended (now e 0) cs msg', ok msg')
    ∧ msg'.(Msg_ConversationID) = msg.(Msg_ConversationID) ∧ msg'.(Msg_Role) = msg.(Msg_Role) ∧ msg'.(Msg_Content) = msg.(Msg_Content)
    ∧ msg'.(Msg_DocumentRefs) = msg.(Msg_DocumentRefs).
Proof.
  intros Hm. unfold AppendMessage, appended. rewrite Hm. destruct (_ =s ""); destruct (IsZero _); eexists; (split; [done|]); done.
Qed.

Lemma get0_appended t (cs : ConvStore) msg id :
  get0 (appended t cs msg).(cs_messages) id =
    get0 cs.(cs_messages) id ++ (if decide (msg.(Msg_ConversationID) = id) then [msg] else []).
Proof. unfold appended. cbn. rewrite get0_insert. case_decide as Heq; [by rewrite Heq|by rewrite app_nil_r]. Qed.

(** The conversations keep what they are about. *)
Definition same_convs (m m' : gmap string Conversation) : Prop :=
  ∀ id, match m !! id, m' !! id with
        | Some c, Some c' => c'.(Conv_ID) = c.(Conv_ID) ∧ c'.(Conv_OwnerSubjectKey) = c.(Conv_OwnerSubjectKey)
            ∧ c'.(Conv_DatasetStorageIDs) = c.(Conv_DatasetStorageIDs) ∧ c'.(Conv_Title) = c.(Conv_Title) ∧ c'.(Conv_Status) = c.(Conv_Status)
        | None, None => True
        | _, _ => False
        end.

#[local] Instance same_convs_preorder : PreOrder same_convs.
Proof.
  split.
  - intros m id. by destruct (m !! id).
  - intros m1 m2 m3 H12 H23 id. specialize (H12 id). specialize (H23 id).
    destruct (m1 !! id), (m2 !! id), (m3 !! id); try done. naive_solver congruence.
Qed.

Lemma same_convs_appended t (cs : ConvStore) msg : same_convs cs.(cs_conversations) (appended t cs msg).(cs_conversations).
Proof.
  intros id. unfold appended. cbn. rewrite lookup_alter. case_decide; subst; by destruct (cs_conversations cs !! _).
Qed.

(** ** Sending a message *)

Lemma recordUsage_keeps t s p ac msg : (recordUsage t s p ac msg).(as_store) = s.(as_store) ∧ (recordUsage t s p ac msg).(as_knowledge) = s.(as_knowledge).
Proof. unfold recordUsage. by destruct (as_usage s). Qed.

Definition message (id role content : string) (m : AgentMessage) : Prop :=
  m.(Msg_ConversationID) = id ∧ m.(Msg_Role) = role ∧ m.(Msg_Content) = content.

(** An answer adds at most the message of the assistant. *)
Lemma answer_memory llm chat env s p ac conv datasets saved content req s' r : s.(as_store).(cs_pool) = None →
  answered llm chat env s p ac conv datasets saved content = (req, s', r) →
  s'.(as_knowledge) = s.(as_knowledge)
  ∧ (s' = s ∧ (∀ reply, r ≠ Some (ok (Some reply)))
     ∨ ∃ t m text, s'.(as_store) = appended t s.(as_store) m ∧ message conv.(Conv_ID) "assistant" text m).
Proof.
  intros Hm. unfold answer. destruct (searchDatasets _ _ _ _ _ _ _ _ _) as [[hits refs]|]; [|intros [= <- <- <-]; split; [done|by left]].
  destruct (ListMessages _ _ _ _) as [hist [err|]]; [intros [= <- <- <-]; split; [done|by left]|].
  destruct (chat _) as [resp [err|]]; [intros [= <- <- <-]; split; [done|by left]|].
  match goal with |- context [AppendMessage _ ?e ?cs ?m] => destruct (Append_memory e cs m Hm) as (m' & -> & Hid & Hrole & Hc & _) end.
  cbn [ok]. intros [= <- <- <-]. destruct (recordUsage_keeps (now (env 6%nat 0%nat) 0) (s <| as_store := appended (now (env 5%nat 0%nat) 0) (as_store s) m' |>) p ac m') as [-> ->].
  split; [done|]. right. by eexists _, m', _.
Qed.

Lemma saveMemory_keeps env s p ac dataset content :
  let s' := (saveMemory unicode_lower parse_request_uri pipeline s3Bucket env s p ac dataset content).1 in
  s'.(as_store) = s.(as_store)
  ∧ (s'.(as_knowledge) = s.(as_knowledge)
     ∨ ∃ inp, s'.(as_knowledge) = (KSave parse_request_uri pipeline s3Bucket (env 2%nat) (env 3%nat 0%nat) s.(as_knowledge) p ac inp).1).
Proof.
  unfold saveMemory. destruct (shouldSaveMemory _ _); [|by split; [|left]].
  match goal with |- context [KSave _ _ _ _ _ _ _ _ ?i] => destruct (KSave parse_request_uri pipeline s3Bucket (env 2%nat) (env 3%nat 0%nat) s.(as_knowledge) p ac i) as [k [doc [err|]]] eqn:Hk end;
    (split; [done|]; right; eexists; by rewrite Hk).
Qed.

(** What [SendMessage] does in memory: refused without effect, or the user's
    message is kept, something may be saved, and the answer follows. *)
Lemma send_memory llm chat env s p ac id inp : agent_ok s →
  (∃ err, send llm chat env s p ac id inp = (None, s, Some (fails None err)))
  ∨ ∃ c first rest user, convs s !! id = Some c ∧ c.(Conv_OwnerSubjectKey) = SubjectKeyForPrincipal p
    ∧ message id "user" (TrimSpace inp.(SM_Content)) user
    ∧ let s1 := s <| as_store := appended (now (env 1%nat 0%nat) 0) s.(as_store) user |> in
      let '(s2, saved) := saveMemory unicode_lower parse_request_uri pipeline s3Bucket env s1 p ac first (TrimSpace inp.(SM_Content)) in
      send llm chat env s p ac id inp =
        match saved with
        | (_, Some err) => (None, s2, Some (fails None err))
        | (ref, None) => answered llm chat env s2 p ac c (first :: rest) ref (TrimSpace inp.(SM_Content))
        end.
Proof.
  intros [Hm Hkeyed _]. unfold SendMessage. destruct (_ =s ""); [by left; eexists|].
  unfold requireConversation, GetConversation. rewrite Hm. unfold convs in Hkeyed.
  destruct (cs_conversations _ !! id) as [c|] eqn:Hc; [|by left; eexists]. cbn [ok].
  destruct (_ =s "archived"); [by left; eexists|]. destruct (String.eqb_spec c.(Conv_OwnerSubjectKey) (SubjectKeyForPrincipal p)) as [Hown|];
    [|by left; eexists]. cbn [negb ok]. destruct (resolveDatasets _ _ _ _ _) as [[|first rest] [err|]]; try by left; eexists.
  match goal with |- context [AppendMessage _ ?e ?cs ?m] => destruct (Append_memory e cs m Hm) as (m' & -> & Hid & Hrole & Ht & _) end.
  right. exists c, first, rest, m'. cbn [ok]. split_and!; [done..| |].
  { split_and!; [|done|done]. rewrite Hid. by apply Hkeyed. }
  destruct (saveMemory _ _ _ _ _ _ _ _ _ _) as [s2 [ref [err|]]]; done.
Qed.

(** The messages a step adds to a conversation, by whom: the user's words, and
    then perhaps the answer. *)
Definition turn_of (id content : string) (new : list AgentMessage) : Prop :=
  ∃ user, message id "user" content user ∧ (new = [user] ∨ ∃ m text, message id "assistant" text m ∧ new = [user; m]).

Lemma send_effect llm chat env s p ac id inp : agent_ok s →
  let s' := (send llm chat env s p ac id inp).1.2 in
  s' = s
  ∨ ∃ c new, convs s !! id = Some c ∧ c.(Conv_OwnerSubjectKey) = SubjectKeyForPrincipal p ∧ turn_of id (TrimSpace inp.(SM_Content)) new
    ∧ same_convs (convs s) (convs s') ∧ s'.(as_store).(cs_pool) = None
    ∧ (∀ i, history s' i = history s i ++ (if decide (id = i) then new else []))
    ∧ (s'.(as_knowledge) = s.(as_knowledge)
       ∨ ∃ si, s'.(as_knowledge) = know (OpSave (env 2%nat) (env 3%nat 0%nat) p ac si) s.(as_knowledge)).
Proof.
  intros Hok. destruct (send_memory llm chat env s p ac id inp Hok) as [[err ->]|(c & first & rest & user & Hc & Hown & Huser & Hs)]; [by left|].
  right. cbv zeta in Hs. set (s1 := s <| as_store := _ |>) in Hs.
  pose proof (saveMemory_keeps env s1 p ac first (TrimSpace inp.(SM_Content))) as [Hst Hk].
  change (as_store s1) with (appended (now (env 1%nat 0%nat) 0) (as_store s) user) in Hst.
  destruct (saveMemory _ _ _ _ _ _ _ _ _ _) as [s2 [ref [err|]]]; cbn [fst] in Hst, Hk; rewrite Hs; clear Hs.
  - exists c, [user]. cbn [fst snd]. unfold convs, history. rewrite Hst. split_and!; [done..| | |apply Hok| |exact Hk].
    + exists user. by split; [|left].
    + apply same_convs_appended.
    + intros i. rewrite get0_appended. by destruct Huser as (-> & _).
  - assert (Hm2 : s2.(as_store).(cs_pool) = None) by (rewrite Hst; apply Hok).
    destruct (answered _ _ _ _ _ _ _ _ _ _) as [[req s'] r] eqn:Ha. cbn [fst snd].
    apply answer_memory in Ha as [Hk' [[-> _]|(t & m & text & Hst' & Hmsg)]]; [..|done].
    + exists c, [user]. unfold convs, history. rewrite Hst. split_and!; [done..| | |apply Hok| |exact Hk].
      * exists user. by split; [|left].
      * apply same_convs_appended.
      * intros i. rewrite get0_appended. by destruct Huser as (-> & _).
    + assert (Hcid : c.(Conv_ID) = id) by (by eapply ag_keyed). rewrite Hcid in Hmsg.
      exists c, [user; m]. unfold convs, history. rewrite Hst', Hst, Hk'. split_and!; [done..| | |apply Hok| |exact Hk].
      * exists user. split; [done|]. right. by exists m, text.
      * etrans; apply same_convs_appended.
      * intros i. rewrite !get0_appended. destruct Huser as (-> & _), Hmsg as (-> & _).
        case_decide; by rewrite <- app_assoc.
Qed.

Lemma same_convs_keyed (m m' : gmap string Conversation) : same_convs m m' →
  (∀ id c, m !! id = Some c → c.(Conv_ID) = id) → ∀ id c, m' !! id = Some c → c.(Conv_ID) = id.
Proof.
  intros Hs Hk id c' Hc'. specialize (Hs id). rewrite Hc' in Hs. destruct (m !! id) as [c|] eqn:Hc; [|done].
  destruct Hs as (-> & _). by apply Hk.
Qed.

Lemma open_effect env s p ac inp : agent_ok s →
  let s' := (CreateConversation env s p ac inp).1 in
  s' = s
  ∨ ∃ c, c.(Conv_ID) = uuid (env 1%nat 0%nat) 0 ∧ c.(Conv_OwnerSubjectKey) = SubjectKeyForPrincipal p
    ∧ s' = s <| as_store := s.(as_store) <| cs_conversations := <[uuid (env 1%nat 0%nat) 0 := c]> (convs s) |> |>.
Proof.
  intros Hok. unfold CreateConversation. destruct (resolveDatasets _ _ _ _ _) as [[|d ds] [err|]]; try by left.
  match goal with |- context [storeCreateConversation ?e ?cs ?c] =>
    destruct (storeCreate_memory e cs c (ag_mem _ Hok) eq_refl) as (c' & -> & Hid & Hown & _) end.
  right. by exists c'.
Qed.

Lemma a_apply_ok op s : agent_ok s → a_fresh op s → agent_ok (a_apply op s).
Proof.
  intros Hok Hf. destruct op as [env p ac inp|env llm chat p ac id inp|op|a]; cbn [a_apply a_fresh] in *.
  - destruct (open_effect env s p ac inp Hok) as [->|(c & Hid & _ & ->)]; [done|]. split; [apply Hok| |apply Hok].
    intros i c'. unfold convs at 1. cbn. rewrite lookup_insert_Some. intros [[<- <-]|[_ Hc]]; [done|by eapply ag_keyed].
  - destruct (send_effect llm chat env s p ac id inp Hok) as [->|(c & new & _ & _ & _ & Hsame & Hm & _ & Hk)]; [done|].
    split; [done|by eapply same_convs_keyed, Hok|]. destruct Hk as [->|[si ->]]; [apply Hok|]. apply k_apply_index; [apply Hok|done].
  - split; [apply Hok..|]. cbn. apply k_apply_index; [apply Hok|done].
  - split; apply Hok.
Qed.

Lemma a_run_ok a b cd vd u s : a_run (a_empty a b cd vd u) s → agent_ok s.
Proof.
  induction 1 as [|s op _ IH Hf]; [|by apply a_apply_ok]. split; [done|done|apply k_empty_index].
Qed.

Lemma convs_kept op s id : agent_ok s → a_fresh op s → ∀ c, convs s !! id = Some c →
  ∃ c', convs (a_apply op s) !! id = Some c' ∧ c'.(Conv_OwnerSubjectKey) = c.(Conv_OwnerSubjectKey)
     ∧ c'.(Conv_DatasetStorageIDs) = c.(Conv_DatasetStorageIDs) ∧ c'.(Conv_Title) = c.(Conv_Title).
Proof.
  intros Hok Hf c Hc. destruct op as [env p ac inp|env llm chat p ac i inp|op|a]; cbn [a_apply a_fresh] in *; [| |by exists c..].
  - destruct (open_effect env s p ac inp Hok) as [->|(c' & _ & _ & ->)]; [by exists c|]. exists c. split; [|done].
    unfold convs at 1. cbn. rewrite lookup_insert_ne; [done|]. intros <-. destruct Hf as [Hn _]. congruence.
  - destruct (send_effect llm chat env s p ac i inp Hok) as [->|(? & ? & _ & _ & _ & Hsame & _)]; [by exists c|].
    specialize (Hsame id). rewrite Hc in Hsame. destruct (convs (send llm chat env s p ac i inp).1.2 !! id) as [c'|]; [|done]. destruct Hsame as (_ & ? & ? & ? & _). by exists c'.
Qed.

Lemma history_step op s id : agent_ok s → 
  history (a_apply op s) id = history s id
  ∨ ∃ env llm chat p ac inp c new, op = ASend env llm chat p ac id inp ∧ convs s !! id = Some c
     ∧ c.(Conv_OwnerSubjectKey) = SubjectKeyForPrincipal p
     ∧ history (a_apply op s) id = history s id ++ new ∧ turn_of id (TrimSpace inp.(SM_Content)) new.
Proof.
  intros Hok. destruct op as [env p ac inp|env llm chat p ac i inp|op|a]; cbn [a_apply]; [| |by left..].
  - destruct (open_effect env s p ac inp Hok) as [->|(c' & _ & _ & ->)]; by left.
  - destruct (send_effect llm chat env s p ac i inp Hok) as [->|(c & new & Hc & Hown & Hturn & _ & _ & Hh & _)]; [by left|].
    rewrite (Hh id). case_decide as Heq; [subst i; right|left; apply app_nil_r]. by exists env, llm, chat, p, ac, inp, c, new.
Qed.

Lemma Messages_owner s p id l : agent_ok s → Messages unmarshal_refs s p id = ok l →
  l = history s id ∧ ∃ c, convs s !! id = Some c ∧ c.(Conv_OwnerSubjectKey) = SubjectKeyForPrincipal p.
Proof.
  intros Hok. unfold Messages, requireConversation, GetConversation, ListMessages. rewrite (ag_mem _ Hok).
  pose proof (ag_keyed _ Hok id) as Hkeyed. unfold convs in *. destruct (_ !! id) as [c|]; [|done]. cbn [ok].
  destruct (_ =s "archived"); [done|].
  destruct (String.eqb_spec c.(Conv_OwnerSubjectKey) (SubjectKeyForPrincipal p)) as [Hown|]; [|done]. cbn [negb ok].
  intros [= <-]. rewrite (Hkeyed c eq_refl). split; [done|by exists c].
Qed.

(** C23. Conversations are private and append-only. In every run of the agent
    with its stores in memory, whatever the model answers and whatever happens
    to the documents and to the rights of the callers: a step leaves the
    messages of a conversation as they are, or it is a message of the owner to
    this conversation and adds the owner's words and at most one answer to the
    end; a conversation never changes its owner, its storages or its title,
    and is not lost; and reading it gives the messages, in order, to its owner
    alone. *)
Theorem conversations_private a b cd vd u s op id :
  a_run (a_empty a b cd vd u) s → a_fresh op s →
  let s' := a_apply op s in
  (∀ c, convs s !! id = Some c → ∃ c', convs s' !! id = Some c' ∧ c'.(Conv_OwnerSubjectKey) = c.(Conv_OwnerSubjectKey)
     ∧ c'.(Conv_DatasetStorageIDs) = c.(Conv_DatasetStorageIDs) ∧ c'.(Conv_Title) = c.(Conv_Title))
  ∧ (history s' id = history s id
     ∨ ∃ env llm chat p ac inp c new, op = ASend env llm chat p ac id inp ∧ convs s !! id = Some c
        ∧ c.(Conv_OwnerSubjectKey) = SubjectKeyForPrincipal p
        ∧ history s' id = history s id ++ new ∧ turn_of id (TrimSpace inp.(SM_Content)) new)
  ∧ ∀ p l, Messages unmarshal_refs s' p id = ok l →
      l = history s' id ∧ ∃ c, convs s' !! id = Some c ∧ c.(Conv_OwnerSubjectKey) = SubjectKeyForPrincipal p.
Proof.
  intros Hrun Hf. pose proof (a_run_ok _ _ _ _ _ _ Hrun) as Hok. pose proof (a_apply_ok op s Hok Hf) as Hok'.
  split_and!; [by apply (convs_kept op s id Hok Hf)|by apply history_step|]. intros p l. by apply Messages_owner.
Qed.

(** ** What the model is given *)

Lemma searchAll_elem llm env s p ac limit query i datasets hits h : index_ok s.(as_knowledge).(k_docs) →
  searchAll unicode_lower llm env s p ac limit query i datasets = Some hits → h ∈ hits →
  ∃ d, KGet s.(as_knowledge) p ac h.(SearchHit_DocID) = ok d ∧ d.(DocumentRecord_Status) = DocumentStatusReady
    ∧ h.(SearchHit_Title) = d.(DocumentRecord_Title).
Proof.
  intros Hix. revert i hits. induction datasets as [|sid rest IH]; intros i hits; cbn [searchAll]; [intros [= <-] []%elem_of_nil|].
  destruct (KSearch _ _ _ _ _ _ _ _) as [[hs [err|]]|] eqn:Hs; [by apply IH| |done].
  destruct (searchAll _ _ _ _ _ _ _ _ _ _) as [more|] eqn:Hmore; [|done]. cbn. intros [= <-] [Hh|Hh]%elem_of_app; [|by eapply IH].
  destruct (search_hit_ok unicode_lower _ _ _ _ _ _ _ _ _ Hix Hs Hh) as (d & Hd & Hst & Ht & _). by exists d.
Qed.

Lemma refsOf_elem seen hits ref : ref ∈ refsOf seen hits → ∃ h, h ∈ hits ∧ ref.(Ref_DocID) = h.(SearchHit_DocID) ∧ ref.(Ref_Title) = h.(SearchHit_Title).
Proof.
  revert seen. induction hits as [|h hits IH]; intros seen; cbn [refsOf]; [by intros ?%elem_of_nil|].
  case_bool_decide.
  - intros (h' & ? & ?)%IH. exists h'. split; [by right|done].
  - intros [->|(h' & ? & ?)%IH]%elem_of_cons; [exists h; split; [by left|done]|exists h'; split; [by right|done]].
Qed.

Definition snippet_bytes (l : list ChatDocument) : Z := foldr (λ d n, (slen d.(CD_Snippet) + n)%Z) 0%Z l.

(** A document the model is given is cut from a hit. *)
Definition cut_from (d : ChatDocument) (h : SearchHit) : Prop :=
  d.(CD_DocID) = h.(SearchHit_DocID) ∧ d.(CD_Title) = h.(SearchHit_Title) ∧ HasPrefix (TrimSpace h.(SearchHit_Snippet)) d.(CD_Snippet) = true.

Lemma chatDocuments_spec maxChars used hits : (0 <= used <= maxChars)%Z →
  (0 <= snippet_bytes (chatDocuments maxChars used hits) <= maxChars - used)%Z
  ∧ (length (chatDocuments maxChars used hits) <= length hits)%nat
  ∧ Forall (λ d, ∃ h, h ∈ hits ∧ cut_from d h) (chatDocuments maxChars used hits).
Proof.
  revert used. induction hits as [|h hits IH]; intros used Hu; [cbn; split_and!; [lia..|constructor]|].
  assert (Hmore : ∀ l, Forall (λ d, ∃ h, h ∈ hits ∧ cut_from d h) l → Forall (λ d, ∃ h', h' ∈ h :: hits ∧ cut_from d h') l).
  { intros l Hl. eapply Forall_impl; [exact Hl|]. intros d (h' & Hh & Hd). exists h'. split; [by right|done]. }
  cbn [chatDocuments]. cbv zeta. set (sn := TrimSpace _). pose proof (slen_nonneg sn) as Hsn. destruct (sn =s "").
  { destruct (IH used Hu) as (Hb & Hl & Hd). split_and!; [apply Hb..|cbn; lia|by apply Hmore]. }
  destruct (Z.ltb_spec maxChars (used + slen sn)) as [Hover|Hfit].
  - destruct (Z.leb_spec (maxChars - used) 0); [cbn; split_and!; [lia..|constructor]|].
    set (cut := take_bytes _ sn). assert (Hcut : (0 <= slen cut <= maxChars - used)%Z).
    { unfold slen, cut. pose proof (take_bytes_length (Z.to_nat (maxChars - used)) sn). lia. }
    destruct (IH (used + slen cut)%Z) as (Hb & Hl & Hd); [lia|]. unfold snippet_bytes in *. cbn [foldr CD_Snippet length].
    split_and!; [lia..|]. constructor; [exists h; split; [by left|]|by apply Hmore]. split_and!; [done..|]. apply take_bytes_prefix.
  - destruct (IH (used + slen sn)%Z) as (Hb & Hl & Hd); [lia|]. unfold snippet_bytes in *. cbn [foldr CD_Snippet length].
    split_and!; [lia..|]. constructor; [exists h; split; [by left|]|by apply Hmore]. split_and!; [done..|]. apply HasPrefix_self.
Qed.

Definition contextChars : Z := if (cfg.(AgentConfig_MaxContextChars) <=? 0)%Z then 6000 else cfg.(AgentConfig_MaxContextChars).

(** The caller may read the document by its identifier, and it is ready. *)
Definition readable_doc s p ac (id title : string) : Prop :=
  ∃ d, KGet s.(as_knowledge) p ac id = ok d ∧ d.(DocumentRecord_Status) = DocumentStatusReady ∧ d.(DocumentRecord_Title) = title.

Lemma answer_request llm chat env s p ac conv datasets saved content req s' r :
  s.(as_store).(cs_pool) = None → index_ok s.(as_knowledge).(k_docs) →
  answered llm chat env s p ac conv datasets saved content = (Some req, s', r) →
  req.(CR_Messages) = toChatMessages (lastOf cfg.(AgentConfig_MaxConversationMessages) (get0 s.(as_store).(cs_messages) conv.(Conv_ID)))
  ∧ Forall (λ d, readable_doc s p ac d.(CD_DocID) d.(CD_Title)) req.(CR_Documents)
  ∧ (Z.of_nat (length req.(CR_Documents)) <= contextLimit cfg)%Z ∧ (snippet_bytes req.(CR_Documents) <= contextChars)%Z
  ∧ ∀ reply, r = Some (ok (Some reply)) →
      Forall (λ d, readable_doc s p ac d.(Ref_DocID) d.(Ref_Title)) reply.(Reply_DocumentRefs)
      ∧ reply.(Reply_Message).(Msg_DocumentRefs) = reply.(Reply_DocumentRefs) ∧ reply.(Reply_SavedMemory) = saved.
Proof.
  intros Hm Hix. unfold answer, searchDatasets. destruct (searchAll _ _ _ _ _ _ _ _ _ _) as [all|] eqn:Hall; [|done]. cbn [fmap option_fmap option_map].
  unfold ListMessages. rewrite Hm. cbn [ok]. set (hits := take _ _).
  assert (Hread : ∀ h, h ∈ hits → readable_doc s p ac h.(SearchHit_DocID) h.(SearchHit_Title)).
  { intros h Hh. destruct (searchAll_elem _ _ _ _ _ _ _ _ _ _ h Hix Hall) as (d & Hd & Hst & Ht); [|by exists d].
    eapply elem_of_sort_by. by eapply subseteq_take. }
  assert (Hlen : (Z.of_nat (length hits) <= contextLimit cfg)%Z).
  { unfold hits, contextLimit. rewrite length_take. destruct (Z.leb_spec (AgentConfig_MaxContextDocuments cfg) 0); lia. }
  assert (Hdocs : (0 <= snippet_bytes (toChatDocuments hits cfg.(AgentConfig_MaxContextChars)) <= contextChars)%Z
    ∧ (length (toChatDocuments hits cfg.(AgentConfig_MaxContextChars)) <= length hits)%nat
    ∧ Forall (λ d, ∃ h, h ∈ hits ∧ cut_from d h) (toChatDocuments hits cfg.(AgentConfig_MaxContextChars))).
  { unfold toChatDocuments. rewrite <- (Z.sub_0_r contextChars). apply chatDocuments_spec. unfold contextChars.
    destruct (Z.leb_spec (AgentConfig_MaxContextChars cfg) 0); lia. }
  destruct Hdocs as (Hbytes & Hcount & Hcut). intros Ha.
  assert (Hreq : req = chatRequest cfg (lastOf cfg.(AgentConfig_MaxConversationMessages) (get0 s.(as_store).(cs_messages) conv.(Conv_ID))) hits
    ∧ ∀ reply, r = Some (ok (Some reply)) → reply.(Reply_DocumentRefs) = refsOf ∅ hits
        ∧ reply.(Reply_Message).(Msg_DocumentRefs) = refsOf ∅ hits ∧ reply.(Reply_SavedMemory) = saved).
  { destruct (chat _) as [resp [err|]]; [by injection Ha as <- <- <-|]. revert Ha.
    match goal with |- context [AppendMessage _ ?e ?cs ?m] => destruct (Append_memory e cs m Hm) as (m' & -> & _ & _ & _ & Hrefs) end.
    cbn [ok]. intros [= <- <- <-]. split; [done|]. by intros reply [= <-]. }
  destruct Hreq as [-> Hreply]. cbn [CR_Messages CR_Documents chatRequest]. split_and!; [done| |lia|lia|].
  - eapply Forall_impl; [exact Hcut|]. intros d (h & Hh & -> & -> & _). by apply Hread.
  - intros reply Hr. destruct (Hreply reply Hr) as (-> & -> & ->). split; [|done]. apply Forall_forall. intros ref Hin.
    destruct (refsOf_elem _ _ _ Hin) as (h & Hh & -> & ->). by apply Hread.
Qed.

(** C17. The agent answers from what its caller may read. In every run with the
    stores in memory, when a message leads to a request to the model: the
    message came from the owner of the conversation; the documents of the
    request, and the references of the reply, are ready documents that reading
    by identifier gives to the same caller with the same token; there are at
    most as many as configured, with at most the configured number of bytes;
    and the history is the end of this conversation, closed by the message. *)
Theorem agent_grounded a b cd vd u s env llm chat p ac id inp req s' r :
  a_run (a_empty a b cd vd u) s → a_fresh (ASend env llm chat p ac id inp) s →
  send llm chat env s p ac id inp = (Some req, s', r) →
  (∃ c, convs s !! id = Some c ∧ c.(Conv_OwnerSubjectKey) = SubjectKeyForPrincipal p)
  ∧ Forall (λ d, readable_doc s' p ac d.(CD_DocID) d.(CD_Title)) req.(CR_Documents)
  ∧ (Z.of_nat (length req.(CR_Documents)) <= contextLimit cfg)%Z ∧ (snippet_bytes req.(CR_Documents) <= contextChars)%Z
  ∧ (∃ user, message id "user" (TrimSpace inp.(SM_Content)) user
      ∧ req.(CR_Messages) = toChatMessages (lastOf cfg.(AgentConfig_MaxConversationMessages) (history s id ++ [user])))
  ∧ ∀ reply, r = Some (ok (Some reply)) →
      Forall (λ d, readable_doc s' p ac d.(Ref_DocID) d.(Ref_Title)) reply.(Reply_DocumentRefs)
      ∧ reply.(Reply_Message).(Msg_DocumentRefs) = reply.(Reply_DocumentRefs).
Proof.
  intros Hok%a_run_ok Hf Hs. cbn [a_fresh] in Hf.
  destruct (send_memory llm chat env s p ac id inp Hok) as [[err He]|(c & first & rest & user & Hc & Hown & Huser & Hsend)]; [congruence|].
  cbv zeta in Hsend. set (s1 := s <| as_store := _ |>) in Hsend.
  pose proof (saveMemory_keeps env s1 p ac first (TrimSpace inp.(SM_Content))) as [Hst Hk].
  change (as_store s1) with (appended (now (env 1%nat 0%nat) 0) (as_store s) user) in Hst. change (as_knowledge s1) with (as_knowledge s) in Hk.
  destruct (saveMemory _ _ _ _ _ _ _ _ _ _) as [s2 [ref [err|]]]; cbn [fst] in Hst, Hk; rewrite Hsend in Hs; clear Hsend; [congruence|].
  assert (Hm2 : s2.(as_store).(cs_pool) = None) by (rewrite Hst; apply Hok).
  assert (Hix : index_ok s2.(as_knowledge).(k_docs)).
  { destruct Hk as [->|[si ->]]; [apply Hok|]. apply (k_apply_index quote unicode_lower parse_request_uri pipeline s3Bucket worker
      (OpSave (env 2%nat) (env 3%nat 0%nat) p ac si)); [apply Hok|done]. }
  pose proof (answer_memory _ _ _ _ _ _ _ _ _ _ _ _ _ Hm2 Hs) as [Hk' _].
  destruct (answer_request _ _ _ _ _ _ _ _ _ _ _ _ _ Hm2 Hix Hs) as (Hmsgs & Hdocs & Hn & Hb & Hreply).
  unfold readable_doc in *. rewrite Hk'. split_and!; [by exists c|done..| |by intros reply Hr; destruct (Hreply reply Hr) as (? & ? & _)].
  exists user. split; [done|]. rewrite Hmsgs, Hst, get0_appended, (ag_keyed _ Hok _ _ Hc). destruct Huser as (-> & _). by rewrite decide_True.
Qed.
End Agent.

(** ** Witnesses *)

Section Witnesses.
#[local] Existing Instances canonical_range no_postgres wd_s3 wd_catalog wd_vectors UsageProps.no_redis.
#[local] Instance wa_jobs : JobStore InMemoryJobStore := InMemory_JobStore (λ s, s).
#[local] Instance wa_db : ConvDB := {|
  CVD := unit; cv_insert := λ _ d, (d, None); cv_get := λ _ _, ok None; cv_list := λ _ _, ok [];
  am_append := λ _ _ _ d, (d, TxCommit None); am_list := λ _ _ _, ok []
|}.

Definition wa_cfg : AgentConfig := zeroval <| AgentConfig_MaxContextChars := 5%Z |> <| AgentConfig_MaxConversationMessages := 10%Z |>.
Definition wa_env : nat → nat → Env := λ _ _, w_env.
Abbreviation wa_apply :=
  (a_apply (λ s, s) (λ r, r) (λ _, None) wd_cfg "" None (λ _, inl "") (λ _, []) wa_cfg).
Abbreviation wa_run :=
  (a_run (λ s, s) (λ r, r) (λ _, None) wd_cfg "" None (λ _, inl "") (λ _, []) wa_cfg).
Definition wa_s0 : AgentService DocStore VecStore InMemoryJobStore :=
  a_empty (w_store None) (mkBlobStore _ ∅ None "" "") (tt : @CD wd_catalog) (tt : @VD wd_vectors) None.
Definition wa_send (text : string) : a_op := ASend wa_env wd_llm (SimpleGenerate wa_cfg) w_principal wd_ac "uuid" (mkSendMessageInput text).

(** A document, its index, a conversation about the storage and a question. *)
Definition wa_ops : list a_op :=
  [AKnow (OpSave (λ _, w_env) w_env w_principal wd_ac wd_input); AKnow (OpWork w_env wd_llm);
   AOpen wa_env w_principal wd_ac (mkCreateConversationInput "" ["st"])].
Definition wa_open : AgentService DocStore VecStore InMemoryJobStore := foldl (λ s op, wa_apply op s) wa_s0 wa_ops.
Definition wa_asked : AgentService DocStore VecStore InMemoryJobStore := wa_apply (wa_send "two?") wa_open.

Lemma fresh_if_no_deletion (st : PState DocStore VecStore InMemoryJobStore) id :
  map_Forall (λ _ j, j.(Job_Kind) ≠ JobKindDeleteVectors) st.(p_jobs).(im_jobs) → fresh_doc st id.
Proof. intros Hn i j Hj Hk. by destruct (Hn i j Hj). Qed.

Lemma wa_run_open : wa_run wa_s0 wa_open.
Proof.
  apply (a_run_step _ _ _ _ _ _ _ _ _ _ _ (AOpen wa_env w_principal wd_ac (mkCreateConversationInput "" ["st"]))); [|done].
  apply (a_run_step _ _ _ _ _ _ _ _ _ _ _ (AKnow (OpWork w_env wd_llm))); [|done].
  apply (a_run_step _ _ _ _ _ _ _ _ _ _ _ (AKnow (OpSave (λ _, w_env) w_env w_principal wd_ac wd_input))); [constructor|exact wd_fresh].
Qed.
Lemma wa_fresh_send text : a_fresh (wa_send text) wa_open.
Proof. apply fresh_if_no_deletion. apply (bool_decide_unpack _). vm_compute. exact I. Qed.

(** The question and its answer are at the end of the conversation. *)
Lemma conversations_private_witness :
  history wa_asked "uuid" ≠ [] ∧ ∃ new, history wa_asked "uuid" = history wa_open "uuid" ++ new ∧ turn_of "uuid" (TrimSpace "two?") new.
Proof.
  split; [vm_compute; discriminate|].
  destruct (conversations_private (λ s, s) (λ r, r) (λ _, None) wd_cfg "" None (λ _, inl "") (λ _, []) wa_cfg (w_store None)
    (mkBlobStore _ ∅ None "" "") (tt : @CD wd_catalog) (tt : @VD wd_vectors) None wa_open (wa_send "two?") "uuid" wa_run_open
    (wa_fresh_send "two?")) as (_ & [Hsame|(? & ? & ? & ? & ? & inp & c & new & [= <- <- <- <- <- <-] & _ & _ & Hnew & Hturn)] & _).
  - exfalso. vm_compute in Hsame. discriminate.
  - exists new. split; [exact Hnew|exact Hturn].
Defined.

Abbreviation wa_sent :=
  (SendMessage (λ r, r) (λ _, None) wd_cfg "" (λ _, inl "") (λ _, []) wa_cfg wd_llm (SimpleGenerate wa_cfg) wa_env wa_open w_principal wd_ac
     "uuid" (mkSendMessageInput "two?")).

(** The model is given the one document, cut to five bytes. *)
Lemma agent_grounded_witness :
  ∃ req d, wa_sent.1.1 = Some req ∧ req.(CR_Documents) = [d] ∧ slen d.(CD_Snippet) = 5%Z
    ∧ readable_doc wa_sent.1.2 w_principal wd_ac d.(CD_DocID) d.(CD_Title).
Proof.
  assert (Hreq : ∃ req d, wa_sent.1.1 = Some req ∧ req.(CR_Documents) = [d] ∧ slen d.(CD_Snippet) = 5%Z)
    by (eexists _, _; split_and!; vm_compute; reflexivity).
  destruct Hreq as (req & d & Hreq & Hd & Hlen). exists req, d. split_and!; [exact Hreq|exact Hd|exact Hlen|].
  destruct (agent_grounded (λ s, s) (λ r, r) (λ _, None) wd_cfg "" None (λ _, inl "") (λ _, []) wa_cfg (w_store None)
    (mkBlobStore _ ∅ None "" "") (tt : @CD wd_catalog) (tt : @VD wd_vectors) None wa_open wa_env wd_llm (SimpleGenerate wa_cfg)
    w_principal wd_ac "uuid" (mkSendMessageInput "two?") req wa_sent.1.2 wa_sent.2 wa_run_open (wa_fresh_send "two?")) as (_ & Hdocs & _).
  - rewrite <- Hreq. destruct wa_sent as [[? ?] ?]. reflexivity.
  - rewrite Hd in Hdocs. apply Forall_cons in Hdocs as [Hdoc _]. exact Hdoc.
Defined.

(** A token of the same user that is bound to another storage. *)
Definition wa_narrow : APIAccessContext :=
  wd_ac <| APIAccessContext_AccessToken := Some (zeroval <| AccessToken_ID := "t" |>) |>
        <| APIAccessContext_AllowedStorage := [zeroval <| AccessTokenStorage_StorageID := "other" |> <| AccessTokenStorage_MaxMode := AccessModeRead |>] |>.
Abbreviation wa_read :=
  (agentServeHTTP (λ r, r) (λ _, None) wd_cfg "" (λ _, inl "") (λ _, []) wa_cfg wd_llm (SimpleGenerate wa_cfg) (λ b, inr (NewError b))
     (λ b, inr (NewError b)) wa_env (Some wa_asked) (Some w_principal) wa_narrow "GET" "/api/agent/conversations/uuid/messages" "").

(** Reading a conversation asks for the owner and not for the storages of the
    token: a token bound to another storage gets the snippet of a document
    that it may not read. *)
Theorem history_outlives_scope :
  ∃ question answer ref, wa_read.2 = (200%Z, ABMessages [question; answer]) ∧ answer.(Msg_DocumentRefs) = [ref]
    ∧ ref.(Ref_Snippet) = "one two three" ∧ KGet wa_asked.(as_knowledge) w_principal wa_narrow ref.(Ref_DocID) = fails zeroval ErrForbidden.
Proof. eexists _, _, _. split_and!; vm_compute; reflexivity. Qed.
End Witnesses.
