(* ===== verification/Sidecar.v ===== *)
(** [cmd/securebus-agent/main.go]: the program an agent runs beside itself. It
    keeps the agent's key on disk, registers it with the server, and signs what
    the agent publishes and attests. Also [internal/securebus/signer.go]: the
    key the server signs policies with.

    The disk, the network, JSON and Ed25519 are parameters. *)
From S2P Require Import Prelude GoStrings GoCrypto Models DataObj Kinds AgentKeys SecureBus DataPlane.
From Stdlib Require Import Ascii Floats.SpecFloat.

(** [ed25519]: the public half of a private key, the key of a seed, signing. *)
Class Ed25519 := { ed_public : string → string; ed_from_seed : string → string; ed_sign : string → string → string }.

(** ** The policy signer *)

Section Signer.
Context `{Ed25519} (hex_decode b64std_decode b64url_decode : string → string + error).

Definition policyKID (priv : string) : string := "syna-policy-" +:+ B64 (take_bytes 8 (ed_public priv)).

(** [fresh]: what [ed25519.GenerateKey] gives. *)
Definition NewPolicySignerFromMaterial (fresh : string + error) (material : string) : PolicySigner + error :=
  let material := TrimSpace material in
  if material =s "" then
    match fresh with inr err => inr err | inl priv => inl (mkPolicySigner (policyKID priv) priv) end
  else
    let seed := match hex_decode material with
                | inl s => inl s
                | inr _ => match b64std_decode material with inl s => inl s | inr _ => b64url_decode material end
                end in
    match seed with
    | inr err => inr (NewError ("decode policy signing key: " +:+ Error_text err))
    | inl seed =>
        if (slen seed =? 32)%Z then let priv := ed_from_seed seed in inl (mkPolicySigner (policyKID priv) priv)
        else if (slen seed =? 64)%Z then inl (mkPolicySigner (policyKID seed) seed)
        else inr (NewError "policy signing key must be 32-byte seed or 64-byte private key")
    end.

(** [JWKS]; [None] for a nil signer. *)
Definition JWKS (s : option PolicySigner) : Any :=
  match s with
  | None => AObject [("keys", AArray [])]
  | Some s =>
      AObject [("keys", AArray [AObject [("kty", AString "OKP"); ("crv", AString "Ed25519"); ("kid", AString s.(PS_KID));
        ("alg", AString "EdDSA"); ("use", AString "sig"); ("x", AString (b64_encode (ed_public s.(PS_Priv))))]])]
  end.
End Signer.

(** ** The sidecar *)

Class Remote := {
  RM : Type;
  remote_request : string → string → option error;
  remote_do : string → string → list (string * string) → option string → RM → RM * ((Z * string) + error)
}.
Class Disk := {
  DK : Type;
  disk_read : string → DK → string + error;
  disk_write : string → string → DK → DK * option error
}.

Record agent := mkAgent { ag_baseURL : string; ag_token : string; ag_keyDir : string; ag_keyID : string; ag_priv : string }.
#[export] Instance settable_agent : Settable agent := λ a, mkAgent a.(ag_baseURL) a.(ag_token) a.(ag_keyDir) a.(ag_keyID) a.(ag_priv).

Definition str (v : Any) : string := match v with AString s => s | _ => "" end.
Definition asObject (v : Any) : list (string * Any) := match v with AObject o => o | _ => [] end.
(** [m[k]] of a decoded object. *)
Definition field (v : Any) (k : string) : Any := match List.find (λ kv, kv.1 =s k) (asObject v) with Some kv => kv.2 | None => ANil end.
Definition asFloat64 (v : Any) : float64 := match v with AFloat f => f | AInt z => f_of_Z z | _ => f_zero end.

Section Sidecar.
Context `{Ed25519, Remote, Disk}.
Context (json_marshal : Any → option string) (json_parse : string → option Any) (json_indent : Any → string).
Context (rfc3339nano : Time → string) (unix_nano : Time → Z) (filepath_Join : list string → string).
(** [SYNA_TOKEN_ID] *)
Context (tokenIDVar : string).

Record Side := mkSide { sd_agent : agent; sd_remote : RM; sd_disk : DK }.
#[export] Instance settable_Side : Settable Side := λ s, mkSide s.(sd_agent) s.(sd_remote) s.(sd_disk).
Implicit Types (s : Side).

(** The error of encoding the body is ignored. *)
Definition api s (method path : string) (body : option Any) : Side * ret Any :=
  let raw := (λ b, default "" (json_marshal b)) <$> body in
  let url := s.(sd_agent).(ag_baseURL) +:+ path in
  match remote_request method url with
  | Some err => (s, fails ANil err)
  | None =>
      let headers := (if s.(sd_agent).(ag_token) <>s "" then [("Authorization", "Bearer " +:+ s.(sd_agent).(ag_token))] else [])
                     ++ (if body then [("Content-Type", "application/json")] else []) in
      let '(rm, res) := remote_do method url headers raw s.(sd_remote) in
      let s := s <| sd_remote := rm |> in
      match res with
      | inr err => (s, fails ANil err)
      | inl (code, text) =>
          if (300 <=? code)%Z then (s, fails ANil (NewError (method +:+ " " +:+ path +:+ ": " +:+ text)))
          else (s, ok match json_parse text with Some v => v | None => AString text end)
      end
  end.

Definition inKeyDir s (name : string) : string := filepath_Join [s.(sd_agent).(ag_keyDir); name].

(** [fresh]: the private key [ed25519.GenerateKey] gives. *)
Definition keygen (fresh : string + error) s : Side * ret Any :=
  match fresh with
  | inr err => (s, fails ANil err)
  | inl priv =>
      let pub := ed_public priv in
      let id := "local_" +:+ B64 (take_bytes 8 pub) in
      let path := inKeyDir s (id +:+ ".key") in
      match disk_write path priv s.(sd_disk) with
      | (d, Some err) => (s <| sd_disk := d |>, fails ANil err)
      | (d, None) =>
          let d := (disk_write (inKeyDir s "current") id d).1 in
          (s <| sd_disk := d |> <| sd_agent := s.(sd_agent) <| ag_keyID := id |> <| ag_priv := priv |> |>,
           ok (AObject [("localId", AString id); ("publicKey", AString (b64_encode pub)); ("path", AString path)]))
      end
  end.

Definition loadKey s : Side * option error :=
  if (0 <? slen s.(sd_agent).(ag_priv))%Z then (s, None)
  else match disk_read (inKeyDir s "current") s.(sd_disk) with
  | inr _ => (s, Some (NewError "no key; run keygen first"))
  | inl cur =>
      let id := TrimSpace cur in
      match disk_read (inKeyDir s (id +:+ ".key")) s.(sd_disk) with
      | inr err => (s, Some err)
      | inl raw =>
          if negb (slen raw =? 64)%Z then (s, Some (NewError "invalid key file"))
          else (s <| sd_agent := s.(sd_agent) <| ag_keyID := id |> <| ag_priv := raw |> |>, None)
      end
  end.

(** [securebus.SignEd25519] *)
Definition SignEd25519 (priv : string) (envelope : Any) : ret string :=
  match HashCanonical json_marshal envelope with
  | None => fails "" (NewError "")
  | Some h => ok (ed_sign priv h)
  end.

(** What a registration signs and sends. *)
Definition registrationEnvelope (nonce pub tid : string) : Any :=
  AObject [("nonce", AString nonce); ("publicKey", AString (b64_encode pub)); ("tokenId", AString tid)].
Definition registrationBody (nonce pub sig : string) : Any :=
  AObject [("alg", AString "ed25519"); ("publicKey", AString (b64_encode pub)); ("nonce", AString nonce); ("signature", AString (B64 sig))].

Definition sideRegister s : Side * ret Any :=
  match loadKey s with
  | (s, Some err) => (s, fails ANil err)
  | (s, None) =>
      let tid := TrimSpace tokenIDVar in
      if tid =s "" then (s, fails ANil (NewError "set SYNA_TOKEN_ID to the access token id used with SYNA_TOKEN"))
      else match api s "POST" "/api/agent-keys/challenge" (Some (AObject [])) with
      | (s, (_, Some err)) => (s, fails ANil err)
      | (s, (ch, None)) =>
          let nonce := str (field ch "nonce") in
          let pub := ed_public s.(sd_agent).(ag_priv) in
          match SignEd25519 s.(sd_agent).(ag_priv) (registrationEnvelope nonce pub tid) with
          | (_, Some err) => (s, fails ANil err)
          | (sig, None) =>
              match api s "POST" "/api/agent-keys" (Some (registrationBody nonce pub sig)) with
              | (s, (_, Some err)) => (s, fails ANil err)
              | (s, (reg, None)) =>
                  let kid := str (field reg "keyId") in
                  (if kid <>s "" then s <| sd_disk := (disk_write (inKeyDir s "registered_key_id") kid s.(sd_disk)).1 |>
                                        <| sd_agent := s.(sd_agent) <| ag_keyID := kid |> |>
                   else s, ok reg)
              end
          end
      end
  end.

Definition registeredKeyID s : Side * ret string :=
  match loadKey s with
  | (s, Some err) => (s, fails "" err)
  | (s, None) =>
      match disk_read (inKeyDir s "registered_key_id") s.(sd_disk) with
      | inr _ => (s, fails "" (NewError "run register first"))
      | inl raw => (s, ok (TrimSpace raw))
      end
  end.

Definition policyPath (objectID : string) : string := "/api/securebus/" +:+ objectID +:+ "/policy".

(** What a message signs and sends. *)
Definition publishEnvelope (objectID : string) (version : float64) (hash kid nonce : string) (createdAt : Time) (payload : list (string * Any)) : Any :=
  AObject [("objectId", AString objectID); ("policyVersion", AFloat version); ("policyHash", AString hash); ("authorKeyId", AString kid);
           ("nonce", AString nonce); ("createdAt", AString (rfc3339nano createdAt)); ("payload", AObject payload)].
Definition publishBody (version : float64) (hash kid nonce : string) (createdAt : Time) (payload : list (string * Any)) (sig : string) : Any :=
  AObject [("keyId", AString kid); ("policyVersion", AInt (f_to_int version)); ("policyHash", AString hash); ("nonce", AString nonce);
           ("createdAt", AString (rfc3339nano createdAt)); ("payload", AObject payload); ("signature", AString (B64 sig))].

Definition sidePublish (e : Env) s (objectID : string) (payload : list (string * Any)) (nonce : string) : Side * ret Any :=
  match registeredKeyID s with
  | (s, (_, Some err)) => (s, fails ANil err)
  | (s, (kid, None)) =>
      match api s "GET" (policyPath objectID) None with
      | (s, (_, Some err)) => (s, fails ANil err)
      | (s, (pol, None)) =>
          let version := asFloat64 (field pol "version") in
          let hash := str (field pol "hash") in
          let nonce := if nonce =s "" then "n-" +:+ pretty (unix_nano (now e 0)) else nonce in
          let createdAt := now e 1 in
          match SignEd25519 s.(sd_agent).(ag_priv) (publishEnvelope objectID version hash kid nonce createdAt payload) with
          | (_, Some err) => (s, fails ANil err)
          | (sig, None) =>
              api s "POST" ("/api/securebus/" +:+ objectID +:+ "/publish") (Some (publishBody version hash kid nonce createdAt payload sig))
          end
      end
  end.

Definition attestEnvelope (messageID : Z) (messageHash : string) (version : float64) (kid status comment : string) (createdAt : Time) : Any :=
  AObject [("messageId", AFloat (f_of_Z messageID)); ("messageHash", AString messageHash); ("policyVersion", AFloat version);
           ("signerKeyId", AString kid); ("status", AString status); ("comment", AString comment);
           ("createdAt", AString (rfc3339nano createdAt))].
Definition attestBody (messageID : Z) (version : float64) (kid status comment : string) (createdAt : Time) (sig : string) : Any :=
  AObject [("keyId", AString kid); ("messageId", AInt messageID); ("policyVersion", AInt (f_to_int version)); ("status", AString status);
           ("comment", AString comment); ("createdAt", AString (rfc3339nano createdAt)); ("signature", AString (B64 sig))].

Definition sideAttest (e : Env) s (objectID : string) (messageID : Z) (status comment : string) : Side * ret Any :=
  match registeredKeyID s with
  | (s, (_, Some err)) => (s, fails ANil err)
  | (s, (kid, None)) =>
      match api s "GET" (policyPath objectID) None with
      | (s, (_, Some err)) => (s, fails ANil err)
      | (s, (pol, None)) =>
          let version := asFloat64 (field pol "version") in
          match api s "POST" ("/api/securebus/" +:+ objectID +:+ "/verify") (Some (AObject [("messageId", AInt messageID)])) with
          | (s, (_, Some err)) => (s, fails ANil err)
          | (s, (vr, None)) =>
              let messageHash := str (field (field vr "message") "hash") in
              let createdAt := now e 0 in
              match SignEd25519 s.(sd_agent).(ag_priv) (attestEnvelope messageID messageHash version kid status comment createdAt) with
              | (_, Some err) => (s, fails ANil err)
              | (sig, None) =>
                  api s "POST" ("/api/securebus/" +:+ objectID +:+ "/attest") (Some (attestBody messageID version kid status comment createdAt sig))
              end
          end
      end
  end.

(** ** Tools *)

Definition sideTool (name desc : string) (props : list (string * string)) (required : list string) : Any :=
  AObject [("name", AString name); ("description", AString desc);
           ("inputSchema", AObject [("type", AString "object");
              ("properties", AObject ((λ p, (p.1, AObject [("type", AString p.2)])) <$> props));
              ("required", match required with [] => ANil | _ => AArray (AString <$> required) end)])].

Definition sideTools : list Any := [
  sideTool "keygen" "Generate a local Ed25519 keypair under ~/.synamcps/securebus" [] [];
  sideTool "register" "Proof-of-possession register public key with SynaMCPs" [] [];
  sideTool "securebus_policy" "Fetch signed topic policy" [("objectId", "string")] ["objectId"];
  sideTool "securebus_publish" "Sign and publish a message" [("objectId", "string"); ("payload", "object"); ("nonce", "string")] ["objectId"; "payload"];
  sideTool "securebus_attest" "Sign and attest ok/deny"
    [("objectId", "string"); ("messageId", "integer"); ("status", "string"); ("comment", "string")] ["objectId"; "messageId"; "status"];
  sideTool "securebus_verify" "Verify a message" [("objectId", "string"); ("messageId", "integer")] ["objectId"; "messageId"];
  sideTool "securebus_consume" "Consume messages for a condition" [("objectId", "string"); ("consumer", "string"); ("condition", "string")] ["objectId"];
  sideTool "securebus_keys" "List policy public keys" [("objectId", "string")] ["objectId"]
].

Definition callTool (e : Env) (fresh : string + error) s (name : string) (args : Any) : Side * ret Any :=
  let arg k := field args k in
  let at_ suffix := "/api/securebus/" +:+ str (arg "objectId") +:+ suffix in
  if name =s "keygen" then keygen fresh s
  else if name =s "register" then sideRegister s
  else if name =s "securebus_policy" then api s "GET" (at_ "/policy") None
  else if name =s "securebus_verify" then api s "POST" (at_ "/verify") (Some (AObject [("messageId", arg "messageId")]))
  else if name =s "securebus_consume" then
    api s "POST" (at_ "/consume") (Some (AObject [("consumer", arg "consumer"); ("condition", arg "condition")]))
  else if name =s "securebus_keys" then api s "GET" (at_ "/keys") None
  else if name =s "securebus_publish" then sidePublish e s (str (arg "objectId")) (asObject (arg "payload")) (str (arg "nonce"))
  else if name =s "securebus_attest" then
    sideAttest e s (str (arg "objectId")) (f_to_int (asFloat64 (arg "messageId"))) (str (arg "status")) (str (arg "comment"))
  else (s, fails ANil (NewError ("unknown tool " +:+ name))).

(** ** Lines *)

Record rpcRequest := mkRpcRequest { rq_ID : Any; rq_Method : string; rq_Params : string }.

(** [nil] is what is written for a notification: the encoder prints [null]. *)
Definition rpcResult (id result : Any) : Any :=
  match id with ANil => ANil | _ => AObject [("jsonrpc", AString "2.0"); ("id", id); ("result", result)] end.
Definition rpcError (id : Any) (code : Z) (msg : string) : Any :=
  AObject [("jsonrpc", AString "2.0"); ("id", id); ("error", AObject [("code", AInt code); ("message", AString msg)])].

Definition textContent (text : string) : string * Any := ("content", AArray [AObject [("type", AString "text"); ("text", AString text)]]).

Definition sideHandle (e : Env) (fresh : string + error) s (req : rpcRequest) : Side * Any :=
  if req.(rq_Method) =s "initialize" then
    (s, rpcResult req.(rq_ID) (AObject [("protocolVersion", AString "2025-11-25"); ("capabilities", AObject [("tools", AObject [])]);
       ("serverInfo", AObject [("name", AString "securebus-agent"); ("version", AString "0.1.0")])]))
  else if (req.(rq_Method) =s "notifications/initialized") || (req.(rq_Method) =s "initialized") then (s, ANil)
  else if req.(rq_Method) =s "tools/list" then (s, rpcResult req.(rq_ID) (AObject [("tools", AArray sideTools)]))
  else if req.(rq_Method) =s "tools/call" then
    let p := default ANil (json_parse req.(rq_Params)) in
    match callTool e fresh s (str (field p "name")) (field p "arguments") with
    | (s, (_, Some err)) => (s, rpcResult req.(rq_ID) (AObject [textContent (Error_text err); ("isError", ABool true)]))
    | (s, (out, None)) => (s, rpcResult req.(rq_ID) (AObject [textContent (json_indent out)]))
    end
  else (s, rpcError req.(rq_ID) (-32601) "method not found").

(** One line of the input; [None] when nothing is written. *)
Definition sideLine (e : Env) (fresh : string + error) (parse : string → option rpcRequest) s (text : string) : Side * option Any :=
  let line := TrimSpace text in
  if line =s "" then (s, None)
  else match parse line with
  | None => (s, Some (rpcError ANil (-32700) "parse error"))
  | Some req => let '(s, resp) := sideHandle e fresh s req in (s, Some resp)
  end.
End Sidecar.
