(* ===== verification/SidecarProps.v ===== *)
(** What the sidecar signs is what the server verifies. *)
From S2P Require Import Prelude GoStrings GoCrypto Models DataObj AccessState PolicyScope Kinds AgentKeys SecureBus SecureBusProps DataPlane HttpObjects Sidecar.
From Stdlib Require Import Ascii Floats.SpecFloat.

(** ** Sorting members by their keys *)

Lemma sless_irrefl a : sless a a = false.
Proof. unfold sless. pose proof (String.compare_antisym a a) as Ha. by destruct (String.compare a a). Qed.
Lemma sless_total a b : sless a b = false → sless b a = false → a = b.
Proof.
  unfold sless. rewrite (String.compare_antisym b a). destruct (String.compare a b) eqn:Hc; cbn; [|done..].
  by apply String.compare_eq_iff in Hc.
Qed.
Lemma sless_cons x a y b : sless (String x a) (String y b) =
  match Ascii.compare x y with Lt => true | Eq => sless a b | Gt => false end.
Proof. unfold sless. cbn. by destruct (Ascii.compare x y). Qed.

Lemma sless_trans a b c : sless a b = true → sless b c = true → sless a c = true.
Proof.
  revert b c. induction a as [|x a IH]; intros [|y b] [|z c]; try done. rewrite !sless_cons. unfold Ascii.compare.
  destruct (N.compare_spec (N_of_ascii x) (N_of_ascii y)) as [Hxy|Hxy|Hxy]; [..|done];
    destruct (N.compare_spec (N_of_ascii y) (N_of_ascii z)) as [Hyz|Hyz|Hyz]; [..|done| | |done]; intros Hab Hbc.
  - rewrite Hxy, Hyz, N.compare_refl. by eapply IH.
  - rewrite Hxy. apply N.compare_lt_iff in Hyz. by rewrite Hyz.
  - rewrite <- Hyz. apply N.compare_lt_iff in Hxy. by rewrite Hxy.
  - assert (Hxz : (N_of_ascii x < N_of_ascii z)%N) by lia. apply N.compare_lt_iff in Hxz. by rewrite Hxz.
Qed.
Lemma sless_asym a b : sless a b = true → sless b a = false.
Proof. intros Hab. destruct (sless b a) eqn:Hba; [|done]. pose proof (sless_trans _ _ _ Hab Hba). by rewrite sless_irrefl in *. Qed.
Lemma sless_trans_neg a b c : sless b a = false → sless c b = false → sless c a = false.
Proof.
  intros Hba Hcb. destruct (sless c a) eqn:Hca; [|done].
  destruct (sless a b) eqn:Hab; [|rewrite (sless_total a b Hab Hba) in Hca; congruence].
  pose proof (sless_trans _ _ _ Hca Hab). congruence.
Qed.

Definition by_key {A} (a b : string * A) : bool := sless a.1 b.1.

Lemma sort_keys_unique {A} (l1 l2 : list (string * A)) : NoDup l1.*1 → l1 ≡ₚ l2 → sort_by by_key l1 = sort_by by_key l2.
Proof.
  intros Hnd Hp. assert (Hss : ∀ l : list (string * A), StronglySorted (λ a b, by_key b a = false) (sort_by by_key l)).
  { intros l. apply Sorted_StronglySorted; [intros x y z; apply sless_trans_neg|]. apply sort_by_sorted. intros a b. apply sless_asym. }
  apply (StronglySorted_unique_strong (λ a b, by_key b a = false)); [|apply Hss..|by rewrite !sort_by_perm].
  intros [k1 v1] [k2 v2] H1 H2 H12 H21. apply elem_of_sort_by in H1, H2. rewrite <- Hp in H2.
  pose proof (sless_total k1 k2 H21 H12) as Heq. cbn in Heq. subst k2. f_equal.
  apply (elem_of_list_to_map_1 (M := gmap string)) in H1, H2; congruence.
Qed.

(** ** Values that have the same canonical form *)

Definition members (o : list (string * Any)) : list (string * Any) := map (λ kv, (kv.1, normalize kv.2)) o.

Lemma normalize_object o : normalize (AObject o) = AObject (sort_by by_key (members o)).
Proof. done. Qed.

Lemma keys_members o : (members o).*1 = o.*1.
Proof. unfold members. induction o as [|[k v] o IH]; [done|]. cbn. by f_equal. Qed.

Lemma normalize_string v x : normalize v = AString x → v = AString x.
Proof. destruct v; cbn; congruence. Qed.
Lemma normalize_number ParseFloat v f : normalize v = AFloat f → asFloatParam ParseFloat v = f.
Proof. destruct v; try done; by intros [= <-]. Qed.
Lemma normalize_members v o : normalize v = normalize (AObject o) → ∃ o', v = AObject o' ∧ members o' ≡ₚ members o.
Proof.
  destruct v as [| | | | | |o']; try done. rewrite !normalize_object. intros [= Heq]. exists o'. split; [done|].
  by rewrite <- (sort_by_perm by_key (members o')), Heq, sort_by_perm.
Qed.

(** A decoded object, as a map and listed again in any order. *)
Lemma payload_same o o' : NoDup o.*1 → members o' ≡ₚ members o →
  normalize (AObject (map_to_list (list_to_map o' : gmap string Any))) = normalize (AObject o).
Proof.
  intros Hnd Hp. rewrite !normalize_object. f_equal. apply sort_keys_unique.
  - rewrite keys_members. apply NoDup_fst_map_to_list.
  - rewrite <- Hp. unfold members. f_equiv. apply map_to_list_to_map. rewrite <- (keys_members o'), Hp, keys_members. done.
Qed.

Section Interop.
Context `{Ed25519, Remote, Disk, Signatures, SecureBusDB, GoRange} {K : Type} `{!KeyLookup K}.
Context (json_marshal : Any → option string) (json_parse : string → option Any).
Context (rfc3339nano : Time → string) (unix_nano : Time → Z) (filepath_Join : list string → string) (tokenIDVar : string).
Context (quote : string → string) (document_parse : string → Document + error) (b64url_decode b64std_decode : string → option string).
Context (graceSeconds : Z) (ParseFloat : string → float64) (parse_rfc3339 : string → Time) (decode_params : string → list (string * Any)).

(** A signature verifies under the public half of its key. *)
Definition signing_law : Prop := ∀ priv h, ed25519_verify (ed_public priv) h (ed_sign priv h) = true.

(** An integer that [float64] holds. *)
Definition exact_int (z : Z) : Prop := f_to_int (f_of_Z z) = z.

(** The libraries on one request: JSON keeps the canonical form of the members
    of [body], [time] reads the time that was written, and [base64] the
    signature. *)
Record carried (body : list (string * Any)) (raw : string) (t : Time) (sig : string) : Prop := {
  ca_json : ∀ k, normalize (param (decode_params raw) k) = normalize (param body k);
  ca_time : parse_rfc3339 (TrimSpace (rfc3339nano t)) = t;
  ca_sig : TrimSpace (B64 sig) ≠ "" ∧ b64url_decode (TrimSpace (B64 sig)) = Some sig
}.

Lemma body_string body raw t sig k x : carried body raw t sig → param body k = AString x → asStringParam (param (decode_params raw) k) = TrimSpace x.
Proof. intros Hc Hk. pose proof (ca_json _ _ _ _ Hc k) as Hn. rewrite Hk in Hn. by rewrite (normalize_string _ _ Hn). Qed.
Lemma body_int body raw t sig k z : carried body raw t sig → param body k = AInt z → exact_int z →
  f_to_int (asFloatParam ParseFloat (param (decode_params raw) k)) = z.
Proof.
  intros Hc Hk Hz. pose proof (ca_json _ _ _ _ Hc k) as Hn. rewrite Hk in Hn. by rewrite (normalize_number ParseFloat _ (f_of_Z z) Hn).
Qed.

(** What arrives of a message that was sent. *)
Definition received (subject tokenID kid hash nonce : string) (v : Z) (createdAt : Time) (payload : gmap string Any) (sig : string) : PublishInput :=
  mkPublishInput kid subject tokenID v hash nonce createdAt (Some payload) sig "".

Lemma publish_arrives subject tokenID v hash kid nonce createdAt payload sig raw : exact_int v → NoDup payload.*1 →
  TrimSpace kid = kid → TrimSpace hash = hash → TrimSpace nonce = nonce →
  carried (asObject (publishBody rfc3339nano (f_of_Z v) hash kid nonce createdAt payload sig)) raw createdAt sig →
  ∃ o', members o' ≡ₚ members payload ∧
    httpSecureBusCall ParseFloat parse_rfc3339 subject tokenID "publish" (decode_params raw)
    = Some (CallPublish (received subject tokenID kid hash nonce v createdAt (list_to_map o') (TrimSpace (B64 sig)))).
Proof.
  intros Hv Hnd Hkid Hhash Hnonce. unfold publishBody. rewrite Hv. cbn [asObject]. set (body := _ :: _). intros Hc.
  pose proof (ca_json _ _ _ _ Hc "payload") as Hp. change (param body "payload") with (AObject payload) in Hp.
  apply normalize_members in Hp as (o' & Ho & Hperm). exists o'. split; [done|].
  unfold httpSecureBusCall. cbn [String.eqb Ascii.eqb Bool.eqb]. unfold received. do 2 f_equal. rewrite Ho.
  rewrite (body_string _ _ _ _ "keyId" kid Hc), (body_int _ _ _ _ "policyVersion" v Hc), (body_string _ _ _ _ "policyHash" hash Hc),
    (body_string _ _ _ _ "nonce" nonce Hc), (body_string _ _ _ _ "createdAt" (rfc3339nano createdAt) Hc),
    (body_string _ _ _ _ "signature" (B64 sig) Hc) by done.
  pose proof (ca_json _ _ _ _ Hc "prevHash") as Hprev. change (param body "prevHash") with ANil in Hprev.
  assert (Hn : param (decode_params raw) "prevHash" = ANil) by (by destruct (param (decode_params raw) "prevHash")).
  by rewrite Hn, Hkid, Hhash, Hnonce, (ca_time _ _ _ _ Hc).
Qed.

(** The envelope the server builds has the canonical form that was signed. *)
Lemma envelope_same id v hash kid nonce createdAt payload o' sig subject tokenID t : createdAt ≠ 0%Z → NoDup payload.*1 →
  members o' ≡ₚ members payload →
  normalize (envelopeOf rfc3339nano id (inputMessage rfc3339nano json_marshal t id (received subject tokenID kid hash nonce v createdAt (list_to_map o') sig)))
  = normalize (publishEnvelope rfc3339nano id (f_of_Z v) hash kid nonce createdAt payload).
Proof.
  intros Ht Hnd Hp. unfold inputMessage, received, envelopeOf, messageEnvelope, publishEnvelope. cbn [Pub_CreatedAt Pub_Payload Pub_PrevHash default].
  unfold IsZero. destruct (Z.eqb_spec createdAt 0); [done|]. cbn -[normalize list_to_map map_to_list].
  rewrite !normalize_object. cbn [members map fst snd]. by rewrite (payload_same payload o' Hnd Hp).
Qed.

(** What arrives of an attestation that was sent. *)
Lemma attest_arrives subject tokenID v kid mid status comment createdAt sig raw : exact_int v → exact_int mid →
  TrimSpace kid = kid → TrimSpace status = status → TrimSpace comment = comment →
  carried (asObject (attestBody rfc3339nano mid (f_of_Z v) kid status comment createdAt sig)) raw createdAt sig →
  httpSecureBusCall ParseFloat parse_rfc3339 subject tokenID "attest" (decode_params raw)
  = Some (CallAttest (mkAttestInput kid subject tokenID mid v status comment createdAt (TrimSpace (B64 sig)))).
Proof.
  intros Hv Hmid Hkid Hstatus Hcomment. unfold attestBody. rewrite Hv. cbn [asObject]. set (body := _ :: _). intros Hc.
  unfold httpSecureBusCall. cbn [String.eqb Ascii.eqb Bool.eqb]. do 2 f_equal.
  rewrite (body_string _ _ _ _ "keyId" kid Hc), (body_int _ _ _ _ "messageId" mid Hc), (body_int _ _ _ _ "policyVersion" v Hc),
    (body_string _ _ _ _ "status" status Hc), (body_string _ _ _ _ "comment" comment Hc),
    (body_string _ _ _ _ "createdAt" (rfc3339nano createdAt) Hc), (body_string _ _ _ _ "signature" (B64 sig) Hc) by done.
  by rewrite Hkid, Hstatus, Hcomment, (ca_time _ _ _ _ Hc).
Qed.

(** A server that finds the key of the sidecar allowed by its policy: the
    topic is kept in memory, and the key is registered with the public half. *)
Record admits e' (sb : SBService) (k : K) sc (method kid subject tokenID : string) (v : Z) (hash priv : string) (key : AgentKey)
    (spol : SignedPolicy) : Prop := {
  ad_scope : sb_scope (Some sc) = Some sc;
  ad_memory : in_memory sc = true;
  ad_authorized : authorizeKey quote document_parse graceSeconds (now e' 0) sb k sc method kid subject tokenID v hash = ok (key, spol);
  ad_algorithm : key.(Key_Algorithm) = "ed25519";
  ad_key : key.(Key_PublicKey) = ed_public priv
}.

Lemma signature_accepted key priv env h sig : signing_law → key.(Key_Algorithm) = "ed25519" → key.(Key_PublicKey) = ed_public priv →
  HashCanonical json_marshal env = Some h → sig = ed_sign priv h →
  VerifyAgentSig json_marshal key.(Key_Algorithm) key.(Key_PublicKey) sig env = true.
Proof.
  intros Hsign Halg Hpub Hh ->. unfold VerifyAgentSig. rewrite Halg, Hpub. cbn [String.eqb Ascii.eqb Bool.eqb orb].
  unfold VerifyEd25519. by rewrite Hh, Hsign.
Qed.

Lemma publish_accepted e' sb k sc kid subject tokenID v hash priv key spol nonce createdAt payload o' h raw body :
  signing_law → admits e' sb k sc "publish" kid subject tokenID v hash priv key spol →
  createdAt ≠ 0%Z → NoDup payload.*1 → members o' ≡ₚ members payload → carried body raw createdAt (ed_sign priv h) →
  HashCanonical json_marshal (publishEnvelope rfc3339nano (sb_id sc) (f_of_Z v) hash kid nonce createdAt payload) = Some h →
  spol.(SP_Document).(Doc_Chain) = false ∨ get0 sb.(sb_messages) (sb_id sc) = [] →
  ∃ sb' msg, Publish quote rfc3339nano json_marshal document_parse b64url_decode b64std_decode graceSeconds e' sb k (Some sc)
      (received subject tokenID kid hash nonce v createdAt (list_to_map o') (TrimSpace (B64 (ed_sign priv h)))) = (sb', ok msg)
    ∧ get0 sb'.(sb_messages) (sb_id sc) = get0 sb.(sb_messages) (sb_id sc) ++ [msg] ∧ msg.(Msg_AuthorKeyID) = kid
    ∧ normalize (AObject (map_to_list msg.(Msg_Payload))) = normalize (AObject payload).
Proof.
  intros Hsign [Hsc Hmem Hauth Halg Hpub] Ht Hnd Hp Hc Hh Hchain. unfold Publish. rewrite Hsc. unfold received at 1 2 3 4 5.
  cbn [Pub_KeyID Pub_SubjectKey Pub_TokenID Pub_PolicyVersion Pub_PolicyHash]. rewrite Hauth. cbn [ok].
  destruct (ca_sig _ _ _ _ Hc) as [Hb1 Hb2].
  change (Pub_Signature _) with (TrimSpace (B64 (ed_sign priv h))). unfold DecodeB64. apply String.eqb_neq in Hb1. rewrite Hb1, Hb2.
  set (msg := inputMessage _ _ _ _ _).
  assert (Hsame : HashCanonical json_marshal (envelopeOf rfc3339nano (sb_id sc) msg) = Some h).
  { unfold HashCanonical, CanonicalJSON in *. unfold msg. by rewrite (envelope_same _ _ _ _ _ _ payload) by done. }
  rewrite (signature_accepted key priv _ h) by done. cbn [negb]. rewrite Hmem.
  assert (Hchained : chainMessage rfc3339nano json_marshal key (ed_sign priv h) (Doc_Chain (SP_Document spol))
    (last (get0 (sb_messages sb) (sb_id sc))) msg = inl msg) by (unfold chainMessage; destruct Hchain as [Hch|Hch]; rewrite Hch; [done|by case_match]).
  rewrite Hchained. unfold appendMessage. eexists _, _. split_and!; [done| |done|].
  - cbn. by rewrite get0_insert, decide_True.
  - cbn. by apply payload_same.
Qed.

Lemma attest_accepted e' sb k sc kid subject tokenID v priv key spol mid status comment createdAt h raw body m :
  signing_law → admits e' sb k sc "attest" kid subject tokenID v "" priv key spol →
  createdAt ≠ 0%Z → carried body raw createdAt (ed_sign priv h) → status = "ok" ∨ status = "deny" →
  (slen comment <= (let limit := spol.(SP_Document).(Doc_Attestation).(AP_CommentMaxBytes) in if limit =? 0 then 4096 else limit))%Z →
  findMsg (get0 sb.(sb_messages) (sb_id sc)) mid = Some m →
  HashCanonical json_marshal (attestEnvelope rfc3339nano mid m.(Msg_Hash) (f_of_Z v) kid status comment createdAt) = Some h →
  ∃ sb' att, Attest quote rfc3339nano json_marshal document_parse b64url_decode b64std_decode graceSeconds e' sb k (Some sc)
      (mkAttestInput kid subject tokenID mid v status comment createdAt (TrimSpace (B64 (ed_sign priv h)))) = (sb', ok att)
    ∧ att ∈ get0 sb'.(sb_attests) (sb_id sc) ∧ att.(Att_SignerKeyID) = kid ∧ att.(Att_MessageID) = mid
    ∧ att.(Att_Status) = status ∧ att.(Att_Comment) = comment ∧ att.(Att_MessageHash) = m.(Msg_Hash).
Proof.
  intros Hsign [Hsc Hmem Hauth Halg Hpub] Ht Hc Hstatus Hlen Hm Hh. unfold Attest. rewrite Hsc.
  cbn [AI_KeyID AI_SubjectKey AI_TokenID AI_PolicyVersion AI_Status AI_Comment AI_MessageID AI_CreatedAt AI_Signature]. rewrite Hauth. cbn [ok].
  replace ((status <>s "ok") && (status <>s "deny")) with false by (by destruct Hstatus as [-> | ->]).
  cbv zeta in *. rewrite (proj2 (Z.ltb_ge _ _) Hlen). unfold getMessage. rewrite Hmem, Hm. cbn [ok].
  destruct (ca_sig _ _ _ _ Hc) as [Hb1 Hb2]. unfold DecodeB64. apply String.eqb_neq in Hb1. rewrite Hb1, Hb2.
  unfold IsZero. destruct (Z.eqb_spec createdAt 0); [done|].
  rewrite (signature_accepted key priv _ h) by done. cbn [negb]. unfold appendAttestation. eexists _, _. split_and!; [done| |done..].
  cbn. rewrite get0_insert, decide_True by done. apply elem_of_app. right. by constructor.
Qed.

Lemma api_agent sd method path body : (api json_marshal json_parse sd method path body).1.(sd_agent) = sd.(sd_agent).
Proof. unfold api. repeat case_match; simplify_eq/=; done. Qed.

End Interop.

(** A sidecar with its key in memory, and the server of the secure bus. *)
#[local] Existing Instance canonical_range.
#[local] Existing Instances wb_db wb_sigs wb_lookup.
#[local] Instance ws_ed : Ed25519 := {| ed_public := λ _, "pub"; ed_from_seed := λ s, s; ed_sign := λ _ _, "pub" |}.
#[local] Instance ws_remote : Remote := {| RM := unit; remote_request := λ _ _, None; remote_do := λ _ _ _ _ s, (s, inl (200%Z, "policy")) |}.
#[local] Instance ws_disk : Disk := {| DK := unit; disk_read := λ _ _, inl "k1"; disk_write := λ _ _ s, (s, None) |}.

Definition ws_side : Side := mkSide (mkAgent "" "tok" "" "k1" "priv") (tt : @RM ws_remote) (tt : @DK ws_disk).
(** What the server answers: the policy, and the hash of the message. *)
Definition ws_answer : Any :=
  AObject [("version", AFloat (f_of_Z 1)); ("hash", AString ""); ("message", AObject [("hash", AString wb_hash)])].
Definition ws_parse (_ : string) : option Any := Some ws_answer.
Definition ws_payload : list (string * Any) := [("x", AInt 1)].
Definition ws_body : list (string * Any) := asObject (publishBody (λ _, "t") (f_of_Z 1) "" "k1" "n" 100 ws_payload "pub").
Definition ws_attestation : list (string * Any) := asObject (attestBody (λ _, "t") 1 (f_of_Z 1) "k1" "ok" "fine" 100 "pub").
(** The topic with one message. *)
Definition ws_topic : SBService := wb_run [OpPublish wb_env wb_keys wb_scope (wb_pub "n1" "")] wb_s0.
Definition ws_policy (sb : SBService) (method : string) : SignedPolicy :=
  (authorizeKey (λ s, s) (λ _, inr (NewError "")) 0 100 sb wb_keys wb_scope method "k1" "user:u" "" 1 "").1.2.

