(* ===== verification/Observability.v ===== *)
(** [internal/observability/http.go]: the middleware that counts and logs every
    request, with the redaction of what is logged, and the handlers of
    [/metrics] and [/readyz].

    A handler is what it does to its response writer, in order, and how it
    ends. The exporter of usage, JSON and [net/url] are parameters. *)
From S2P Require Import Prelude GoStrings Models.
From Stdlib Require Import Ascii.

(** ** [http.ResponseWriter] *)

(** [textproto.CanonicalMIMEHeaderKey] *)
Definition tokenByte (c : ascii) : bool :=
  let b := byte_of c in
  is_lower b || is_upper b || is_digit b || bool_decide (b ∈ [33; 35; 36; 37; 38; 39; 42; 43; 45; 46; 94; 95; 96; 124; 126]%Z).
Fixpoint canonicalLoop (upper : bool) (s : string) : string :=
  match s with
  | "" => ""
  | String c s =>
      let b := byte_of c in
      let c' := if upper && is_lower b then ascii_of (b - 32) else if negb upper && is_upper b then ascii_of (b + 32) else c in
      String c' (canonicalLoop (b =? 45)%Z s)
  end.
Definition headerKey (s : string) : string :=
  if forallb tokenByte (String.list_ascii_of_string s) then canonicalLoop true s else s.

(** The headers, and the status with the headers as they were when it was
    written. *)
Record Response := mkResponse { rw_header : gmap string string; rw_sent : option (Z * gmap string string); rw_body : string }.
#[export] Instance settable_Response : Settable Response := λ r, mkResponse r.(rw_header) r.(rw_sent) r.(rw_body).

Definition header_Set (k v : string) (w : Response) : Response := w <| rw_header := <[headerKey k := v]> w.(rw_header) |>.
Definition header_Del (k : string) (w : Response) : Response := w <| rw_header := delete (headerKey k) w.(rw_header) |>.
Definition header_Get (w : Response) (k : string) : string := get0 w.(rw_header) (headerKey k).

(** Only the first status counts, informational ones apart. *)
Definition informational (status : Z) : bool := in_range 100 199 status && negb (status =? 101)%Z.
Definition rw_WriteHeader (status : Z) (w : Response) : Response :=
  match w.(rw_sent) with
  | Some _ => w
  | None => if informational status then w else w <| rw_sent := Some (status, w.(rw_header)) |>
  end.
Definition bodyAllowed (status : Z) : bool := negb (in_range 100 199 status || (status =? 204)%Z || (status =? 304)%Z).
Definition rw_Write (p : string) (w : Response) : Response :=
  let w := rw_WriteHeader 200 w in
  match w.(rw_sent) with
  | Some (status, _) => if bodyAllowed status then w <| rw_body := w.(rw_body) +:+ p |> else w
  | None => w
  end.

(** [http.Error] *)
Definition rw_Error (text : string) (status : Z) (w : Response) : Response :=
  rw_Write (text +:+ String "010"%char "") (rw_WriteHeader status
    (header_Set "X-Content-Type-Options" "nosniff" (header_Set "Content-Type" "text/plain; charset=utf-8" (header_Del "Content-Length" w)))).

(** What a handler does to its writer. *)
Inductive writer_call := HSet (k v : string) | HDel (k : string) | HStatus (status : Z) | HWrite (p : string).

Definition rw_call (w : Response) (c : writer_call) : Response :=
  match c with
  | HSet k v => header_Set k v w
  | HDel k => header_Del k w
  | HStatus status => rw_WriteHeader status w
  | HWrite p => rw_Write p w
  end.

(** ** The recorder *)

Definition maxLoggedResponseBytes : Z := 8192%Z.

Record statusRecorder := mkStatusRecorder {
  sr_w : Response; sr_status : Z; sr_capture : bool; sr_maxBody : Z; sr_body : option string; sr_truncated : bool
}.
#[export] Instance settable_statusRecorder : Settable statusRecorder := λ r,
  mkStatusRecorder r.(sr_w) r.(sr_status) r.(sr_capture) r.(sr_maxBody) r.(sr_body) r.(sr_truncated).

Definition recorder_WriteHeader (status : Z) (r : statusRecorder) : statusRecorder :=
  r <| sr_status := status |> <| sr_w := rw_WriteHeader status r.(sr_w) |>.

Definition recorder_Write (p : string) (r : statusRecorder) : statusRecorder :=
  let r := match r.(sr_body) with
           | Some body =>
               if r.(sr_capture) && (0 <? r.(sr_maxBody))%Z then
                 let remain := (r.(sr_maxBody) - slen body)%Z in
                 if (0 <? remain)%Z then
                   if (remain <? slen p)%Z then r <| sr_body := Some (body +:+ take_bytes (Z.to_nat remain) p) |> <| sr_truncated := true |>
                   else r <| sr_body := Some (body +:+ p) |>
                 else r <| sr_truncated := true |>
               else r
           | None => r
           end in
  r <| sr_w := rw_Write p r.(sr_w) |>.

Definition recorder_call (r : statusRecorder) (c : writer_call) : statusRecorder :=
  match c with
  | HSet k v => r <| sr_w := header_Set k v r.(sr_w) |>
  | HDel k => r <| sr_w := header_Del k r.(sr_w) |>
  | HStatus status => recorder_WriteHeader status r
  | HWrite p => recorder_Write p r
  end.

(** ** Redaction *)

Definition shouldCaptureResponse (path : string) : bool :=
  (path =s "/mcp") || HasPrefix path "/oauth/" || HasPrefix path "/.well-known/"
  || (path =s "/register") || (path =s "/authorize") || (path =s "/token").

Definition secretNames : list string :=
  ["access_token"; "refresh_token"; "id_token"; "client_secret"; "rawtoken"; "password"; "code_verifier"].

Definition redactedText : string := "[redacted]".

(** [net/url]; [RawQuery = Encode q] is [url_withQuery]. *)
Class NetURL := {
  NU : Type;
  url_Parse : string → option NU;
  url_Query : NU → gmap string (list string);
  url_withQuery : gmap string (list string) → NU → NU;
  url_String : NU → string
}.

Definition locationSecrets : list string := ["code"; "access_token"; "refresh_token"; "id_token"].

Section Redact.
Context (unicode_lower : Z → Z) (json_parse : string → option Any) (json_marshal : Any → option string) `{NetURL}.

Definition secretName (k : string) : bool := existsb (λ n, ToLower unicode_lower k =s n) secretNames.

Fixpoint redactSecretValues (v : Any) : Any :=
  match v with
  | AObject o => AObject (map (λ kv, (kv.1, if secretName kv.1 then AString redactedText else redactSecretValues kv.2)) o)
  | AArray l => AArray (map redactSecretValues l)
  | _ => v
  end.

Definition redactJSONSecrets (raw : string) : string :=
  let trimmed := TrimSpace raw in
  match trimmed with
  | "" => raw
  | String c _ =>
      if negb (Ascii.eqb c "{") && negb (Ascii.eqb c "[") then raw
      else match json_parse trimmed with
      | None => raw
      | Some v => match json_marshal (redactSecretValues v) with Some out => out | None => raw end
      end
  end.

Definition redactResponseForLog (body : string) : string :=
  let lower := ToLower unicode_lower (TrimSpace body) in
  if HasPrefix lower "<!doctype" || HasPrefix lower "<html" then "[html omitted]" else redactJSONSecrets body.

Definition redactStep (acc : gmap string (list string) * bool) (key : string) : gmap string (list string) * bool :=
  match acc.1 !! key with Some _ => (<[key := [redactedText]]> acc.1, true) | None => acc end.

Definition redactLocation (loc : string) : string :=
  match url_Parse loc with
  | None => loc
  | Some u =>
      let '(q, changed) := foldl redactStep (url_Query u, false) locationSecrets in
      if negb changed then loc else url_String (url_withQuery q u)
  end.

(** ** Metrics and the middleware *)

Context {U : Type} (Prometheus : U → string).

(** The counters are [uint64]. *)
Record HTTPMetrics := mkHTTPMetrics { hm_requestsTotal : Z; hm_errorsTotal : Z; hm_usageExporter : option U }.
#[export] Instance settable_HTTPMetrics : Settable HTTPMetrics := λ m,
  mkHTTPMetrics m.(hm_requestsTotal) m.(hm_errorsTotal) m.(hm_usageExporter).

Definition NewHTTPMetrics : HTTPMetrics := mkHTTPMetrics 0 0 None.
Definition AttachUsageExporter (m : HTTPMetrics) (exporter : U) : HTTPMetrics := m <| hm_usageExporter := Some exporter |>.

Definition atomic_inc (x : Z) : Z := ((x + 1) mod 2 ^ 64)%Z.

Record HttpRequest := mkHttpRequest { hr_Method : string; hr_Path : string; hr_RemoteAddr : string }.

Definition logEntries : Type := list (string * list (string * Any)).

Definition newRecorder (capture : bool) (w : Response) : statusRecorder :=
  mkStatusRecorder w 200 capture maxLoggedResponseBytes (if capture then Some "" else None) false.

Definition headerAttr (w : Response) (name attr : string) (shown : string → string) : list (string * Any) :=
  let v := header_Get w name in if v <>s "" then [(attr, AString (shown v))] else [].

Definition requestAttrs (e : Env) (r : HttpRequest) (reqID : string) (rec : statusRecorder) : list (string * Any) :=
  let w := rec.(sr_w) in
  [("request_id", AString reqID); ("method", AString r.(hr_Method)); ("path", AString r.(hr_Path)); ("status", AInt rec.(sr_status));
   ("duration_ms", AInt (Z.quot (now e 1 - now e 0) 1000000)); ("remote_addr", AString r.(hr_RemoteAddr))]
  ++ headerAttr w "X-MCP-Method" "mcp_method" id ++ headerAttr w "Mcp-Session-Id" "mcp_session_id" id
  ++ headerAttr w "MCP-Protocol-Version" "mcp_protocol_version" id ++ headerAttr w "Location" "location" redactLocation
  ++ headerAttr w "WWW-Authenticate" "www_authenticate" id
  ++ match rec.(sr_body) with
     | Some body =>
         if rec.(sr_capture) && (0 <? slen body)%Z then
           ("response", AString (redactResponseForLog body)) :: (if rec.(sr_truncated) then [("response_truncated", ABool true)] else [])
         else []
     | None => []
     end.

(** [panicked]: the value and the stack when the handler panics after its
    calls. *)
Definition MetricsMiddleware (e : Env) (m : HTTPMetrics) (r : HttpRequest) (calls : list writer_call) (panicked : option (string * string))
    (w : Response) : HTTPMetrics * Response * logEntries :=
  let m := m <| hm_requestsTotal := atomic_inc m.(hm_requestsTotal) |> in
  let reqID := uuid e 0 in
  let rec := foldl recorder_call (newRecorder (shouldCaptureResponse r.(hr_Path)) (header_Set "X-Request-Id" reqID w)) calls in
  let '(m, rec, logs) :=
    match panicked with
    | Some (what, stack) =>
        (m <| hm_errorsTotal := atomic_inc m.(hm_errorsTotal) |>,
         rec <| sr_w := rw_Error "internal server error" 500 rec.(sr_w) |>,
         [("panic in request", [("request_id", AString reqID); ("panic", AString what); ("stack", AString stack)])])
    | None => (m, rec, [])
    end in
  let m := if (500 <=? rec.(sr_status))%Z then m <| hm_errorsTotal := atomic_inc m.(hm_errorsTotal) |> else m in
  (m, rec.(sr_w), logs ++ [("http_request", requestAttrs e r reqID rec)]).

Definition metrics_Handler (m : HTTPMetrics) : string :=
  "http_requests_total " +:+ pretty m.(hm_requestsTotal) +:+ String "010"%char "" +:+
  "http_errors_total " +:+ pretty m.(hm_errorsTotal) +:+ String "010"%char "" +:+
  match m.(hm_usageExporter) with Some u => Prometheus u | None => "" end.
End Redact.

(** ** Readiness *)

(** [None]: a nil checker; otherwise what [Ping] answers. *)
Definition readyResult (check : option (option error)) : bool * string :=
  match check with Some (Some err) => (false, Error_text err) | _ => (true, "") end.

(** The status, [ok] and [checks] of the body. *)
Definition ReadyzHandler (checks : gmap string (option (option error))) : Z * bool * gmap string (bool * string) :=
  let out := readyResult <$> checks in
  let allOK := forallb (λ kv, kv.2.1) (map_to_list out) in
  (if allOK then 200%Z else 503%Z, allOK, out).
