(* ===== verification/ObservabilityProps.v ===== *)
(** What the log of requests holds. *)
From S2P Require Import Prelude GoStrings Models Observability.
From Stdlib Require Import Ascii.

(** ** The recorder *)

(** All a handler writes. *)
Definition written (calls : list writer_call) : string := foldr (λ c s, match c with HWrite p => p +:+ s | _ => s end) "" calls.

Lemma sapp_nil s : s +:+ "" = s.
Proof. induction s as [|c s IH]; [done|]. by rewrite app_cons_s, IH. Qed.
Lemma take_bytes_all n s : (String.length s ≤ n)%nat → take_bytes n s = s.
Proof. revert n. induction s as [|c s IH]; intros [|n] Hn; cbn in *; try done; [lia|]. f_equal. apply IH. lia. Qed.
Lemma take_bytes_split n a b : take_bytes n (a +:+ b) = take_bytes n a +:+ take_bytes (n - String.length a) b.
Proof.
  revert n. induction a as [|c a IH]; intros n; [by rewrite Nat.sub_0_r; destruct n|].
  rewrite app_cons_s. destruct n as [|n]; [done|]. cbn [take_bytes String.length Nat.sub]. by rewrite IH, app_cons_s.
Qed.
Lemma take_bytes_min n s : String.length (take_bytes n s) = (n `min` String.length s)%nat.
Proof. revert n. induction s as [|c s IH]; intros [|n]; cbn; auto. Qed.

Lemma recorder_transparent calls : ∀ r, (foldl recorder_call r calls).(sr_w) = foldl rw_call r.(sr_w) calls.
Proof.
  induction calls as [|c calls IH]; [done|]. intros r. cbn [foldl]. rewrite IH. f_equal. destruct c; try done. cbn. unfold recorder_Write.
  by repeat case_match.
Qed.

Lemma recorder_config calls : ∀ r, let r' := foldl recorder_call r calls in
  r'.(sr_capture) = r.(sr_capture) ∧ r'.(sr_maxBody) = r.(sr_maxBody) ∧ (r.(sr_body) = None → r'.(sr_body) = None).
Proof.
  induction calls as [|c calls IH]; [done|]. intros r. cbn [foldl]. destruct (IH (recorder_call r c)) as (-> & -> & Hb).
  destruct c; try done. cbn in *. unfold recorder_Write in *. destruct (sr_body r) eqn:Hr; cbn in *; [|auto]. by repeat case_match.
Qed.

Lemma recorder_captures calls : ∀ r pre, r.(sr_capture) = true → (0 < r.(sr_maxBody))%Z →
  r.(sr_body) = Some (take_bytes (Z.to_nat r.(sr_maxBody)) pre) →
  (foldl recorder_call r calls).(sr_body) = Some (take_bytes (Z.to_nat r.(sr_maxBody)) (pre +:+ written calls)).
Proof.
  induction calls as [|c calls IH]; intros r pre Hc Hm Hb; [by cbn; rewrite sapp_nil|].
  cbn [foldl]. destruct c as [k v|k|st|p]; 
    [exact (IH (recorder_call r (HSet k v)) pre Hc Hm Hb)|exact (IH (recorder_call r (HDel k)) pre Hc Hm Hb)
    |exact (IH (recorder_call r (HStatus st)) pre Hc Hm Hb)|].
  replace (pre +:+ written (HWrite p :: calls)) with ((pre +:+ p) +:+ written calls) by (by cbn; rewrite app_assoc_s).
  assert (Hcfg : (recorder_call r (HWrite p)).(sr_capture) = true ∧ (recorder_call r (HWrite p)).(sr_maxBody) = r.(sr_maxBody)).
  { pose proof (recorder_config [HWrite p] r) as Hr. cbn [foldl] in Hr. by destruct Hr as (-> & -> & _). }
  destruct Hcfg as [Hc' Hm']. rewrite <- Hm'. apply IH; rewrite ?Hm'; [done..|]. clear Hc' Hm'.
  cbn. unfold recorder_Write. rewrite Hb, Hc. apply Z.ltb_lt in Hm as Hm'. rewrite Hm'. cbn [andb]. clear Hm'.
  rewrite take_bytes_split. unfold slen. rewrite take_bytes_min.
  destruct (Z.ltb_spec 0 (sr_maxBody r - Z.of_nat (Z.to_nat (sr_maxBody r) `min` String.length pre)%nat)) as [Hrem|Hrem].
  - rewrite (take_bytes_all _ pre) by lia.
    destruct (Z.ltb_spec (sr_maxBody r - Z.of_nat (Z.to_nat (sr_maxBody r) `min` String.length pre)%nat) (Z.of_nat (String.length p))); cbn.
    + do 3 f_equal. lia.
    + by rewrite (take_bytes_all _ p) by lia.
  - cbn. rewrite Hb. replace (Z.to_nat (sr_maxBody r) - String.length pre)%nat with 0%nat by lia.
    by destruct p; cbn; rewrite sapp_nil.
Qed.

(** ** Redacted values *)

Inductive any_step := ToKey (k : string) | ToIndex (i : nat).

(** The value a path leads to. *)
Fixpoint at_path (p : list any_step) (v : Any) : option Any :=
  match p, v with
  | [], _ => Some v
  | ToKey k :: p, AObject o => match List.find (λ kv, kv.1 =s k) o with Some kv => at_path p kv.2 | None => None end
  | ToIndex i :: p, AArray l => match l !! i with Some v => at_path p v | None => None end
  | _, _ => None
  end.

Section Redaction.
Context (unicode_lower : Z → Z) (json_parse : string → option Any) (json_marshal : Any → option string) `{NetURL}.
Context {U : Type}.

Definition open_step (s : any_step) : bool := match s with ToKey k => negb (secretName unicode_lower k) | ToIndex _ => true end.

Lemma find_redacted k o :
  List.find (λ kv, kv.1 =s k) (map (λ kv, (kv.1, if secretName unicode_lower kv.1 then AString redactedText else redactSecretValues unicode_lower kv.2)) o)
  = (λ kv, (k, if secretName unicode_lower k then AString redactedText else redactSecretValues unicode_lower kv.2)) <$> List.find (λ kv, kv.1 =s k) o.
Proof.
  induction o as [|[k' v] o IH]; [done|]. cbn -[secretName]. destruct (String.eqb_spec k' k) as [->|]; [done|]. exact IH.
Qed.

(** Above the secrets nothing changes, and below them nothing is left. *)
Lemma redacted_open p v : forallb open_step p = true →
  at_path p (redactSecretValues unicode_lower v) = redactSecretValues unicode_lower <$> at_path p v.
Proof.
  revert v. induction p as [|[k|i] p IH]; intros v Hp; [done|..]; cbn [forallb open_step] in Hp; apply andb_true_iff in Hp as [Hk Hp].
  - destruct v; try done. cbn [redactSecretValues at_path]. rewrite find_redacted. apply negb_true_iff in Hk. rewrite Hk.
    destruct (List.find _ o) as [kv|]; [|done]. cbn. by apply IH.
  - destruct v; try done. cbn [redactSecretValues at_path]. rewrite list_lookup_fmap. destruct (l !! i); [|done]. cbn. by apply IH.
Qed.

Lemma at_path_app p q v : at_path (p ++ q) v = at_path p v ≫= at_path q.
Proof.
  revert v. induction p as [|[k|i] p IH]; intros v; [done|..]; destruct v; try done; cbn.
  - destruct (List.find _ o); [|done]. apply IH.
  - destruct (l !! i); [|done]. apply IH.
Qed.

Lemma redacted_secret p k q v : forallb open_step p = true → secretName unicode_lower k = true →
  at_path (p ++ ToKey k :: q) (redactSecretValues unicode_lower v)
  = match q with [] => (λ _, AString redactedText) <$> at_path (p ++ [ToKey k]) v | _ => None end.
Proof.
  intros Hp Hk. rewrite !at_path_app, redacted_open by done. destruct (at_path p v) as [x|]; cbn -[at_path]; [|by destruct q].
  destruct x as [| | | | | |o]; try by destruct q. cbn [redactSecretValues at_path]. rewrite find_redacted, Hk.
  destruct (List.find _ o) as [kv|]; cbn; [|by destruct q]. by destruct q as [|[]].
Qed.

(** [net/url]: the query that was encoded into an address is read from it,
    less the keys that have no value. *)
Definition with_values (q : gmap string (list string)) : gmap string (list string) := filter (λ kv, kv.2 ≠ []) q.
Definition url_law : Prop := ∀ q u u', url_Parse (url_String (url_withQuery q u)) = Some u' → url_Query u' = with_values q.

Lemma with_values_get q key : get0 (with_values q) key = get0 q key.
Proof.
  unfold get0, with_values. rewrite map_lookup_filter. destruct (q !! key) as [[|v vs]|]; cbn; [|by rewrite option_guard_True|done].
  by destruct (guard _).
Qed.

Lemma redactStep_eq q changed k :
  redactStep (q, changed) k = match q !! k with Some _ => (<[k := [redactedText]]> q, true) | None => (q, changed) end.
Proof. done. Qed.
Lemma redactStep_changed keys q : (foldl redactStep (q, true) keys).2 = true.
Proof. revert q. induction keys as [|k keys IH]; intros q; [done|]. cbn [foldl]. rewrite redactStep_eq. case_match; apply IH. Qed.
Lemma redactStep_spec keys q changed : ∀ key, let r := foldl redactStep (q, changed) keys in
  (key ∈ keys → get0 r.1 key = [] ∨ get0 r.1 key = [redactedText])
  ∧ (get0 q key = [] ∨ get0 q key = [redactedText] → get0 r.1 key = [] ∨ get0 r.1 key = [redactedText])
  ∧ (r.2 = false → r.1 = q).
Proof.
  intros key. revert q changed. induction keys as [|k keys IH]; intros q changed; [split_and!; [by intros ?%not_elem_of_nil|done..]|].
  cbn [foldl]. rewrite redactStep_eq. destruct (q !! k) as [vs|] eqn:Hk.
  - destruct (IH (<[k := [redactedText]]> q) true) as (H1 & H2 & H3). split_and!.
    + intros [->|?]%elem_of_cons; [|auto]. apply H2. right. by rewrite get0_insert, decide_True.
    + intros Hq. apply H2. rewrite get0_insert. case_decide; auto.
    + intros Hf. by rewrite redactStep_changed in Hf.
  - destruct (IH q changed) as (H1 & H2 & H3). split_and!; [|done..].
    intros [->|?]%elem_of_cons; [|auto]. apply H2. left. unfold get0. by rewrite Hk.
Qed.

(** No secret is left in the query of what is logged of a redirect. *)
Lemma redactLocation_safe loc u key : url_law → url_Parse (redactLocation loc) = Some u → key ∈ locationSecrets →
  get0 (url_Query u) key = [] ∨ get0 (url_Query u) key = [redactedText].
Proof.
  intros Hlaw Hu Hkey. unfold redactLocation in Hu. destruct (url_Parse loc) as [u0|] eqn:Hp; [|congruence].
  destruct (foldl redactStep (url_Query u0, false) locationSecrets) as [q changed] eqn:Hf.
  destruct (redactStep_spec locationSecrets (url_Query u0) false key) as (H1 & _ & H3). rewrite Hf in H1, H3. cbn in H1, H3.
  destruct changed; cbn in Hu.
  - rewrite (Hlaw _ _ _ Hu), with_values_get. auto.
  - assert (u = u0) as -> by congruence. rewrite <- (H3 eq_refl). auto.
Qed.

(** A text that holds a JSON object or array. *)
Definition json_text (text : string) (v : Any) : Prop :=
  (∃ rest, TrimSpace text = String "{" rest ∨ TrimSpace text = String "[" rest) ∧ json_parse (TrimSpace text) = Some v.

Lemma redact_json text v out : json_text text v → json_marshal (redactSecretValues unicode_lower v) = Some out →
  redactResponseForLog unicode_lower json_parse json_marshal text = out.
Proof.
  intros [[rest Ht] Hv] Hout. unfold redactResponseForLog, redactJSONSecrets. rewrite Hv.
  destruct Ht as [Ht|Ht]; rewrite Ht; cbn [Ascii.eqb Bool.eqb negb andb]; by rewrite Hout.
Qed.

(** The attributes of a request that come from its response. *)
Lemma headerAttr_elem w name attr shown k t : (k, t) ∈ headerAttr w name attr shown → k = attr ∧ t = AString (shown (header_Get w name)).
Proof. unfold headerAttr. destruct (header_Get w name <>s ""); [|by intros ?%not_elem_of_nil]. by intros [= -> ->]%list_elem_of_singleton. Qed.

Lemma response_attr e r reqID rec t : ("response", t) ∈ requestAttrs unicode_lower json_parse json_marshal e r reqID rec →
  ∃ body, rec.(sr_body) = Some body ∧ rec.(sr_capture) = true ∧ t = AString (redactResponseForLog unicode_lower json_parse json_marshal body).
Proof.
  unfold requestAttrs. rewrite !elem_of_app. intros [Hin|[Hin|[Hin|[Hin|[Hin|[Hin|Hin]]]]]];
    [by repeat (apply elem_of_cons in Hin as [Hin|Hin]; [done|]); apply not_elem_of_nil in Hin|by apply headerAttr_elem in Hin as [? _]..|].
  destruct (sr_body rec) as [body|]; [|by apply not_elem_of_nil in Hin]. exists body.
  destruct (sr_capture rec); cbn [andb] in Hin; [|by apply not_elem_of_nil in Hin].
  destruct (0 <? slen body)%Z; [|by apply not_elem_of_nil in Hin]. apply elem_of_cons in Hin as [[= ->]|Hin]; [done|].
  destruct (sr_truncated rec); [by apply list_elem_of_singleton in Hin|by apply not_elem_of_nil in Hin].
Qed.

Lemma location_attr e r reqID rec t : ("location", t) ∈ requestAttrs unicode_lower json_parse json_marshal e r reqID rec →
  t = AString (redactLocation (header_Get rec.(sr_w) "Location")).
Proof.
  unfold requestAttrs. rewrite !elem_of_app. intros [Hin|[Hin|[Hin|[Hin|[Hin|[Hin|Hin]]]]]];
    [by repeat (apply elem_of_cons in Hin as [Hin|Hin]; [done|]); apply not_elem_of_nil in Hin|by apply headerAttr_elem in Hin as [? ?]..|].
  exfalso. destruct (sr_body rec) as [body|]; [|by apply not_elem_of_nil in Hin].
  destruct (_ && _); [|by apply not_elem_of_nil in Hin]. apply elem_of_cons in Hin as [?|Hin]; [done|].
  destruct (sr_truncated rec); [by apply list_elem_of_singleton in Hin|by apply not_elem_of_nil in Hin].
Qed.

(** The recorder of a request after its handler. *)
Definition recorderAfter (e : Env) (r : HttpRequest) (calls : list writer_call) (w : Response) : statusRecorder :=
  foldl recorder_call (newRecorder (shouldCaptureResponse r.(hr_Path)) (header_Set "X-Request-Id" (uuid e 0) w)) calls.

Lemma recorded_body e r calls w :
  (recorderAfter e r calls w).(sr_capture) = shouldCaptureResponse r.(hr_Path)
  ∧ (recorderAfter e r calls w).(sr_body) = if shouldCaptureResponse r.(hr_Path) then Some (take_bytes (Z.to_nat maxLoggedResponseBytes) (written calls)) else None.
Proof.
  unfold recorderAfter. destruct (recorder_config calls (newRecorder (shouldCaptureResponse (hr_Path r)) (header_Set "X-Request-Id" (uuid e 0) w))) as (-> & _ & Hnone).
  split; [done|]. destruct (shouldCaptureResponse (hr_Path r)); [|by apply Hnone].
  by apply (recorder_captures calls (newRecorder true (header_Set "X-Request-Id" (uuid e 0) w)) "").
Qed.

Lemma attrs_safe e r reqID rec calls : url_law →
  let capture := shouldCaptureResponse r.(hr_Path) in
  let attrs := requestAttrs unicode_lower json_parse json_marshal e r reqID rec in
  rec.(sr_capture) = capture → rec.(sr_body) = (if capture then Some (take_bytes (Z.to_nat maxLoggedResponseBytes) (written calls)) else None) →
  (∀ t, ("response", t) ∈ attrs → capture = true
     ∧ t = AString (redactResponseForLog unicode_lower json_parse json_marshal (take_bytes (Z.to_nat maxLoggedResponseBytes) (written calls))))
  ∧ (∀ v out, capture = true → (slen (written calls) <= 8192)%Z → json_text (written calls) v →
       json_marshal (redactSecretValues unicode_lower v) = Some out →
       ("response", AString out) ∈ attrs
       ∧ (∀ p, forallb open_step p = true →
            at_path p (redactSecretValues unicode_lower v) = redactSecretValues unicode_lower <$> at_path p v)
       ∧ ∀ p k q, forallb open_step p = true → secretName unicode_lower k = true →
            at_path (p ++ ToKey k :: q) (redactSecretValues unicode_lower v)
            = match q with [] => (λ _, AString redactedText) <$> at_path (p ++ [ToKey k]) v | _ => None end)
  ∧ ∀ t, ("location", t) ∈ attrs → ∃ loc, t = AString loc ∧ ∀ u key, url_Parse loc = Some u → key ∈ locationSecrets →
       get0 (url_Query u) key = [] ∨ get0 (url_Query u) key = [redactedText].
Proof.
  intros Hlaw capture attrs Hc Hb. split_and!.
  - intros t (body & Hb' & Hc' & ->)%response_attr. rewrite Hc in Hc'. rewrite Hb, Hc' in Hb'. by injection Hb' as <-.
  - intros v out Hcap Hlen Hv Hout. split_and!; [|by intros; apply redacted_open|by intros; apply redacted_secret].
    rewrite Hcap in *. rewrite take_bytes_all in Hb by (unfold slen, maxLoggedResponseBytes in *; lia).
    unfold attrs, requestAttrs. rewrite Hb, Hc, (redact_json _ v out) by done.
    assert (Hpos : (0 <? slen (written calls))%Z = true).
    { apply Z.ltb_lt. destruct Hv as [[rest Ht] _]. destruct (written calls); [by destruct Ht|]. unfold slen. cbn. lia. }
    rewrite Hpos. cbn [andb]. rewrite !elem_of_app. do 6 right. by left.
  - intros t ->%location_attr. eexists. split; [done|]. intros u key. by apply redactLocation_safe.
Qed.

(** C37. Requests are counted and logged without their secrets, and the response
    is left as it is. The client gets what the handler wrote, or an error when
    the handler panics. One entry is logged for the request. It shows a
    response only for the protocol and login paths, and then at most the first
    8192 bytes of what was written; a JSON document that fits is shown with
    every value under the name of a secret replaced, at any depth, and all else
    as it was; and the query of a redirect is shown without codes and tokens. *)
Theorem requests_logged_redacted e (m : HTTPMetrics) r calls panicked w :
  url_law → let '(m', w', logs) := MetricsMiddleware unicode_lower json_parse json_marshal (U := U) e m r calls panicked w in
  let capture := shouldCaptureResponse r.(hr_Path) in
  w' = (if panicked then rw_Error "internal server error" 500 else id) (foldl rw_call (header_Set "X-Request-Id" (uuid e 0) w) calls)
  ∧ m'.(hm_requestsTotal) = atomic_inc m.(hm_requestsTotal)
  ∧ ∃ before attrs, logs = before ++ [("http_request", attrs)] ∧ (panicked = None → before = [])
    ∧ (∀ t, ("response", t) ∈ attrs → capture = true
         ∧ t = AString (redactResponseForLog unicode_lower json_parse json_marshal (take_bytes (Z.to_nat maxLoggedResponseBytes) (written calls))))
    ∧ (∀ v out, capture = true → (slen (written calls) <= 8192)%Z → json_text (written calls) v →
         json_marshal (redactSecretValues unicode_lower v) = Some out →
         ("response", AString out) ∈ attrs
         ∧ (∀ p, forallb open_step p = true →
              at_path p (redactSecretValues unicode_lower v) = redactSecretValues unicode_lower <$> at_path p v)
         ∧ ∀ p k q, forallb open_step p = true → secretName unicode_lower k = true →
              at_path (p ++ ToKey k :: q) (redactSecretValues unicode_lower v)
              = match q with [] => (λ _, AString redactedText) <$> at_path (p ++ [ToKey k]) v | _ => None end)
    ∧ ∀ t, ("location", t) ∈ attrs → ∃ loc, t = AString loc ∧ ∀ u key, url_Parse loc = Some u → key ∈ locationSecrets →
         get0 (url_Query u) key = [] ∨ get0 (url_Query u) key = [redactedText].
Proof.
  intros Hlaw. unfold MetricsMiddleware. fold (recorderAfter e r calls w). destruct (recorded_body e r calls w) as [Hcap Hbody].
  pose proof (recorder_transparent calls (newRecorder (shouldCaptureResponse (hr_Path r)) (header_Set "X-Request-Id" (uuid e 0) w))) as Hw.
  fold (recorderAfter e r calls w) in Hw. cbv zeta.
  destruct panicked as [[what stack]|]; cbn [fst snd]; (split_and!; [cbn; by rewrite Hw|by destruct (500 <=? _)%Z|]);
    (eexists _, _; split; [done|]; split; [done|]; apply attrs_safe; [done..|]; by rewrite ?Hbody).
Qed.
End Redaction.

(** ** Where secrets and errors escape *)

(** A tool result is a document inside a text, which is not looked into: the
    secret of a token that is created over [/mcp] is logged. *)
Theorem text_result_not_redacted unicode_lower text :
  let result := AObject [("content", AArray [AObject [("type", AString "text"); ("text", AString text)]])] in
  redactSecretValues unicode_lower result = result.
Proof. reflexivity. Qed.

(** A document that was cut no longer parses and is logged as it is. *)
Theorem cut_response_not_redacted unicode_lower json_parse json_marshal body rest :
  TrimSpace body = String "{" rest → json_parse (TrimSpace body) = None →
  redactResponseForLog unicode_lower json_parse json_marshal body = body.
Proof. intros Ht Hp. unfold redactResponseForLog, redactJSONSecrets. rewrite Hp, Ht. reflexivity. Qed.

(** A request whose handler panics is answered with 500 and logged with 200. *)
Theorem panic_logged_as_ok unicode_lower json_parse json_marshal `{NetURL} e (m : HTTPMetrics (U := unit)) r what :
  ∃ m' w' logs, MetricsMiddleware unicode_lower json_parse json_marshal e m r [] (Some what) (mkResponse ∅ None "") = (m', w', logs)
    ∧ fst <$> w'.(rw_sent) = Some 500%Z ∧ ∃ attrs, last logs = Some ("http_request", attrs) ∧ ("status", AInt 200) ∈ attrs.
Proof. destruct what as [what stack]. eexists _, _, _. split; [reflexivity|]. split; [done|]. eexists. split; [done|]. do 3 right. by left. Qed.

(** ** Witness *)

Section Witness.
Fixpoint wl_bits (p : positive) : string :=
  match p with xH => "" | xO p => String "0" (wl_bits p) | xI p => String "1" (wl_bits p) end.
Fixpoint wl_unbits (s : string) : positive :=
  match s with "" => xH | String c s => if Ascii.eqb c "0" then xO (wl_unbits s) else xI (wl_unbits s) end.
Lemma wl_unbits_bits p : wl_unbits (wl_bits p) = p.
Proof. by induction p as [p IH|p IH|]; cbn; rewrite ?IH. Qed.

(** An address is its query, in binary. *)
#[local] Instance wl_url : NetURL := {|
  NU := gmap string (list string); url_Parse := λ s, decode (wl_unbits s); url_Query := λ q, q; url_withQuery := λ q _, with_values q;
  url_String := λ q, wl_bits (encode q)
|}.
Lemma wl_law : url_law.
Proof. intros q u u'. cbn. rewrite wl_unbits_bits, decode_encode. congruence. Qed.

Definition wl_env : Env := mkEnv (λ _, 0%Z) (λ _, "id") (λ _, None).
Definition wl_reply : Any := AObject [("access_token", AString "s3cr3t"); ("expires_in", AInt 60)].
Definition wl_json (v : Any) : option string :=
  match at_path [ToKey "access_token"] v with Some (AString s) => Some s | _ => None end.

Lemma requests_logged_redacted_witness :
  ∃ m w attrs, MetricsMiddleware id (λ _, Some wl_reply) wl_json wl_env (NewHTTPMetrics (U := unit)) (mkHttpRequest "POST" "/token" "")
      [HStatus 200; HWrite "{ }"] None (mkResponse ∅ None "") = (m, w, [("http_request", attrs)])
    ∧ ("response", AString "[redacted]") ∈ attrs ∧ at_path [ToKey "expires_in"] (redactSecretValues id wl_reply) = Some (AInt 60).
Proof.
  pose proof (requests_logged_redacted id (λ _, Some wl_reply) wl_json (U := unit) wl_env (NewHTTPMetrics) (mkHttpRequest "POST" "/token" "")
    [HStatus 200; HWrite "{ }"] None (mkResponse ∅ None "") wl_law) as Hp.
  destruct (MetricsMiddleware _ _ _ _ _ _ _ _ _) as [[m w] logs]. destruct Hp as (_ & _ & before & attrs & -> & Hb & _ & Hj & _).
  rewrite (Hb eq_refl). exists m, w, attrs. split; [done|].
  destruct (Hj wl_reply "[redacted]") as (Hin & Hopen & _); [reflexivity|done| |reflexivity|].
  - split; [exists " }"; left; reflexivity|reflexivity].
  - split; [exact Hin|]. by rewrite (Hopen [ToKey "expires_in"]).
Defined.
End Witness.
