(* ===== verification/Qdrant.v ===== *)
(** [internal/storage/vector/qdrant/store.go]: the vectors in a Qdrant service,
    with the store in memory when no service is configured.

    The service, JSON and [uuid] are parameters. *)
From S2P Require Import Prelude GoStrings Models DataObj Documents.
From Stdlib Require Import Ascii Floats.SpecFloat.

(** The service answers a status and a body; [qh_request] is the error of
    [http.NewRequest]. *)
Class QdrantHTTP := {
  QD : Type;
  qh_request : string → string → option error;
  qh_do : string → string → string → QD → QD * ((Z * string) + error);
  qh_fresh : QD → QD * string                        (* [uuid.NewString] *)
}.

(** [any] from a decoded payload. *)
Definition asBool (v : Any) : bool := match v with ABool b => b | _ => false end.
Definition qdrant_member (m : list (string * Any)) (k : string) : Any :=
  match List.find (λ kv, kv.1 =s k) m with Some kv => kv.2 | None => ANil end.

Definition qdrantPayload (rec : VectorRecord) : list (string * Any) :=
  let p := rec.(Vec_Payload) in
  [("doc_id", AString p.(VectorPayload_DocID)); ("storage_id", AString p.(VectorPayload_StorageID)); ("chunk_id", AString p.(VectorPayload_ChunkID));
   ("visibility", AString p.(VectorPayload_Visibility)); ("owner_id", AString p.(VectorPayload_OwnerID));
   ("group_ids", AArray (AString <$> p.(VectorPayload_GroupIDs))); ("is_summary", ABool p.(VectorPayload_IsSummary));
   ("source", AString p.(VectorPayload_Source)); ("source_url", AString p.(VectorPayload_SourceURL)); ("s3_key", AString p.(VectorPayload_S3Key));
   ("source_hash", AString p.(VectorPayload_SourceHash)); ("text", AString rec.(Vec_Text))].

Definition fromQdrantPayload (m : list (string * Any)) : VectorPayload :=
  let str k := AsString (qdrant_member m k) in
  mkVectorPayload (str "doc_id") (str "storage_id") (str "chunk_id") (str "visibility") (str "owner_id")
    (AsStringSlice (qdrant_member m "group_ids")) (asBool (qdrant_member m "is_summary")) (str "source") (str "source_url") (str "s3_key")
    (str "source_hash").

(** The tests of [Search] on one result. *)
Definition qdrantMatches (filter_ : PageRequest) (payload : VectorPayload) : bool :=
  if (filter_.(PageRequest_StorageID) <>s "") && (payload.(VectorPayload_StorageID) <>s filter_.(PageRequest_StorageID)) then false
  else if (filter_.(PageRequest_Source) <>s "") && (payload.(VectorPayload_Source) <>s filter_.(PageRequest_Source)) then false
  else if filter_.(PageRequest_SourceURL) <>s "" then
    if filter_.(PageRequest_SourceURLMode) =s "partial"
    then Contains payload.(VectorPayload_SourceURL) filter_.(PageRequest_SourceURL)
    else payload.(VectorPayload_SourceURL) =s filter_.(PageRequest_SourceURL)
  else true.

Section Service.
Context `{QdrantHTTP, VectorDB}.
Context (json_marshal : Any → option string) (unmarshal : string → list (list (string * Any) * spec_float) + error).

Record QdrantStore := mkQdrantStore { qs_baseURL : string; qs_collection : string; qs_client : QD; qs_fallback : option VecStore }.
#[export] Instance settable_QdrantStore : Settable QdrantStore := λ s,
  mkQdrantStore s.(qs_baseURL) s.(qs_collection) s.(qs_client) s.(qs_fallback).
Implicit Types (s : QdrantStore).

(** [d] and [c]: the outside. *)
Definition NewQdrant (d : VD) (c : QD) (baseURL collection : string) : QdrantStore :=
  if baseURL =s "" then mkQdrantStore "" "" c (Some (NewInMemoryVecs d))
  else mkQdrantStore (trim_right_byte "/" baseURL) (if collection =s "" then "knowledge" else collection) c None.

Definition postJSON s (path : string) (payload : Any) : QdrantStore * ret string :=
  match json_marshal payload with
  | None => (s, fails "" (NewError ""))
  | Some raw =>
      match qh_request "POST" (s.(qs_baseURL) +:+ path) with
      | Some err => (s, fails "" err)
      | None =>
          let '(c, res) := qh_do "POST" (s.(qs_baseURL) +:+ path) raw s.(qs_client) in
          let s := s <| qs_client := c |> in
          match res with
          | inr err => (s, fails "" err)
          | inl (code, body) => if negb (code / 100 =? 2)%Z then (s, fails "" (NewError ("qdrant status " +:+ pretty code))) else (s, ok body)
          end
      end
  end.

Definition qdrantPost s (path : string) (payload : Any) : QdrantStore * option error := let '(s, (_, err)) := postJSON s path payload in (s, err).

Definition pointsPath s (suffix : string) : string := "/collections/" +:+ s.(qs_collection) +:+ "/points" +:+ suffix.

Definition QUpsert s (rec : VectorRecord) : QdrantStore * option error :=
  match s.(qs_fallback) with
  | Some f => let '(f, err) := Upsert f rec in (s <| qs_fallback := Some f |>, err)
  | None =>
      let '(c, fresh) := qh_fresh s.(qs_client) in
      let s := s <| qs_client := c |> in
      qdrantPost s (pointsPath s "") (AObject [("points", AArray [AObject [
        ("id", AString (rec.(Vec_Payload).(VectorPayload_ChunkID) +:+ "-" +:+ fresh)); ("vector", AArray (AFloat <$> rec.(Vec_Vector)));
        ("payload", AObject (qdrantPayload rec))]])])
  end.

Definition hitRecord (item : list (string * Any) * spec_float) : VectorRecord :=
  mkVectorRecord [] (fromQdrantPayload item.1) (AsString (qdrant_member item.1 "text")) item.2.

Definition QSearch s (query : list spec_float) (topK : Z) (filter_ : PageRequest) : QdrantStore * ret (list VectorRecord) :=
  match s.(qs_fallback) with
  | Some f => (s, SearchVectors f query topK filter_)
  | None =>
      let topK := if (topK <=? 0)%Z then 10%Z else topK in
      match postJSON s (pointsPath s "/search") (AObject [("vector", AArray (AFloat <$> query)); ("limit", AInt topK)]) with
      | (s, (_, Some err)) => (s, fails [] err)
      | (s, (raw, None)) =>
          match unmarshal raw with
          | inr err => (s, fails [] err)
          | inl result => (s, ok (hitRecord <$> List.filter (λ item, qdrantMatches filter_ (fromQdrantPayload item.1)) result))
          end
      end
  end.

Definition QDeleteByDocID s (docID : string) : QdrantStore * option error :=
  match s.(qs_fallback) with
  | Some f => let '(f, err) := DeleteByDocID f docID in (s <| qs_fallback := Some f |>, err)
  | None =>
      qdrantPost s (pointsPath s "/delete") (AObject [("filter", AObject [("must", AArray [AObject [("key", AString "doc_id");
        ("match", AObject [("value", AString docID)])]])])])
  end.

(** [None]: the nil request of an address that is no URL panics. *)
Definition QPing s : option (option error) :=
  match s.(qs_fallback) with
  | Some _ => Some None
  | None =>
      let url := s.(qs_baseURL) +:+ "/collections" in
      match qh_request "GET" url with
      | Some _ => None
      | None =>
          match (qh_do "GET" url "" s.(qs_client)).2 with
          | inr err => Some (Some err)
          | inl (code, _) => Some (if negb (code / 100 =? 2)%Z then Some (NewError "qdrant ping failed") else None)
          end
      end
  end.

#[export] Instance QdrantStore_VectorStore : VectorStore QdrantStore := {|
  v_Upsert := QUpsert; v_Search := λ s query topK filter_, (QSearch s query topK filter_).2; v_DeleteByDocID := QDeleteByDocID
|}.

(** ** Searching *)

Lemma indexOf_Contains h n : (0 <=? indexOf h n)%Z = Contains h n.
Proof.
  induction h as [|c h IH]; cbn [indexOf Contains]; destruct (HasPrefix _ n); cbn [orb]; try done.
  rewrite <- IH. destruct (Z.ltb_spec (indexOf h n) 0); destruct (Z.leb_spec 0 (indexOf h n)); [lia|done|by apply Z.leb_le; lia|lia].
Qed.

(** The filter is the one of the store in memory. *)
Lemma qdrantMatches_memory filter_ rec : qdrantMatches filter_ rec.(Vec_Payload) = vectorMatches filter_ rec.
Proof.
  unfold qdrantMatches, vectorMatches. rewrite indexOf_Contains. destruct (_ && _); [done|]. destruct (_ && _); [done|].
  destruct (PageRequest_SourceURL filter_ =s ""); [done|]. cbn [negb andb orb]. destruct (_ =s "partial"); by destruct (Contains _ _) || destruct (_ =s _).
Qed.

(** What is written of a record is read back. *)
Lemma qdrant_payload_back rec score : hitRecord (qdrantPayload rec, score) = mkVectorRecord [] rec.(Vec_Payload) rec.(Vec_Text) score.
Proof.
  unfold hitRecord, fromQdrantPayload. cbn -[AsStringSlice]. f_equal. destruct rec as [vec [] txt sc]. cbn -[AsStringSlice]. f_equal.
  cbn. induction VectorPayload_GroupIDs as [|g gs IH]; [done|]. cbn. by f_equal.
Qed.

(** When the service answers a search with stored records, the caller gets
    those that the filter of the store in memory keeps, in the order of the
    service, with the scores it gave. *)
Theorem qdrant_search_filtered s query topK filter_ s' raw (hits : list (VectorRecord * spec_float)) :
  s.(qs_fallback) = None →
  postJSON s (pointsPath s "/search") (AObject [("vector", AArray (AFloat <$> query)); ("limit", AInt (if (topK <=? 0)%Z then 10%Z else topK))]) = (s', ok raw) →
  unmarshal raw = inl ((λ h, (qdrantPayload h.1, h.2)) <$> hits) →
  v_Search s query topK filter_
  = ok ((λ h, mkVectorRecord [] h.1.(Vec_Payload) h.1.(Vec_Text) h.2) <$> List.filter (λ h, vectorMatches filter_ h.1) hits).
Proof.
  intros Hf Hp Hu. cbn. unfold QSearch. rewrite Hf, Hp. cbn. rewrite Hu. cbn. unfold ok. f_equal. clear.
  induction hits as [|[rec score] hits IH]; [done|]. cbn [fmap list_fmap List.filter fst snd].
  pose proof (qdrant_payload_back rec score) as Hb. assert (Hpl : fromQdrantPayload (qdrantPayload rec) = rec.(Vec_Payload)) by (by injection Hb).
  rewrite Hpl, qdrantMatches_memory. destruct (vectorMatches filter_ rec); [|done]. cbn [fmap list_fmap fst snd]. by rewrite Hb, IH.
Qed.
End Service.
