(* ===== verification/Status.v ===== *)
(** [internal/httpapi/status_handler.go]: the state of the dependencies, for
    administrators. Also what [internal/usage/service.go] has for it: setting
    the service up, counting the errors of a component, and the series and the
    exports of usage.

    Redis, the network, [net/url] and [strconv] are parameters. *)
From S2P Require Import Prelude GoStrings Models Usage Config Kinds DataPlane HttpAdmin.
From Stdlib Require Import Ascii Floats.SpecFloat.

(** ** Usage *)

(** A reply of redis, as the client decodes it. *)
Inductive redis_reply :=
| ReplyInt (z : Z)
| ReplyFloat (f : float64)
| ReplyString (s : string)
| ReplyBytes (s : string)
| ReplyArray (l : list redis_reply)
| ReplyOther.

(** [TS.RANGE key from to AGGREGATION SUM bucket] *)
Class RedisRange `{Redis} := { rs_range : string → Z → Z → Z → RS → redis_reply + error }.

Record UsagePoint := mkUsagePoint { up_Timestamp : Time; up_Value : Z }.
Record UsageSeries := mkUsageSeries { us_Metric : string; us_Labels : gmap string string; us_Points : list UsagePoint }.

Section UsageRest.
Context `{RedisRange, GoRange} (ParseFloat : string → option float64).
Implicit Types (s : Service).

(** [client]: what [redis.NewClient] gives. *)
Definition NewUsageService (client : RS) (redisCfg : RedisConfig) (usageCfg : UsageConfig) : Service :=
  let rl := usageCfg.(UsageConfig_DefaultRateLimit) in
  let retention := wrap64 (usageCfg.(UsageConfig_RetentionHours) * Hour) in
  mkService _ (if redisCfg.(RedisConfig_Addr) <>s "" then Some client else None)
    (if redisCfg.(RedisConfig_KeyPrefix) =s "" then "syna" else redisCfg.(RedisConfig_KeyPrefix))
    (if (retention <=? 0)%Z then (720 * Hour)%Z else retention)
    ((zeroval : RateLimitPolicy) <| RateLimitPolicy_Enabled := usageCfg.(UsageConfig_Enabled) |>
       <| RateLimitPolicy_RequestsPerMinute := rl.(RateLimitConfig_RequestsPerMinute) |>
       <| RateLimitPolicy_RequestsPerHour := rl.(RateLimitConfig_RequestsPerHour) |>
       <| RateLimitPolicy_RequestsPerDay := rl.(RateLimitConfig_RequestsPerDay) |>
       <| RateLimitPolicy_Burst := rl.(RateLimitConfig_Burst) |>)
    ∅ [].

(** What one bucket of the reply adds. *)
Definition bucketValue (it : redis_reply) : Z :=
  match it with
  | ReplyArray (_ :: v :: _) =>
      match v with
      | ReplyInt z => z
      | ReplyFloat f => f_to_int f
      | ReplyString text | ReplyBytes text => match ParseFloat text with Some f => f_to_int f | None => 0%Z end
      | _ => 0%Z
      end
  | _ => 0%Z
  end.

Definition statusWindow (window : Duration) : Duration := if (window <=? 0)%Z then (15 * Minute)%Z else window.

Definition StatusErrorCount (t : nat → Time) s (component : string) (window : Duration) : Z :=
  let component := if component =s "" then "unknown" else component in
  let window := statusWindow window in
  match s.(u_redis) with
  | None => get0 s.(u_counters) (counterKey "syna_status_errors_total" {[ "component" := component ]})
  | Some r =>
      match rs_range (skey s ("ts:status:errors:" +:+ component)) (UnixMilli (t 0%nat - window)) (UnixMilli (t 1%nat)) (Z.quot window 1000000) r with
      | inl (ReplyArray arr) => foldl (λ sum it, wrap64 (sum + bucketValue it)) 0%Z arr
      | _ => 0%Z
      end
  end.

Definition Series (t : Time) s (metric groupBy : string) (from to : Time) : list UsageSeries :=
  let metric := if metric =s "" then "requests" else metric in
  let groupBy := if groupBy =s "" then "storage" else groupBy in
  (λ kv, mkUsageSeries metric {[ groupBy := kv.1 ]} [mkUsagePoint t kv.2]) <$> seriesPoints s groupBy from to.

Definition Summary (t : Time) s (from to : Time) : list (string * list UsageSeries) :=
  [("series", Series t s "requests" "storage" from to)].

(** One tick of the exporter: what it posts. *)
Definition exporterTick s : option string := let body := Prometheus s in if (slen body =? 0)%Z then None else Some body.
Definition exporterInterval (interval : Duration) : Duration := if (interval <=? 0)%Z then (30 * Second)%Z else interval.
End UsageRest.

(** ** The status page *)

Record componentStatus := mkComponentStatus {
  st_Name : string; st_Kind : string; st_Role : string; st_Model : string; st_Provider : string; st_Available : bool;
  st_ErrorCount : Z; st_Color : string; st_Message : string; st_Meta : gmap string string
}.
#[export] Instance settable_componentStatus : Settable componentStatus := λ s,
  mkComponentStatus s.(st_Name) s.(st_Kind) s.(st_Role) s.(st_Model) s.(st_Provider) s.(st_Available) s.(st_ErrorCount) s.(st_Color)
    s.(st_Message) s.(st_Meta).
#[export] Instance zero_componentStatus : Zero componentStatus := mkComponentStatus "" "" "" "" "" false 0 "" "" ∅.

Definition statusColor (available : bool) (errors : Z) : string :=
  if negb available then "red"
  else if (0 <? errors)%Z && (errors <=? 3)%Z then "yellow"
  else if (3 <? errors)%Z then "yellow"
  else "green".

Section Status.
Context `{RedisRange, GoRange} (ParseFloat : string → option float64).
Context (unicode_lower unicode_fold : Z → Z).
(** [url.Parse], as the scheme and the host, and [DialContext]. *)
Context (url_parse : string → option (string * string)) (dial : string → option error).

(** A pinger is [None] when it is nil, otherwise what it answers. *)
Record StatusHandler := mkStatusHandler {
  sh_Summarization : ModelConfig; sh_Embedding : ModelConfig; sh_usage : option Service;
  sh_postgres : option (option error); sh_redis : option (option error); sh_s3 : option (option error)
}.
#[export] Instance settable_StatusHandler : Settable StatusHandler := λ h,
  mkStatusHandler h.(sh_Summarization) h.(sh_Embedding) h.(sh_usage) h.(sh_postgres) h.(sh_redis) h.(sh_s3).
Implicit Types (h : StatusHandler).

Definition pingURLHost (raw : string) : bool * string :=
  if raw =s "" then (false, "api not configured")
  else match url_parse raw with
  | None => (false, "invalid api url")
  | Some u =>
      let u := if u.2 =s "" then url_parse ("https://" +:+ raw) else Some u in
      match u with
      | None => (false, "invalid api url")
      | Some (scheme, host) =>
          let host := if Contains host ":" then host
                      else if EqualFold unicode_fold scheme "http" then host +:+ ":80" else host +:+ ":443" in
          match dial host with Some err => (false, Error_text err) | None => (true, "") end
      end
  end.

Definition recordError (t : Time) h (name : string) : StatusHandler := h <| sh_usage := (λ u, RecordStatusError t u name) <$> h.(sh_usage) |>.

(** The count and the colour of a component. *)
Definition counted (t : nat → Time) h (st : componentStatus) (window : Duration) : componentStatus :=
  let st := match h.(sh_usage) with
            | Some u => st <| st_ErrorCount := StatusErrorCount ParseFloat t u st.(st_Name) window |>
            | None => st
            end in
  st <| st_Color := statusColor st.(st_Available) st.(st_ErrorCount) |>.

Definition checkComponent (t : nat → Time) h (name kind role : string) (p : option (option error)) (window : Duration)
    : StatusHandler * componentStatus :=
  let st := (zeroval : componentStatus) <| st_Name := name |> <| st_Kind := kind |> <| st_Role := role |> in
  let '(h, st) :=
    match p with
    | None => (h, st <| st_Message := "not configured" |>)
    | Some (Some err) => (recordError (t 0%nat) h name, st <| st_Message := Error_text err |>)
    | Some None => (h, st <| st_Available := true |>)
    end in
  (h, counted (λ i, t (S i)) h st window).

Definition checkLLM (t : nat → Time) h (role : string) (cfg : ModelConfig) (window : Duration) : StatusHandler * componentStatus :=
  let name := "llm_" +:+ role in
  let st := (zeroval : componentStatus) <| st_Name := name |> <| st_Kind := "llm" |> <| st_Role := role |>
              <| st_Model := cfg.(ModelConfig_Model) |> <| st_Provider := cfg.(ModelConfig_Provider) |>
              <| st_Meta := if cfg.(ModelConfig_API) <>s "" then {[ "api" := cfg.(ModelConfig_API) ]} else ∅ |> in
  let provider := TrimSpace (ToLower unicode_lower cfg.(ModelConfig_Provider)) in
  if (provider =s "") || (provider =s "simple") then (h, st <| st_Available := true |> <| st_Color := "green" |>)
  else
    let '(ok, msg) := pingURLHost cfg.(ModelConfig_API) in
    let st := st <| st_Available := ok |> in
    let '(h, st) := if negb ok && (msg <>s "") then (recordError (t 0%nat) h name, st <| st_Message := msg |>) else (h, st) in
    (h, counted (λ i, t (S i)) h st window).

(** The status and, when it is 200, the window in seconds and the components. *)
Definition StatusServeHTTP (t : nat → nat → Time) h (p : option Principal) : StatusHandler * (Z * option (Z * list componentStatus)) :=
  match p with
  | None => (h, (401%Z, None))
  | Some p =>
      if negb (isPlatformAdmin p) then (h, (403%Z, None))
      else
        let window := (15 * Minute)%Z in
        let '(h, c1) := checkComponent (t 0%nat) h "postgres" "postgresql" "" h.(sh_postgres) window in
        let '(h, c2) := checkComponent (t 1%nat) h "redis" "redis" "" h.(sh_redis) window in
        let '(h, c3) := checkComponent (t 2%nat) h "s3" "s3" "" h.(sh_s3) window in
        let '(h, c4) := checkLLM (t 3%nat) h "summarization" h.(sh_Summarization) window in
        let '(h, c5) := checkLLM (t 4%nat) h "embedding" h.(sh_Embedding) window in
        (h, (200%Z, Some (900%Z, [c1; c2; c3; c4; c5])))
  end.
End Status.
