(* ===== verification/StatusProps.v ===== *)
(** What the status page shows. *)
From S2P Require Import Prelude GoStrings Models Usage Config Kinds DataPlane HttpAdmin Status.
From Stdlib Require Import Ascii Floats.SpecFloat.

Lemma statusColor_meaning available errors :
  (statusColor available errors = "red" ↔ available = false)
  ∧ (statusColor available errors = "green" ↔ available = true ∧ (errors <= 0)%Z).
Proof.
  unfold statusColor. destruct available; cbn [negb]; [|naive_solver].
  destruct (Z.ltb_spec 0 errors); cbn [andb]; [destruct (Z.leb_spec errors 3)|]; destruct (Z.ltb_spec 3 errors); split; naive_solver (lia || done).
Qed.

Section Page.
Context `{RedisRange, GoRange} (ParseFloat : string → option float64).
Context (unicode_lower unicode_fold : Z → Z) (url_parse : string → option (string * string)) (dial : string → option error).
Implicit Types (h : StatusHandler).

(** Errors are counted in memory, and a counter can be added. *)
Definition counting (u : Service) (name : string) : Prop :=
  u.(u_redis) = None ∧ name ≠ "" ∧ let key := counterKey "syna_status_errors_total" {[ "component" := name ]} in
  (is_Some (u.(u_counters) !! key) ∨ (Z.of_nat (size u.(u_counters)) < maxCounterSeries)%Z) ∧ wrap64 (get0 u.(u_counters) key + 1) = (get0 u.(u_counters) key + 1)%Z.

Lemma recorded_counts t t' u name window : counting u name →
  StatusErrorCount ParseFloat t (RecordStatusError t' u name) name window = (StatusErrorCount ParseFloat t u name window + 1)%Z.
Proof.
  intros (Hr & Hn & Hroom & Hw). apply String.eqb_neq in Hn. unfold StatusErrorCount, RecordStatusError. rewrite Hn, Hr. cbn. rewrite Hr.
  unfold bumpCounter. replace (bool_decide _ && _) with false.
  - by rewrite get0_insert, decide_True, Hw.
  - symmetry. apply andb_false_iff. destruct Hroom as [[v Hv]|Hroom]; [left; rewrite bool_decide_eq_false, Hv; done|right; by apply Z.leb_gt].
Qed.

Definition is_up (p : option (option error)) : bool := match p with Some None => true | _ => false end.

(** What is shown of one component that was checked. *)
Record shown (before : StatusHandler) (up : bool) (st : componentStatus) (after : StatusHandler) : Prop := {
  sw_up : st.(st_Available) = up;
  sw_red : st.(st_Color) = "red" ↔ up = false;
  sw_green : st.(st_Color) = "green" ↔ up = true ∧ (st.(st_ErrorCount) <= 0)%Z;
  sw_quiet : up = true → after = before
}.

Lemma counted_shown t h h0 st up window : st.(st_Available) = up → (up = true → h = h0) → shown h0 up (counted ParseFloat t h st window) h.
Proof.
  intros <- Hq. unfold counted. split; cbn; [by destruct (sh_usage h)| | |done]; destruct (sh_usage h); cbn; apply statusColor_meaning.
Qed.

Lemma checkComponent_shown t h name kind role p window :
  let '(h', st) := checkComponent ParseFloat t h name kind role p window in
  shown h (is_up p) st h' ∧ st.(st_Name) = name
  ∧ (∀ err u, p = Some (Some err) → h.(sh_usage) = Some u → counting u name →
       st.(st_ErrorCount) = (StatusErrorCount ParseFloat (λ i, t (S i)) u name window + 1)%Z).
Proof.
  unfold checkComponent. destruct p as [[err|]|]; (split_and!; [by apply counted_shown|by unfold counted; cbn; destruct (sh_usage h)|]); [|done..].
  intros err' u _ Hu Hc. unfold counted. cbn. rewrite Hu. cbn. by apply recorded_counts.
Qed.

(** Whether a model answers: the built-in ones always do. *)
Definition llm_up (cfg : ModelConfig) : bool :=
  let provider := TrimSpace (ToLower unicode_lower cfg.(ModelConfig_Provider)) in
  (provider =s "") || (provider =s "simple") || (pingURLHost unicode_fold url_parse dial cfg.(ModelConfig_API)).1.

Lemma checkLLM_shown t h role cfg window :
  let '(h', st) := checkLLM ParseFloat unicode_lower unicode_fold url_parse dial t h role cfg window in
  shown h (llm_up cfg) st h' ∧ st.(st_Name) = "llm_" +:+ role.
Proof.
  unfold checkLLM, llm_up. destruct (_ || _); cbn [orb]; [split; [split; cbn; naive_solver lia|done]|].
  destruct (pingURLHost _ _ _ _) as [up msg]. destruct (negb up && (msg <>s "")) eqn:Hm; cbn [fst];
    (split; [|by unfold counted; cbn; destruct (sh_usage h)]); apply (counted_shown _ _ h); cbn; try done. by intros ->.
Qed.

(** The configuration of the page is not changed by showing it. *)
Lemma checks_keep t h name kind role p window :
  let h' := (checkComponent ParseFloat t h name kind role p window).1 in
  h'.(sh_redis) = h.(sh_redis) ∧ h'.(sh_s3) = h.(sh_s3) ∧ h'.(sh_Summarization) = h.(sh_Summarization) ∧ h'.(sh_Embedding) = h.(sh_Embedding).
Proof. unfold checkComponent. by destruct p as [[]|]. Qed.

(** The page is for platform administrators, and for all others nothing is
    checked or recorded. It shows the five dependencies, each red exactly when
    it does not answer and green exactly when it does and no error is counted;
    checking one that answers records nothing. *)
Theorem status_page t h p :
  let run := StatusServeHTTP ParseFloat unicode_lower unicode_fold url_parse dial t h p in
  if match p with Some p => isPlatformAdmin p | None => false end then
    ∃ h1 h2 h3 h4 h5 c1 c2 c3 c4 c5, run = (h5, (200%Z, Some (900%Z, [c1; c2; c3; c4; c5])))
      ∧ st_Name <$> [c1; c2; c3; c4; c5] = ["postgres"; "redis"; "s3"; "llm_summarization"; "llm_embedding"]
      ∧ shown h (is_up h.(sh_postgres)) c1 h1 ∧ shown h1 (is_up h.(sh_redis)) c2 h2 ∧ shown h2 (is_up h.(sh_s3)) c3 h3
      ∧ shown h3 (llm_up h.(sh_Summarization)) c4 h4 ∧ shown h4 (llm_up h.(sh_Embedding)) c5 h5
  else ∃ status, run = (h, (status, None)) ∧ (400 <= status)%Z.
Proof.
  unfold StatusServeHTTP. destruct p as [p|]; [|by eexists]. destruct (isPlatformAdmin p); cbn [negb]; [|by eexists].
  assert (Hllm : ∀ t h role cfg window, (checkLLM ParseFloat unicode_lower unicode_fold url_parse dial t h role cfg window).1.(sh_Embedding) = h.(sh_Embedding)).
  { intros. unfold checkLLM. destruct (_ || _); [done|]. destruct (pingURLHost _ _ _ _). by destruct (_ && _). }
  pose proof (checkComponent_shown (t 0) h "postgres" "postgresql" "" h.(sh_postgres) (15 * Minute)) as S1.
  pose proof (checks_keep (t 0) h "postgres" "postgresql" "" h.(sh_postgres) (15 * Minute)) as K1.
  destruct (checkComponent _ (t 0) _ _ _ _ _ _) as [h1 c1]. cbn in K1. destruct K1 as (Kr & Ks & Km & Ke). rewrite Kr.
  pose proof (checkComponent_shown (t 1) h1 "redis" "redis" "" h.(sh_redis) (15 * Minute)) as S2.
  pose proof (checks_keep (t 1) h1 "redis" "redis" "" h.(sh_redis) (15 * Minute)) as K2.
  destruct (checkComponent _ (t 1) _ _ _ _ _ _) as [h2 c2]. cbn in K2. destruct K2 as (_ & Ks2 & Km2 & Ke2). rewrite Ks2, Ks.
  pose proof (checkComponent_shown (t 2) h2 "s3" "s3" "" h.(sh_s3) (15 * Minute)) as S3.
  pose proof (checks_keep (t 2) h2 "s3" "s3" "" h.(sh_s3) (15 * Minute)) as K3.
  destruct (checkComponent _ (t 2) _ _ _ _ _ _) as [h3 c3]. cbn in K3. destruct K3 as (_ & _ & Km3 & Ke3). rewrite Km3, Km2, Km.
  pose proof (checkLLM_shown (t 3) h3 "summarization" h.(sh_Summarization) (15 * Minute)) as S4.
  pose proof (Hllm (t 3) h3 "summarization" h.(sh_Summarization) (15 * Minute)%Z) as K4.
  destruct (checkLLM _ _ _ _ _ (t 3) _ _ _ _) as [h4 c4]. cbn in K4. rewrite K4, Ke3, Ke2, Ke.
  pose proof (checkLLM_shown (t 4) h4 "embedding" h.(sh_Embedding) (15 * Minute)) as S5.
  destruct (checkLLM _ _ _ _ _ (t 4) _ _ _ _) as [h5 c5].
  destruct S1 as (? & N1 & _), S2 as (? & N2 & _), S3 as (? & N3 & _), S4 as (? & N4), S5 as (? & N5).
  exists h1, h2, h3, h4, h5, c1, c2, c3, c4, c5. split_and!; [done| |done..]. cbn. by rewrite N1, N2, N3, N4, N5.
Qed.
End Page.
