(* ===== verification/Rabbit.v ===== *)
(** [internal/queue/rabbitmq.go]: the queue over RabbitMQ. The broker and its
    client library are the class [AMQPBroker]; what RabbitMQ documents of queues is
    [broker_law]. *)
From S2P Require Import Prelude GoStrings Models Kinds.

(** The calls the code makes. [br_closed]: the connection that was dialled is
    closed; [br_close] closes a channel; the error of [br_nack] is dropped. *)
Class AMQPBroker := {
  BR : Type;
  br_closed : BR → bool;
  br_dial : string → BR → BR * option error;
  br_channel : BR → BR * option error;
  br_close : BR → BR;
  br_declare : string → BR → BR * ret Z;
  br_publish : string → string → BR → BR * option error;
  br_get : string → bool → BR → BR * ret (option (Z * string));
  br_nack : Z → BR → BR
}.

Section Client.
Context `{AMQPBroker}.

(** [rc_conn]: a connection was dialled. *)
Record RabbitClient := mkRabbitClient { rc_url : string; rc_conn : bool; rc_broker : BR }.
#[export] Instance settable_RabbitClient : Settable RabbitClient := λ c, mkRabbitClient c.(rc_url) c.(rc_conn) c.(rc_broker).
Implicit Types (c : RabbitClient).

Definition NewRabbitClient (b : BR) (url : string) : option RabbitClient := if url =s "" then None else Some (mkRabbitClient url false b).

Definition connect c : RabbitClient * option error :=
  if c.(rc_conn) && negb (br_closed c.(rc_broker)) then (c, None)
  else match br_dial c.(rc_url) c.(rc_broker) with
  | (b, Some err) => (c <| rc_broker := b |>, Some err)
  | (b, None) => (c <| rc_broker := b |> <| rc_conn := true |>, None)
  end.

(** A channel with the queue declared, for [body], closed at the end. *)
Definition with_queue {A} (zero : A) c (queueName : string) (body : Z → BR → BR * ret A) : RabbitClient * ret A :=
  match connect c with
  | (c, Some err) => (c, fails zero err)
  | (c, None) =>
      match br_channel c.(rc_broker) with
      | (b, Some err) => (c <| rc_broker := b |>, fails zero err)
      | (b, None) =>
          match br_declare queueName b with
          | (b, (_, Some err)) => (c <| rc_broker := br_close b |>, fails zero err)
          | (b, (messages, None)) => let '(b, r) := body messages b in (c <| rc_broker := br_close b |>, r)
          end
      end
  end.

Definition RabbitEnqueue c (queueName payload : string) : RabbitClient * option error :=
  let '(c, (_, err)) := with_queue tt c queueName (λ _ b, let '(b, err) := br_publish queueName payload b in (b, (tt, err))) in (c, err).

Definition RabbitDequeue c (queueName : string) : RabbitClient * ret (option string) :=
  with_queue None c queueName (λ _ b,
    match br_get queueName true b with
    | (b, (_, Some err)) => (b, fails None err)
    | (b, (None, None)) => (b, ok None)
    | (b, (Some (_, msg), None)) => (b, ok (Some msg))
    end).

Definition RabbitPeek c (queueName : string) : RabbitClient * ret (option string) :=
  with_queue None c queueName (λ _ b,
    match br_get queueName false b with
    | (b, (_, Some err)) => (b, fails None err)
    | (b, (None, None)) => (b, ok None)
    | (b, (Some (tag, msg), None)) => (br_nack tag b, ok (Some msg))
    end).

Definition RabbitSize c (queueName : string) : RabbitClient * ret Z := with_queue 0%Z c queueName (λ messages b, (b, ok messages)).

Definition RabbitString c : string := "rabbitmq(" +:+ c.(rc_url) +:+ ")".

#[export] Instance RabbitClient_AMQP : AMQP RabbitClient := {|
  q_Enqueue := RabbitEnqueue; q_Dequeue := RabbitDequeue; q_Peek := RabbitPeek; q_Size := RabbitSize
|}.

(** ** Queues *)

(** What RabbitMQ documents: messages leave a queue in the order they came, a
    message that is refused with requeueing gets its place back, and
    declaring a queue that is there answers its length. *)
Record broker_law (contents : BR → string → list string) : Prop := {
  bl_dial url b q : contents (br_dial url b).1 q = contents b q;
  bl_channel b q : contents (br_channel b).1 q = contents b q;
  bl_close b q : contents (br_close b) q = contents b q;
  bl_declare name b q : contents (br_declare name b).1 q = contents b q;
  bl_length name b b' n : br_declare name b = (b', ok n) → n = Z.of_nat (length (contents b name));
  bl_publish name p b b' err q : br_publish name p b = (b', err) →
    contents b' q = if decide (q = name ∧ err = None) then contents b q ++ [p] else contents b q;
  bl_get name ack b b' r q : br_get name ack b = (b', r) →
    match r with
    | (Some (_, msg), None) => contents b q = if decide (q = name) then msg :: contents b' q else contents b' q
    | (None, None) => contents b' q = contents b q ∧ contents b name = []
    | (_, Some _) => contents b' q = contents b q
    end;
  bl_nack name b b' tag msg q : br_get name false b = (b', ok (Some (tag, msg))) → contents (br_nack tag b') q = contents b q
}.

Section Law.
Context (contents : BR → string → list string) (Hlaw : broker_law contents).
#[local] Instance error_eq_none (err : option error) : Decision (err = None) := option_eq_None_dec err.

(** The messages of a client. *)
Definition rabbit_waiting c (q : string) : list string := contents c.(rc_broker) q.

Lemma connect_waiting c q : rabbit_waiting (connect c).1 q = rabbit_waiting c q.
Proof.
  unfold connect, rabbit_waiting. destruct (_ && _); [done|]. pose proof (bl_dial _ Hlaw (rc_url c) (rc_broker c) q) as Hd.
  by destruct (br_dial _ _) as [b [err|]].
Qed.

(** The body runs where the queues are as the client had them, or not at all. *)
Lemma with_queue_waiting {A} (zero : A) c name body : 
  (∃ err, (with_queue zero c name body).2 = fails zero err ∧ ∀ q, rabbit_waiting (with_queue zero c name body).1 q = rabbit_waiting c q)
  ∨ ∃ b n, (∀ q, contents b q = rabbit_waiting c q) ∧ n = Z.of_nat (length (rabbit_waiting c name))
      ∧ (with_queue zero c name body).2 = (body n b).2 ∧ ∀ q, rabbit_waiting (with_queue zero c name body).1 q = contents (body n b).1 q.
Proof.
  unfold with_queue. pose proof (connect_waiting c) as Hc. destruct (connect c) as [c1 [err|]]; cbn in Hc; [left; by exists err|].
  pose proof (bl_channel _ Hlaw (rc_broker c1)) as Hch. destruct (br_channel (rc_broker c1)) as [b1 [err|]]; cbn in Hch.
  { left. exists err. split; [done|]. intros q. unfold rabbit_waiting. cbn. rewrite Hch. apply Hc. }
  pose proof (bl_declare _ Hlaw name b1) as Hd. destruct (br_declare name b1) as [b2 [n [err|]]] eqn:Hdecl; cbn in Hd.
  { left. exists err. split; [done|]. intros q. unfold rabbit_waiting. cbn. rewrite (bl_close _ Hlaw), Hd, Hch. apply Hc. }
  right. exists b2, n. destruct (body n b2) as [b3 r] eqn:Hb. split_and!; [|
    rewrite (bl_length _ Hlaw _ _ _ _ Hdecl), Hch; by rewrite <- (Hc name)|done|].
  - intros q. rewrite Hd, Hch. apply Hc.
  - intros q. unfold rabbit_waiting. cbn. apply (bl_close _ Hlaw).
Qed.

Lemma enqueue_waiting c name p q : rabbit_waiting (RabbitEnqueue c name p).1 q =
  if decide (q = name ∧ (RabbitEnqueue c name p).2 = None) then rabbit_waiting c q ++ [p] else rabbit_waiting c q.
Proof.
  unfold RabbitEnqueue. set (body := λ _ b, _).
  destruct (with_queue_waiting tt c name body) as [(err & Hr & Hq)|(b & n & Hb & _ & Hr & Hq)];
    specialize (Hq q); destruct (with_queue tt c name body) as [c1 [u e1]]; cbn in Hr, Hq |- *.
  - injection Hr as _ ->. rewrite decide_False by (by intros [_ ?]). done.
  - revert Hr Hq. unfold body. destruct (br_publish name p b) as [b' err'] eqn:Hp. cbn. intros [= _ ->] ->.
    rewrite (bl_publish _ Hlaw _ _ _ _ _ q Hp). by rewrite Hb.
Qed.

Lemma dequeue_waiting c name :
  match (RabbitDequeue c name).2 with
  | (Some msg, None) => ∀ q, rabbit_waiting c q = if decide (q = name) then msg :: rabbit_waiting (RabbitDequeue c name).1 q else rabbit_waiting (RabbitDequeue c name).1 q
  | (None, None) => rabbit_waiting c name = [] ∧ ∀ q, rabbit_waiting (RabbitDequeue c name).1 q = rabbit_waiting c q
  | (_, Some _) => ∀ q, rabbit_waiting (RabbitDequeue c name).1 q = rabbit_waiting c q
  end.
Proof.
  unfold RabbitDequeue. set (body := λ _ b, _).
  destruct (with_queue_waiting None c name body) as [(err & -> & Hq)|(b & n & Hb & _ & -> & Hq)]; [done|].
  revert Hq. unfold body. destruct (br_get name true b) as [b' r] eqn:Hg. intros Hq. pose proof (λ q, bl_get _ Hlaw _ _ _ _ _ q Hg) as Hl.
  destruct r as [[[tag msg]|] [err|]]; cbn in *; try (by intros q; rewrite Hq, Hl).
  - intros q. rewrite <- Hb, Hl. case_decide; by rewrite Hq.
  - split; [rewrite <- Hb; by destruct (Hl name)|]. intros q. rewrite Hq, <- Hb. by destruct (Hl q).
Qed.

Lemma peek_waiting c name :
  (∀ q, rabbit_waiting (RabbitPeek c name).1 q = rabbit_waiting c q) ∧ ∀ r, (RabbitPeek c name).2 = ok r → r = head (rabbit_waiting c name).
Proof.
  unfold RabbitPeek. set (body := λ _ b, _).
  destruct (with_queue_waiting None c name body) as [(err & -> & Hq)|(b & n & Hb & _ & -> & Hq)]; [done|].
  revert Hq. unfold body. destruct (br_get name false b) as [b' r] eqn:Hg. intros Hq. pose proof (λ q, bl_get _ Hlaw _ _ _ _ _ q Hg) as Hl.
  destruct r as [[[tag msg]|] [err|]]; cbn in *; (split; [|try done; intros r [= <-]]); try (by intros q; rewrite Hq, Hl).
  - intros q. by rewrite Hq, (bl_nack _ Hlaw _ _ _ _ _ q Hg).
  - specialize (Hl name). rewrite decide_True in Hl by done. rewrite <- Hb, Hl. done.
  - intros q. rewrite Hq, <- Hb. by destruct (Hl q).
  - destruct (Hl name) as [_ He]. by rewrite <- Hb, He.
Qed.

Lemma size_waiting c name :
  (∀ q, rabbit_waiting (RabbitSize c name).1 q = rabbit_waiting c q) ∧ ∀ n, (RabbitSize c name).2 = ok n → n = Z.of_nat (length (rabbit_waiting c name)).
Proof.
  unfold RabbitSize. set (body := λ _ b, _).
  destruct (with_queue_waiting 0%Z c name body) as [(err & -> & Hq)|(b & n & Hb & -> & -> & Hq)]; [done|].
  split; [intros q; rewrite Hq; apply Hb|]. by intros n [= <-].
Qed.

(** The client is a queue for the service above it: what is enqueued without
    an error waits last, a dequeue gives the first and removes it, a peek gives
    the first and leaves it, the size is the number that wait, other queues are
    not touched, and a call that fails changes nothing that waits. *)
Theorem rabbit_is_queue c name p :
  (∀ q, rabbit_waiting (q_Enqueue c name p).1 q =
     if decide (q = name ∧ (q_Enqueue c name p).2 = None) then rabbit_waiting c q ++ [p] else rabbit_waiting c q)
  ∧ (match (q_Dequeue c name).2 with
     | (Some msg, None) => ∀ q, rabbit_waiting c q = if decide (q = name) then msg :: rabbit_waiting (q_Dequeue c name).1 q else rabbit_waiting (q_Dequeue c name).1 q
     | (None, None) => rabbit_waiting c name = [] ∧ ∀ q, rabbit_waiting (q_Dequeue c name).1 q = rabbit_waiting c q
     | (_, Some _) => ∀ q, rabbit_waiting (q_Dequeue c name).1 q = rabbit_waiting c q
     end)
  ∧ (∀ q, rabbit_waiting (q_Peek c name).1 q = rabbit_waiting c q) ∧ (∀ r, (q_Peek c name).2 = ok r → r = head (rabbit_waiting c name))
  ∧ (∀ q, rabbit_waiting (q_Size c name).1 q = rabbit_waiting c q) ∧ ∀ n, (q_Size c name).2 = ok n → n = Z.of_nat (length (rabbit_waiting c name)).
Proof.
  split; [intros q; apply enqueue_waiting|]. split; [apply dequeue_waiting|]. destruct (peek_waiting c name), (size_waiting c name). done.
Qed.
End Law.
End Client.
