(* ===== verification/Front.v ===== *)
(** The front of the server, from [cmd/server/main.go]: the check of origins
    and the headers of every response, in front of all routes and behind the
    middleware of [Observability], and the list of capabilities.

    [url.Parse] and [net.ParseIP] are parameters. *)
From S2P Require Import Prelude GoStrings GoNet Models Auth Config SecureBus Observability.
From Stdlib Require Import Ascii.

Definition isWebRoute (path : string) : bool :=
  (path =s "/") || (path =s "/login") || (path =s "/logout") || (path =s "/register") || (path =s "/authorize") || (path =s "/token")
  || HasPrefix path "/app" || HasPrefix path "/admin" || HasPrefix path "/oauth" || HasPrefix path "/.well-known/" || HasPrefix path "/git/".

Definition isMCPRoute (path : string) : bool :=
  (path =s "/mcp") || HasPrefix path "/mcp/" || (path =s "/sse") || (path =s "/messages") || HasPrefix path "/messages/".

Definition splitHostPort (value : string) : string * string :=
  match SplitHostPort value with (hp, None) => hp | (_, Some _) => (value, "") end.

Definition sameHost (a b : string) : bool :=
  let '(aHost, aPort) := splitHostPort a in
  let '(bHost, bPort) := splitHostPort b in
  (aHost <>s "") && (aHost =s bHost) && (aPort =s bPort).

(** What a handler does, and how it ends. *)
Definition handled : Type := list writer_call * option (string * string).

Section Front.
Context (url_parse : string → option URL) (ParseIP : string → option IP).

Definition isLoopbackHost (host : string) : bool :=
  (host =s "localhost") || match ParseIP host with Some ip => IsLoopback ip | None => false end.

Definition isAllowedOrigin (origin host : string) (allowlist : list string) : bool :=
  if origin =s "" then true
  else if (origin =s "http://" +:+ host) || (origin =s "https://" +:+ host) then true
  else if match url_parse origin with Some u => sameHost u.(URL_Host) host || isLoopbackHost u.(URL_Hostname) | None => false end then true
  else existsb (λ allowed, (allowed =s "*") || (allowed =s origin)) allowlist.

Definition errorCalls (text : string) (status : Z) : list writer_call :=
  [HDel "Content-Length"; HSet "Content-Type" "text/plain; charset=utf-8"; HSet "X-Content-Type-Options" "nosniff"; HStatus status;
   HWrite (text +:+ String "010"%char "")].

Definition frontHeaders (origin : string) : list writer_call :=
  (if origin <>s "" then [HSet "Access-Control-Allow-Origin" origin; HSet "Vary" "Origin"] else [])
  ++ [HSet "Access-Control-Allow-Headers" "Authorization, Content-Type, Mcp-Session-Id, MCP-Protocol-Version";
      HSet "Access-Control-Expose-Headers" "Mcp-Session-Id, MCP-Protocol-Version, WWW-Authenticate";
      HSet "X-Content-Type-Options" "nosniff"; HSet "X-Frame-Options" "DENY"; HSet "Referrer-Policy" "no-referrer"].

(** [next]: what the routes behind do with the request. *)
Definition withMiddlewares (cfg : Config) (r : HttpRequest) (origin host : string) (next : handled) : handled :=
  if negb (isWebRoute r.(hr_Path)) && negb (isMCPRoute r.(hr_Path)) && negb (isAllowedOrigin origin host cfg.(Config_API).(APIConfig_AllowedOrigins))
  then (errorCalls "origin not allowed" 403, None)
  else if r.(hr_Method) =s "OPTIONS" then (frontHeaders origin ++ [HStatus 204], None)
  else (frontHeaders origin ++ next.1, next.2).

Definition buildAuthMethods (cfg : Config) : list string :=
  (Provider_Name <$> cfg.(Config_OAuth).(Config.OAuthConfig_Providers))
  ++ (if cfg.(Config_Teleport).(Teleport_Enabled) then ["teleport_proxy"] else [])
  ++ (if cfg.(Config_OAuthAS).(OAuthASConfig_Enabled) then ["oauth_as"] else []).

Definition mainCapabilities (cfg : Config) : Any :=
  AObject [("transports", AObject [("streamable_http", ABool cfg.(Config_Transport).(TransportConfig_StreamableHTTP));
                                   ("legacy_sse", ABool cfg.(Config_Transport).(TransportConfig_LegacySSE))]);
           ("auth_methods", AArray (AString <$> buildAuthMethods cfg));
           ("securebus", AObject [("policy_schema", AString PolicySchemaID); ("jwks", AString "/.well-known/synamcps-keys")])].

(** The providers [warnInsecureJWKS] names. *)
Definition warnInsecureJWKS (cfg : Config) : list string :=
  if negb cfg.(Config_Server).(ServerConfig_DevMode) then []
  else Provider_Name <$> List.filter (λ p, p.(Provider_JWKSURL) =s "insecure") cfg.(Config_OAuth).(Config.OAuthConfig_Providers).
End Front.
