(* ===== verification/FrontProps.v ===== *)
(** Who passes the front of the server, and what every response carries. *)
From S2P Require Import Prelude GoStrings GoNet Models Auth Config Observability ObservabilityProps Front.
From Stdlib Require Import Ascii.

(** ** Headers *)

Definition leaves (k : string) (c : writer_call) : Prop :=
  match c with HSet k' _ | HDel k' => headerKey k' ≠ headerKey k | _ => True end.

Lemma header_kept k calls : ∀ w, Forall (leaves k) calls → header_Get (foldl rw_call w calls) k = header_Get w k.
Proof.
  induction calls as [|c calls IH]; intros w Hl; [done|]. apply Forall_cons in Hl as [Hc Hl]. cbn [foldl]. rewrite IH by done.
  unfold header_Get. destruct c as [k' v|k'|status|p]; cbn in *.
  - by rewrite get0_insert, decide_False by congruence.
  - unfold get0. by rewrite lookup_delete_ne.
  - unfold rw_WriteHeader. by repeat case_match.
  - unfold rw_Write, rw_WriteHeader. by repeat (case_match; cbn).
Qed.

Section Front.
Context (url_parse : string → option URL) (ParseIP : string → option IP).
Context (unicode_lower : Z → Z) (json_parse : string → option Any) (json_marshal : Any → option string) `{NetURL} {U : Type}.

(** ** Origins *)

(** A browser page of this origin may call: one of the server itself, of the
    machine of the user, or one that is listed. *)
Definition origin_allowed (origin host : string) (allowlist : list string) : Prop :=
  origin = "" ∨ origin = "http://" +:+ host ∨ origin = "https://" +:+ host
  ∨ (∃ u, url_parse origin = Some u ∧ ((splitHostPort u.(URL_Host) = splitHostPort host ∧ (splitHostPort host).1 ≠ "")
                                        ∨ u.(URL_Hostname) = "localhost" ∨ ∃ ip, ParseIP u.(URL_Hostname) = Some ip ∧ IsLoopback ip = true))
  ∨ "*" ∈ allowlist ∨ origin ∈ allowlist.

Lemma sameHost_spec a b : sameHost a b = true ↔ splitHostPort a = splitHostPort b ∧ (splitHostPort b).1 ≠ "".
Proof.
  unfold sameHost. destruct (splitHostPort a) as [ah ap], (splitHostPort b) as [bh bp].
  rewrite !andb_true_iff, negb_true_iff, String.eqb_neq, !String.eqb_eq. cbn. naive_solver.
Qed.
Lemma isLoopbackHost_spec host : isLoopbackHost ParseIP host = true ↔ host = "localhost" ∨ ∃ ip, ParseIP host = Some ip ∧ IsLoopback ip = true.
Proof. unfold isLoopbackHost. rewrite orb_true_iff, String.eqb_eq. destruct (ParseIP host); naive_solver. Qed.

Lemma isAllowedOrigin_spec origin host allowlist : isAllowedOrigin url_parse ParseIP origin host allowlist = true ↔ origin_allowed origin host allowlist.
Proof.
  assert (Hu : match url_parse origin with Some u => sameHost u.(URL_Host) host || isLoopbackHost ParseIP u.(URL_Hostname) | None => false end = true
    ↔ ∃ u, url_parse origin = Some u ∧ ((splitHostPort u.(URL_Host) = splitHostPort host ∧ (splitHostPort host).1 ≠ "")
        ∨ u.(URL_Hostname) = "localhost" ∨ ∃ ip, ParseIP u.(URL_Hostname) = Some ip ∧ IsLoopback ip = true)).
  { destruct (url_parse origin) as [u|]; [|naive_solver]. rewrite orb_true_iff, sameHost_spec, isLoopbackHost_spec. naive_solver. }
  assert (Hl : existsb (λ allowed, (allowed =s "*") || (allowed =s origin)) allowlist = true ↔ "*" ∈ allowlist ∨ origin ∈ allowlist).
  { rewrite existsb_exists. setoid_rewrite orb_true_iff. setoid_rewrite String.eqb_eq. setoid_rewrite <- list_elem_of_In. naive_solver. }
  unfold isAllowedOrigin, origin_allowed. rewrite <- Hu, <- Hl. destruct (String.eqb_spec origin ""); [naive_solver|].
  destruct (String.eqb_spec origin ("http://" +:+ host)); cbn [orb]; [naive_solver|]. destruct (String.eqb_spec origin ("https://" +:+ host)); [naive_solver|].
  destruct (match url_parse origin with Some _ => _ | None => _ end); naive_solver.
Qed.

(** ** Responses *)

Lemma metrics_response e m r calls panicked w :
  (MetricsMiddleware unicode_lower json_parse json_marshal (U := U) e m r calls panicked w).1.2
  = foldl rw_call (header_Set "X-Request-Id" (uuid e 0) w) (calls ++ if panicked then errorCalls "internal server error" 500 else []).
Proof.
  rewrite foldl_app. unfold MetricsMiddleware. pose proof (recorder_transparent calls (newRecorder (shouldCaptureResponse (hr_Path r)) (header_Set "X-Request-Id" (uuid e 0) w))) as Hw.
  cbn [sr_w newRecorder] in Hw. rewrite <- Hw. by destruct panicked as [[what stack]|].
Qed.

Lemma front_frame e origin :
  header_Get (foldl rw_call (header_Set "X-Request-Id" (uuid e 0) (mkResponse ∅ None "")) (frontHeaders origin)) "X-Frame-Options" = "DENY".
Proof. unfold frontHeaders. by destruct (origin <>s ""). Qed.
Lemma front_nosniff e origin :
  header_Get (foldl rw_call (header_Set "X-Request-Id" (uuid e 0) (mkResponse ∅ None "")) (frontHeaders origin)) "X-Content-Type-Options" = "nosniff".
Proof. unfold frontHeaders. by destruct (origin <>s ""). Qed.
Lemma front_origin e origin :
  header_Get (foldl rw_call (header_Set "X-Request-Id" (uuid e 0) (mkResponse ∅ None "")) (frontHeaders origin)) "Access-Control-Allow-Origin" = origin.
Proof. unfold frontHeaders. by destruct (String.eqb_spec origin "") as [->|]. Qed.
Lemma error_nosniff (panicked : option (string * string)) text w : header_Get w "X-Content-Type-Options" = "nosniff" →
  header_Get (foldl rw_call w (if panicked then errorCalls text 500 else [])) "X-Content-Type-Options" = "nosniff".
Proof.
  intros Hw. destruct panicked; [|done]. cbn [errorCalls foldl rw_call]. set (w' := header_Set "X-Content-Type-Options" _ _).
  change (header_Get (foldl rw_call w' [HStatus 500; HWrite (text +:+ String "010"%char "")]) "X-Content-Type-Options" = "nosniff").
  rewrite header_kept by (by repeat constructor). unfold header_Get, w', header_Set. cbn -[headerKey]. by rewrite get0_insert, decide_True.
Qed.

Abbreviation served cfg e m r origin host next :=
  (let '(calls, panicked) := withMiddlewares url_parse ParseIP cfg r origin host next in
   (MetricsMiddleware unicode_lower json_parse json_marshal (U := U) e m r calls panicked (mkResponse ∅ None "")).1.2).

(** Pages of foreign origins reach only the pages, the login routes and the
    MCP transports: elsewhere their requests are answered with 403 before any
    handler runs. Of the requests that pass, preflights are answered at the
    front; for all others the handler runs, and what it answers cannot be
    framed, is not sniffed, and names no other origin than the one that
    asked, unless the handler says so itself. *)
Theorem foreign_origins_refused cfg e m r origin host next :
  let web := isWebRoute r.(hr_Path) || isMCPRoute r.(hr_Path) in
  let allowed := origin_allowed origin host cfg.(Config_API).(APIConfig_AllowedOrigins) in
  let w := served cfg e m r origin host next in
  (web = false → ¬ allowed →
     fst <$> w.(rw_sent) = Some 403%Z ∧ w.(rw_body) = "origin not allowed" +:+ String "010"%char ""
     ∧ withMiddlewares url_parse ParseIP cfg r origin host next = (errorCalls "origin not allowed" 403, None))
  ∧ (web = true ∨ allowed →
     (r.(hr_Method) = "OPTIONS" → fst <$> w.(rw_sent) = Some 204%Z ∧ w.(rw_body) = "")
     ∧ (r.(hr_Method) ≠ "OPTIONS" → withMiddlewares url_parse ParseIP cfg r origin host next = (frontHeaders origin ++ next.1, next.2)
        ∧ (Forall (leaves "X-Frame-Options") next.1 → header_Get w "X-Frame-Options" = "DENY")
        ∧ (Forall (leaves "X-Content-Type-Options") next.1 → header_Get w "X-Content-Type-Options" = "nosniff")
        ∧ (Forall (leaves "Access-Control-Allow-Origin") next.1 → header_Get w "Access-Control-Allow-Origin" = origin))).
Proof.
  intros web allowed w. split.
  - intros Hweb Hno. apply orb_false_iff in Hweb as [Hw Hm]. unfold allowed in Hno. rewrite <- isAllowedOrigin_spec in Hno. apply not_true_is_false in Hno.
    assert (Heq : withMiddlewares url_parse ParseIP cfg r origin host next = (errorCalls "origin not allowed" 403, None))
      by (unfold withMiddlewares; by rewrite Hw, Hm, Hno).
    unfold w. rewrite Heq, metrics_response. done.
  - intros Hpass. assert (Hg : negb (isWebRoute r.(hr_Path)) && negb (isMCPRoute r.(hr_Path))
      && negb (isAllowedOrigin url_parse ParseIP origin host cfg.(Config_API).(APIConfig_AllowedOrigins)) = false).
    { destruct Hpass as [Hw|Ha]; [by unfold web in Hw; destruct (isWebRoute _), (isMCPRoute _)|].
      apply isAllowedOrigin_spec in Ha. rewrite Ha. apply andb_false_r. }
    unfold w, withMiddlewares. rewrite Hg. split.
    + intros ->. cbn [String.eqb Ascii.eqb Bool.eqb]. rewrite metrics_response. cbn [fmap app]. rewrite app_nil_r, foldl_app.
      unfold frontHeaders. by destruct (origin <>s "").
    + intros Hopt. apply String.eqb_neq in Hopt. rewrite Hopt. destruct next as [calls panicked]. rewrite metrics_response. cbn [fst snd].
      split; [done|]. rewrite <- app_assoc, foldl_app. set (w1 := foldl rw_call _ (frontHeaders origin)).
      split_and!; intros Hl; [rewrite header_kept by (apply Forall_app; split; [done|by destruct panicked; repeat constructor])| |
        rewrite header_kept by (apply Forall_app; split; [done|by destruct panicked; repeat constructor])].
      * apply front_frame.
      * rewrite foldl_app. apply error_nosniff. rewrite header_kept by done. apply front_nosniff.
      * apply front_origin.
Qed.
End Front.
